(** * monstr relay: a shallow embedding of [monstr/relay/relay.py]

    The development follows the Python class [Relay]: its constructor, the
    websocket handler, the command dispatcher [_do_request] with the three
    command handlers, the live fan-out [_check_subs] and the NIP-11 route;
    then the methods that start and stop the server, and the three routes
    for a web browser that follow the class.

    Conventions of the embedding.
    - Values decoded by [json.loads] are the inductive [json]; only integer
      numbers are represented.
    - Python dictionaries are association lists in insertion order, which is
      the iteration order of a Python dict.
    - Exceptions are the inductive [exn]; a computation is a function from
      the world to an outcome and a world (the state reached when the
      exception was raised is kept, as in Python).
    - asyncio is modelled by its ready queue: [asyncio.create_task] appends a
      task, the loop runs the oldest one, a finished task appends the
      wake-up of the coroutine awaiting it.  [ws.send_str] is one atomic
      step that either writes the frame or raises because the transport is
      closing.
    - Calls to [logging] and [print] are left out: no control flow depends on
      them. *)

From Stdlib Require Import ZArith List String Ascii Bool Lia DecimalString.
From Stdlib Require Import Sorting.Sorted.
Import ListNotations.
Open Scope string_scope.
Open Scope Z_scope.

Set Implicit Arguments.
Set Warnings "-register-all".

(** ** Python values and builtins *)

Inductive json : Type :=
| JNull
| JBool (b : bool)
| JNum (n : Z)
| JStr (s : string)
| JArr (l : list json)
| JObj (l : list (string * json)).

Inductive exn : Type :=
| NostrCommandException (msg : string)
| JSONDecodeError (msg : string)
| IntegrityError (msg : string)
| UniqueViolation (msg : string)
| TypeError
| KeyError
| IndexError
| ConnectionResetError
| Exception (msg : string).

(** [str(e)]: the message the exception was raised with.  The code reads
    it only under an [isinstance] test, of a store error (line 290) and of a
    [ValueError] in the routes; [TypeError], [KeyError] and [IndexError]
    pass neither test, and their text stands for nothing. *)
Definition exn_str (e : exn) : string :=
  match e with
  | NostrCommandException m | IntegrityError m | UniqueViolation m
  | Exception m | JSONDecodeError m => m
  | TypeError => "TypeError"
  | KeyError => "KeyError"
  | IndexError => "IndexError"
  | ConnectionResetError => "Cannot write to closing transport"
  end.

(** The parts of the Python runtime that the relay calls and that are not
    written out here: the JSON codec and [repr] of a string. *)
Class PyBuiltins : Type := {
  json_loads : string -> exn + json;
  json_dumps : json -> string;
  repr_str : string -> string
}.

Definition str_of_Z (z : Z) : string := NilZero.string_of_int (Z.to_int z).

Fixpoint join (sep : string) (l : list string) : string :=
  match l with
  | [] => EmptyString
  | [x] => x
  | x :: rest => x ++ sep ++ join sep rest
  end.

Section Repr.
Context {py : PyBuiltins}.

(** [repr(x)] for a decoded JSON value *)
Fixpoint py_repr (j : json) : string :=
  match j with
  | JNull => "None"
  | JBool true => "True"
  | JBool false => "False"
  | JNum n => str_of_Z n
  | JStr s => repr_str s
  | JArr l => "[" ++ join ", " (map py_repr l) ++ "]"
  | JObj l =>
      "{" ++ join ", " (map (fun kv => let '(k, v) := kv in
                                      repr_str k ++ ": " ++ py_repr v) l) ++ "}"
  end.

(** [str(x)], which is what ['%s' % x] inserts *)
Definition py_str (j : json) : string :=
  match j with
  | JStr s => s
  | _ => py_repr j
  end.
End Repr.

(** truth value of a decoded JSON value, as tested by [not as_json] *)
Definition py_truthy (j : json) : bool :=
  match j with
  | JNull => false
  | JBool b => b
  | JNum n => negb (n =? 0)
  | JStr s => negb (s =? EmptyString)%string
  | JArr l => match l with [] => false | _ => true end
  | JObj l => match l with [] => false | _ => true end
  end.

(** [x[0]] *)
Definition py_getitem0 (j : json) : exn + json :=
  match j with
  | JArr (x :: _) => inr x
  | JArr [] => inl IndexError
  | JStr (String c _) => inr (JStr (String c EmptyString))
  | JStr EmptyString => inl IndexError
  | JObj _ => inl KeyError
  | JNull | JBool _ | JNum _ => inl TypeError
  end.

(** [str.lower] on ASCII text *)
Definition lower_ascii (c : ascii) : ascii :=
  let n := nat_of_ascii c in
  if (Nat.leb 65 n && Nat.leb n 90)%bool then ascii_of_nat (n + 32) else c.

Fixpoint lower (s : string) : string :=
  match s with
  | EmptyString => EmptyString
  | String c s' => String (lower_ascii c) (lower s')
  end.

(** [sub in s] for strings *)
Fixpoint str_in (sub s : string) : bool :=
  (String.prefix sub s ||
   match s with
   | EmptyString => false
   | String _ s' => str_in sub s'
   end)%bool.

(** *** Dictionary keys

    A key must be hashable; equal keys are those Python's [==] identifies
    ([True == 1], [False == 0]). *)
Definition hashable (j : json) : bool :=
  match j with
  | JArr _ | JObj _ => false
  | _ => true
  end.

Definition key_eqb (a b : json) : bool :=
  match a, b with
  | JNull, JNull => true
  | JStr x, JStr y => (x =? y)%string
  | JNum x, JNum y => x =? y
  | JBool x, JBool y => Bool.eqb x y
  | JBool x, JNum y | JNum y, JBool x => (if x then 1 else 0) =? y
  | _, _ => false
  end.

(** *** Dictionaries in insertion order *)
Section Dict.
Variables K V : Type.
Variable eqb : K -> K -> bool.

Definition dict := list (K * V).

Fixpoint dict_get (d : dict) (k : K) : option V :=
  match d with
  | [] => None
  | (k', v) :: d' => if eqb k k' then Some v else dict_get d' k
  end.

Definition dict_mem (d : dict) (k : K) : bool :=
  match dict_get d k with Some _ => true | None => false end.

(** [d[k] = v]: an existing key keeps its place, a new one goes last *)
Fixpoint dict_set (d : dict) (k : K) (v : V) : dict :=
  match d with
  | [] => [(k, v)]
  | (k', v') :: d' =>
      if eqb k k' then (k', v) :: d' else (k', v') :: dict_set d' k v
  end.

(** [del d[k]] *)
Fixpoint dict_del (d : dict) (k : K) : dict :=
  match d with
  | [] => []
  | (k', v') :: d' => if eqb k k' then d' else (k', v') :: dict_del d' k
  end.
End Dict.

(** [list.sort] on integers *)
Fixpoint insert_sorted (x : Z) (l : list Z) : list Z :=
  match l with
  | [] => [x]
  | y :: l' => if x <=? y then x :: l else y :: insert_sorted x l'
  end.

Fixpoint sort (l : list Z) : list Z :=
  match l with
  | [] => []
  | x :: l' => insert_sorted x (sort l')
  end.

(** ** Collaborators of the relay

    [monstr.event.event.Event], the store behind
    [RelayEventStoreInterface], [Keys.is_key] and the accept handlers are
    used through their interfaces. *)

Class EventAPI (Event : Type) : Type := {
  Event_from_JSON : json -> exn + Event;
  Event_is_valid : Event -> bool;
  Event_kind : Event -> Z;
  Event_id : Event -> string;
  Event_test : Event -> json -> bool;
  Event_event_data : Event -> json
}.

(** Modelled from the spec: [Event.KIND_DELETE], the kind of a NIP-09
    deletion event ([e.kind == 5]). *)
Definition KIND_DELETE : Z := 5.

(** Modelled from the spec: [NostrCommandException.event_already_exists],
    whose message is "event already exists: <id>". *)
Definition event_already_exists (id : string) : exn :=
  NostrCommandException ("event already exists: " ++ id).

(** A store call returns the store it leaves behind and, when it raised,
    the exception. *)
Class RelayEventStoreInterface (Store Event : Type) : Type := {
  add_event : Store -> Event -> Store * option exn;
  do_delete : Store -> Event -> Store * option exn;
  get_filter : Store -> json -> exn + list json;
  is_NIP09 : Store -> bool;
  is_NIP16 : Store -> bool
}.

(** what the module needs from its imports: [Keys.is_key] and whether
    [psycopg2.errors] could be imported (line 14-17) *)
Class Imports : Type := {
  Keys_is_key : string -> bool;
  pg_errors : bool
}.

(** ** State of a relay *)

(** websocket ids count up from 0 *)
Definition ws_id := nat.
Bind Scope nat_scope with ws_id.

(** [{'id': sub_id, 'filter': filter}] *)
Record Sub : Type := {
  sub_id_of : json;
  filter_of : json
}.

(** [{'subs': {...}, 'ws': ws}]; the socket object is referred to by its id *)
Record Conn : Type := {
  subs : dict json Sub;
  ws : ws_id
}.

Section RelayState.
Variable Event : Type.

(** [accept_post(ws, evt)] either returns or raises *)
Definition AcceptReqHandler := ws_id -> Event -> option exn.

(** the default handler accepts everything *)
Definition AcceptReqHandler_default : AcceptReqHandler := fun _ _ => None.

Variable Store : Type.

Record Relay : Type := {
  _ws_id : ws_id;
  _ws : dict ws_id Conn;
  _store : Store;
  _max_sub : Z;
  _enable_nip15 : bool;
  _accept_req : list AcceptReqHandler;
  _relay_information : dict string json
}.
End RelayState.

Arguments AcceptReqHandler_default {Event}.

(** HTTP response as built by [aiohttp.web.Response] *)
Record Response : Type := {
  status : Z;
  content_type : string;
  charset : string;
  text : string
}.

(** [web.Response(text=t)]: with a text body and nothing else given, aiohttp
    answers 200 and labels the body text/plain in utf-8. *)
Definition web_Response (t : string) : Response :=
  {| status := 200; content_type := "text/plain"; charset := "utf-8";
     text := t |}.

(** truth value of an optional string argument ([if name:]) *)
Definition opt_truthy (o : option string) : bool :=
  match o with
  | Some s => negb (s =? EmptyString)%string
  | None => false
  end.

Definition set_if_given (info : dict string json) (k : string)
    (o : option string) : dict string json :=
  match o with
  | Some s => if opt_truthy o then dict_set String.eqb info k (JStr s) else info
  | None => info
  end.

Section Init.
Context {py : PyBuiltins} {imp : Imports}.
Context {Event Store : Type} {EA : EventAPI Event}
        {SI : RelayEventStoreInterface Store Event}.

(** what [accept_req_handler] may be: nothing, one handler, or a list *)
Definition normalise_accept
    (a : option (AcceptReqHandler Event + list (AcceptReqHandler Event)))
    : list (AcceptReqHandler Event) :=
  match a with
  | None => [AcceptReqHandler_default]
  | Some (inl h) => [h]
  | Some (inr l) => l
  end.

(** lines 103-111 *)
Definition supported_nips (store : Store) (enable_nip15 : bool) : list Z :=
  let nips := [1; 2; 11] in
  let nips := if enable_nip15 then (nips ++ [15])%list else nips in
  let nips := if is_NIP09 store then (nips ++ [9])%list else nips in
  let nips := if is_NIP16 store then (nips ++ [16])%list else nips in
  sort nips.

Definition pubkey_error (pubkey : string) : exn :=
  Exception ("given contact pubkey is not correct: " ++ pubkey).

(** [Relay.__init__] *)
Definition Relay__init__ (store : Store)
    (accept_req_handler :
       option (AcceptReqHandler Event + list (AcceptReqHandler Event)))
    (max_sub : Z) (name description pubkey contact : option string)
    (enable_nip15 : bool) : exn + Relay Event Store :=
  let accept_req := normalise_accept accept_req_handler in
  match (match pubkey with
         | Some k => if negb (Keys_is_key k) then Some k else None
         | None => None
         end) with
  | Some k => inl (pubkey_error k)
  | None =>
      let nips := supported_nips store enable_nip15 in
      let info : dict string json :=
        [("software", JStr "https://github.com/monty888/nostrpy");
         ("version", JStr "0.1");
         ("supported_nips", JArr (map JNum nips))] in
      let info := set_if_given info "name" name in
      let info := set_if_given info "description" description in
      let info := set_if_given info "contact" contact in
      let mk info :=
        {| _ws_id := 0%nat; _ws := []; _store := store;
           _max_sub := max_sub; _enable_nip15 := enable_nip15;
           _accept_req := accept_req; _relay_information := info |} in
      match pubkey with
      | Some k =>
          if Keys_is_key k then inl (pubkey_error k)
          else inr (mk (dict_set String.eqb info "pubkey" (JStr k)))
      | None => inr (mk info)
      end
  end.

(** [_NIP11_relay_info_route] *)
Definition _NIP11_relay_info_route (r : Relay Event Store) : Response :=
  web_Response (json_dumps (JObj (_relay_information r))).
End Init.

(** ** Sockets, tasks and the world *)

(** A websocket as the relay sees it: whether its transport is closing
    (every later write raises) and the text frames written to it so far. *)
Record Sock : Type := {
  closing : bool;
  wire : list string
}.

(** [_do_sub] suspended at [await task] (line 356): the socket, the
    subscription and the stored events still to be sent. *)
Inductive Cont : Type :=
| K_do_sub (ws : ws_id) (sub_id : json) (rest : list json).

(** Entries of the loop's ready queue. *)
Inductive Task : Type :=
| T_send_event (ws : ws_id) (sub_id evt : json) (waiter : option Cont)
    (** the coroutine [_send_event(ws, sub_id, evt)] wrapped by
        [asyncio.create_task], with the coroutine awaiting it, if any *)
| T_do_send (ws : ws_id) (data : json)
    (** the coroutine [_do_send(ws, data)] created at line 386 *)
| T_wakeup (k : Cont)
    (** the awaited task is done: the suspended coroutine goes on *)
| T_request (ws : ws_id) (req_str : string).
    (** the read loop of [ws] got a text frame (line 222) *)

(** A read loop either waits for the next frame or is inside [_do_request]. *)
Inductive HState : Type := Reading | Busy.

Inductive outcome (A : Type) : Type :=
| Return (a : A)
| Raise (e : exn)
| Await.

Arguments Return {A} a.
Arguments Raise {A} e.
Arguments Await {A}.

Section Model.
Context {py : PyBuiltins} {imp : Imports}.
Context {Event Store : Type} {EA : EventAPI Event}
        {SI : RelayEventStoreInterface Store Event}.

Record World : Type := {
  relay : Relay Event Store;
  socks : dict ws_id Sock;
  ready : list Task;
  handlers : dict ws_id HState
}.

Definition set_relay (r : Relay Event Store) (w : World) : World :=
  {| relay := r; socks := socks w; ready := ready w;
     handlers := handlers w |}.

Definition set_socks (s : dict ws_id Sock) (w : World) : World :=
  {| relay := relay w; socks := s; ready := ready w;
     handlers := handlers w |}.

Definition set_ready (q : list Task) (w : World) : World :=
  {| relay := relay w; socks := socks w; ready := q;
     handlers := handlers w |}.

Definition set_handlers (h : dict ws_id HState) (w : World) : World :=
  {| relay := relay w; socks := socks w; ready := ready w;
     handlers := h |}.

Definition with_ws (d : dict ws_id Conn) (r : Relay Event Store)
    : Relay Event Store :=
  {| _ws_id := _ws_id r; _ws := d; _store := _store r;
     _max_sub := _max_sub r; _enable_nip15 := _enable_nip15 r;
     _accept_req := _accept_req r;
     _relay_information := _relay_information r |}.

Definition with_ws_id (n : ws_id) (r : Relay Event Store)
    : Relay Event Store :=
  {| _ws_id := n; _ws := _ws r; _store := _store r;
     _max_sub := _max_sub r; _enable_nip15 := _enable_nip15 r;
     _accept_req := _accept_req r;
     _relay_information := _relay_information r |}.

Definition with_store (s : Store) (r : Relay Event Store)
    : Relay Event Store :=
  {| _ws_id := _ws_id r; _ws := _ws r; _store := s;
     _max_sub := _max_sub r; _enable_nip15 := _enable_nip15 r;
     _accept_req := _accept_req r;
     _relay_information := _relay_information r |}.

(** *** Computations *)

Definition M (A : Type) : Type := World -> outcome A * World.

Definition ret {A} (a : A) : M A := fun w => (Return a, w).
Definition raise {A} (e : exn) : M A := fun w => (Raise e, w).
Definition await {A} : M A := fun w => (Await, w).

Definition bind {A B} (m : M A) (f : A -> M B) : M B :=
  fun w =>
    match m w with
    | (Return a, w') => f a w'
    | (Raise e, w') => (Raise e, w')
    | (Await, w') => (Await, w')
    end.

(** [try: m  except Exception as e: h e] *)
Definition catch {A} (m : M A) (h : exn -> M A) : M A :=
  fun w =>
    match m w with
    | (Raise e, w') => h e w'
    | r => r
    end.

Definition lift {A} (x : exn + A) : M A :=
  match x with
  | inl e => raise e
  | inr a => ret a
  end.

Definition get_relay : M (Relay Event Store) := fun w => (Return (relay w), w).

Definition modify (f : World -> World) : M unit := fun w => (Return tt, f w).

Fixpoint for_each {A} (l : list A) (body : A -> M unit) : M unit :=
  match l with
  | [] => ret tt
  | x :: l' => bind (body x) (fun _ => for_each l' body)
  end.
End Model.

Arguments World : clear implicits.
Arguments M : clear implicits.

Notation "x <- m ;; k" := (bind m (fun x => k))
  (at level 61, m at next level, right associativity).
Notation "m ;; k" := (bind m (fun _ => k))
  (at level 61, right associativity).

(** ** The relay *)

Definition VALID_CMDS : list string := ["EVENT"; "REQ"; "CLOSE"].

(** [cmd in Relay.VALID_CMDS]: only a string can equal one of them *)
Definition is_valid_cmd (cmd : json) : bool :=
  match cmd with
  | JStr s => existsb (String.eqb s) VALID_CMDS
  | _ => false
  end.

(** [cmd == name] *)
Definition cmd_is (cmd : json) (name : string) : bool :=
  match cmd with
  | JStr s => (s =? name)%string
  | _ => false
  end.

(** the elements of a decoded array (a command that passed the check
    [cmd in VALID_CMDS] is the head of an array, see [valid_cmd_array]) *)
Definition items (j : json) : list json :=
  match j with
  | JArr l => l
  | _ => []
  end.

Definition len {A} (l : list A) : Z := Z.of_nat (List.length l).

Definition notice (msg : string) : json := JArr [JStr "NOTICE"; JStr msg].

Section Relay.
Context {py : PyBuiltins} {imp : Imports}.
Context {Event Store : Type} {EA : EventAPI Event}
        {SI : RelayEventStoreInterface Store Event}.

Let W : Type := World Event Store.
Let M : Type -> Type := M Event Store.

(** [asyncio.create_task]: the new task goes to the end of the queue *)
Definition create_task (t : Task) : M unit :=
  modify (fun w => set_ready (ready w ++ [t])%list w).

(** [await ws.send_str(s)] *)
Definition send_str (ws : ws_id) (s : string) : M unit :=
  fun w =>
    match dict_get Nat.eqb (socks w) ws with
    | Some sk =>
        if closing sk then (Raise ConnectionResetError, w)
        else (Return tt,
              set_socks (dict_set Nat.eqb (socks w) ws
                           {| closing := false;
                              wire := (wire sk ++ [s])%list |}) w)
    | None => (Raise ConnectionResetError, w)
    end.

(** [_do_send] (lines 379-383): a failed write is logged and dropped *)
Definition _do_send (ws : ws_id) (data : json) : M unit :=
  catch (send_str ws (json_dumps data)) (fun _ => ret tt).

(** [_send_event] (lines 385-391): the write itself is left to a new task,
    which nobody awaits *)
Definition _send_event (ws : ws_id) (sub_id evt : json) : M unit :=
  create_task (T_do_send ws (JArr [JStr "EVENT"; sub_id; evt])).

(** [_send_eose] (lines 393-401) *)
Definition _send_eose (ws : ws_id) (sub_id : json) : M unit :=
  _do_send ws (JArr [JStr "EOSE"; sub_id]).

(** [_check_subs] (lines 310-319); the loops visit the two dictionaries
    in insertion order *)
Definition _check_subs (evt : Event) : M unit :=
  r <- get_relay ;;
  for_each (_ws r) (fun '(socket_id, conn) =>
    for_each (subs conn) (fun '(c_sub_id, the_sub) =>
      if Event_test evt (filter_of the_sub)
      then create_task (T_send_event (ws conn) c_sub_id
                          (Event_event_data evt) None)
      else ret tt)).

(** a store call made through [self._store] *)
Definition store_call (f : Store -> Store * option exn) : M unit :=
  fun w =>
    let '(s', e) := f (_store (relay w)) in
    let w' := set_relay (with_store s' (relay w)) w in
    match e with
    | Some e => (Raise e, w')
    | None => (Return tt, w')
    end.

(** [isinstance(e, i_exceptions)] (lines 284-289) *)
Definition is_integrity_error (e : exn) : bool :=
  match e with
  | IntegrityError _ => true
  | UniqueViolation _ => pg_errors
  | _ => false
  end.

(** the handler of lines 283-294 *)
Definition _do_event_except (evt : Event) (e : exn) : M unit :=
  if is_integrity_error e then
    let msg := lower (exn_str e) in
    if (str_in "event_id" msg && str_in "unique" msg)%bool
    then raise (event_already_exists (Event_id evt))
    else ret tt
  else ret tt.

(** [_do_event] (lines 262-294) *)
Definition _do_event (req_json : list json) (ws : ws_id) : M unit :=
  if len req_json <=? 1
  then raise (NostrCommandException "EVENT command missing event data")
  else
    evt <- lift (Event_from_JSON (nth 1 req_json JNull)) ;;
    if negb (Event_is_valid evt)
    then raise (NostrCommandException
                  "invalid event, pubkey doesn't match sig")
    else
      r <- get_relay ;;
      for_each (_accept_req r) (fun c_accept =>
        match c_accept ws evt with
        | Some e => raise e
        | None => ret tt
        end) ;;
      catch
        (store_call (fun s => add_event s evt) ;;
         (if Event_kind evt =? KIND_DELETE
          then store_call (fun s => do_delete s evt)
          else ret tt) ;;
         _check_subs evt)
        (_do_event_except evt).

(** [self._ws[socket_id]] *)
Definition conn_of (socket_id : ws_id) : M Conn :=
  r <- get_relay ;;
  match dict_get Nat.eqb (_ws r) socket_id with
  | Some c => ret c
  | None => raise KeyError
  end.

(** [sub_id in subs]: hashing the key comes first *)
Definition has_sub (d : dict json Sub) (sub_id : json) : M bool :=
  if hashable sub_id then ret (dict_mem key_eqb d sub_id)
  else raise TypeError.

(** replace the subscriptions of one connection *)
Definition put_subs (socket_id : ws_id) (d : dict json Sub) : M unit :=
  modify (fun w =>
    let r := relay w in
    match dict_get Nat.eqb (_ws r) socket_id with
    | Some c =>
        set_relay (with_ws (dict_set Nat.eqb (_ws r) socket_id
                              {| subs := d; ws := ws c |}) r) w
    | None => w
    end).

(** lines 353-360 of [_do_sub]: one task per stored event, each awaited
    before the next is made, then EOSE.  The coroutine is suspended at
    every [await task]; [K_do_sub] is what remains to be done. *)
Definition _do_sub_backfill (ws : ws_id) (sub_id : json)
    (evts : list json) : M unit :=
  match evts with
  | c_evt :: rest =>
      create_task (T_send_event ws sub_id c_evt
                     (Some (K_do_sub ws sub_id rest))) ;;
      await
  | [] =>
      r <- get_relay ;;
      if _enable_nip15 r then _send_eose ws sub_id else ret tt
  end.

(** [_do_sub] (lines 321-360) *)
Definition _do_sub (req_json : list json) (ws : ws_id) : M unit :=
  if len req_json <=? 1
  then raise (NostrCommandException "REQ command missing sub_id")
  else
    let sub_id := nth 1 req_json JNull in
    let filter :=
      if 2 <? len req_json then JArr (skipn 2 req_json) else JObj [] in
    let socket_id := ws in
    c <- conn_of socket_id ;;
    present <- has_sub (subs c) sub_id ;;
    if present : bool
    then raise (NostrCommandException
                  ("REQ command for sub_id that already exists - "
                   ++ py_str sub_id))
    else
      r <- get_relay ;;
      let sub_count := len (subs c) in
      if _max_sub r <=? sub_count
      then raise (NostrCommandException
                    ("REQ new sub_id " ++ py_str sub_id
                     ++ " not allowed, already at max subs="
                     ++ str_of_Z (_max_sub r)))
      else
        put_subs socket_id
          (dict_set key_eqb (subs c) sub_id
             {| sub_id_of := sub_id; filter_of := filter |}) ;;
        r <- get_relay ;;
        evts <- lift (get_filter (_store r) filter) ;;
        _do_sub_backfill ws sub_id evts.

(** [_do_unsub] (lines 362-377) *)
Definition _do_unsub (req_json : list json) (ws : ws_id) : M unit :=
  if len req_json <=? 1
  then raise (NostrCommandException "REQ command missing sub_id")
  else
    let sub_id := nth 1 req_json JNull in
    let socket_id := ws in
    c <- conn_of socket_id ;;
    present <- has_sub (subs c) sub_id ;;
    if negb present
    then raise (NostrCommandException
                  ("CLOSE command for sub_id that not subscribed to, nothing to do - "
                   ++ py_str sub_id))
    else
      put_subs socket_id (dict_del key_eqb (subs c) sub_id) ;;
      raise (NostrCommandException
               ("CLOSE command for sub_id " ++ py_str sub_id ++ " - success")).

(** the [try] block of [_do_request] (lines 239-253) *)
Definition _do_request_try (ws : ws_id) (req_str : string) : M unit :=
  as_json <- lift (json_loads req_str) ;;
  if negb (py_truthy as_json)
  then raise (NostrCommandException "No command received")
  else
    cmd <- lift (py_getitem0 as_json) ;;
    if negb (is_valid_cmd cmd)
    then raise (NostrCommandException ("unsupported command " ++ py_str cmd))
    else if cmd_is cmd "EVENT" then _do_event (items as_json) ws
    else if cmd_is cmd "REQ" then _do_sub (items as_json) ws
    else if cmd_is cmd "CLOSE" then _do_unsub (items as_json) ws
    else ret tt.

(** the [except] clauses of [_do_request] (lines 255-260); any other
    exception leaves the coroutine *)
Definition _do_request_except (ws : ws_id) (e : exn) : M unit :=
  match e with
  | JSONDecodeError _ =>
      send_str ws (json_dumps (notice "unable to decode command string"))
  | NostrCommandException m => send_str ws (json_dumps (notice m))
  | _ => raise e
  end.

(** [_do_request] (lines 233-260) *)
Definition _do_request (ws : ws_id) (req_str : string) : M unit :=
  if (req_str =? EmptyString)%string then ret tt
  else catch (_do_request_try ws req_str) (_do_request_except ws).

(** [_do_sub] going on after [await task], still inside the [try] of
    [_do_request] *)
Definition resume (k : Cont) : M unit :=
  match k with
  | K_do_sub ws sub_id rest =>
      catch (_do_sub_backfill ws sub_id rest) (_do_request_except ws)
  end.

Definition cont_ws (k : Cont) : ws_id :=
  match k with K_do_sub ws _ _ => ws end.

(** [_websocket_handler] up to its read loop (lines 203-217): a request
    that cannot be upgraded gets the NIP-11 document, otherwise the socket
    is numbered and entered in [_ws] *)
Definition _websocket_handler_enter (can_prepare : bool)
    : W -> option Response * W :=
  fun w =>
    let r := relay w in
    if negb can_prepare then (Some (_NIP11_relay_info_route r), w)
    else
      let id := _ws_id r in
      let r := with_ws_id (S id) r in
      let r := with_ws (dict_set Nat.eqb (_ws r) id
                          {| subs := []; ws := id |}) r in
      (None,
       {| relay := r;
          socks := dict_set Nat.eqb (socks w) id
                     {| closing := false; wire := [] |};
          ready := ready w;
          handlers := dict_set Nat.eqb (handlers w) id Reading |}).

(** [_websocket_handler] after its read loop (lines 227-231) *)
Definition _websocket_handler_leave (id : ws_id) (w : W) : W :=
  set_relay (with_ws (dict_del Nat.eqb (_ws (relay w)) id) (relay w)) w.
End Relay.

(** ** The event loop *)

(** What the environment and the loop can do. *)
Inductive Action : Type :=
| Upgrade
    (** a GET that can be upgraded reaches [_websocket_handler] *)
| Arrive (c : ws_id) (req_str : string)
    (** a text frame wakes the read loop of [c] *)
| PeerClose (c : ws_id)
    (** the read loop of [c] ends and the handler returns *)
| Drop (c : ws_id)
    (** the transport of [c] starts closing *)
| Tick.
    (** the loop runs the oldest ready task *)

Section Loop.
Context {py : PyBuiltins} {imp : Imports}.
Context {Event Store : Type} {EA : EventAPI Event}
        {SI : RelayEventStoreInterface Store Event}.

Let W : Type := World Event Store.
Let M : Type -> Type := M Event Store.

Definition set_handler (c : ws_id) (h : HState) (w : W) : W :=
  set_handlers (dict_set Nat.eqb (handlers w) c h) w.

Definition del_handler (c : ws_id) (w : W) : W :=
  set_handlers (dict_del Nat.eqb (handlers w) c) w.

(** the transport of [c] is closing from now on *)
Definition shut (c : ws_id) (w : W) : W :=
  match dict_get Nat.eqb (socks w) c with
  | Some sk =>
      set_socks (dict_set Nat.eqb (socks w) c
                   {| closing := true; wire := wire sk |}) w
  | None => w
  end.

(** One stretch of the read loop of [c] (lines 219-229) running [m], which
    is [_do_request] or its resumption.  When [m] returns the loop waits
    for the next frame; when [m] is suspended the loop stays inside it;
    when [m] raises, the handler ends there, before line 229, and its
    entry stays in [_ws]. *)
Definition handler_step (c : ws_id) (m : M unit) (w : W) : W :=
  match m w with
  | (Return _, w') => set_handler c Reading w'
  | (Await, w') => w'
  | (Raise _, w') => shut c (del_handler c w')
  end.

Definition run_task (t : Task) (w : W) : W :=
  match t with
  | T_do_send c data => snd (_do_send c data w)
  | T_send_event c sub_id evt waiter =>
      let w' := snd (_send_event c sub_id evt w) in
      match waiter with
      | Some k => set_ready (ready w' ++ [T_wakeup k])%list w'
      | None => w'
      end
  | T_wakeup k => handler_step (cont_ws k) (resume k) w
  | T_request c req_str => handler_step c (_do_request c req_str) w
  end.

Definition step (a : Action) (w : W) : option W :=
  match a with
  | Upgrade => Some (snd (_websocket_handler_enter true w))
  | Arrive c req_str =>
      match dict_get Nat.eqb (handlers w) c with
      | Some Reading =>
          Some (set_ready (ready w ++ [T_request c req_str])%list
                  (set_handler c Busy w))
      | _ => None
      end
  | PeerClose c =>
      match dict_get Nat.eqb (handlers w) c with
      | Some Reading =>
          Some (shut c (del_handler c (_websocket_handler_leave c w)))
      | _ => None
      end
  | Drop c => Some (shut c w)
  | Tick =>
      match ready w with
      | t :: q => Some (run_task t (set_ready q w))
      | [] => None
      end
  end.

Fixpoint run (acts : list Action) (w : W) : option W :=
  match acts with
  | [] => Some w
  | a :: acts' =>
      match step a w with
      | Some w' => run acts' w'
      | None => None
      end
  end.

(** the loop left alone until nothing is ready *)
Fixpoint drain (fuel : nat) (w : W) : W :=
  match fuel with
  | O => w
  | S n =>
      match ready w with
      | [] => w
      | t :: q => drain n (run_task t (set_ready q w))
      end
  end.

(** a relay that has just been constructed, before any connection *)
Definition boot (r : Relay Event Store) : W :=
  {| relay := r; socks := []; ready := []; handlers := [] |}.

Inductive reachable (r : Relay Event Store) : W -> Prop :=
| reach_boot : reachable r (boot r)
| reach_step w a w' :
    reachable r w -> step a w = Some w' -> reachable r w'.

(** the text frames written to socket [c] *)
Definition wire_of (c : ws_id) (w : W) : list string :=
  match dict_get Nat.eqb (socks w) c with
  | Some sk => wire sk
  | None => []
  end.

Definition closing_of (c : ws_id) (w : W) : bool :=
  match dict_get Nat.eqb (socks w) c with
  | Some sk => closing sk
  | None => true
  end.

(** the subscriptions of connection [c] *)
Definition subs_of (c : ws_id) (w : W) : dict json Sub :=
  match dict_get Nat.eqb (_ws (relay w)) c with
  | Some cn => subs cn
  | None => []
  end.

(** [w'] is [w] with one more frame [f] written to socket [c] *)
Definition sends_only (c : ws_id) (f : string) (w w' : W) : Prop :=
  relay w' = relay w /\
  ready w' = ready w /\
  handlers w' = handlers w /\
  (forall c', c' <> c ->
     dict_get Nat.eqb (socks w') c' = dict_get Nat.eqb (socks w) c') /\
  closing_of c w' = false /\
  wire_of c w' = (wire_of c w ++ [f])%list.

(** the result [r] of a computation started in [w] is that of writing
    the one frame [f] to socket [c]: the frame is added to the wire and
    nothing else changes, unless the transport is closing, in which case
    the write raises and nothing changes at all *)
Definition answered (c : ws_id) (f : string) (w : W)
    (r : outcome unit * W) : Prop :=
  if closing_of c w then r = (Raise ConnectionResetError, w)
  else fst r = Return tt /\ sends_only c f w (snd r).
End Loop.

(** ** A small concrete setting

    Instances of the interfaces used to run the relay on concrete frames:
    events with an id, a kind and a flag for the signature check, a store
    kept as a list (newest first) that can be switched to failing, and a
    codec that knows the frames of the scenarios below. *)
Module Sample.

Record event : Type := {
  ev_id : string;
  ev_kind : Z;
  ev_signed : bool
}.

Definition data (e : event) : json :=
  JObj [("id", JStr (ev_id e)); ("kind", JNum (ev_kind e));
        ("signed", JBool (ev_signed e))].

Definition parse (j : json) : exn + event :=
  match j with
  | JObj [(_, JStr i); (_, JNum k); (_, JBool b)] =>
      inr {| ev_id := i; ev_kind := k; ev_signed := b |}
  | _ => inl KeyError
  end.

(** a filter is [{}] or [{"kinds": [...]}] *)
Definition match_one (e : event) (f : json) : bool :=
  match f with
  | JObj [] => true
  | JObj [(_, JArr ks)] =>
      existsb (fun k => match k with
                        | JNum n => n =? ev_kind e
                        | _ => false
                        end) ks
  | _ => false
  end.

(** a bare filter counts as a list of one *)
Definition matches (e : event) (f : json) : bool :=
  match f with
  | JObj _ => match_one e f
  | JArr l => existsb (match_one e) l
  | _ => false
  end.

#[export] Instance events : EventAPI event := {
  Event_from_JSON := parse;
  Event_is_valid := ev_signed;
  Event_kind := ev_kind;
  Event_id := ev_id;
  Event_test := matches;
  Event_event_data := data
}.

Record store : Type := {
  held : list event;
  broken : bool;
  nip09 : bool;
  nip16 : bool
}.

Definition put (s : store) (e : event) : store * option exn :=
  if broken s then (s, Some (Exception "database is locked"))
  else if existsb (fun x => (ev_id x =? ev_id e)%string) (held s)
  then (s, Some (IntegrityError
                   "UNIQUE constraint failed: events.event_id"))
  else ({| held := e :: held s; broken := broken s; nip09 := nip09 s;
           nip16 := nip16 s |}, None).

Definition query (s : store) (f : json) : exn + list json :=
  if broken s then inl (Exception "database is locked")
  else inr (map data (filter (fun e => matches e f) (held s))).

#[export] Instance stores : RelayEventStoreInterface store event := {
  add_event := put;
  do_delete := fun s _ => (s, None);
  get_filter := query;
  is_NIP09 := nip09;
  is_NIP16 := nip16
}.

Definition is_hex (c : ascii) : bool :=
  let n := nat_of_ascii c in
  ((Nat.leb 48 n && Nat.leb n 57) || (Nat.leb 97 n && Nat.leb n 102))%bool.

Fixpoint all_hex (s : string) : bool :=
  match s with
  | EmptyString => true
  | String c s' => (is_hex c && all_hex s')%bool
  end.

#[export] Instance imports : Imports := {
  Keys_is_key := fun s => (Nat.eqb (String.length s) 64 && all_hex s)%bool;
  pg_errors := false
}.

Definition e1 : event := {| ev_id := "e1"; ev_kind := 1; ev_signed := true |}.
Definition e2 : event := {| ev_id := "e2"; ev_kind := 1; ev_signed := true |}.
Definition e3 : event := {| ev_id := "e3"; ev_kind := 1; ev_signed := true |}.

(** JSON text is written with [q] for a quoted string *)
Definition dq : string := String "034"%char EmptyString.
Definition q (s : string) : string := dq ++ s ++ dq.

(** [json.dumps] without escapes, enough for the values met here *)
Fixpoint dumps (j : json) : string :=
  match j with
  | JNull => "null"
  | JBool true => "true"
  | JBool false => "false"
  | JNum n => str_of_Z n
  | JStr s => q s
  | JArr l => "[" ++ join ", " (map dumps l) ++ "]"
  | JObj l =>
      "{" ++ join ", " (map (fun kv => let '(k, v) := kv in
                                      q k ++ ": " ++ dumps v) l) ++ "}"
  end.

Definition req_x : json := JArr [JStr "REQ"; JStr "x"].
Definition req_x_all : json := JArr [JStr "REQ"; JStr "x"; JObj []].
Definition req_y_all : json := JArr [JStr "REQ"; JStr "y"; JObj []].
Definition close_x : json := JArr [JStr "CLOSE"; JStr "x"].
Definition post (e : event) : json := JArr [JStr "EVENT"; data e].

(** the text frames the sample codec decodes; anything else is
    malformed *)
Definition frames : list json :=
  [ JArr []; JNum 5; JArr [JStr "FOO"]; req_x; req_x_all; req_y_all;
    close_x; post e1; post e2; post e3 ].

Definition loads (s : string) : exn + json :=
  match find (fun j => (dumps j =? s)%string) frames with
  | Some j => inr j
  | None => inl (JSONDecodeError "Expecting value: line 1 column 1 (char 0)")
  end.

#[export] Instance builtins : PyBuiltins := {
  json_loads := loads;
  json_dumps := dumps;
  repr_str := fun s => "'" ++ s ++ "'"
}.

(** the relay that [Relay(store, max_sub=.., enable_nip15=..)] builds *)
Definition relay0 (max_sub : Z) (eose : bool) (s : store)
    : Relay event store :=
  {| _ws_id := 0%nat; _ws := []; _store := s; _max_sub := max_sub;
     _enable_nip15 := eose; _accept_req := [AcceptReqHandler_default];
     _relay_information :=
       [("software", JStr "https://github.com/monty888/nostrpy");
        ("version", JStr "0.1");
        ("supported_nips", JArr (map JNum (supported_nips s eose)))] |}.

Definition empty_store : store :=
  {| held := []; broken := false; nip09 := false; nip16 := false |}.

Definition broken_store : store :=
  {| held := []; broken := true; nip09 := false; nip16 := false |}.

Definition stocked_store : store :=
  {| held := [e2; e1]; broken := false; nip09 := false; nip16 := false |}.

(** a well-formed public key *)
Definition key64 : string :=
  "3bf0c63fcb93463407af97a5e5ee64fa883d107ef9e558472c4eb9aaaefa459d".

(** the world the actions lead to *)
Definition after (acts : list Action) (w : World event store)
    : World event store :=
  match run acts w with
  | Some w' => w'
  | None => w
  end.

(** one, and two, clients connected to a new relay *)
Definition one_client (max_sub : Z) (eose : bool) (s : store)
    : World event store :=
  after [Upgrade] (boot (relay0 max_sub eose s)).

Definition two_clients (max_sub : Z) (eose : bool) (s : store)
    : World event store :=
  after [Upgrade; Upgrade] (boot (relay0 max_sub eose s)).
End Sample.

(** ** Vocabulary of the properties *)

(** [l1] is in [l2], in order, possibly with other elements in between *)
Inductive subseq {A : Type} : list A -> list A -> Prop :=
| subseq_nil l : subseq [] l
| subseq_keep x l1 l2 : subseq l1 l2 -> subseq (x :: l1) (x :: l2)
| subseq_skip x l1 l2 : subseq l1 l2 -> subseq l1 (x :: l2).

Section Vocabulary.
Context {py : PyBuiltins} {imp : Imports}.
Context {Event Store : Type} {EA : EventAPI Event}
        {SI : RelayEventStoreInterface Store Event}.
Let W : Type := World Event Store.
Let M : Type -> Type := M Event Store.

(** the world after [m] is related by [R] to the world before it,
    whatever the outcome *)
Definition stable (R : W -> W -> Prop) {A} (m : M A) : Prop :=
  forall w, R w (snd (m w)).

(** the tasks [_check_subs] creates for an event, in creation order *)
Definition matching_sends (evt : Event) (table : dict ws_id Conn)
    : list Task :=
  flat_map (fun '(socket_id, conn) =>
    flat_map (fun '(c_sub_id, the_sub) =>
      if Event_test evt (filter_of the_sub)
      then [T_send_event (ws conn) c_sub_id (Event_event_data evt) None]
      else []) (subs conn)) table.

(** the filter a REQ carries (lines 329-331) *)
Definition req_filter (req_json : list json) : json :=
  if 2 <? len req_json then JArr (skipn 2 req_json) else JObj [].

(** the world with subscription [sub_id] entered for connection [c]
    (line 343) *)
Definition register (c : ws_id) (sub_id flt : json) (w : W) : W :=
  snd (put_subs c
         (dict_set key_eqb (subs_of c w) sub_id
            {| sub_id_of := sub_id; filter_of := flt |}) w).

(** a REQ for [sub_id] on connection [c] passes the checks of lines
    335-341 *)
Definition accepts (c : ws_id) (sub_id : json) (w : W) : Prop :=
  (exists cn, dict_get Nat.eqb (_ws (relay w)) c = Some cn) /\
  hashable sub_id = true /\
  dict_mem key_eqb (subs_of c w) sub_id = false /\
  len (subs_of c w) < _max_sub (relay w).

(** the store error that lines 289-292 report as a duplicate: an
    integrity error whose lower-cased text mentions both [event_id] and
    [unique] *)
Definition is_duplicate_error (e : exn) : bool :=
  (is_integrity_error e
   && (str_in "event_id" (lower (exn_str e))
       && str_in "unique" (lower (exn_str e))))%bool.

(** the frames of a subscription *)
Definition event_frame (sub_id evt : json) : string :=
  json_dumps (JArr [JStr "EVENT"; sub_id; evt]).

Definition eose_frame (sub_id : json) : string :=
  json_dumps (JArr [JStr "EOSE"; sub_id]).

(** every registry respects the limit *)
Definition bounded (w : W) : Prop :=
  forall c cn, In (c, cn) (_ws (relay w)) ->
    len (subs cn) <= _max_sub (relay w).

(** from [w] to [w'] the limit is the same and registries within the
    limit stay within it *)
Definition keeps_bounded (w w' : W) : Prop :=
  _max_sub (relay w') = _max_sub (relay w) /\
  (0 <= _max_sub (relay w) -> bounded w -> bounded w').

(** from [w] to [w'] the settings made by the constructor are the same *)
Definition same_config (w w' : W) : Prop :=
  _relay_information (relay w') = _relay_information (relay w) /\
  _max_sub (relay w') = _max_sub (relay w) /\
  _enable_nip15 (relay w') = _enable_nip15 (relay w) /\
  _accept_req (relay w') = _accept_req (relay w).

(** the world after the frames [fs] were handed, in order, to socket
    [c]: they are added to its wire unless its transport is closing *)
Definition written (c : ws_id) (fs : list string) (w : W) : W :=
  match dict_get Nat.eqb (socks w) c with
  | Some sk =>
      if closing sk then w
      else set_socks (dict_set Nat.eqb (socks w) c
                        {| closing := false;
                           wire := (wire sk ++ fs)%list |}) w
  | None => w
  end.

(** the frames that the tasks [ts] of a fan-out address to socket [c] *)
Definition frames_for (c : ws_id) (ts : list Task) : list string :=
  flat_map (fun t =>
    match t with
    | T_send_event c' sub_id evt _ =>
        if Nat.eqb c' c then [event_frame sub_id evt] else []
    | _ => []
    end) ts.

(** the write that a [_send_event] task leaves to a task of its own *)
Definition do_send_of (t : Task) : Task :=
  match t with
  | T_send_event c sub_id evt _ =>
      T_do_send c (JArr [JStr "EVENT"; sub_id; evt])
  | _ => t
  end.

(** a task made by the fan-out: [_send_event] awaited by nobody *)
Definition is_live_send (t : Task) : Prop :=
  match t with
  | T_send_event _ _ _ None => True
  | _ => False
  end.

(** the world after the writes of the fan-out tasks [ts] were made, in
    order *)
Definition delivered (ts : list Task) (w : W) : W :=
  fold_left (fun w t =>
    match t with
    | T_send_event c sub_id evt _ => written c [event_frame sub_id evt] w
    | _ => w
    end) ts w.

(** the frame of EOSE, when enabled *)
Definition eose_frames (sub_id : json) (w : W) : list string :=
  if _enable_nip15 (relay w) then [eose_frame sub_id] else [].
(** [c] is the socket of a client that connected earlier *)
Definition connected (c : ws_id) (w : W) : Prop :=
  (c < _ws_id (relay w))%nat /\
  exists sk, dict_get Nat.eqb (socks w) c = Some sk.

(** from [w] to [w'] the ready queue has only got longer at its end, the
    EOSE switch is the same, and the socket [c] of a connected client has
    only got more frames at the end of its wire; if its transport was
    closing it still is, and its wire is the same *)
Definition grows (c : ws_id) (w w' : W) : Prop :=
  (exists new, ready w' = (ready w ++ new)%list) /\
  _enable_nip15 (relay w') = _enable_nip15 (relay w) /\
  (_ws_id (relay w) <= _ws_id (relay w'))%nat /\
  forall sk, (c < _ws_id (relay w))%nat ->
    dict_get Nat.eqb (socks w) c = Some sk ->
    exists sk',
      dict_get Nat.eqb (socks w') c = Some sk' /\
      (exists x, wire sk' = (wire sk ++ x)%list) /\
      (closing sk = true -> closing sk' = true /\ wire sk' = wire sk).

(** where the backfill of a subscription stands: the task for an event is
    in the queue; or its write is, followed by the wake-up of [_do_sub]; or
    only that wake-up; or the backfill is over *)
Inductive Phase : Type :=
| Issued (e : json) (rest : list json)
| Writing (e : json) (rest : list json)
| Waking (rest : list json)
| Finished.

Definition in_phase (c : ws_id) (sub_id : json) (ph : Phase)
    (q : list Task) : Prop :=
  match ph with
  | Issued e rest =>
      exists q1 q2,
        q = (q1 ++ T_send_event c sub_id e (Some (K_do_sub c sub_id rest))
                :: q2)%list
  | Writing e rest =>
      exists q1 q2 q3,
        q = (q1 ++ T_do_send c (JArr [JStr "EVENT"; sub_id; e])
                :: q2 ++ T_wakeup (K_do_sub c sub_id rest) :: q3)%list
  | Waking rest =>
      exists q1 q2, q = (q1 ++ T_wakeup (K_do_sub c sub_id rest) :: q2)%list
  | Finished => True
  end.

(** the frames still to be written in a phase *)
Definition todo (sub_id : json) (eose : list string) (ph : Phase)
    : list string :=
  match ph with
  | Issued e rest | Writing e rest =>
      (event_frame sub_id e :: map (event_frame sub_id) rest ++ eose)%list
  | Waking rest => (map (event_frame sub_id) rest ++ eose)%list
  | Finished => []
  end.

(** The backfill of [frames] (then [eose]) for [sub_id] on socket [c], begun
    when the wire held [wire0], has come this far in [w]: the wire has grown
    by [g]; as long as the transport is not closing, the frames no longer to
    be written are in [g], in their order, possibly with other frames in
    between. *)
Definition backfill_progress (c : ws_id) (sub_id : json)
    (frames eose wire0 : list string) (w : W) : Prop :=
  connected c w /\
  eose_frames sub_id w = eose /\
  exists ph g,
    in_phase c sub_id ph (ready w) /\
    wire_of c w = (wire0 ++ g)%list /\
    (closing_of c w = false ->
     exists done,
       (frames ++ eose)%list = (done ++ todo sub_id eose ph)%list /\
       subseq done g).
End Vocabulary.


(** ** Filters, as the spec has them *)

Section Filters.
Context {Event : Type}.

(** what one present field of a filter asks of an event: the name of the
    field, its value in the filter, the event *)
Variable field_holds : string -> json -> Event -> bool.

(** Modelled from the spec: [matches(e, f)] for a single filter, which is
    [Event.test] of the event class, a module the relay imports.  "Absent
    field = unconstrained on that dimension"; "[matches(e, f)] is the
    conjunction across all present fields".  What a present field asks of
    the event is left to [field_holds]. *)
Definition Filter_matches (f : json) (e : Event) : bool :=
  match f with
  | JObj fields => forallb (fun kv => field_holds (fst kv) (snd kv) e) fields
  | _ => false
  end.

(** Modelled from the spec: the FilterSet that the value kept under
    ['filter'] of a subscription stands for.  "FilterSet: a non-empty
    ordered sequence of filters"; [_do_sub] keeps the list of the filters of
    the REQ, or, for a REQ without any, one filter object that is in no
    list, which stands for the sequence of that one filter. *)
Definition FilterSet_of (v : json) : list json :=
  match v with
  | JArr fs => fs
  | f => [f]
  end.

(** Modelled from the spec: "[matches(e, FS)] = exists f in FS.
    [matches(e, f)]". *)
Definition FilterSet_matches (v : json) (e : Event) : bool :=
  existsb (fun f => Filter_matches f e) (FilterSet_of v).
End Filters.

(** an event class whose [test] is the matcher of the spec *)
Definition with_spec_test {Event : Type}
    (field_holds : string -> json -> Event -> bool) (EA : EventAPI Event)
    : EventAPI Event :=
  {| Event_from_JSON := Event_from_JSON;
     Event_is_valid := Event_is_valid;
     Event_kind := Event_kind;
     Event_id := Event_id;
     Event_test := fun e v => FilterSet_matches field_holds v e;
     Event_event_data := Event_event_data |}.

(** ** Vocabulary of the further properties *)

Section Vocabulary2.
Context {py : PyBuiltins} {imp : Imports}.
Context {Event Store : Type} {EA : EventAPI Event}
        {SI : RelayEventStoreInterface Store Event}.
Let W : Type := World Event Store.

(** the world with subscription [sub_id] of connection [c] removed
    (line 375) *)
Definition unregister (c : ws_id) (sub_id : json) (w : W) : W :=
  snd (put_subs c (dict_del key_eqb (subs_of c w) sub_id) w).

(** the world after the store took the event: [add_event] left [s1], and a
    deletion event was then handed to [do_delete] (lines 276-280) *)
Definition stored (evt : Event) (w : W) : W :=
  let s1 := fst (add_event (_store (relay w)) evt) in
  let s2 := if Event_kind evt =? KIND_DELETE
            then fst (do_delete s1 evt) else s1 in
  set_relay (with_store s2 (relay w)) w.
End Vocabulary2.

Section Vocabulary3.
Context {py : PyBuiltins} {imp : Imports}.
Context {Event Store : Type} {EA : EventAPI Event}
        {SI : RelayEventStoreInterface Store Event}.
Let W : Type := World Event Store.

(** the ids in the connection table are below the counter [_ws_id], no id
    has two entries, and the entry of an id holds the socket of that id *)
Definition ids_fresh (w : W) : Prop :=
  NoDup (map fst (_ws (relay w))) /\
  forall c cn, In (c, cn) (_ws (relay w)) ->
    (c < _ws_id (relay w))%nat /\ ws cn = c.

(** from [w] to [w'] the counter has not gone down, the table has stayed
    well numbered, and an id that was given out and has no entry any more
    has not got one again *)
Definition table_order (w w' : W) : Prop :=
  (_ws_id (relay w) <= _ws_id (relay w'))%nat /\
  (ids_fresh w -> ids_fresh w') /\
  forall c, (c < _ws_id (relay w))%nat ->
    dict_get Nat.eqb (_ws (relay w)) c = None ->
    dict_get Nat.eqb (_ws (relay w')) c = None.
End Vocabulary3.

(** *** Read loops and the tasks that carry them on *)

(** the connection whose read loop a task carries on: a frame about to be
    handled, a suspended [_do_sub] about to go on, or the task it awaits *)
Definition carries (t : Task) : option ws_id :=
  match t with
  | T_request c _ => Some c
  | T_wakeup k => Some (cont_ws k)
  | T_send_event _ _ _ (Some k) => Some (cont_ws k)
  | T_send_event _ _ _ None => None
  | T_do_send _ _ => None
  end.

(** a task that belongs to no read loop *)
Definition idle (t : Task) : Prop := carries t = None.

(** how many tasks of a queue carry on the read loop of [c] *)
Fixpoint in_flight (c : ws_id) (q : list Task) : nat :=
  match q with
  | [] => 0
  | t :: q' =>
      (match carries t with
       | Some c' => if Nat.eqb c' c then 1 else 0
       | None => 0
       end + in_flight c q')%nat
  end.

Section Vocabulary4.
Context {py : PyBuiltins} {imp : Imports}.
Context {Event Store : Type} {EA : EventAPI Event}
        {SI : RelayEventStoreInterface Store Event}.
Let W : Type := World Event Store.
Let M : Type -> Type := M Event Store.

(** the read loop of [c] is inside [_do_request] *)
Definition busy (c : ws_id) (w : W) : bool :=
  match dict_get Nat.eqb (handlers w) c with
  | Some Busy => true
  | _ => false
  end.

(** every read loop has an id that was given out and an entry in the
    connection table, and a loop that is inside a request has at most one
    task to carry it on, a loop that waits for a frame, or that has ended,
    none *)
Definition loops_ok (w : W) : Prop :=
  NoDup (map fst (handlers w)) /\
  (forall c h, dict_get Nat.eqb (handlers w) c = Some h ->
     (c < _ws_id (relay w))%nat /\
     dict_mem Nat.eqb (_ws (relay w)) c = true) /\
  forall c, (in_flight c (ready w) <= if busy c w then 1 else 0)%nat.

(** What a piece of the handler of connection [c] can do to the world [w],
    [r] being its outcome: it leaves the read loops and the counter alone,
    touches no entry of the table but that of [c], which it does not
    remove, and adds tasks at the end of the queue; these belong to no read
    loop, except that a suspended computation has left, last, the one task
    that will carry on the loop of [c]. *)
Definition confined_to (c : ws_id) {A} (w : W) (r : outcome A * W) : Prop :=
  handlers (snd r) = handlers w /\
  _ws_id (relay (snd r)) = _ws_id (relay w) /\
  (forall c0, c0 <> c ->
     dict_get Nat.eqb (_ws (relay (snd r))) c0
       = dict_get Nat.eqb (_ws (relay w)) c0) /\
  dict_mem Nat.eqb (_ws (relay (snd r))) c
    = dict_mem Nat.eqb (_ws (relay w)) c /\
  exists new,
    ready (snd r) = (ready w ++ new)%list /\
    match fst r with
    | Await =>
        exists new' t,
          new = (new' ++ [t])%list /\ carries t = Some c /\ Forall idle new'
    | _ => Forall idle new
    end.

Definition confined (c : ws_id) {A} (m : M A) : Prop :=
  forall w, confined_to c w (m w).
End Vocabulary4.

Section Vocabulary6.
Context {py : PyBuiltins} {imp : Imports}.
Context {Event Store : Type} {EA : EventAPI Event}
        {SI : RelayEventStoreInterface Store Event}.
Let W : Type := World Event Store.

(** the frames of the protocol: a NOTICE, an EVENT of a subscription,
    and, when [eose] is on, the EOSE of a subscription *)
Definition relay_frame (eose : bool) (f : string) : Prop :=
  (exists m, f = json_dumps (notice m)) \/
  (exists sub_id evt, f = event_frame sub_id evt) \/
  (eose = true /\ exists sub_id, f = eose_frame sub_id).

(** a write that waits in the queue is that of an EVENT frame *)
Definition event_write (t : Task) : Prop :=
  match t with
  | T_do_send _ data =>
      exists sub_id evt, data = JArr [JStr "EVENT"; sub_id; evt]
  | _ => True
  end.

(** only frames of the protocol are on the wires and in the queue *)
Definition frames_ok (w : W) : Prop :=
  (forall c sk, In (c, sk) (socks w) ->
     Forall (relay_frame (_enable_nip15 (relay w))) (wire sk)) /\
  Forall event_write (ready w).

(** from [w] to [w'] the EOSE switch is the same, and if only frames of
    the protocol were written and queued, it is still so *)
Definition keeps_frames (w w' : W) : Prop :=
  _enable_nip15 (relay w') = _enable_nip15 (relay w) /\
  (frames_ok w -> frames_ok w').
End Vocabulary6.

(** ** Starting and stopping the server (lines 129-201)

    The fields of a relay that belong to its HTTP server are kept in a
    record of their own.  [aiohttp]'s application, runner and site are
    opaque: an application is known by the routes added to it, and a call
    into the library is known by whether it raised. *)

Inductive Handler : Type :=
| H_websocket               (** [self._websocket_handler] *)
| H_other (name : string).  (** a handler handed in by the caller *)

(** [web.get(path, handler=h)] *)
Record RouteDef : Type := {
  route_path : string;
  route_handler : Handler
}.

Definition web_get (path : string) (h : Handler) : RouteDef :=
  {| route_path := path; route_handler := h |}.

(** [web.Application()] after [add_routes] *)
Record Application : Type := { app_routes : list RouteDef }.

(** [web.AppRunner(app)] *)
Record AppRunner : Type := { runner_app : option Application }.

(** lines 94-98 *)
Record Serving : Type := {
  _server : option Application;
  _runner : option AppRunner;
  _host : option string;
  _port : option Z;
  _end_point : option string
}.

Definition Serving__init__ : Serving :=
  {| _server := None; _runner := None; _host := None; _port := None;
     _end_point := None |}.

(** exceptions of this part: an attribute looked up on [None], or whatever
    the library raised *)
Inductive life_exn : Type :=
| AttributeError
| Failed (e : exn).

(** [Application.add_routes], of the library: the routes are registered
    one after the other; [bad] says at which of them, and with what, it
    raised (a path that does not start with a slash is refused), the routes
    before that one staying registered *)
Definition add_routes (my_routes : list RouteDef) (bad : option (nat * exn))
    : Application * option exn :=
  match bad with
  | Some (n, e) => ({| app_routes := firstn n my_routes |}, Some e)
  | None => ({| app_routes := my_routes |}, None)
  end.

(** [_starter] (lines 129-141): the address and the application are
    assigned before [add_routes] can raise *)
Definition _starter (host : string) (port : Z) (end_point : string)
    (routes : option (list RouteDef)) (bad : option (nat * exn))
    (sv : Serving) : Serving * option exn :=
  let my_routes := [web_get end_point H_websocket] in
  let my_routes :=
    match routes with
    | Some (x :: l) => (my_routes ++ x :: l)%list
    | _ => my_routes
    end in
  let (app, raised) := add_routes my_routes bad in
  ({| _server := Some app;
      _runner := _runner sv;
      _host := Some host; _port := Some port;
      _end_point := Some end_point |}, raised).

(** [start] (lines 143-159); [web.run_app] blocks until the server stops,
    [stopped] says whether it raised *)
Definition start (host : string) (port : Z) (end_point : string)
    (routes : option (list RouteDef)) (bad : option (nat * exn))
    (stopped : option exn) (sv : Serving) : Serving * option life_exn :=
  match _starter host port end_point routes bad sv with
  | (sv, Some e) => (sv, Some (Failed e))
  | (sv, None) => (sv, option_map Failed stopped)
  end.

(** [start_background] (lines 161-171): the runner is assigned only when
    [_starter] returned; [failed] says whether [runner.setup()] or
    [site.start()] raised *)
Definition start_background (host : string) (port : Z) (end_point : string)
    (routes : option (list RouteDef)) (bad : option (nat * exn))
    (failed : option exn) (sv : Serving) : Serving * option life_exn :=
  match _starter host port end_point routes bad sv with
  | (sv, Some e) => (sv, Some (Failed e))
  | (sv, None) =>
      ({| _server := _server sv;
          _runner := Some {| runner_app := _server sv |};
          _host := _host sv; _port := _port sv; _end_point := _end_point sv |},
       option_map Failed failed)
  end.

(** ['%s' % x] for a value that may be [None] *)
Definition str_opt (o : option string) : string :=
  match o with
  | Some s => s
  | None => "None"
  end.

(** the property [url] (lines 173-177) *)
Definition url (sv : Serving) : string :=
  "ws://" ++ str_opt (_host sv) ++ ":"
  ++ str_opt (option_map str_of_Z (_port sv)) ++ str_opt (_end_point sv).

(** the property [started] (lines 187-194) *)
Definition started (sv : Serving) : bool :=
  let ret := false in
  match _runner sv, _server sv with
  | None, Some _ => true
  | Some _, _ => true
  | None, None => ret
  end.

(** [end] (lines 196-198); [raised] says whether [shutdown] raised *)
Definition Relay_end (raised : option exn) (sv : Serving)
    : Serving * option life_exn :=
  match _server sv with
  | None => (sv, Some AttributeError)
  | Some _ => (sv, option_map Failed raised)
  end.

(** [end_background] (lines 200-201) *)
Definition end_background (raised : option exn) (sv : Serving)
    : Serving * option life_exn :=
  match _runner sv with
  | None => (sv, Some AttributeError)
  | Some _ => (sv, option_map Failed raised)
  end.

(** the calls a user of the class can make on the server side of a relay *)
Inductive Call : Type :=
| Call_start (host : string) (port : Z) (end_point : string)
    (routes : option (list RouteDef)) (bad : option (nat * exn))
    (stopped : option exn)
| Call_start_background (host : string) (port : Z) (end_point : string)
    (routes : option (list RouteDef)) (bad : option (nat * exn))
    (failed : option exn)
| Call_end (raised : option exn)
| Call_end_background (raised : option exn).

Definition call (cl : Call) (sv : Serving) : Serving * option life_exn :=
  match cl with
  | Call_start h p e rs bad x => start h p e rs bad x sv
  | Call_start_background h p e rs bad x =>
      start_background h p e rs bad x sv
  | Call_end x => Relay_end x sv
  | Call_end_background x => end_background x sv
  end.

(** the state after a series of calls, each made whether or not the one
    before raised *)
Fixpoint calls (l : list Call) (sv : Serving) : Serving :=
  match l with
  | [] => sv
  | cl :: l' => calls l' (fst (call cl sv))
  end.

(** the address given to the last of the calls that start the server *)
Fixpoint last_start (l : list Call) (seen : option (string * Z * string))
    : option (string * Z * string) :=
  match l with
  | [] => seen
  | Call_start h p e _ _ _ :: l' => last_start l' (Some (h, p, e))
  | Call_start_background h p e _ _ _ :: l' =>
      last_start l' (Some (h, p, e))
  | _ :: l' => last_start l' seen
  end.

(** ** The routes for a web browser (lines 415-597) *)

(** [request.query]: the parameters of the URL in their order; a name
    stands for its first value *)
Definition Query : Type := dict string string.

(** [web.json_response(data)] *)
Definition web_json_response {py : PyBuiltins} (data : json) : Response :=
  {| status := 200; content_type := "application/json"; charset := "utf-8";
     text := json_dumps data |}.

(** exceptions met in a route: a [ValueError] the route raises itself, or
    whatever a collaborator raised *)
Inductive route_exn : Type :=
| ValueError (msg : string)
| Raised (e : exn).

Definition route_exn_str (x : route_exn) : string :=
  match x with
  | ValueError m => m
  | Raised e => exn_str e
  end.

(** [isinstance(x, ValueError)]; [JSONDecodeError] is a [ValueError] *)
Definition is_ValueError (x : route_exn) : bool :=
  match x with
  | ValueError _ => true
  | Raised (JSONDecodeError _) => true
  | Raised _ => false
  end.

(** a query value that may be [None], as a Python value *)
Definition json_opt (o : option string) : json :=
  match o with
  | Some s => JStr s
  | None => JNull
  end.

(** [s.split(sep)] for a separator of one character *)
Fixpoint split (sep : ascii) (s : string) : list string :=
  match s with
  | EmptyString => [EmptyString]
  | String ch s' =>
      if Ascii.eqb ch sep then EmptyString :: split sep s'
      else match split sep s' with
           | x :: l => String ch x :: l
           | [] => [String ch EmptyString]
           end
  end.

(** what the routes need from outside this file: [Event.is_event_id],
    which may be handed [None], and [int(val)] of a string, [None] standing
    for the exception that [_make_numeric] swallows *)
Class RouteImports : Type := {
  Event_is_event_id : option string -> exn + bool;
  py_int : string -> option Z
}.

Section Routes.
Context {py : PyBuiltins} {ri : RouteImports}.
Context {Event Store : Type} {EA : EventAPI Event}
        {SI : RelayEventStoreInterface Store Event}.

(** the [try] block of [event_route] (lines 427-438) *)
Definition event_route_try (r : Relay Event Store) (id : option string)
    : route_exn + json :=
  match id with
  | Some EmptyString => inl (ValueError "id field is required")
  | _ =>
      match Event_is_event_id id with
      | inl e => inl (Raised e)
      | inr false =>
          inl (ValueError ("id: " ++ str_opt id ++ " is not a valid event id"))
      | inr true =>
          let ret := JObj [] in
          match get_filter (_store r) (JObj [("ids", json_opt id)]) with
          | inl e => inl (Raised e)
          | inr evts =>
              inr (match evts with
                   | e :: _ => e
                   | [] => ret
                   end)
          end
      end
  end.

(** the inner function of [event_route] (lines 422-448); the relay is read
    when the request is served *)
Definition event_route_the_route (r : Relay Event Store) (query : Query)
    : route_exn + Response :=
  let id := dict_get String.eqb query "id" in
  let ret :=
    match event_route_try r id with
    | inr ret => inr ret
    | inl ve => if is_ValueError ve then inr (JStr (route_exn_str ve))
                else inl ve
    end in
  match ret with
  | inl x => inl x
  | inr (JStr t) => inr (web_Response t)
  | inr ret => inr (web_json_response ret)
  end.

(** [event_route(r)] returns its inner function *)
Definition event_route
    : option (Relay Event Store -> Query -> route_exn + Response) :=
  Some event_route_the_route.

(** [_make_numeric] (lines 542-549) *)
Definition _make_numeric (val : string) : option Z :=
  let n_val := None in
  match py_int val with
  | Some n => Some n
  | None => n_val
  end.

(** [_get_param] (lines 540-568); the result is [None], one value, or a
    list of values *)
Definition _get_param (query : Query) (name : string)
    (mutiple numeric : bool) : option json :=
  let field_vals := None in
  match dict_get String.eqb query name with
  | Some r_val =>
      let r_val := if mutiple then split "," r_val else [r_val] in
      let r_val : list json :=
        if numeric
        then flat_map (fun r_val =>
                         match _make_numeric r_val with
                         | Some n => [JNum n]
                         | None => []
                         end) r_val
        else map JStr r_val in
      match r_val with
      | x :: _ => if mutiple then Some (JArr r_val) else Some x
      | [] => field_vals
      end
  | None => field_vals
  end.

(** [if v: filter[k] = v] *)
Definition set_if_truthy (flt : dict string json) (k : string)
    (v : option json) : dict string json :=
  match v with
  | Some j => if py_truthy j then dict_set String.eqb flt k j else flt
  | None => flt
  end.

(** the filter that the inner function of [filter_route] builds from the
    query (lines 570-586); comparing a limit that is not a number with 100
    would raise [TypeError] *)
Definition filter_route_filter (query : Query) : exn + dict string json :=
  let limit := _get_param query "limit" false true in
  let limit :=
    match limit with
    | None => inr (JNum 100)
    | Some (JNum n) => inr (if 100 <? n then JNum 100 else JNum n)
    | Some _ => inl TypeError
    end in
  match limit with
  | inl e => inl e
  | inr limit =>
      let authors := _get_param query "authors" true false in
      let kinds := _get_param query "kinds" true true in
      let ids := _get_param query "ids" true false in
      let flt := [("limit", limit)] in
      let flt := set_if_truthy flt "authors" authors in
      let flt := set_if_truthy flt "kinds" kinds in
      let flt := set_if_truthy flt "ids" ids in
      inr flt
  end.

(** the inner function of [filter_route] (lines 538-595) *)
Definition filter_route_the_route (r : Relay Event Store) (query : Query)
    : exn + Response :=
  match filter_route_filter query with
  | inl e => inl e
  | inr flt =>
      match get_filter (_store r) (JObj flt) with
      | inl e => inl e
      | inr evts =>
          let ret := JNull in
          let ret := match evts with
                     | _ :: _ => JObj [("events", JArr evts)]
                     | [] => ret
                     end in
          inr (web_json_response ret)
      end
  end.

(** [filter_route(r)] returns its inner function (line 597) *)
Definition filter_route
    : option (Relay Event Store -> Query -> exn + Response) :=
  Some filter_route_the_route.
End Routes.

Section Vocabulary5.
Context {py : PyBuiltins} {imp : Imports}.
Context {Event Store : Type} {EA : EventAPI Event}
        {SI : RelayEventStoreInterface Store Event}.
Let W : Type := World Event Store.

(** every registry holds at most [max_sub] subscriptions, and none when
    [max_sub] is negative *)
Definition capped (w : W) : Prop :=
  forall c cn, In (c, cn) (_ws (relay w)) ->
    len (subs cn) <= Z.max 0 (_max_sub (relay w)).

(** from [w] to [w'] the limit is the same and capped registries stay
    capped *)
Definition keeps_capped (w w' : W) : Prop :=
  _max_sub (relay w') = _max_sub (relay w) /\ (capped w -> capped w').
End Vocabulary5.

(** *** The profile page (lines 453-527) *)

(** [key in x] for a string [key]: a key of a dict, an element of a list,
    a part of a string; anything else is not iterable *)
Definition py_contains (key : string) (x : json) : exn + bool :=
  match x with
  | JObj l => inr (dict_mem String.eqb l key)
  | JArr l =>
      inr (existsb (fun e => match e with
                             | JStr s => (s =? key)%string
                             | _ => false
                             end) l)
  | JStr s => inr (str_in key s)
  | JNull | JBool _ | JNum _ => inl TypeError
  end.

(** [x[key]] for a string [key]: only a dict can be indexed by it *)
Definition py_getitem (x : json) (key : string) : exn + json :=
  match x with
  | JObj l =>
      match dict_get String.eqb l key with
      | Some v => inr v
      | None => inl KeyError
      end
  | _ => inl TypeError
  end.

(** a list comprehension over a function that may raise *)
Fixpoint map_exn {A B : Type} (f : A -> exn + B) (l : list A)
    : exn + list B :=
  match l with
  | [] => inr []
  | x :: l' =>
      match f x with
      | inl e => inl e
      | inr y =>
          match map_exn f l' with
          | inl e => inl e
          | inr ys => inr (y :: ys)
          end
      end
  end.

Definition nl : string := String "010"%char EmptyString.

Fixpoint indent (n : nat) : string :=
  match n with
  | O => EmptyString
  | S n' => String " "%char (indent n')
  end.

(** the text of lines 495-497, with [src] for [%s] *)
Definition picture_html (src : string) : string :=
  nl ++ indent 24 ++ "<img src='" ++ src ++ "' />"
  ++ nl ++ indent 20.

(** the text of lines 499-509, with the four values for the four [%s] *)
Definition profile_html (hex name about picture : string) : string :=
  nl ++ indent 20 ++ "<HTML>"
  ++ nl ++ indent 24 ++ "<b>" ++ hex ++ "</b></br>"
  ++ nl ++ indent 24 ++ "Name: " ++ name ++ " <br>"
  ++ nl ++ indent 24 ++ "About: " ++ about ++ " <br>"
  ++ nl ++ indent 24 ++ picture ++ "    "
  ++ nl ++ indent 20 ++ "</HTML>'"
  ++ nl ++ indent 16.

(** [web.Response(text=t, content_type='text/html')] *)
Definition web_Response_html (t : string) : Response :=
  {| status := 200; content_type := "text/html"; charset := "utf-8";
     text := t |}.

(** what the profile route needs from outside this file: [Keys.get_key]
    and the key's [public_key_hex], [Event.KIND_META],
    [Event.latest_events_only] and the [content] of an event *)
Class ProfileImports (Event : Type) : Type := {
  Key : Type;
  Keys_get_key : string -> exn + option Key;
  public_key_hex : Key -> string;
  KIND_META : Z;
  Event_latest_events_only : list Event -> Z -> exn + list Event;
  Event_content : Event -> string
}.

Section Profile.
Context {py : PyBuiltins}.
Context {Event Store : Type} {EA : EventAPI Event}
        {SI : RelayEventStoreInterface Store Event}
        {pi : ProfileImports Event}.

(** [default], replaced by [p_attrs[key]] if [key in p_attrs] *)
Definition attr_or (p_attrs : json) (key : string) (default : json)
    : exn + json :=
  match py_contains key p_attrs with
  | inl e => inl e
  | inr true => py_getitem p_attrs key
  | inr false => inr default
  end.

(** lines 485-509: the page for the decoded content of a profile *)
Definition profile_page (hex : string) (p_attrs : json) : exn + string :=
  match attr_or p_attrs "name" (JStr "-") with
  | inl e => inl e
  | inr name =>
      match attr_or p_attrs "about" (JStr "-") with
      | inl e => inl e
      | inr about =>
          match py_contains "picture" p_attrs with
          | inl e => inl e
          | inr has_picture =>
              match (if has_picture : bool
                     then match py_getitem p_attrs "picture" with
                          | inl e => inl e
                          | inr v => inr (picture_html (py_str v))
                          end
                     else inr EmptyString) with
              | inl e => inl e
              | inr picture =>
                  inr (profile_html hex (py_str name) (py_str about) picture)
              end
          end
      end
  end.

(** the [try] block of [view_profile_route] (lines 466-512) *)
Definition view_profile_try (r : Relay Event Store) (pub_k : option string)
    : route_exn + string :=
  match pub_k with
  | None => inl (ValueError "pub_k field is required")
  | Some pub_k =>
      match Keys_get_key pub_k with
      | inl e => inl (Raised e)
      | inr None =>
          inl (ValueError
                 (pub_k ++ " - doesn't look like a valid nostr key"))
      | inr (Some k) =>
          match get_filter (_store r)
                  (JObj [("authors", JArr [JStr (public_key_hex k)]);
                         ("kinds", JArr [JNum KIND_META])]) with
          | inl e => inl (Raised e)
          | inr evts =>
              match map_exn Event_from_JSON evts with
              | inl e => inl (Raised e)
              | inr evts =>
                  match Event_latest_events_only evts KIND_META with
                  | inl e => inl (Raised e)
                  | inr (e0 :: _) =>
                      match json_loads (Event_content e0) with
                      | inl e => inl (Raised e)
                      | inr p_attrs =>
                          match profile_page (public_key_hex k) p_attrs with
                          | inl e => inl (Raised e)
                          | inr ret => inr ret
                          end
                      end
                  | inr [] =>
                      inr (public_key_hex k ++ " no meta held on relay")
                  end
              end
          end
      end
  end.

(** the inner function of [view_profile_route] (lines 459-525); what the
    [try] block leaves in [ret] is always a string, so the answer is
    always made at line 520 *)
Definition view_profile_the_route (r : Relay Event Store) (query : Query)
    : route_exn + Response :=
  let pub_k := dict_get String.eqb query "pub_k" in
  let ret :=
    match view_profile_try r pub_k with
    | inr ret => inr ret
    | inl ve => if is_ValueError ve then inr (route_exn_str ve) else inl ve
    end in
  match ret with
  | inl x => inl x
  | inr ret => inr (web_Response_html ret)
  end.

(** [view_profile_route(r)] returns its inner function *)
Definition view_profile_route
    : option (Relay Event Store -> Query -> route_exn + Response) :=
  Some view_profile_the_route.
End Profile.

(** ** Further concrete cases

    A codec that knows more frames, a store whose [do_delete] fails, an
    accept handler that refuses reactions, and the two functions the routes
    import. *)
Module Sample2.
Import Sample.

Definition e5 : event := {| ev_id := "e5"; ev_kind := 5; ev_signed := true |}.
Definition e7 : event := {| ev_id := "e7"; ev_kind := 7; ev_signed := true |}.
Definition forged : event :=
  {| ev_id := "e4"; ev_kind := 1; ev_signed := false |}.

(** two profile events and the content of the first *)
Definition m1 : event := {| ev_id := "m1"; ev_kind := 0; ev_signed := true |}.
Definition m2 : event := {| ev_id := "m2"; ev_kind := 0; ev_signed := true |}.
Definition m3 : event := {| ev_id := "m3"; ev_kind := 0; ev_signed := true |}.
Definition profile_bob : json :=
  JObj [("name", JStr "bob"); ("picture", JStr "http://pics/bob.png")].

Definition close_y : json := JArr [JStr "CLOSE"; JStr "y"].
Definition req_list : json := JArr [JStr "REQ"; JArr [JStr "x"]].
Definition post_number : json := JArr [JStr "EVENT"; JNum 7].
Definition req_1 : json := JArr [JStr "REQ"; JNum 1].
Definition req_true : json := JArr [JStr "REQ"; JBool true].
Definition close_true : json := JArr [JStr "CLOSE"; JBool true].

Definition frames2 : list json :=
  (frames
   ++ [ JArr [JStr "CLOSE"]; close_y; JArr [JStr "EVENT"]; post forged;
        post e5; post e7; req_list; post_number;
        JObj [("a", JNum 1)]; JStr "REQ"; profile_bob;
        req_1; req_true; close_true ])%list.

Definition loads2 (s : string) : exn + json :=
  match find (fun j => (dumps j =? s)%string) frames2 with
  | Some j => inr j
  | None => inl (JSONDecodeError "Expecting value: line 1 column 1 (char 0)")
  end.

Definition builtins2 : PyBuiltins := {|
  json_loads := loads2;
  json_dumps := dumps;
  repr_str := fun s => "'" ++ s ++ "'"
|}.

#[local] Existing Instance builtins2.

(** a filter object with [kinds] asks for these kinds, any other filter
    for everything *)
Definition wanted (e : event) (f : json) : bool :=
  match f with
  | JObj l =>
      match dict_get String.eqb l "kinds" with
      | Some (JArr ks) =>
          existsb (fun k => match k with
                            | JNum n => n =? ev_kind e
                            | _ => false
                            end) ks
      | _ => true
      end
  | _ => true
  end.

(** a store that keeps what it is given and cannot delete *)
Record frail : Type := {
  kept : list event;
  as_duplicate : bool
}.

#[export] Instance frails : RelayEventStoreInterface frail event := {
  add_event := fun s e =>
    ({| kept := e :: kept s; as_duplicate := as_duplicate s |}, None);
  do_delete := fun s _ =>
    (s, Some (if as_duplicate s
              then IntegrityError "UNIQUE constraint failed: events.event_id"
              else Exception "no such table: deleted"));
  get_filter := fun s f =>
    inr (map data (filter (fun e => wanted e f) (kept s)));
  is_NIP09 := fun _ => true;
  is_NIP16 := fun _ => false
}.

Definition frail_store (dup : bool) : frail :=
  {| kept := []; as_duplicate := dup |}.

(** a handler that refuses events of kind 7 *)
Definition no_reactions : AcceptReqHandler event :=
  fun _ e =>
    if ev_kind e =? 7
    then Some (NostrCommandException "reactions are not accepted")
    else None.

(** a handler that breaks *)
Definition faulty : AcceptReqHandler event := fun _ _ => Some TypeError.

(** the relay that [Relay(store, accept_req_handler=[...])] builds *)
Definition relay1 {Store : Type} {SI : RelayEventStoreInterface Store event}
    (hs : list (AcceptReqHandler event)) (s : Store) : Relay event Store :=
  {| _ws_id := 0%nat; _ws := []; _store := s; _max_sub := 3;
     _enable_nip15 := true; _accept_req := hs;
     _relay_information :=
       [("software", JStr "https://github.com/monty888/nostrpy");
        ("version", JStr "0.1");
        ("supported_nips", JArr (map JNum (supported_nips s true)))] |}.

(** the world the actions lead to, with this codec *)
Definition after2 {Store : Type} {SI : RelayEventStoreInterface Store event}
    (acts : list Action) (w : World event Store) : World event Store :=
  match run acts w with
  | Some w' => w'
  | None => w
  end.

(** decimal digits, with a sign *)
Fixpoint digits (s : string) (acc : Z) : option Z :=
  match s with
  | EmptyString => Some acc
  | String ch s' =>
      let n := Z.of_nat (nat_of_ascii ch) in
      if ((48 <=? n) && (n <=? 57))%bool
      then digits s' (10 * acc + (n - 48))
      else None
  end.

Definition to_int (s : string) : option Z :=
  match s with
  | EmptyString => None
  | String "-" (String ch s') => option_map Z.opp (digits (String ch s') 0)
  | _ => digits s 0
  end.

#[export] Instance route_imports : RouteImports := {
  Event_is_event_id := fun o =>
    match o with
    | Some s => inr (Nat.eqb (String.length s) 64 && all_hex s)%bool
    | None => inr false
    end;
  py_int := to_int
}.

(** the content of the sample events: a profile, a number, and text that
    is not JSON *)
Definition content_of (e : event) : string :=
  if (ev_id e =? "m1")%string then dumps profile_bob
  else if (ev_id e =? "m2")%string then "5"
  else "junk".

#[export] Instance profile_imports : ProfileImports event := {
  Key := string;
  Keys_get_key := fun s => inr (if Keys_is_key s then Some s else None);
  public_key_hex := fun k => k;
  KIND_META := 0;
  Event_latest_events_only := fun es kind =>
    inr (filter (fun e => ev_kind e =? kind) es);
  Event_content := content_of
}.

Definition holding (es : list event) : frail :=
  {| kept := es; as_duplicate := false |}.

(** the one field the sample events can be asked for: [kinds] *)
Definition kinds_hold (k : string) (v : json) (e : event) : bool :=
  if (k =? "kinds")%string
  then match v with
       | JArr ks => existsb (fun k => match k with
                                      | JNum n => n =? ev_kind e
                                      | _ => false
                                      end) ks
       | _ => false
       end
  else true.

(** the sample events with the matcher of the spec *)
Definition spec_events : EventAPI event := with_spec_test kinds_hold events.
End Sample2.
(** * Properties *)

Unset Implicit Arguments.

(** ** Dictionaries *)

Section DictFacts.
Variables K V : Type.
Variable eqb : K -> K -> bool.

Lemma dict_set_length_le (d : dict K V) k v :
  (List.length (dict_set eqb d k v) <= S (List.length d))%nat.
Proof.
  induction d as [|[k' v'] d IH]; simpl; [lia|].
  destruct (eqb k k'); simpl; lia.
Qed.

Lemma dict_del_length_le (d : dict K V) k :
  (List.length (dict_del eqb d k) <= List.length d)%nat.
Proof.
  induction d as [|[k' v'] d IH]; simpl; [lia|].
  destruct (eqb k k'); simpl; lia.
Qed.

Lemma dict_get_set_same (d : dict K V) k v :
  eqb k k = true ->
  dict_get eqb (dict_set eqb d k v) k = Some v.
Proof.
  intros Hr. induction d as [|[k' v'] d IH]; simpl.
  - now rewrite Hr.
  - destruct (eqb k k') eqn:E; simpl; rewrite E; auto.
Qed.

(** a key that is not there is entered last *)
Lemma dict_set_fresh (d : dict K V) k v :
  dict_mem eqb d k = false -> dict_set eqb d k v = (d ++ [(k, v)])%list.
Proof.
  unfold dict_mem. induction d as [|[k' v'] d IH]; simpl; auto.
  destruct (eqb k k'); [discriminate|]. intros H. now rewrite IH.
Qed.

Lemma dict_del_In (d : dict K V) k x :
  In x (dict_del eqb d k) -> In x d.
Proof.
  induction d as [|[k' v'] d IH]; simpl; auto.
  destruct (eqb k k'); simpl; intuition.
Qed.

Lemma dict_set_In (d : dict K V) k v x :
  In x (dict_set eqb d k v) -> In x d \/ snd x = v.
Proof.
  induction d as [|[k' v'] d IH]; simpl.
  - intros [<-|[]]. now right.
  - destruct (eqb k k'); simpl.
    + intros [<-|H]; auto.
    + intros [<-|H]; auto. destruct (IH H); auto.
Qed.

Lemma dict_get_In (d : dict K V) k v :
  dict_get eqb d k = Some v -> exists k', In (k', v) d /\ eqb k k' = true.
Proof.
  induction d as [|[k' v'] d IH]; simpl; [discriminate|].
  destruct (eqb k k') eqn:E.
  - intros [= <-]. exists k'. auto.
  - intros H. destruct (IH H) as (k2 & Hin & Hk). exists k2. auto.
Qed.
End DictFacts.

Lemma nat_dict_get_set_same {V} (d : dict nat V) k v :
  dict_get Nat.eqb (dict_set Nat.eqb d k v) k = Some v.
Proof.
  apply dict_get_set_same. apply Nat.eqb_refl.
Qed.

Lemma nat_dict_get_set_other {V} (d : dict nat V) k k' v :
  k <> k' ->
  dict_get Nat.eqb (dict_set Nat.eqb d k v) k' = dict_get Nat.eqb d k'.
Proof.
  intros Hne. induction d as [|[k2 v2] d IH]; simpl.
  - destruct (Nat.eqb k' k) eqn:E; auto.
    apply Nat.eqb_eq in E. congruence.
  - destruct (Nat.eqb k k2) eqn:E; simpl.
    + apply Nat.eqb_eq in E. subst k2.
      destruct (Nat.eqb k' k) eqn:E'; auto.
      apply Nat.eqb_eq in E'. congruence.
    + now rewrite IH.
Qed.


(** ** The constructor and the NIP-11 document *)

Section InitFacts.
Context {py : PyBuiltins} {imp : Imports}.
Context {Event Store : Type} {EA : EventAPI Event}
        {SI : RelayEventStoreInterface Store Event}.

Lemma supported_nips_cases (store : Store) (eose : bool) :
  supported_nips store eose =
    ([1; 2]
     ++ (if is_NIP09 store then [9] else [])
     ++ [11]
     ++ (if eose then [15] else [])
     ++ (if is_NIP16 store then [16] else []))%list.
Proof.
  unfold supported_nips.
  destruct eose, (is_NIP09 store), (is_NIP16 store); reflexivity.
Qed.

Lemma supported_nips_sorted (store : Store) (eose : bool) :
  StronglySorted Z.lt (supported_nips store eose).
Proof.
  rewrite supported_nips_cases.
  destruct eose, (is_NIP09 store), (is_NIP16 store); simpl;
    repeat (constructor; try lia).
Qed.

Lemma supported_nips_members (store : Store) (eose : bool) :
  In 1 (supported_nips store eose) /\
  In 2 (supported_nips store eose) /\
  In 11 (supported_nips store eose) /\
  (In 9 (supported_nips store eose) <-> is_NIP09 store = true) /\
  (In 15 (supported_nips store eose) <-> eose = true) /\
  (In 16 (supported_nips store eose) <-> is_NIP16 store = true).
Proof.
  rewrite supported_nips_cases.
  destruct eose, (is_NIP09 store), (is_NIP16 store); simpl;
    repeat split; intros; auto; try tauto;
    repeat match goal with
           | H : _ \/ _ |- _ => destruct H
           | H : False |- _ => destruct H
           end; try discriminate; try lia.
Qed.

Lemma set_if_given_keeps_nips info k o v :
  k <> "supported_nips" ->
  dict_get String.eqb info "supported_nips" = Some v ->
  dict_get String.eqb (set_if_given info k o) "supported_nips" = Some v.
Proof.
  intros Hk H. unfold set_if_given.
  destruct o as [s|]; auto. destruct (opt_truthy (Some s)); auto.
  clear - Hk H.
  induction info as [|[k' v'] info IH]; cbn [dict_get dict_set] in *.
  - discriminate.
  - destruct (String.eqb "supported_nips" k') eqn:E'.
    + destruct (String.eqb k k') eqn:E; cbn [dict_get]; rewrite E'; auto.
      apply String.eqb_eq in E, E'. congruence.
    + destruct (String.eqb k k') eqn:E; cbn [dict_get]; rewrite E'; auto.
Qed.

(** What a successful construction leaves in the information document. *)
Lemma init_information store a max_sub name description pubkey contact eose
    (r : Relay Event Store) :
  Relay__init__ store a max_sub name description pubkey contact eose = inr r ->
  dict_get String.eqb (_relay_information r) "supported_nips"
    = Some (JArr (map JNum (supported_nips store eose))).
Proof.
  unfold Relay__init__. intros H.
  destruct pubkey as [k|].
  - destruct (Keys_is_key k); simpl in H; discriminate.
  - injection H as <-. simpl.
    repeat apply set_if_given_keeps_nips; try discriminate.
    reflexivity.
Qed.
End InitFacts.

(** C1 (as the code behaves): whenever the [pubkey] option is supplied the
    constructor raises, whether or not the key passes [Keys.is_key].  A key
    that fails the check is refused at line 100; a key that passes it is
    refused at line 125, where the test is not negated, so the field is never
    written to the information document. *)
Theorem init_refuses_every_pubkey
    {py : PyBuiltins} {imp : Imports} {Event Store : Type}
    {EA : EventAPI Event} {SI : RelayEventStoreInterface Store Event}
    (store : Store) a (max_sub : Z) (name description contact : option string)
    (k : string) (eose : bool) :
  Relay__init__ store a max_sub name description (Some k) contact eose
    = inl (pubkey_error k).
Proof.
  unfold Relay__init__. destruct (Keys_is_key k); reflexivity.
Qed.

(** ** What a computation leaves untouched

    [stable R m] says that the world after [m] is related by [R] to the
    world before it, whatever the outcome.  For a preorder [R] this passes
    through sequencing, handlers and loops, so it only has to be checked on
    the few operations that write to the world. *)

Section Stable.
Context {Event Store : Type}.
Let W : Type := World Event Store.
Let M : Type -> Type := M Event Store.

Variable R : W -> W -> Prop.
Hypothesis R_refl : forall w, R w w.
Hypothesis R_trans : forall a b c, R a b -> R b c -> R a c.

Lemma stable_ret {A} (a : A) : stable R (ret a).
Proof. intros w. apply R_refl. Qed.

Lemma stable_raise {A} (e : exn) : stable R (@raise _ _ A e).
Proof. intros w. apply R_refl. Qed.

Lemma stable_await {A} : stable R (@await _ _ A).
Proof. intros w. apply R_refl. Qed.

Lemma stable_lift {A} (x : exn + A) : stable R (lift x).
Proof. destruct x; [apply stable_raise | apply stable_ret]. Qed.

Lemma stable_get_relay : stable R (@get_relay Event Store).
Proof. intros w. apply R_refl. Qed.


Lemma stable_bind {A B} (m : M A) (f : A -> M B) :
  stable R m -> (forall a, stable R (f a)) -> stable R (bind m f).
Proof.
  intros Hm Hf w. unfold bind. specialize (Hm w).
  destruct (m w) as [[a|e|] w']; simpl in *; auto.
  eapply R_trans; [exact Hm | apply Hf].
Qed.

Lemma stable_catch {A} (m : M A) (h : exn -> M A) :
  stable R m -> (forall e, stable R (h e)) -> stable R (catch m h).
Proof.
  intros Hm Hh w. unfold catch. specialize (Hm w).
  destruct (m w) as [[a|e|] w']; simpl in *; auto.
  eapply R_trans; [exact Hm | apply Hh].
Qed.

Lemma stable_for_each {A} (l : list A) (body : A -> M unit) :
  (forall x, stable R (body x)) -> stable R (for_each l body).
Proof.
  intros Hb. induction l as [|x l IH]; simpl.
  - apply stable_ret.
  - apply stable_bind; auto.
Qed.

Lemma stable_if {A} (b : bool) (m1 m2 : M A) :
  stable R m1 -> stable R m2 -> stable R (if b then m1 else m2).
Proof. destruct b; auto. Qed.
End Stable.

Create HintDb stable.

#[local] Hint Resolve stable_ret stable_raise stable_await stable_lift
  stable_get_relay stable_bind stable_catch stable_for_each stable_if
  : stable.

(** The relay writes to the world in four places only: the ready queue
    ([create_task]), a socket ([send_str]), the store ([store_call]) and the
    subscriptions of a connection ([put_subs]).  Whatever these four leave
    untouched, the command handlers leave untouched. *)
Section StableRelay.
Context {py : PyBuiltins} {imp : Imports}.
Context {Event Store : Type} {EA : EventAPI Event}
        {SI : RelayEventStoreInterface Store Event}.
Let W : Type := World Event Store.

Variable R : W -> W -> Prop.
Hypothesis R_refl : forall w, R w w.
Hypothesis R_trans : forall a b c, R a b -> R b c -> R a c.
Hypothesis R_task : forall t, stable R (create_task t).
Hypothesis R_send : forall c s, stable R (send_str c s).
Hypothesis R_store : forall f, stable R (store_call f).

Lemma stable_do_send c data : stable R (_do_send c data).
Proof. unfold _do_send. auto with stable. Qed.

Lemma stable_send_event c sub_id evt : stable R (_send_event c sub_id evt).
Proof. unfold _send_event. auto. Qed.

Lemma stable_send_eose c sub_id : stable R (_send_eose c sub_id).
Proof. unfold _send_eose. apply stable_do_send. Qed.

Lemma stable_check_subs evt : stable R (_check_subs evt).
Proof.
  unfold _check_subs. apply stable_bind; auto with stable.
  intros r. apply stable_for_each; auto. intros [socket_id conn].
  apply stable_for_each; auto. intros [c_sub_id the_sub].
  apply stable_if; auto with stable.
Qed.

Lemma stable_do_event_except evt e : stable R (_do_event_except evt e).
Proof.
  unfold _do_event_except.
  repeat (apply stable_if; auto with stable).
Qed.

Lemma stable_do_event req c : stable R (_do_event req c).
Proof.
  unfold _do_event. apply stable_if; auto with stable.
  apply stable_bind; auto with stable. intros evt.
  apply stable_if; auto with stable.
  apply stable_bind; auto with stable. intros r.
  apply stable_bind.
  - auto. 
  - apply stable_for_each; auto. intros h.
    destruct (h c evt); auto with stable.
  - intros _. apply stable_catch; auto.
    + apply stable_bind; auto. intros _.
      apply stable_bind; auto.
      * apply stable_if; auto with stable.
      * intros _. apply stable_check_subs.
    + apply stable_do_event_except.
Qed.

Lemma stable_do_sub_backfill c sub_id evts :
  stable R (_do_sub_backfill c sub_id evts).
Proof.
  unfold _do_sub_backfill. destruct evts as [|e rest].
  - apply stable_bind; auto with stable. intros r.
    apply stable_if; auto with stable. apply stable_send_eose.
  - apply stable_bind; auto with stable.
Qed.

Lemma stable_do_request_except c e : stable R (_do_request_except c e).
Proof. unfold _do_request_except. destruct e; auto with stable. Qed.

Lemma stable_resume k : stable R (resume k).
Proof.
  destruct k as [c sub_id rest]. simpl.
  apply stable_catch; auto.
  - apply stable_do_sub_backfill.
  - apply stable_do_request_except.
Qed.

Lemma stable_conn_of c : stable R (conn_of c).
Proof.
  unfold conn_of. apply stable_bind; auto with stable. intros r.
  destruct (dict_get Nat.eqb (_ws r) c); auto with stable.
Qed.

Lemma stable_has_sub d sub_id : stable R (has_sub d sub_id).
Proof. unfold has_sub. apply stable_if; auto with stable. Qed.

(** the two handlers that write subscriptions are taken as given here *)
Hypothesis R_sub : forall req c, stable R (_do_sub req c).
Hypothesis R_unsub : forall req c, stable R (_do_unsub req c).

Lemma stable_do_request_try c s : stable R (_do_request_try c s).
Proof.
  unfold _do_request_try. apply stable_bind; auto with stable.
  intros as_json. apply stable_if; auto with stable.
  apply stable_bind; auto with stable. intros cmd.
  apply stable_if; auto with stable.
  apply stable_if; [apply stable_do_event|].
  apply stable_if; auto.
  apply stable_if; auto with stable.
Qed.

Lemma stable_do_request c s : stable R (_do_request c s).
Proof.
  unfold _do_request. apply stable_if; auto with stable.
  apply stable_catch; auto.
  - apply stable_do_request_try.
  - apply stable_do_request_except.
Qed.
End StableRelay.

(** ** The dispatcher *)

Lemma len_two_or_more {A} (a b : A) (l : list A) :
  (len (a :: b :: l) <=? 1) = false.
Proof. unfold len. apply Z.leb_gt. simpl List.length. lia. Qed.



(** A command that passes [cmd in VALID_CMDS] was read from an array. *)
Lemma valid_cmd_array (j cmd : json) :
  py_getitem0 j = inr cmd -> is_valid_cmd cmd = true ->
  exists rest, j = JArr (cmd :: rest).
Proof.
  destruct j as [| | |s|l|l]; simpl; try discriminate.
  - destruct s as [|a s]; [discriminate|]. intros [= <-]. simpl.
    repeat match goal with
           | |- context [Ascii.eqb ?x ?y] => destruct (Ascii.eqb x y)
           end; discriminate.
  - destruct l as [|x l]; [discriminate|]. intros [= <-] _. now exists l.
Qed.

Section Dispatcher.
Context {py : PyBuiltins} {imp : Imports}.
Context {Event Store : Type} {EA : EventAPI Event}
        {SI : RelayEventStoreInterface Store Event}.
Let W : Type := World Event Store.

Lemma send_str_answered (c : ws_id) (f : string) (w : W) :
  answered c f w (send_str c f w).
Proof.
  unfold answered, closing_of, send_str.
  destruct (dict_get Nat.eqb (socks w) c) as [sk|] eqn:E; [|reflexivity].
  destruct (closing sk) eqn:Ec; [reflexivity|].
  split; [reflexivity|]. unfold sends_only, wire_of, closing_of. simpl.
  repeat split; auto.
  - intros c' Hne. now apply nat_dict_get_set_other.
  - now rewrite nat_dict_get_set_same.
  - now rewrite nat_dict_get_set_same, E.
Qed.

Lemma do_request_empty (c : ws_id) (w : W) :
  _do_request c EmptyString w = (Return tt, w).
Proof. reflexivity. Qed.

Lemma do_request_nonempty (c : ws_id) (s : string) (w : W) :
  s <> EmptyString ->
  _do_request c s w = catch (_do_request_try c s) (_do_request_except c) w.
Proof.
  intros H. unfold _do_request.
  destruct (String.eqb_spec s EmptyString); [contradiction|reflexivity].
Qed.

Lemma do_request_malformed (c : ws_id) (s msg : string) (w : W) :
  s <> EmptyString -> json_loads s = inl (JSONDecodeError msg) ->
  _do_request c s w
    = send_str c (json_dumps (notice "unable to decode command string")) w.
Proof.
  intros Hs H. rewrite do_request_nonempty by assumption.
  unfold catch, _do_request_try, bind, lift. rewrite H. reflexivity.
Qed.

Lemma do_request_no_command (c : ws_id) (s : string) (j : json) (w : W) :
  s <> EmptyString -> json_loads s = inr j -> py_truthy j = false ->
  _do_request c s w
    = send_str c (json_dumps (notice "No command received")) w.
Proof.
  intros Hs H Hj. rewrite do_request_nonempty by assumption.
  unfold catch, _do_request_try, bind, lift. rewrite H. simpl.
  rewrite Hj. reflexivity.
Qed.

Lemma do_request_unsupported (c : ws_id) (s : string) (cmd : json)
    (rest : list json) (w : W) :
  s <> EmptyString -> json_loads s = inr (JArr (cmd :: rest)) ->
  is_valid_cmd cmd = false ->
  _do_request c s w
    = send_str c (json_dumps (notice ("unsupported command " ++ py_str cmd))) w.
Proof.
  intros Hs H Hc. rewrite do_request_nonempty by assumption.
  unfold catch, _do_request_try, bind, lift. rewrite H. simpl.
  rewrite Hc. reflexivity.
Qed.
End Dispatcher.

(** C3 (amended): an empty text frame is ignored: nothing is written and
    nothing changes.  A frame that is not empty and is malformed JSON, or
    decodes to an empty value such as the empty array, or is an array whose
    first element is not EVENT, REQ or CLOSE, is answered by exactly one
    NOTICE written to the same socket, and the relay state (connection table
    and every registry) is unchanged; when the socket's transport is already
    closing the write raises and nothing changes. *)
Theorem bad_frame_reply
    {py : PyBuiltins} {imp : Imports} {Event Store : Type}
    {EA : EventAPI Event} {SI : RelayEventStoreInterface Store Event}
    (c : ws_id) (w : World Event Store) :
  _do_request c EmptyString w = (Return tt, w) /\
  (forall s, s <> EmptyString ->
     (forall msg, json_loads s = inl (JSONDecodeError msg) ->
      answered c (json_dumps (notice "unable to decode command string")) w
        (_do_request c s w)) /\
     (forall j, json_loads s = inr j -> py_truthy j = false ->
      answered c (json_dumps (notice "No command received")) w
        (_do_request c s w)) /\
     (forall cmd rest,
        json_loads s = inr (JArr (cmd :: rest)) -> is_valid_cmd cmd = false ->
        answered c
          (json_dumps (notice ("unsupported command " ++ py_str cmd))) w
          (_do_request c s w))).
Proof.
  split; [apply do_request_empty|].
  intros s Hs. repeat split.
  - intros msg H. rewrite (do_request_malformed c s msg w Hs H).
    apply send_str_answered.
  - intros j H Hj. rewrite (do_request_no_command c s j w Hs H Hj).
    apply send_str_answered.
  - intros cmd rest H Hc.
    rewrite (do_request_unsupported c s cmd rest w Hs H Hc).
    apply send_str_answered.
Qed.

(** ** The fan-out *)

Section Fanout.
Context {py : PyBuiltins} {imp : Imports}.
Context {Event Store : Type} {EA : EventAPI Event}
        {SI : RelayEventStoreInterface Store Event}.
Let W : Type := World Event Store.
Let M : Type -> Type := M Event Store.

Lemma set_ready_nil (w : W) : set_ready (ready w ++ [])%list w = w.
Proof. destruct w. unfold set_ready. simpl. now rewrite app_nil_r. Qed.

Lemma for_each_tasks {A} (l : list A) (g : A -> list Task)
    (body : A -> M unit) :
  (forall x w, body x w = (Return tt, set_ready (ready w ++ g x)%list w)) ->
  forall w,
    for_each l body w
      = (Return tt, set_ready (ready w ++ flat_map g l)%list w).
Proof.
  intros Hb. induction l as [|x l IH]; intros w; simpl.
  - unfold ret. now rewrite set_ready_nil.
  - unfold bind. rewrite Hb, IH. unfold set_ready. simpl.
    now rewrite app_assoc.
Qed.

(** [_check_subs] never raises and only appends the tasks of the matching
    subscriptions to the ready queue. *)
Lemma check_subs_spec (evt : Event) (w : W) :
  _check_subs evt w
    = (Return tt,
       set_ready (ready w ++ matching_sends evt (_ws (relay w)))%list w).
Proof.
  unfold _check_subs, bind, get_relay. simpl.
  unfold matching_sends.
  rewrite (for_each_tasks (_ws (relay w))
    (fun '(socket_id, conn) =>
       flat_map (fun '(c_sub_id, the_sub) =>
         if Event_test evt (filter_of the_sub)
         then [T_send_event (ws conn) c_sub_id (Event_event_data evt) None]
         else []) (subs conn))); [reflexivity|].
  intros [socket_id conn] w0.
  apply for_each_tasks. intros [c_sub_id the_sub] w1.
  destruct (Event_test evt (filter_of the_sub)).
  - reflexivity.
  - unfold ret. now rewrite set_ready_nil.
Qed.

Lemma matching_sends_sound (evt : Event) (table : dict ws_id Conn) t :
  In t (matching_sends evt table) ->
  exists socket_id conn c_sub_id the_sub,
    In (socket_id, conn) table /\
    In (c_sub_id, the_sub) (subs conn) /\
    Event_test evt (filter_of the_sub) = true /\
    t = T_send_event (ws conn) c_sub_id (Event_event_data evt) None.
Proof.
  unfold matching_sends. intros H.
  apply in_flat_map in H. destruct H as ([socket_id conn] & Hc & H).
  apply in_flat_map in H. destruct H as ([c_sub_id the_sub] & Hs & H).
  destruct (Event_test evt (filter_of the_sub)) eqn:E; simpl in H.
  - destruct H as [<-|[]]. exists socket_id, conn, c_sub_id, the_sub. auto.
  - destruct H.
Qed.

Lemma matching_sends_complete (evt : Event) (table : dict ws_id Conn)
    socket_id conn c_sub_id the_sub :
  In (socket_id, conn) table ->
  In (c_sub_id, the_sub) (subs conn) ->
  Event_test evt (filter_of the_sub) = true ->
  In (T_send_event (ws conn) c_sub_id (Event_event_data evt) None)
     (matching_sends evt table).
Proof.
  intros Hc Hs Ht. unfold matching_sends.
  apply in_flat_map. exists (socket_id, conn). split; [assumption|].
  apply in_flat_map. exists (c_sub_id, the_sub). split; [assumption|].
  rewrite Ht. now left.
Qed.
End Fanout.

(** C9: every send that the live fan-out schedules for an event [evt] is for
    a subscription that is registered on some connection at that moment and
    whose filter the event passes ([evt.test(filter)] is true); the fan-out
    schedules nothing else. *)
Theorem fanout_only_matching
    {py : PyBuiltins} {imp : Imports} {Event Store : Type}
    {EA : EventAPI Event} {SI : RelayEventStoreInterface Store Event}
    (evt : Event) (w : World Event Store) :
  exists scheduled,
    _check_subs evt w
      = (Return tt, set_ready (ready w ++ scheduled)%list w) /\
    forall t, In t scheduled ->
      exists socket_id conn c_sub_id the_sub,
        In (socket_id, conn) (_ws (relay w)) /\
        In (c_sub_id, the_sub) (subs conn) /\
        Event_test evt (filter_of the_sub) = true /\
        t = T_send_event (ws conn) c_sub_id (Event_event_data evt) None.
Proof.
  exists (matching_sends evt (_ws (relay w))). split.
  - apply check_subs_spec.
  - intros t. apply matching_sends_sound.
Qed.

(** ** Posting an event *)

Section Posting.
Context {py : PyBuiltins} {imp : Imports}.
Context {Event Store : Type} {EA : EventAPI Event}
        {SI : RelayEventStoreInterface Store Event}.
Let W : Type := World Event Store.
Let M : Type -> Type := M Event Store.

Lemma answered_relay (c : ws_id) (f : string) (w : W) r :
  answered c f w r -> relay (snd r) = relay w.
Proof.
  unfold answered. destruct (closing_of c w).
  - intros ->. reflexivity.
  - intros [_ H]. apply H.
Qed.

Lemma accept_all_pass (hs : list (AcceptReqHandler Event)) c evt (w : W) :
  Forall (fun h => h c evt = None) hs ->
  for_each hs (fun c_accept =>
    match c_accept c evt with
    | Some e => raise e
    | None => ret tt
    end) w = (Return tt, w).
Proof.
  induction 1 as [|h hs Hh _ IH]; simpl; [reflexivity|].
  unfold bind. rewrite Hh. simpl. exact IH.
Qed.

Lemma do_event_except_duplicate evt e (w : W) :
  is_duplicate_error e = true ->
  _do_event_except evt e w
    = (Raise (event_already_exists (Event_id evt)), w).
Proof.
  unfold is_duplicate_error, _do_event_except. intros H.
  apply andb_prop in H. destruct H as [-> ->]. reflexivity.
Qed.

Lemma do_event_except_other evt e (w : W) :
  is_duplicate_error e = false ->
  _do_event_except evt e w = (Return tt, w).
Proof.
  unfold is_duplicate_error, _do_event_except. intros H.
  destruct (is_integrity_error e); [|reflexivity].
  simpl in H. rewrite H. reflexivity.
Qed.

(** a post that reaches the store and is refused by it ends in the
    handler of lines 283-294, run in the world the store call left *)
Lemma do_event_store_failure hd j rest c evt s' e (w : W) :
  Event_from_JSON j = inr evt -> Event_is_valid evt = true ->
  Forall (fun h => h c evt = None) (_accept_req (relay w)) ->
  add_event (_store (relay w)) evt = (s', Some e) ->
  _do_event (hd :: j :: rest) c w
    = _do_event_except evt e (set_relay (with_store s' (relay w)) w).
Proof.
  intros Hj Hv Ha Hs. unfold _do_event.
  rewrite len_two_or_more. cbn [nth]. rewrite Hj.
  unfold bind at 1. cbn [lift ret]. rewrite Hv. cbn [negb].
  unfold bind at 1. cbn [get_relay].
  unfold bind at 1. rewrite accept_all_pass by assumption.
  unfold catch, bind, store_call. rewrite Hs. reflexivity.
Qed.

Lemma do_request_event c s j rest (w : W) :
  s <> EmptyString ->
  json_loads s = inr (JArr (JStr "EVENT" :: j :: rest)) ->
  _do_request c s w
    = catch (_do_event (JStr "EVENT" :: j :: rest) c)
            (_do_request_except c) w.
Proof.
  intros Hs H. rewrite do_request_nonempty by assumption.
  unfold catch, _do_request_try, bind, lift. rewrite H. reflexivity.
Qed.
End Posting.

(** C4 (amended): an EVENT post that reaches the store, i.e. that parses,
    passes the signature check and every accept handler, and that
    [store.add_event] refuses.  If the error is the one the relay takes for
    a duplicate, the client gets the NOTICE "event already exists: <id>".
    For any other store error nothing is written to any socket and nothing
    is scheduled: the request just returns, so the read loop goes on and the
    connection stays open.  In both cases the relay state is what the store
    call left. *)
Theorem store_failure_reply
    {py : PyBuiltins} {imp : Imports} {Event Store : Type}
    {EA : EventAPI Event} {SI : RelayEventStoreInterface Store Event}
    (c : ws_id) (s : string) (j : json) (rest : list json) (evt : Event)
    (s' : Store) (e : exn) (w : World Event Store) :
  s <> EmptyString ->
  json_loads s = inr (JArr (JStr "EVENT" :: j :: rest)) ->
  Event_from_JSON j = inr evt ->
  Event_is_valid evt = true ->
  Forall (fun h => h c evt = None) (_accept_req (relay w)) ->
  add_event (_store (relay w)) evt = (s', Some e) ->
  let w1 := set_relay (with_store s' (relay w)) w in
  (is_duplicate_error e = true ->
   answered c
     (json_dumps (notice ("event already exists: " ++ Event_id evt))) w1
     (_do_request c s w)) /\
  (is_duplicate_error e = false -> _do_request c s w = (Return tt, w1)).
Proof.
  intros Hs Hl Hj Hv Ha Hadd w1.
  rewrite (do_request_event c s j rest w Hs Hl). unfold catch.
  rewrite (do_event_store_failure (JStr "EVENT") j rest c evt s' e w
             Hj Hv Ha Hadd).
  fold w1. split; intros Hd.
  - rewrite do_event_except_duplicate by assumption.
    apply send_str_answered.
  - rewrite do_event_except_other by assumption. reflexivity.
Qed.

(** ** Opening and closing subscriptions *)

Lemma key_eqb_refl (k : json) : hashable k = true -> key_eqb k k = true.
Proof.
  destruct k; simpl; try discriminate; intros _; auto.
  - apply Bool.eqb_reflx.
  - apply Z.eqb_refl.
  - apply String.eqb_refl.
Qed.

Section Subscribing.
Context {py : PyBuiltins} {imp : Imports}.
Context {Event Store : Type} {EA : EventAPI Event}
        {SI : RelayEventStoreInterface Store Event}.
Let W : Type := World Event Store.
Let M : Type -> Type := M Event Store.

Lemma subs_of_conn c cn (w : W) :
  dict_get Nat.eqb (_ws (relay w)) c = Some cn -> subs_of c w = subs cn.
Proof. unfold subs_of. now intros ->. Qed.

Lemma put_subs_conn c cn d (w : W) :
  dict_get Nat.eqb (_ws (relay w)) c = Some cn ->
  put_subs c d w
    = (Return tt,
       set_relay (with_ws (dict_set Nat.eqb (_ws (relay w)) c
                             {| subs := d; ws := ws cn |}) (relay w)) w).
Proof. unfold put_subs, modify. now intros ->. Qed.

Lemma register_conn c cn sub_id flt (w : W) :
  dict_get Nat.eqb (_ws (relay w)) c = Some cn ->
  dict_get Nat.eqb (_ws (relay (register c sub_id flt w))) c
    = Some {| subs := dict_set key_eqb (subs cn) sub_id
                        {| sub_id_of := sub_id; filter_of := flt |};
              ws := ws cn |}.
Proof.
  intros H. unfold register.
  rewrite (put_subs_conn c cn _ w H). simpl.
  rewrite nat_dict_get_set_same. now rewrite (subs_of_conn c cn w H).
Qed.

Lemma register_store c sub_id flt (w : W) :
  _store (relay (register c sub_id flt w)) = _store (relay w).
Proof.
  unfold register, put_subs, modify. simpl.
  destruct (dict_get Nat.eqb (_ws (relay w)) c); reflexivity.
Qed.

(** a REQ that passes the checks enters the subscription and only then
    asks the store *)
Lemma do_sub_accepted hd sub_id filters c (w : W) :
  accepts c sub_id w ->
  _do_sub (hd :: sub_id :: filters) c w
    = (evts <- lift (get_filter (_store (relay w))
                       (req_filter (hd :: sub_id :: filters))) ;;
       _do_sub_backfill c sub_id evts)
        (register c sub_id (req_filter (hd :: sub_id :: filters)) w).
Proof.
  intros ([cn Hc] & Hh & Hm & Hl).
  unfold _do_sub. rewrite len_two_or_more. cbn [nth].
  fold (req_filter (hd :: sub_id :: filters)).
  unfold bind at 1. unfold conn_of at 1, bind at 1, get_relay at 1.
  rewrite Hc. cbn [ret].
  unfold bind at 1, has_sub at 1. rewrite Hh. cbn [ret].
  rewrite <- (subs_of_conn c cn w Hc). rewrite Hm.
  unfold bind at 1, get_relay at 1.
  destruct (Z.leb_spec (_max_sub (relay w)) (len (subs_of c w))); [lia|].
  unfold bind at 1. unfold register.
  rewrite (put_subs_conn c cn _ w Hc). cbn [fst snd].
  unfold bind at 1, get_relay at 1. reflexivity.
Qed.

Lemma do_sub_duplicate hd sub_id filters c cn (w : W) :
  dict_get Nat.eqb (_ws (relay w)) c = Some cn ->
  hashable sub_id = true ->
  dict_mem key_eqb (subs cn) sub_id = true ->
  _do_sub (hd :: sub_id :: filters) c w
    = (Raise (NostrCommandException
                ("REQ command for sub_id that already exists - "
                 ++ py_str sub_id)), w).
Proof.
  intros Hc Hh Hm.
  unfold _do_sub. rewrite len_two_or_more. cbn [nth].
  unfold bind at 1. unfold conn_of at 1, bind at 1, get_relay at 1.
  rewrite Hc. cbn [ret].
  unfold bind at 1, has_sub at 1. rewrite Hh. cbn [ret].
  rewrite Hm. reflexivity.
Qed.

Lemma do_sub_at_limit hd sub_id filters c cn (w : W) :
  dict_get Nat.eqb (_ws (relay w)) c = Some cn ->
  hashable sub_id = true ->
  dict_mem key_eqb (subs cn) sub_id = false ->
  _max_sub (relay w) <= len (subs cn) ->
  _do_sub (hd :: sub_id :: filters) c w
    = (Raise (NostrCommandException
                ("REQ new sub_id " ++ py_str sub_id
                 ++ " not allowed, already at max subs="
                 ++ str_of_Z (_max_sub (relay w)))), w).
Proof.
  intros Hc Hh Hm Hl.
  unfold _do_sub. rewrite len_two_or_more. cbn [nth].
  unfold bind at 1. unfold conn_of at 1, bind at 1, get_relay at 1.
  rewrite Hc. cbn [ret].
  unfold bind at 1, has_sub at 1. rewrite Hh. cbn [ret].
  rewrite Hm.
  unfold bind at 1, get_relay at 1.
  destruct (Z.leb_spec (_max_sub (relay w)) (len (subs cn))); [|lia].
  reflexivity.
Qed.

Lemma do_request_req c s sub_id filters (w : W) :
  s <> EmptyString ->
  json_loads s = inr (JArr (JStr "REQ" :: sub_id :: filters)) ->
  _do_request c s w
    = catch (_do_sub (JStr "REQ" :: sub_id :: filters) c)
            (_do_request_except c) w.
Proof.
  intros Hs H. rewrite do_request_nonempty by assumption.
  unfold catch, _do_request_try, bind, lift. rewrite H. reflexivity.
Qed.
End Subscribing.

(** ** Invariants of the event loop *)

Section Shapes.
Context {py : PyBuiltins} {imp : Imports}.
Context {Event Store : Type} {EA : EventAPI Event}
        {SI : RelayEventStoreInterface Store Event}.
Let W : Type := World Event Store.

(** [_do_sub] either raises before touching anything, or accepts. *)
Lemma do_sub_shape (req : list json) (c : ws_id) (w : W) :
  (exists e, _do_sub req c w = (Raise e, w)) \/
  (exists hd sub_id filters,
     req = hd :: sub_id :: filters /\ accepts c sub_id w).
Proof.
  destruct req as [|hd [|sub_id filters]];
    [left; eexists; reflexivity | left; eexists; reflexivity |].
  destruct (dict_get Nat.eqb (_ws (relay w)) c) as [cn|] eqn:Hc.
  2:{ left. unfold _do_sub. rewrite len_two_or_more.
      unfold bind at 1, conn_of at 1, bind at 1, get_relay at 1.
      rewrite Hc. eexists. reflexivity. }
  destruct (hashable sub_id) eqn:Hh.
  2:{ left. unfold _do_sub. rewrite len_two_or_more. cbn [nth].
      unfold bind at 1, conn_of at 1, bind at 1, get_relay at 1.
      rewrite Hc. cbn [ret]. unfold bind at 1, has_sub at 1.
      rewrite Hh. eexists. reflexivity. }
  destruct (dict_mem key_eqb (subs cn) sub_id) eqn:Hm.
  { left. eexists. now apply do_sub_duplicate with (cn := cn). }
  destruct (Z.le_gt_cases (_max_sub (relay w)) (len (subs cn))) as [Hl|Hl].
  { left. eexists. now apply do_sub_at_limit with (cn := cn). }
  right. exists hd, sub_id, filters. split; [reflexivity|].
  unfold accepts. rewrite (subs_of_conn c cn w Hc). eauto.
Qed.

(** [_do_unsub] always raises; it has removed a subscription of [c] or
    touched nothing. *)
Lemma do_unsub_shape (req : list json) (c : ws_id) (w : W) :
  (exists e, _do_unsub req c w = (Raise e, w)) \/
  (exists cn sub_id e,
     dict_get Nat.eqb (_ws (relay w)) c = Some cn /\
     _do_unsub req c w
       = (Raise e, snd (put_subs c (dict_del key_eqb (subs cn) sub_id) w))).
Proof.
  destruct req as [|hd [|sub_id filters]];
    [left; eexists; reflexivity | left; eexists; reflexivity |].
  destruct (dict_get Nat.eqb (_ws (relay w)) c) as [cn|] eqn:Hc.
  2:{ left. unfold _do_unsub. rewrite len_two_or_more.
      unfold bind at 1, conn_of at 1, bind at 1, get_relay at 1.
      rewrite Hc. eexists. reflexivity. }
  destruct (hashable sub_id) eqn:Hh.
  2:{ left. unfold _do_unsub. rewrite len_two_or_more. cbn [nth].
      unfold bind at 1, conn_of at 1, bind at 1, get_relay at 1.
      rewrite Hc. cbn [ret]. unfold bind at 1, has_sub at 1.
      rewrite Hh. eexists. reflexivity. }
  destruct (dict_mem key_eqb (subs cn) sub_id) eqn:Hm.
  - right. exists cn, sub_id. eexists. split; [reflexivity|].
    unfold _do_unsub. rewrite len_two_or_more. cbn [nth].
    unfold bind at 1, conn_of at 1, bind at 1, get_relay at 1.
    rewrite Hc. cbn [ret]. unfold bind at 1, has_sub at 1.
    rewrite Hh. cbn [ret]. rewrite Hm. cbn [negb].
    unfold bind, raise.
    destruct (put_subs c (dict_del key_eqb (subs cn) sub_id) w)
      as [[[]|e|] w'] eqn:E; try reflexivity.
    + unfold put_subs, modify in E. discriminate.
    + unfold put_subs, modify in E. discriminate.
  - left. unfold _do_unsub. rewrite len_two_or_more. cbn [nth].
    unfold bind at 1, conn_of at 1, bind at 1, get_relay at 1.
    rewrite Hc. cbn [ret]. unfold bind at 1, has_sub at 1.
    rewrite Hh. cbn [ret]. rewrite Hm. eexists. reflexivity.
Qed.
End Shapes.

(** Whatever the handlers and the loop's own bookkeeping leave untouched is
    left untouched by every step of the loop. *)
Section StableLoop.
Context {py : PyBuiltins} {imp : Imports}.
Context {Event Store : Type} {EA : EventAPI Event}
        {SI : RelayEventStoreInterface Store Event}.
Let W : Type := World Event Store.

Variable R : W -> W -> Prop.
Hypothesis R_refl : forall w, R w w.
Hypothesis R_trans : forall a b c, R a b -> R b c -> R a c.
Hypothesis R_task : forall t, stable R (create_task t).
Hypothesis R_send : forall c s, stable R (send_str c s).
Hypothesis R_store : forall f, stable R (store_call f).
Hypothesis R_sub : forall req c, stable R (_do_sub req c).
Hypothesis R_unsub : forall req c, stable R (_do_unsub req c).
Hypothesis R_handlers : forall h w, R w (set_handlers h w).
Hypothesis R_shut : forall c w, R w (shut c w).
Hypothesis R_enter : forall w, R w (snd (_websocket_handler_enter true w)).
Hypothesis R_leave : forall c w, R w (_websocket_handler_leave c w).

Lemma stable_handler_step c (m : M Event Store unit) :
  stable R m -> forall w, R w (handler_step c m w).
Proof.
  intros Hm w. unfold handler_step. specialize (Hm w).
  destruct (m w) as [[[]|e|] w']; simpl in Hm.
  - eapply R_trans; [exact Hm|]. apply R_handlers.
  - eapply R_trans; [exact Hm|].
    eapply R_trans; [apply R_handlers|]. apply R_shut.
  - exact Hm.
Qed.

Lemma stable_run_task t (w : W) : R w (run_task t w).
Proof.
  destruct t as [c sub_id evt waiter|c data|k|c s]; simpl.
  - pose proof (stable_send_event R R_task c sub_id evt w) as H.
    destruct waiter as [k|]; [|exact H].
    eapply R_trans; [exact H|]. exact (R_task (T_wakeup k) _).
  - apply (stable_do_send R R_refl R_trans R_send).
  - apply stable_handler_step.
    apply (stable_resume R R_refl R_trans R_task R_send).
  - apply stable_handler_step.
    apply (stable_do_request R R_refl R_trans R_task R_send R_store
             R_sub R_unsub).
Qed.

(** every action but a run of the loop *)
Lemma stable_step_env a (w w' : W) :
  a <> Tick -> step a w = Some w' -> R w w'.
Proof.
  destruct a as [|c s|c|c|]; simpl; intros Ha.
  - intros [= <-]. apply R_enter.
  - destruct (dict_get Nat.eqb (handlers w) c) as [[]|]; try discriminate.
    intros [= <-].
    eapply R_trans; [apply R_handlers|].
    exact (R_task (T_request c s) _).
  - destruct (dict_get Nat.eqb (handlers w) c) as [[]|]; try discriminate.
    intros [= <-].
    eapply R_trans; [apply R_leave|].
    eapply R_trans; [apply R_handlers|]. apply R_shut.
  - intros [= <-]. apply R_shut.
  - contradiction.
Qed.

(** taking the oldest task off the queue is the one write that some
    relations do not respect; it is asked for last *)
Hypothesis R_ready : forall q w, R w (set_ready q w).

Lemma stable_step a (w w' : W) : step a w = Some w' -> R w w'.
Proof.
  destruct a as [|c s|c|c|];
    try (apply stable_step_env; discriminate).
  simpl. destruct (ready w) as [|t q]; [discriminate|]. intros [= <-].
  eapply R_trans; [apply R_ready|]. apply stable_run_task.
Qed.
End StableLoop.

(** For a relation that [put_subs] respects, the two subscription handlers
    need no separate argument. *)
Section StableSubs.
Context {py : PyBuiltins} {imp : Imports}.
Context {Event Store : Type} {EA : EventAPI Event}
        {SI : RelayEventStoreInterface Store Event}.
Let W : Type := World Event Store.

Variable R : W -> W -> Prop.
Hypothesis R_refl : forall w, R w w.
Hypothesis R_trans : forall a b c, R a b -> R b c -> R a c.
Hypothesis R_task : forall t, stable R (create_task t).
Hypothesis R_send : forall c s, stable R (send_str c s).
Hypothesis R_put : forall c d, stable R (put_subs c d).

Lemma stable_do_sub req c : stable R (_do_sub req c).
Proof.
  unfold _do_sub. apply stable_if; auto with stable.
  apply stable_bind; auto. { now apply stable_conn_of. } intros cn.
  apply stable_bind; auto. { now apply stable_has_sub. } intros present.
  apply stable_if; auto with stable.
  apply stable_bind; auto with stable. intros r.
  apply stable_if; auto with stable.
  apply stable_bind; auto. intros _.
  apply stable_bind; auto with stable. intros r'.
  apply stable_bind; auto with stable. intros evts.
  now apply stable_do_sub_backfill.
Qed.

Lemma stable_do_unsub req c : stable R (_do_unsub req c).
Proof.
  unfold _do_unsub. apply stable_if; auto with stable.
  apply stable_bind; auto. { now apply stable_conn_of. } intros cn.
  apply stable_bind; auto. { now apply stable_has_sub. } intros present.
  apply stable_if; auto with stable.
Qed.
End StableSubs.

Section Invariants.
Context {py : PyBuiltins} {imp : Imports}.
Context {Event Store : Type} {EA : EventAPI Event}
        {SI : RelayEventStoreInterface Store Event}.
Let W : Type := World Event Store.

(** *** The constructor's settings never change *)

Lemma same_config_refl (w : W) : same_config w w.
Proof. unfold same_config. auto. Qed.

Lemma same_config_trans (a b c : W) :
  same_config a b -> same_config b c -> same_config a c.
Proof.
  unfold same_config. intros (H1 & H2 & H3 & H4) (H5 & H6 & H7 & H8).
  repeat split; congruence.
Qed.

Lemma same_config_step a (w w' : W) : step a w = Some w' -> same_config w w'.
Proof.
  assert (Htask : forall t, stable (@same_config Event Store) (create_task t)).
  { intros t w0. now unfold same_config. }
  assert (Hsend : forall c s, stable (@same_config Event Store) (send_str c s)).
  { intros c s w0. unfold send_str.
    destruct (dict_get Nat.eqb (socks w0) c) as [sk|];
      [destruct (closing sk)|]; now unfold same_config. }
  assert (Hput : forall c d, stable (@same_config Event Store) (put_subs c d)).
  { intros c d w0. unfold put_subs, modify. simpl.
    destruct (dict_get Nat.eqb (_ws (relay w0)) c);
      now unfold same_config. }
  apply (stable_step (@same_config Event Store) same_config_refl
           same_config_trans Htask Hsend).
  - intros f w0. unfold store_call.
    destruct (f (_store (relay w0))) as [s' [e|]]; now unfold same_config.
  - apply stable_do_sub;
      first [apply same_config_refl | apply same_config_trans | assumption].
  - apply stable_do_unsub;
      first [apply same_config_refl | apply same_config_trans | assumption].
  - intros h w0. now unfold same_config.
  - intros c w0. unfold shut.
    destruct (dict_get Nat.eqb (socks w0) c); now unfold same_config.
  - intros w0. now unfold same_config.
  - intros c w0. now unfold same_config.
  - intros q w0. now unfold same_config.
Qed.

Lemma same_config_reachable r (w : W) :
  reachable r w -> same_config (boot r) w.
Proof.
  induction 1 as [|w a w' _ IH Hs]; [apply same_config_refl|].
  eapply same_config_trans; [exact IH|]. eapply same_config_step; eauto.
Qed.
End Invariants.

Section Bounded.
Context {py : PyBuiltins} {imp : Imports}.
Context {Event Store : Type} {EA : EventAPI Event}
        {SI : RelayEventStoreInterface Store Event}.
Let W : Type := World Event Store.
Let KB : W -> W -> Prop := keeps_bounded.

Lemma keeps_bounded_refl (w : W) : keeps_bounded w w.
Proof. unfold keeps_bounded. auto. Qed.

Lemma keeps_bounded_trans (a b c : W) :
  keeps_bounded a b -> keeps_bounded b c -> keeps_bounded a c.
Proof.
  unfold keeps_bounded. intros [H1 H2] [H3 H4]. split; [congruence|].
  intros Hm Hb. apply H4; [rewrite H1|]; auto.
Qed.

(** a step that leaves the table and the limit alone *)
Lemma keeps_bounded_same (w w' : W) :
  _ws (relay w') = _ws (relay w) ->
  _max_sub (relay w') = _max_sub (relay w) ->
  keeps_bounded w w'.
Proof.
  intros Ht Hm. split; [assumption|]. unfold bounded.
  rewrite Ht, Hm. auto.
Qed.

Lemma keeps_bounded_put c cn d (w : W) :
  dict_get Nat.eqb (_ws (relay w)) c = Some cn ->
  (bounded w -> len d <= _max_sub (relay w)) ->
  keeps_bounded w (snd (put_subs c d w)).
Proof.
  intros Hc Hd. rewrite (put_subs_conn c cn d w Hc). simpl.
  split; [reflexivity|]. intros _ Hb c' cn' Hin. simpl in *.
  apply dict_set_In in Hin. destruct Hin as [Hin|Heq].
  - now apply (Hb c' cn').
  - simpl in Heq. subst cn'. simpl. auto.
Qed.

Lemma keeps_bounded_task t : stable KB (create_task t).
Proof. intros w. now apply keeps_bounded_same. Qed.

Lemma keeps_bounded_send c s : stable KB (send_str c s).
Proof.
  intros w. unfold send_str.
  destruct (dict_get Nat.eqb (socks w) c) as [sk|];
    [destruct (closing sk)|]; now apply keeps_bounded_same.
Qed.

Lemma keeps_bounded_store f : stable KB (store_call f).
Proof.
  intros w. unfold store_call.
  destruct (f (_store (relay w))) as [s' [e|]]; now apply keeps_bounded_same.
Qed.

Lemma keeps_bounded_do_sub req c : stable KB (_do_sub req c).
Proof.
  intros w. destruct (do_sub_shape req c w) as [[e ->]|H].
  - apply keeps_bounded_refl.
  - destruct H as (hd & sub_id & filters & -> & Hacc).
    rewrite (do_sub_accepted hd sub_id filters c w Hacc).
    destruct Hacc as ([cn Hc] & Hh & Hm & Hl).
    eapply keeps_bounded_trans.
    + unfold KB, register.
      apply (keeps_bounded_put c cn
               (dict_set key_eqb (subs_of c w) sub_id
                  {| sub_id_of := sub_id;
                     filter_of := req_filter (hd :: sub_id :: filters) |})
               w Hc).
      intros _. unfold len in *.
      pose proof (dict_set_length_le _ _ key_eqb (subs_of c w) sub_id
        {| sub_id_of := sub_id;
           filter_of := req_filter (hd :: sub_id :: filters) |}).
      lia.
    + assert (Hs : stable KB
        (evts <- lift (get_filter (_store (relay w))
                         (req_filter (hd :: sub_id :: filters))) ;;
         _do_sub_backfill c sub_id evts)).
      { apply stable_bind.
        - apply keeps_bounded_trans.
        - apply stable_lift. apply keeps_bounded_refl.
        - intros evts. apply stable_do_sub_backfill;
            first [apply keeps_bounded_refl | apply keeps_bounded_trans
                  | apply keeps_bounded_task | apply keeps_bounded_send]. }
      apply Hs.
Qed.

Lemma keeps_bounded_do_unsub req c : stable KB (_do_unsub req c).
Proof.
  intros w. destruct (do_unsub_shape req c w) as [[e ->]|H].
  - apply keeps_bounded_refl.
  - destruct H as (cn & sub_id & e & Hc & ->). simpl.
    apply (keeps_bounded_put c cn _ w Hc).
    intros Hb.
    destruct (dict_get_In _ _ Nat.eqb _ _ _ Hc) as (c' & Hin & _).
    specialize (Hb c' cn Hin). unfold len in *.
    pose proof (dict_del_length_le _ _ key_eqb (subs cn) sub_id). lia.
Qed.

Lemma keeps_bounded_step a (w w' : W) :
  step a w = Some w' -> keeps_bounded w w'.
Proof.
  apply (stable_step KB keeps_bounded_refl keeps_bounded_trans
           keeps_bounded_task keeps_bounded_send keeps_bounded_store
           keeps_bounded_do_sub keeps_bounded_do_unsub).
  - intros h w0. now apply keeps_bounded_same.
  - intros c w0. unfold shut.
    destruct (dict_get Nat.eqb (socks w0) c); now apply keeps_bounded_same.
  - intros w0. split; [reflexivity|]. intros Hm Hb c cn Hin.
    simpl in *. apply dict_set_In in Hin. destruct Hin as [Hin|Heq].
    + now apply (Hb c cn).
    + simpl in Heq. subst cn. simpl. exact Hm.
  - intros c w0. split; [reflexivity|]. intros Hm Hb c' cn Hin.
    simpl in *. apply dict_del_In in Hin. now apply (Hb c' cn).
  - intros q w0. now apply keeps_bounded_same.
Qed.

Lemma keeps_bounded_reachable r (w : W) :
  reachable r w -> keeps_bounded (boot r) w.
Proof.
  induction 1 as [|w a w' _ IH Hs]; [apply keeps_bounded_refl|].
  eapply keeps_bounded_trans; [exact IH|].
  eapply keeps_bounded_step; eauto.
Qed.
End Bounded.

(** C5: in every world a relay can reach from its construction, every
    connection has at most [max_sub] subscriptions, for a limit that is not
    negative.  In such a world a REQ for a new [sub_id] on a connection that
    already holds [max_sub] subscriptions is answered by the NOTICE that
    quotes the limit, and a REQ for a [sub_id] that is already there is
    answered by a NOTICE; in both cases the relay state, and so every
    registry, is left as it was.  ([sub_id] is a string, a number, a boolean
    or null.) *)
Theorem registry_within_limit
    {py : PyBuiltins} {imp : Imports} {Event Store : Type}
    {EA : EventAPI Event} {SI : RelayEventStoreInterface Store Event}
    (r : Relay Event Store) (w : World Event Store) :
  0 <= _max_sub r -> _ws r = [] -> reachable r w ->
  (forall c cn, In (c, cn) (_ws (relay w)) -> len (subs cn) <= _max_sub r) /\
  (forall c cn s sub_id filters,
     s <> EmptyString ->
     json_loads s = inr (JArr (JStr "REQ" :: sub_id :: filters)) ->
     dict_get Nat.eqb (_ws (relay w)) c = Some cn ->
     hashable sub_id = true ->
     (dict_mem key_eqb (subs cn) sub_id = false ->
      _max_sub r <= len (subs cn) ->
      answered c
        (json_dumps (notice ("REQ new sub_id " ++ py_str sub_id
                             ++ " not allowed, already at max subs="
                             ++ str_of_Z (_max_sub r)))) w
        (_do_request c s w) /\
      relay (snd (_do_request c s w)) = relay w) /\
     (dict_mem key_eqb (subs cn) sub_id = true ->
      answered c
        (json_dumps (notice ("REQ command for sub_id that already exists - "
                             ++ py_str sub_id))) w
        (_do_request c s w) /\
      relay (snd (_do_request c s w)) = relay w)).
Proof.
  intros Hmax Hws Hreach.
  destruct (keeps_bounded_reachable r w Hreach) as [Hm Hb]. simpl in Hm.
  split.
  - intros c cn Hin. rewrite <- Hm.
    assert (Hb0 : bounded (boot r)).
    { intros c' cn' Hin'. simpl in Hin'. rewrite Hws in Hin'. destruct Hin'. }
    exact (Hb Hmax Hb0 c cn Hin).
  - intros c cn s sub_id filters Hs Hl Hc Hh. split.
    + intros Hmem Hlim.
      assert (Ha : answered c
        (json_dumps (notice ("REQ new sub_id " ++ py_str sub_id
                             ++ " not allowed, already at max subs="
                             ++ str_of_Z (_max_sub r)))) w
        (_do_request c s w)).
      { rewrite (do_request_req c s sub_id filters w Hs Hl). unfold catch.
        rewrite (do_sub_at_limit (JStr "REQ") sub_id filters c cn w Hc Hh Hmem)
          by (rewrite Hm; exact Hlim).
        rewrite Hm. apply send_str_answered. }
      split; [exact Ha|]. exact (answered_relay c _ w _ Ha).
    + intros Hmem.
      assert (Ha : answered c
        (json_dumps (notice ("REQ command for sub_id that already exists - "
                             ++ py_str sub_id))) w
        (_do_request c s w)).
      { rewrite (do_request_req c s sub_id filters w Hs Hl). unfold catch.
        rewrite (do_sub_duplicate (JStr "REQ") sub_id filters c cn w Hc Hh Hmem).
        apply send_str_answered. }
      split; [exact Ha|]. exact (answered_relay c _ w _ Ha).
Qed.

(** ** Writing frames *)

Section Writing.
Context {py : PyBuiltins} {imp : Imports}.
Context {Event Store : Type} {EA : EventAPI Event}
        {SI : RelayEventStoreInterface Store Event}.
Let W : Type := World Event Store.

Lemma nat_dict_set_set {V} (d : dict nat V) k v v' :
  dict_set Nat.eqb (dict_set Nat.eqb d k v) k v' = dict_set Nat.eqb d k v'.
Proof.
  induction d as [|[k' u] d IH]; simpl.
  - now rewrite Nat.eqb_refl.
  - destruct (Nat.eqb k k') eqn:E; simpl; rewrite E; [reflexivity|].
    now rewrite IH.
Qed.

Lemma nat_dict_set_get {V} (d : dict nat V) k v :
  dict_get Nat.eqb d k = Some v -> dict_set Nat.eqb d k v = d.
Proof.
  induction d as [|[k' u] d IH]; simpl; [discriminate|].
  destruct (Nat.eqb k k') eqn:E.
  - now intros [= ->].
  - intros H. now rewrite IH.
Qed.

Lemma world_eta (w : W) :
  {| relay := relay w; socks := socks w; ready := ready w;
     handlers := handlers w |} = w.
Proof. now destruct w. Qed.

Lemma written_nil c (w : W) : written c [] w = w.
Proof.
  unfold written.
  destruct (dict_get Nat.eqb (socks w) c) as [sk|] eqn:E; [|reflexivity].
  destruct (closing sk) eqn:Ec; [reflexivity|].
  rewrite app_nil_r. unfold set_socks.
  replace {| closing := false; wire := wire sk |} with sk
    by (destruct sk; simpl in *; now subst).
  rewrite (nat_dict_set_get _ _ _ E). apply world_eta.
Qed.

Lemma written_written c fs gs (w : W) :
  written c gs (written c fs w) = written c (fs ++ gs)%list w.
Proof.
  unfold written at 2 3.
  destruct (dict_get Nat.eqb (socks w) c) as [sk|] eqn:E.
  - destruct (closing sk) eqn:Ec.
    + unfold written. now rewrite E, Ec.
    + unfold written. simpl. rewrite nat_dict_get_set_same. simpl.
      unfold set_socks. simpl. now rewrite nat_dict_set_set, app_assoc.
  - unfold written. now rewrite E.
Qed.

Lemma written_set_ready c fs q (w : W) :
  written c fs (set_ready q w) = set_ready q (written c fs w).
Proof.
  unfold written. simpl.
  destruct (dict_get Nat.eqb (socks w) c) as [sk|]; [|reflexivity].
  destruct (closing sk); reflexivity.
Qed.

Lemma written_relay c fs (w : W) : relay (written c fs w) = relay w.
Proof.
  unfold written.
  destruct (dict_get Nat.eqb (socks w) c) as [sk|]; [|reflexivity].
  destruct (closing sk); reflexivity.
Qed.

Lemma written_ready c fs (w : W) : ready (written c fs w) = ready w.
Proof.
  unfold written.
  destruct (dict_get Nat.eqb (socks w) c) as [sk|]; [|reflexivity].
  destruct (closing sk); reflexivity.
Qed.

Lemma written_handlers c fs (w : W) :
  handlers (written c fs w) = handlers w.
Proof.
  unfold written.
  destruct (dict_get Nat.eqb (socks w) c) as [sk|]; [|reflexivity].
  destruct (closing sk); reflexivity.
Qed.

Lemma written_closing c fs c' (w : W) :
  closing_of c' (written c fs w) = closing_of c' w.
Proof.
  unfold written, closing_of.
  destruct (dict_get Nat.eqb (socks w) c) as [sk|] eqn:E; [|reflexivity].
  destruct (closing sk) eqn:Ec; [reflexivity|]. simpl.
  destruct (Nat.eq_dec c c') as [<-|Hne].
  - now rewrite nat_dict_get_set_same, E, Ec.
  - now rewrite nat_dict_get_set_other.
Qed.

(** the wire of the socket written to, and of the others *)
Lemma written_wire c fs (w : W) :
  wire_of c (written c fs w)
    = if closing_of c w then wire_of c w else (wire_of c w ++ fs)%list.
Proof.
  unfold written, closing_of, wire_of.
  destruct (dict_get Nat.eqb (socks w) c) as [sk|] eqn:E.
  - destruct (closing sk) eqn:Ec.
    + now rewrite E.
    + simpl. now rewrite nat_dict_get_set_same.
  - now rewrite E.
Qed.

Lemma written_wire_other c fs c' (w : W) :
  c <> c' -> wire_of c' (written c fs w) = wire_of c' w.
Proof.
  intros Hne. unfold written, wire_of.
  destruct (dict_get Nat.eqb (socks w) c) as [sk|] eqn:E; [|reflexivity].
  destruct (closing sk) eqn:Ec; [reflexivity|]. simpl.
  now rewrite nat_dict_get_set_other.
Qed.

(** [_do_send] hands one frame to the socket and never raises *)
Lemma do_send_written c data (w : W) :
  _do_send c data w = (Return tt, written c [json_dumps data] w).
Proof.
  unfold _do_send, catch, send_str, written.
  destruct (dict_get Nat.eqb (socks w) c) as [sk|]; [|reflexivity].
  destruct (closing sk); reflexivity.
Qed.

(** a write to a socket whose transport is closing changes nothing *)
Lemma written_closing_id c fs (w : W) :
  closing_of c w = true -> written c fs w = w.
Proof.
  unfold closing_of, written.
  destruct (dict_get Nat.eqb (socks w) c) as [sk|]; [|reflexivity].
  now intros ->.
Qed.
End Writing.

(** ** Running the loop *)

Section Running.
Context {py : PyBuiltins} {imp : Imports}.
Context {Event Store : Type} {EA : EventAPI Event}
        {SI : RelayEventStoreInterface Store Event}.
Let W : Type := World Event Store.

Lemma run_app acts1 acts2 (w : W) :
  run (acts1 ++ acts2) w
    = match run acts1 w with
      | Some w' => run acts2 w'
      | None => None
      end.
Proof.
  revert w. induction acts1 as [|a acts1 IH]; intros w; simpl; auto.
  destruct (step a w); auto.
Qed.

Lemma drain_idle n (w : W) : ready w = [] -> drain n w = w.
Proof. intros H. destruct n; simpl; [reflexivity|]. now rewrite H. Qed.

(** when a number of runs empties the ready queue, the loop left alone
    with at least that much fuel stops in the same world *)
Lemma run_ticks_drain n : forall (w w' : W),
  run (repeat Tick n) w = Some w' -> ready w' = [] ->
  forall fuel, (n <= fuel)%nat -> drain fuel w = w'.
Proof.
  induction n as [|n IH]; simpl; intros w w' H Hr fuel Hf.
  - injection H as <-. now apply drain_idle.
  - destruct (ready w) as [|t q] eqn:E; [discriminate|].
    destruct fuel as [|fuel]; [lia|]. simpl. rewrite E.
    apply (IH _ _ H Hr). lia.
Qed.

Lemma set_ready_set_ready q q' (w : W) :
  set_ready q (set_ready q' w) = set_ready q w.
Proof. reflexivity. Qed.

Lemma ready_set_ready q (w : W) : ready (set_ready q w) = q.
Proof. reflexivity. Qed.

Lemma relay_set_ready q (w : W) : relay (set_ready q w) = relay w.
Proof. reflexivity. Qed.

Ltac normw :=
  repeat first [ rewrite written_set_ready | rewrite set_ready_set_ready
               | rewrite relay_set_ready | rewrite written_relay
               | rewrite written_written ].

Lemma tick_send_event c sub_id evt waiter q (w : W) :
  ready w = T_send_event c sub_id evt waiter :: q ->
  step Tick w
    = Some (set_ready
              ((q ++ [T_do_send c (JArr [JStr "EVENT"; sub_id; evt])])
               ++ match waiter with
                  | Some k => [T_wakeup k]
                  | None => []
                  end)%list w).
Proof.
  intros H. simpl. rewrite H. simpl.
  destruct waiter; simpl; [reflexivity|]. now rewrite app_nil_r.
Qed.

Lemma tick_do_send c data q (w : W) :
  ready w = T_do_send c data :: q ->
  step Tick w = Some (written c [json_dumps data] (set_ready q w)).
Proof.
  intros H. simpl. rewrite H. simpl. now rewrite do_send_written.
Qed.

Lemma tick_wakeup k q (w : W) :
  ready w = T_wakeup k :: q ->
  step Tick w = Some (handler_step (cont_ws k) (resume k) (set_ready q w)).
Proof. intros H. simpl. now rewrite H. Qed.

Lemma tick_request c s q (w : W) :
  ready w = T_request c s :: q ->
  step Tick w = Some (handler_step c (_do_request c s) (set_ready q w)).
Proof. intros H. simpl. now rewrite H. Qed.

(** the backfill with events left: the next task is made and the
    coroutine is suspended *)
Lemma backfill_more c sub_id e rest (w : W) :
  _do_sub_backfill c sub_id (e :: rest) w
    = (Await,
       set_ready (ready w ++ [T_send_event c sub_id e
                                (Some (K_do_sub c sub_id rest))])%list w).
Proof. reflexivity. Qed.

(** the backfill with nothing left: EOSE when enabled, and return *)
Lemma backfill_done c sub_id (w : W) :
  _do_sub_backfill c sub_id [] w
    = (Return tt, written c (eose_frames sub_id w) w).
Proof.
  unfold _do_sub_backfill, bind, get_relay, eose_frames, _send_eose.
  destruct (_enable_nip15 (relay w)).
  - now rewrite do_send_written.
  - unfold ret. now rewrite written_nil.
Qed.

(** one stored event of a backfill that runs alone, with more to come:
    three runs of the loop write its frame and issue the next task *)
Lemma backfill_round_more c sub_id e e' rest (w : W) :
  ready w = [T_send_event c sub_id e
               (Some (K_do_sub c sub_id (e' :: rest)))] ->
  run [Tick; Tick; Tick] w
    = Some (written c [event_frame sub_id e]
              (set_ready [T_send_event c sub_id e'
                            (Some (K_do_sub c sub_id rest))] w)).
Proof.
  intros H. unfold run.
  rewrite (tick_send_event c sub_id e _ [] w H). cbn [app].
  rewrite (tick_do_send c _ [T_wakeup (K_do_sub c sub_id (e' :: rest))])
    by reflexivity.
  rewrite set_ready_set_ready.
  rewrite (tick_wakeup (K_do_sub c sub_id (e' :: rest)) [])
    by (now rewrite written_ready).
  unfold handler_step, resume, catch. rewrite backfill_more.
  rewrite ready_set_ready. cbn [app]. rewrite !set_ready_set_ready.
  now rewrite <- written_set_ready.
Qed.

(** the last stored event: its frame, then EOSE, and the read loop waits
    for the next frame *)
Lemma backfill_round_last c sub_id e (w : W) :
  ready w = [T_send_event c sub_id e (Some (K_do_sub c sub_id []))] ->
  run [Tick; Tick; Tick] w
    = Some (set_handler c Reading
              (written c (event_frame sub_id e :: eose_frames sub_id w)
                 (set_ready [] w))).
Proof.
  intros H. unfold run.
  rewrite (tick_send_event c sub_id e _ [] w H). cbn [app].
  rewrite (tick_do_send c _ [T_wakeup (K_do_sub c sub_id [])])
    by reflexivity.
  rewrite set_ready_set_ready.
  rewrite (tick_wakeup (K_do_sub c sub_id []) [])
    by (now rewrite written_ready).
  unfold handler_step, resume, catch. rewrite backfill_done.
  cbn [cont_ws]. unfold eose_frames.
  rewrite !written_set_ready, !set_ready_set_ready.
  rewrite !relay_set_ready, !written_relay, written_written.
  reflexivity.
Qed.

Lemma repeat_ticks_more n :
  repeat Tick (3 * S (S n)) = ([Tick; Tick; Tick] ++ repeat Tick (3 * S n))%list.
Proof.
  replace (3 * S (S n))%nat with (3 + 3 * S n)%nat by lia.
  now rewrite repeat_app.
Qed.

(** a backfill that runs alone, up to the moment the task for a later
    event is issued: the frames of all earlier events are written *)
Lemma backfill_prefix c sub_id pre : forall e e' post (w : W),
  ready w = [T_send_event c sub_id e
               (Some (K_do_sub c sub_id (pre ++ e' :: post)))] ->
  run (repeat Tick (3 * S (List.length pre))) w
    = Some (written c (map (event_frame sub_id) (e :: pre))
              (set_ready [T_send_event c sub_id e'
                            (Some (K_do_sub c sub_id post))] w)).
Proof.
  induction pre as [|p pre IH]; intros e e' post w H.
  - apply (backfill_round_more c sub_id e e' post w H).
  - cbn [List.length]. rewrite repeat_ticks_more, run_app.
    rewrite (backfill_round_more c sub_id e p (pre ++ e' :: post) w H).
    rewrite (IH p e' post) by (now rewrite written_ready).
    normw. reflexivity.
Qed.

(** a backfill that runs alone, to its end *)
Lemma backfill_run c sub_id rest : forall e (w : W),
  ready w = [T_send_event c sub_id e (Some (K_do_sub c sub_id rest))] ->
  run (repeat Tick (3 * S (List.length rest))) w
    = Some (set_handler c Reading
              (written c (map (event_frame sub_id) (e :: rest)
                          ++ eose_frames sub_id w)
                 (set_ready [] w))).
Proof.
  induction rest as [|e' rest IH]; intros e w H.
  - apply (backfill_round_last c sub_id e w H).
  - cbn [List.length]. rewrite repeat_ticks_more, run_app.
    rewrite (backfill_round_more c sub_id e e' rest w H).
    rewrite (IH e') by (now rewrite written_ready).
    unfold eose_frames. normw. reflexivity.
Qed.
End Running.

(** ** The fan-out, run by the loop *)

Section Delivery.
Context {py : PyBuiltins} {imp : Imports}.
Context {Event Store : Type} {EA : EventAPI Event}
        {SI : RelayEventStoreInterface Store Event}.
Let W : Type := World Event Store.

Lemma matching_sends_live (evt : Event) table :
  Forall is_live_send (matching_sends evt table).
Proof.
  apply Forall_forall. intros t Ht.
  apply matching_sends_sound in Ht.
  destruct Ht as (? & ? & ? & ? & _ & _ & _ & ->). exact I.
Qed.

Lemma delivered_cons t ts (w : W) :
  delivered (t :: ts) w
    = delivered ts
        match t with
        | T_send_event c sub_id evt _ =>
            written c [event_frame sub_id evt] w
        | _ => w
        end.
Proof. reflexivity. Qed.

Lemma frames_for_cons c' t ts :
  frames_for c' (t :: ts)
    = (match t with
       | T_send_event c sub_id evt _ =>
           if Nat.eqb c c' then [event_frame sub_id evt] else []
       | _ => []
       end ++ frames_for c' ts)%list.
Proof. reflexivity. Qed.

(** first every [_send_event] task runs and leaves its write behind *)
Lemma run_live_sends ts : forall done (w : W),
  Forall is_live_send ts ->
  ready w = (ts ++ map do_send_of done)%list ->
  run (repeat Tick (List.length ts)) w
    = Some (set_ready (map do_send_of (done ++ ts)) w).
Proof.
  induction ts as [|t ts IH]; intros done w Hl Hr.
  - simpl in *. rewrite app_nil_r, <- Hr. f_equal.
    destruct w; reflexivity.
  - inversion Hl as [|t' ts' Ht Hts]; subst.
    destruct t as [c sub_id evt [k|]| | |]; try contradiction.
    cbn [List.length repeat run].
    rewrite (tick_send_event c sub_id evt None
               (ts ++ map do_send_of done) w Hr).
    rewrite app_nil_r.
    rewrite (IH (done ++ [T_send_event c sub_id evt None])%list).
    + rewrite set_ready_set_ready, <- app_assoc. reflexivity.
    + exact Hts.
    + rewrite ready_set_ready, map_app, <- app_assoc. reflexivity.
Qed.

(** then every write runs *)
Lemma run_do_sends ts : forall (w : W),
  Forall is_live_send ts ->
  ready w = map do_send_of ts ->
  run (repeat Tick (List.length ts)) w
    = Some (delivered ts (set_ready [] w)).
Proof.
  induction ts as [|t ts IH]; intros w Hl Hr.
  - simpl in *. rewrite <- Hr. f_equal. destruct w; reflexivity.
  - inversion Hl as [|t' ts' Ht Hts]; subst.
    destruct t as [c sub_id evt [k|]| | |]; try contradiction.
    cbn [List.length repeat run].
    rewrite (tick_do_send c (JArr [JStr "EVENT"; sub_id; evt])
               (map do_send_of ts) w Hr).
    rewrite (IH _ Hts) by (now rewrite written_ready).
    rewrite delivered_cons.
    rewrite !written_set_ready, !set_ready_set_ready. reflexivity.
Qed.

Lemma delivered_frame ts : forall (w : W),
  relay (delivered ts w) = relay w /\
  handlers (delivered ts w) = handlers w /\
  ready (delivered ts w) = ready w.
Proof.
  induction ts as [|t ts IH]; intros w; [now repeat split|].
  rewrite delivered_cons.
  destruct t as [c sub_id evt waiter| | |]; try apply IH.
  destruct (IH (written c [event_frame sub_id evt] w)) as (H1 & H2 & H3).
  now rewrite H1, H2, H3, written_relay, written_handlers, written_ready.
Qed.

Lemma delivered_closing ts c' : forall (w : W),
  closing_of c' (delivered ts w) = closing_of c' w.
Proof.
  induction ts as [|t ts IH]; intros w; [reflexivity|].
  rewrite delivered_cons.
  destruct t as [c sub_id evt waiter| | |]; try apply IH.
  now rewrite IH, written_closing.
Qed.

(** what reaches a socket: all the frames addressed to it, in order,
    unless its own transport is closing *)
Lemma delivered_wire ts c' : forall (w : W),
  wire_of c' (delivered ts w)
    = if closing_of c' w then wire_of c' w
      else (wire_of c' w ++ frames_for c' ts)%list.
Proof.
  induction ts as [|t ts IH]; intros w.
  - simpl. rewrite app_nil_r. now destruct (closing_of c' w).
  - rewrite delivered_cons, frames_for_cons.
    destruct t as [c sub_id evt waiter|c data|k|c s];
      try (rewrite IH; reflexivity).
    rewrite IH, written_closing.
    destruct (Nat.eqb_spec c c') as [->|Hne].
    + rewrite written_wire.
      destruct (closing_of c' w); [reflexivity|].
      now rewrite <- app_assoc.
    + now rewrite (written_wire_other c _ c' w Hne).
Qed.
End Delivery.

(** C8 (amended): a socket write that fails is caught inside [_do_send] and
    dropped: the world is exactly what it was, so the connection keeps its
    entry in the connection table, its subscriptions and its read loop (the
    relay has no CLOSING state to put it in).  The failure does not touch the
    deliveries to the other connections: after a fan-out that starts with an
    idle loop, every socket whose transport is not closing has received, in
    order, every frame the fan-out addressed to it, whatever happened on the
    other sockets, and the relay state and the read loops are unchanged. *)
Theorem failed_write_is_dropped
    {py : PyBuiltins} {imp : Imports} {Event Store : Type}
    {EA : EventAPI Event} {SI : RelayEventStoreInterface Store Event}
    (c : ws_id) (data : json) (evt : Event) (w : World Event Store) :
  (closing_of c w = true -> _do_send c data w = (Return tt, w)) /\
  (ready w = [] ->
   exists w',
     run (repeat Tick (2 * List.length (matching_sends evt (_ws (relay w)))))
         (snd (_check_subs evt w)) = Some w' /\
     relay w' = relay w /\ handlers w' = handlers w /\ ready w' = [] /\
     forall c',
       closing_of c' w' = closing_of c' w /\
       wire_of c' w'
         = if closing_of c' w then wire_of c' w
           else (wire_of c' w
                 ++ frames_for c' (matching_sends evt (_ws (relay w))))%list).
Proof.
  split.
  - intros Hc. rewrite do_send_written. now rewrite written_closing_id.
  - intros Hr. rewrite check_subs_spec. cbn [snd]. rewrite Hr. cbn [app].
    set (ts := matching_sends evt (_ws (relay w))).
    pose proof (matching_sends_live evt (_ws (relay w))) as Hl. fold ts in Hl.
    exists (delivered ts (set_ready [] w)).
    split.
    + replace (2 * List.length ts)%nat
        with (List.length ts + List.length ts)%nat by lia.
      rewrite repeat_app, run_app.
      rewrite (run_live_sends ts [] (set_ready ts w) Hl)
        by (cbn [map]; now rewrite app_nil_r).
      cbn [app]. rewrite set_ready_set_ready.
      now rewrite (run_do_sends ts _ Hl) by reflexivity.
    + destruct (delivered_frame ts (set_ready [] w)) as (H1 & H2 & H3).
      repeat split; auto.
      * apply (delivered_closing ts c' (set_ready [] w)).
      * apply (delivered_wire ts c' (set_ready [] w)).
Qed.

(** ** A REQ, run by the loop *)

Section Backfilling.
Context {py : PyBuiltins} {imp : Imports}.
Context {Event Store : Type} {EA : EventAPI Event}
        {SI : RelayEventStoreInterface Store Event}.
Let W : Type := World Event Store.

Lemma register_set_ready c sub_id flt q (w : W) :
  register c sub_id flt (set_ready q w)
    = set_ready q (register c sub_id flt w).
Proof.
  unfold register, put_subs, modify, subs_of. simpl.
  destruct (dict_get Nat.eqb (_ws (relay w)) c); reflexivity.
Qed.

Lemma register_frame c sub_id flt (w : W) :
  socks (register c sub_id flt w) = socks w /\
  ready (register c sub_id flt w) = ready w /\
  handlers (register c sub_id flt w) = handlers w /\
  _enable_nip15 (relay (register c sub_id flt w)) = _enable_nip15 (relay w).
Proof.
  unfold register, put_subs, modify. simpl.
  destruct (dict_get Nat.eqb (_ws (relay w)) c); now repeat split.
Qed.

Lemma register_wire c sub_id flt c' (w : W) :
  wire_of c' (register c sub_id flt w) = wire_of c' w /\
  closing_of c' (register c sub_id flt w) = closing_of c' w.
Proof.
  unfold wire_of, closing_of.
  destruct (register_frame c sub_id flt w) as (-> & _). now split.
Qed.

Lemma eose_frames_register c sub_id flt sid (w : W) :
  eose_frames sid (register c sub_id flt w) = eose_frames sid w.
Proof.
  unfold eose_frames.
  now destruct (register_frame c sub_id flt w) as (_ & _ & _ & ->).
Qed.

(** an accepted REQ, as [_do_request] runs it *)
Lemma do_request_accepted c s sub_id filters (w : W) :
  s <> EmptyString ->
  json_loads s = inr (JArr (JStr "REQ" :: sub_id :: filters)) ->
  accepts c sub_id w ->
  _do_request c s w
    = catch (evts <- lift (get_filter (_store (relay w))
                             (req_filter (JStr "REQ" :: sub_id :: filters))) ;;
             _do_sub_backfill c sub_id evts)
            (_do_request_except c)
            (register c sub_id
               (req_filter (JStr "REQ" :: sub_id :: filters)) w).
Proof.
  intros Hs Hl Hacc. rewrite (do_request_req c s sub_id filters w Hs Hl).
  unfold catch at 1.
  rewrite (do_sub_accepted (JStr "REQ") sub_id filters c w Hacc).
  reflexivity.
Qed.

(** the first stretch of the read loop on an accepted REQ whose store
    query succeeds *)
Lemma tick_accepted_req c s sub_id filters evts q (w : W) :
  s <> EmptyString ->
  json_loads s = inr (JArr (JStr "REQ" :: sub_id :: filters)) ->
  accepts c sub_id w ->
  get_filter (_store (relay w))
    (req_filter (JStr "REQ" :: sub_id :: filters)) = inr evts ->
  ready w = T_request c s :: q ->
  let w1 := register c sub_id
              (req_filter (JStr "REQ" :: sub_id :: filters))
              (set_ready q w) in
  step Tick w
    = Some match evts with
           | [] => set_handler c Reading
                     (written c (eose_frames sub_id w) w1)
           | e :: rest =>
               set_ready (q ++ [T_send_event c sub_id e
                                  (Some (K_do_sub c sub_id rest))])%list w1
           end.
Proof.
  intros Hs Hl Hacc Hq Hr w1.
  rewrite (tick_request c s q w Hr). unfold handler_step.
  rewrite (do_request_accepted c s sub_id filters (set_ready q w) Hs Hl Hacc).
  fold w1. unfold catch, bind. rewrite relay_set_ready, Hq. cbn [lift ret].
  destruct evts as [|e rest].
  - rewrite backfill_done. unfold w1.
    now rewrite eose_frames_register.
  - rewrite backfill_more. unfold w1.
    destruct (register_frame c sub_id
                (req_filter (JStr "REQ" :: sub_id :: filters))
                (set_ready q w)) as (_ & -> & _).
    reflexivity.
Qed.
End Backfilling.

(** ** The backfill under any schedule *)

Lemma Action_eq_Tick (a : Action) : a = Tick \/ a <> Tick.
Proof. destruct a; (now left) || (right; discriminate). Qed.

Section Subsequences.
Context {A : Type}.

Lemma subseq_refl (l : list A) : subseq l l.
Proof. induction l; constructor; auto. Qed.

Lemma subseq_app_r (a g x : list A) : subseq a g -> subseq a (g ++ x)%list.
Proof. induction 1; simpl; constructor; auto. Qed.

Lemma subseq_app (a g b : list A) :
  subseq a g -> subseq (a ++ b)%list (g ++ b)%list.
Proof.
  induction 1 as [l | x l1 l2 _ IH | x l1 l2 _ IH]; simpl.
  - induction l as [|y l IH]; simpl; [apply subseq_refl|].
    now constructor.
  - now constructor.
  - now constructor.
Qed.
End Subsequences.

Section Growing.
Context {py : PyBuiltins} {imp : Imports}.
Context {Event Store : Type} {EA : EventAPI Event}
        {SI : RelayEventStoreInterface Store Event}.
Let W : Type := World Event Store.

Variable c : ws_id.
Let G : W -> W -> Prop := grows c.

Lemma grows_refl (w : W) : grows c w w.
Proof.
  unfold grows. split; [exists []; now rewrite app_nil_r|].
  split; [reflexivity|]. split; [lia|].
  intros sk _ H. exists sk. split; [exact H|].
  split; [exists []; now rewrite app_nil_r | auto].
Qed.

Lemma grows_trans (a b d : W) : grows c a b -> grows c b d -> grows c a d.
Proof.
  unfold grows.
  intros ([n1 Hq1] & He1 & Hi1 & Hs1) ([n2 Hq2] & He2 & Hi2 & Hs2).
  split; [exists (n1 ++ n2)%list; now rewrite Hq2, Hq1, app_assoc|].
  split; [congruence|]. split; [lia|].
  intros sk Hlt Hsk.
  destruct (Hs1 sk Hlt Hsk) as (sk1 & Hsk1 & [x1 Hw1] & Hc1).
  destruct (Hs2 sk1 ltac:(lia) Hsk1) as (sk2 & Hsk2 & [x2 Hw2] & Hc2).
  exists sk2. split; [exact Hsk2|].
  split; [exists (x1 ++ x2)%list; now rewrite Hw2, Hw1, app_assoc |].
  intros Hcl. destruct (Hc1 Hcl) as [Hcl1 Hwi1].
  destruct (Hc2 Hcl1) as [Hcl2 Hwi2]. split; [exact Hcl2 | congruence].
Qed.

(** a step that only adds to the queue and leaves relay and sockets alone *)
Lemma grows_queue (w w' : W) new :
  ready w' = (ready w ++ new)%list ->
  relay w' = relay w -> socks w' = socks w -> grows c w w'.
Proof.
  intros Hq Hr Hs. unfold grows. rewrite Hr, Hs.
  split; [now exists new|]. split; [reflexivity|]. split; [lia|].
  intros sk _ H. exists sk. split; [exact H|].
  split; [exists []; now rewrite app_nil_r | auto].
Qed.

(** a step that changes the relay but neither the EOSE switch, nor the
    queue, nor a socket, and does not take ids back *)
Lemma grows_relay (w w' : W) :
  ready w' = ready w -> socks w' = socks w ->
  _enable_nip15 (relay w') = _enable_nip15 (relay w) ->
  (_ws_id (relay w) <= _ws_id (relay w'))%nat -> grows c w w'.
Proof.
  intros Hq Hs He Hi. unfold grows. rewrite Hq, Hs.
  split; [exists []; now rewrite app_nil_r|].
  split; [exact He|]. split; [exact Hi|].
  intros sk _ H. exists sk. split; [exact H|].
  split; [exists []; now rewrite app_nil_r | auto].
Qed.

(** a step that replaces one socket by one with a longer wire, or by the
    same socket with a closing transport *)
Lemma grows_socket (w : W) c' sk0 sk1 x :
  dict_get Nat.eqb (socks w) c' = Some sk0 ->
  wire sk1 = (wire sk0 ++ x)%list ->
  (closing sk0 = true -> closing sk1 = true /\ wire sk1 = wire sk0) ->
  grows c w (set_socks (dict_set Nat.eqb (socks w) c' sk1) w).
Proof.
  intros H0 Hw Hc. unfold grows. simpl.
  split; [exists []; now rewrite app_nil_r|].
  split; [reflexivity|]. split; [lia|].
  intros sk _ Hsk. destruct (Nat.eq_dec c' c) as [->|Hne].
  - rewrite nat_dict_get_set_same. exists sk1. split; [reflexivity|].
    rewrite H0 in Hsk. injection Hsk as <-. split; [now exists x | exact Hc].
  - rewrite (nat_dict_get_set_other _ c' c _ Hne). exists sk.
    split; [exact Hsk|]. split; [exists []; now rewrite app_nil_r | auto].
Qed.

Lemma grows_task t : stable G (create_task t).
Proof. intros w. now apply grows_queue with (new := [t]). Qed.

Lemma grows_send c' s : stable G (send_str c' s).
Proof.
  intros w. unfold send_str.
  destruct (dict_get Nat.eqb (socks w) c') as [sk|] eqn:E;
    [|apply grows_refl].
  destruct (closing sk) eqn:Ec; [apply grows_refl|]. cbn [snd].
  apply (grows_socket w c' sk _ [s] E); [reflexivity|].
  intros H. congruence.
Qed.

Lemma grows_store f : stable G (store_call f).
Proof.
  intros w. unfold store_call.
  destruct (f (_store (relay w))) as [s' [e|]];
    apply grows_relay; simpl; auto.
Qed.

Lemma grows_put c' d : stable G (put_subs c' d).
Proof.
  intros w. unfold put_subs, modify. cbn [snd].
  destruct (dict_get Nat.eqb (_ws (relay w)) c');
    [apply grows_relay; simpl; auto | apply grows_refl].
Qed.

Lemma grows_shut c' (w : W) : grows c w (shut c' w).
Proof.
  unfold shut.
  destruct (dict_get Nat.eqb (socks w) c') as [sk|] eqn:E;
    [|apply grows_refl].
  apply (grows_socket w c' sk _ [] E); simpl; [now rewrite app_nil_r | auto].
Qed.

Lemma grows_enter (w : W) :
  grows c w (snd (_websocket_handler_enter true w)).
Proof.
  unfold grows. simpl.
  split; [exists []; now rewrite app_nil_r|].
  split; [reflexivity|]. split; [lia|].
  intros sk Hlt Hsk.
  rewrite nat_dict_get_set_other by lia. exists sk.
  split; [exact Hsk|]. split; [exists []; now rewrite app_nil_r | auto].
Qed.

Lemma grows_handlers h (w : W) : grows c w (set_handlers h w).
Proof. now apply grows_queue with (new := []); [rewrite app_nil_r|..]. Qed.

Lemma grows_leave c' (w : W) : grows c w (_websocket_handler_leave c' w).
Proof. apply grows_relay; simpl; auto. Qed.

Lemma grows_do_sub req c' : stable G (_do_sub req c').
Proof.
  apply stable_do_sub;
    first [ exact grows_refl | exact grows_trans | exact grows_task
          | exact grows_send | exact grows_put ].
Qed.

Lemma grows_do_unsub req c' : stable G (_do_unsub req c').
Proof.
  apply stable_do_unsub;
    first [ exact grows_refl | exact grows_trans | exact grows_put ].
Qed.

Ltac grows_parts :=
  first [ exact grows_refl | exact grows_trans | exact grows_task
        | exact grows_send | exact grows_store | exact grows_do_sub
        | exact grows_do_unsub | exact grows_handlers | exact grows_shut
        | exact grows_enter | exact grows_leave ].

(** a task run by the loop *)
Lemma grows_run_task t (w : W) : grows c w (run_task t w).
Proof. apply stable_run_task with (R := G); grows_parts. Qed.

(** an action of the environment *)
Lemma grows_step_env a (w w' : W) :
  a <> Tick -> step a w = Some w' -> grows c w w'.
Proof. apply stable_step_env with (R := G); grows_parts. Qed.

(** what it means for the socket of a connected client *)
Lemma grows_connected (w w' : W) :
  grows c w w' -> connected c w ->
  connected c w' /\
  (exists x, wire_of c w' = (wire_of c w ++ x)%list) /\
  (closing_of c w' = false -> closing_of c w = false) /\
  (forall sub_id, eose_frames sub_id w' = eose_frames sub_id w).
Proof.
  intros (_ & He & Hi & Hs) [Hlt [sk Hsk]].
  destruct (Hs sk Hlt Hsk) as (sk' & Hsk' & [x Hx] & Hc).
  unfold connected, wire_of, closing_of, eose_frames.
  rewrite Hsk, Hsk', He.
  split; [split; [lia | now exists sk']|].
  split; [now exists x|]. split; [|reflexivity].
  intros H. destruct (closing sk); [|reflexivity].
  destruct (Hc eq_refl) as [Hc' _]. congruence.
Qed.

(** a socket whose transport is closing stays as it is *)
Lemma grows_closing (w w' : W) :
  grows c w w' -> connected c w -> closing_of c w = true ->
  closing_of c w' = true /\ wire_of c w' = wire_of c w.
Proof.
  intros (_ & _ & _ & Hs) [Hlt [sk Hsk]].
  destruct (Hs sk Hlt Hsk) as (sk' & Hsk' & _ & Hc).
  unfold wire_of, closing_of. rewrite Hsk, Hsk'. exact Hc.
Qed.
End Growing.

Section Progressing.
Context {py : PyBuiltins} {imp : Imports}.
Context {Event Store : Type} {EA : EventAPI Event}
        {SI : RelayEventStoreInterface Store Event}.
Let W : Type := World Event Store.

Variable c : ws_id.
Variable sub_id : json.
Variables frames eose wire0 : list string.

Lemma in_phase_app ph q new :
  in_phase c sub_id ph q -> in_phase c sub_id ph (q ++ new)%list.
Proof.
  destruct ph as [e rest|e rest|rest|]; simpl; auto.
  - intros (q1 & q2 & ->). exists q1, (q2 ++ new)%list.
    now rewrite <- app_assoc.
  - intros (q1 & q2 & q3 & ->). exists q1, q2, (q3 ++ new)%list.
    rewrite <- app_assoc. cbn [app]. rewrite <- app_assoc. reflexivity.
  - intros (q1 & q2 & ->). exists q1, (q2 ++ new)%list.
    now rewrite <- app_assoc.
Qed.

(** the progress made is kept by anything that lets the socket grow and
    keeps the phase *)
Lemma progress_carry ph g (w w0 w' : W) :
  connected c w -> eose_frames sub_id w = eose ->
  wire_of c w = (wire0 ++ g)%list ->
  (closing_of c w = false ->
   exists done,
     (frames ++ eose)%list = (done ++ todo sub_id eose ph)%list /\
     subseq done g) ->
  relay w0 = relay w -> socks w0 = socks w ->
  grows c w0 w' ->
  in_phase c sub_id ph (ready w') ->
  backfill_progress c sub_id frames eose wire0 w'.
Proof.
  intros Hcon He Hw Hd Hr Hs Hg Hph.
  assert (Hcon0 : connected c w0).
  { unfold connected. now rewrite Hr, Hs. }
  destruct (grows_connected c w0 w' Hg Hcon0) as (Hcon' & [x Hx] & Hc & He').
  assert (Hw0 : wire_of c w0 = wire_of c w)
    by (unfold wire_of; now rewrite Hs).
  assert (Hc0 : closing_of c w0 = closing_of c w)
    by (unfold closing_of; now rewrite Hs).
  split; [exact Hcon'|]. split.
  - rewrite He'. unfold eose_frames. rewrite Hr. exact He.
  - exists ph, (g ++ x)%list. split; [exact Hph|]. split.
    + now rewrite Hx, Hw0, Hw, app_assoc.
    + intros Hcl. rewrite Hc0 in Hc. destruct (Hd (Hc Hcl)) as (done & Hf & Hsub).
      exists done. split; [exact Hf|]. now apply subseq_app_r.
Qed.

Lemma connected_written fs (w : W) :
  connected c w -> connected c (written c fs w).
Proof.
  intros [Hlt [sk Hsk]]. unfold connected. rewrite written_relay.
  split; [exact Hlt|]. unfold written. rewrite Hsk.
  destruct (closing sk); [now exists sk|]. simpl.
  rewrite nat_dict_get_set_same. eauto.
Qed.

(** one step of any kind keeps the progress or takes it further *)
Lemma progress_step a (w w' : W) :
  backfill_progress c sub_id frames eose wire0 w ->
  step a w = Some w' ->
  backfill_progress c sub_id frames eose wire0 w'.
Proof.
  intros (Hcon & He & ph & g & Hph & Hw & Hd) Hstep.
  destruct (Action_eq_Tick a) as [->|Ha].
  2:{ pose proof (grows_step_env c a w w' Ha Hstep) as Hg.
      destruct Hg as ([new Hq] & Hg').
      apply (progress_carry ph g w w w' Hcon He Hw Hd eq_refl eq_refl).
      - split; [now exists new | exact Hg'].
      - rewrite Hq. now apply in_phase_app. }
  simpl in Hstep. destruct (ready w) as [|t q] eqn:Hr; [discriminate|].
  injection Hstep as <-.
  (* a task that is not part of this backfill runs *)
  assert (Hother : forall ph', (closing_of c w = false ->
             exists done,
               (frames ++ eose)%list = (done ++ todo sub_id eose ph')%list /\
               subseq done g) ->
            in_phase c sub_id ph' q ->
            backfill_progress c sub_id frames eose wire0
              (run_task t (set_ready q w))).
  { intros ph' Hd' Hq.
    pose proof (grows_run_task c t (set_ready q w)) as Hg.
    apply (progress_carry ph' g w (set_ready q w) _ Hcon He Hw Hd'
             eq_refl eq_refl Hg).
    destruct Hg as ([new Hn] & _). rewrite Hn. now apply in_phase_app. }
  destruct ph as [e rest|e rest|rest|].
  - (* the task for [e] is in the queue *)
    destruct Hph as (q1 & q2 & Hq). destruct q1 as [|t1 q1].
    + injection Hq as -> ->. cbn [run_task].
      change (snd (_send_event c sub_id e (set_ready q2 w)))
        with (set_ready (q2 ++ [T_do_send c (JArr [JStr "EVENT"; sub_id; e])])
                w).
      rewrite ready_set_ready, set_ready_set_ready.
      split; [exact Hcon|]. split; [exact He|].
      exists (Writing e rest), g. split.
      * exists q2, [], []. rewrite ready_set_ready, <- app_assoc. reflexivity.
      * split; [exact Hw | exact Hd].
    + injection Hq as -> ->. apply (Hother (Issued e rest) Hd).
      now exists q1, q2.
  - (* the write of [e] is in the queue *)
    destruct Hph as (q1 & q2 & q3 & Hq). destruct q1 as [|t1 q1].
    + injection Hq as -> ->. cbn [run_task]. rewrite do_send_written.
      cbn [snd]. fold (event_frame sub_id e).
      split; [apply (connected_written _ (set_ready _ w) Hcon)|].
      split; [unfold eose_frames in *; now rewrite written_relay|].
      exists (Waking rest),
        (if closing_of c w then g else (g ++ [event_frame sub_id e])%list).
      split; [rewrite written_ready; now exists q2, q3|].
      rewrite written_wire, written_closing.
      change (closing_of c (set_ready ?x w)) with (closing_of c w).
      change (wire_of c (set_ready ?x w)) with (wire_of c w).
      destruct (closing_of c w) eqn:Hc; [split; [exact Hw | discriminate]|].
      split; [now rewrite Hw, app_assoc|]. intros _.
      destruct (Hd eq_refl) as (done & Hf & Hsub).
      exists (done ++ [event_frame sub_id e])%list. split.
      * rewrite Hf. cbn [todo]. now rewrite <- app_assoc.
      * now apply subseq_app.
    + injection Hq as -> ->. apply (Hother (Writing e rest) Hd).
      now exists q1, q2, q3.
  - (* the wake-up of [_do_sub] is in the queue *)
    destruct Hph as (q1 & q2 & Hq). destruct q1 as [|t1 q1].
    + injection Hq as -> ->. cbn [run_task cont_ws].
      unfold handler_step, resume, catch. destruct rest as [|e' rest'].
      * rewrite backfill_done.
        change (eose_frames sub_id (set_ready q2 w))
          with (eose_frames sub_id w). rewrite He.
        split; [apply (connected_written _ (set_ready _ w) Hcon)|].
        split.
        { change (eose_frames sub_id (set_handler c Reading ?x))
            with (eose_frames sub_id x).
          unfold eose_frames in *. now rewrite written_relay. }
        exists Finished, (if closing_of c w then g else (g ++ eose)%list).
        split; [exact I|].
        change (wire_of c (set_handler c Reading ?x)) with (wire_of c x).
        change (closing_of c (set_handler c Reading ?x))
          with (closing_of c x).
        rewrite written_wire, written_closing.
        change (closing_of c (set_ready ?x w)) with (closing_of c w).
        change (wire_of c (set_ready ?x w)) with (wire_of c w).
        destruct (closing_of c w) eqn:Hc; [split; [exact Hw | discriminate]|].
        split; [now rewrite Hw, app_assoc|]. intros _.
        destruct (Hd eq_refl) as (done & Hf & Hsub).
        exists (done ++ eose)%list. split.
        -- rewrite Hf. cbn [todo map app]. now rewrite app_nil_r.
        -- now apply subseq_app.
      * rewrite backfill_more. rewrite ready_set_ready, set_ready_set_ready.
        split; [exact Hcon|]. split; [exact He|].
        exists (Issued e' rest'), g. split.
        -- exists q2, []. now rewrite ready_set_ready.
        -- split; [exact Hw | exact Hd].
    + injection Hq as -> ->. apply (Hother (Waking rest) Hd).
      now exists q1, q2.
  - (* the backfill is over *)
    apply (Hother Finished Hd). exact I.
Qed.

Lemma progress_run acts : forall (w w' : W),
  backfill_progress c sub_id frames eose wire0 w ->
  run acts w = Some w' ->
  backfill_progress c sub_id frames eose wire0 w'.
Proof.
  induction acts as [|a acts IH]; simpl; intros w w' Hp H.
  - now injection H as <-.
  - destruct (step a w) as [w1|] eqn:E; [|discriminate].
    apply (IH w1 w'); [|exact H]. now apply (progress_step a w w1).
Qed.

(** when the loop has nothing left to run, the backfill is over *)
Lemma progress_idle (w : W) :
  backfill_progress c sub_id frames eose wire0 w ->
  ready w = [] -> closing_of c w = false ->
  exists g,
    wire_of c w = (wire0 ++ g)%list /\ subseq (frames ++ eose)%list g.
Proof.
  intros (_ & _ & ph & g & Hph & Hw & Hd) Hr Hc.
  exists g. split; [exact Hw|].
  destruct (Hd Hc) as (done & Hf & Hsub). rewrite Hr in Hph.
  destruct ph as [e rest|e rest|rest|]; simpl in Hph.
  - destruct Hph as ([|] & ? & H); discriminate H.
  - destruct Hph as ([|] & ? & ? & H); discriminate H.
  - destruct Hph as ([|] & ? & H); discriminate H.
  - simpl in Hf. rewrite app_nil_r in Hf. now rewrite Hf.
Qed.
End Progressing.

Section Closing.
Context {py : PyBuiltins} {imp : Imports}.
Context {Event Store : Type} {EA : EventAPI Event}
        {SI : RelayEventStoreInterface Store Event}.
Let W : Type := World Event Store.

(** whatever happens next, nothing more is written to the socket of a
    connected client once its transport is closing *)
Lemma closing_step c a (w w' : W) :
  connected c w -> closing_of c w = true -> step a w = Some w' ->
  connected c w' /\ closing_of c w' = true /\ wire_of c w' = wire_of c w.
Proof.
  intros Hcon Hc Hstep.
  assert (Hg : exists w0, relay w0 = relay w /\ socks w0 = socks w /\
                          grows c w0 w').
  { destruct (Action_eq_Tick a) as [->|Ha].
    - simpl in Hstep. destruct (ready w) as [|t q]; [discriminate|].
      injection Hstep as <-. exists (set_ready q w).
      split; [reflexivity|]. split; [reflexivity|]. apply grows_run_task.
    - exists w. split; [reflexivity|]. split; [reflexivity|].
      exact (grows_step_env c a w w' Ha Hstep). }
  destruct Hg as (w0 & Hr & Hs & Hg).
  assert (Hcon0 : connected c w0) by (unfold connected; now rewrite Hr, Hs).
  assert (Hc0 : closing_of c w0 = true)
    by (unfold closing_of; now rewrite Hs).
  destruct (grows_connected c w0 w' Hg Hcon0) as (Hcon' & _).
  destruct (grows_closing c w0 w' Hg Hcon0 Hc0) as [Hc' Hw'].
  split; [exact Hcon'|]. split; [exact Hc'|].
  rewrite Hw'. unfold wire_of. now rewrite Hs.
Qed.

Lemma closing_run c acts : forall (w w' : W),
  connected c w -> closing_of c w = true -> run acts w = Some w' ->
  connected c w' /\ closing_of c w' = true /\ wire_of c w' = wire_of c w.
Proof.
  induction acts as [|a acts IH]; simpl; intros w w' Hcon Hc H.
  - injection H as <-. auto.
  - destruct (step a w) as [w1|] eqn:E; [|discriminate].
    destruct (closing_step c a w w1 Hcon Hc E) as (Hcon1 & Hc1 & Hw1).
    destruct (IH w1 w' Hcon1 Hc1 H) as (Hcon' & Hc' & Hw').
    split; [exact Hcon'|]. split; [exact Hc'|]. congruence.
Qed.
End Closing.

Section Starting.
Context {py : PyBuiltins} {imp : Imports}.
Context {Event Store : Type} {EA : EventAPI Event}
        {SI : RelayEventStoreInterface Store Event}.
Let W : Type := World Event Store.

(** the run of the loop that accepts a REQ starts its backfill *)
Lemma progress_start c s sub_id filters evts q (w w1 : W) :
  s <> EmptyString ->
  json_loads s = inr (JArr (JStr "REQ" :: sub_id :: filters)) ->
  accepts c sub_id w ->
  get_filter (_store (relay w))
    (req_filter (JStr "REQ" :: sub_id :: filters)) = inr evts ->
  ready w = T_request c s :: q ->
  connected c w ->
  step Tick w = Some w1 ->
  backfill_progress c sub_id (map (event_frame sub_id) evts)
    (eose_frames sub_id w) (wire_of c w) w1.
Proof.
  intros Hs Hl Hacc Hq Hr Hcon Hstep.
  rewrite (tick_accepted_req c s sub_id filters evts q w Hs Hl Hacc Hq Hr)
    in Hstep. cbv zeta in Hstep. injection Hstep as <-.
  set (flt := req_filter (JStr "REQ" :: sub_id :: filters)).
  set (wr := register c sub_id flt (set_ready q w)).
  destruct (register_frame c sub_id flt (set_ready q w))
    as (Hsk & Hrd & _ & Hen). fold wr in Hsk, Hrd, Hen.
  destruct (register_wire c sub_id flt c (set_ready q w)) as [Hwi Hcl].
  fold wr in Hwi, Hcl.
  change (wire_of c (set_ready q w)) with (wire_of c w) in Hwi.
  change (closing_of c (set_ready q w)) with (closing_of c w) in Hcl.
  assert (Hconr : connected c wr).
  { destruct Hcon as [Hlt [sk Hs0]]. unfold connected. rewrite Hsk.
    split; [|now exists sk].
    unfold wr, register, put_subs, modify. simpl.
    destruct (dict_get Nat.eqb (_ws (relay w)) c); exact Hlt. }
  assert (Heo : eose_frames sub_id wr = eose_frames sub_id w).
  { unfold eose_frames. now rewrite Hen. }
  destruct evts as [|e rest].
  - split; [apply (connected_written c _ wr Hconr)|].
    split.
    { change (eose_frames sub_id (set_handler c Reading ?x))
        with (eose_frames sub_id x).
      unfold eose_frames in *. now rewrite written_relay. }
    exists Finished,
      (if closing_of c w then [] else eose_frames sub_id w).
    split; [exact I|].
    change (wire_of c (set_handler c Reading ?x)) with (wire_of c x).
    change (closing_of c (set_handler c Reading ?x)) with (closing_of c x).
    rewrite written_wire, written_closing, Hwi, Hcl.
    destruct (closing_of c w);
      [split; [now rewrite app_nil_r | discriminate]|].
    split; [reflexivity|]. intros _.
    exists (eose_frames sub_id w). split.
    + cbn [map app todo]. now rewrite app_nil_r.
    + apply subseq_refl.
  - split; [exact Hconr|]. split; [exact Heo|].
    exists (Issued e rest), []. split.
    + exists q, []. reflexivity.
    + change (wire_of c (set_ready ?x wr)) with (wire_of c wr).
      change (closing_of c (set_ready ?x wr)) with (closing_of c wr).
      rewrite Hwi, app_nil_r. split; [reflexivity|]. intros _.
      exists []. split; [reflexivity | constructor].
Qed.
End Starting.

(** the loop brings an accepted REQ, run alone, to the moment a given
    stored event is about to be sent *)
Lemma backfill_then_eose_prefix
    {py : PyBuiltins} {imp : Imports} {Event Store : Type}
    {EA : EventAPI Event} {SI : RelayEventStoreInterface Store Event}
    (c : ws_id) (s : string) (sub_id : json) (filters evts : list json)
    (w : World Event Store) :
  s <> EmptyString ->
  json_loads s = inr (JArr (JStr "REQ" :: sub_id :: filters)) ->
  accepts c sub_id w ->
  get_filter (_store (relay w))
    (req_filter (JStr "REQ" :: sub_id :: filters)) = inr evts ->
  ready w = [T_request c s] ->
  forall pre e post, evts = (pre ++ e :: post)%list ->
    run (repeat Tick (1 + 3 * List.length pre)) w
      = Some (written c (map (event_frame sub_id) pre)
                (set_ready [T_send_event c sub_id e
                              (Some (K_do_sub c sub_id post))]
                   (register c sub_id
                      (req_filter (JStr "REQ" :: sub_id :: filters))
                      (set_ready [] w)))).
Proof.
  intros Hs Hl Hacc Hq Hr pre e post ->.
  pose proof (tick_accepted_req c s sub_id filters _ [] w Hs Hl Hacc Hq Hr)
    as Ht. cbv zeta in Ht. cbn [app] in Ht.
  rewrite repeat_app, run_app. cbn [repeat run]. rewrite Ht.
  destruct pre as [|p pre].
  - cbn [app List.length Nat.mul repeat run map].
    now rewrite written_nil.
  - cbn [app]. replace (3 * List.length (p :: pre))%nat
      with (3 * S (List.length pre))%nat by reflexivity.
    rewrite (backfill_prefix c sub_id pre p e post) by reflexivity.
    now rewrite set_ready_set_ready.
Qed.

(** C2 (amended): an accepted REQ on the socket of a connected client.
    Under every schedule of the loop, whatever other connections do
    meanwhile, the stored events are written as ["EVENT", sub_id, e] frames
    in the order [store.get_filter] returned them, the frames of all earlier
    events are on the wire when the task for the next one is issued, and the
    EOSE frame, when enabled, is written after the last of them; this is for
    as long as the transport of the socket does not fail, and other frames
    can be written in between.  When the backfill runs alone, these frames
    are all that is written, and the loop comes to rest after three runs per
    stored event.  (Nothing holds a live EVENT frame back until EOSE: the
    subscription is in the registry, where the fan-out finds it, before the
    backfill starts.) *)
Theorem backfill_then_eose
    {py : PyBuiltins} {imp : Imports} {Event Store : Type}
    {EA : EventAPI Event} {SI : RelayEventStoreInterface Store Event}
    (c : ws_id) (s : string) (sub_id : json) (filters evts : list json)
    (w : World Event Store) :
  s <> EmptyString ->
  json_loads s = inr (JArr (JStr "REQ" :: sub_id :: filters)) ->
  accepts c sub_id w ->
  get_filter (_store (relay w))
    (req_filter (JStr "REQ" :: sub_id :: filters)) = inr evts ->
  connected c w ->
  let frames := map (event_frame sub_id) evts in
  let eose := eose_frames sub_id w in
  (forall q acts w',
     ready w = T_request c s :: q ->
     run (Tick :: acts) w = Some w' ->
     backfill_progress c sub_id frames eose (wire_of c w) w' /\
     (ready w' = [] -> closing_of c w' = false ->
      exists g,
        wire_of c w' = (wire_of c w ++ g)%list /\
        subseq (frames ++ eose)%list g)) /\
  (ready w = [T_request c s] ->
   let w1 := register c sub_id
               (req_filter (JStr "REQ" :: sub_id :: filters))
               (set_ready [] w) in
   (forall pre e post, evts = (pre ++ e :: post)%list ->
      run (repeat Tick (1 + 3 * List.length pre)) w
        = Some (written c (map (event_frame sub_id) pre)
                  (set_ready [T_send_event c sub_id e
                                (Some (K_do_sub c sub_id post))] w1))) /\
   (forall fuel, (1 + 3 * List.length evts <= fuel)%nat ->
      drain fuel w
        = set_handler c Reading (written c (frames ++ eose)%list w1)) /\
   (closing_of c w = false ->
    exists w',
      run (repeat Tick (1 + 3 * List.length evts)) w = Some w' /\
      ready w' = [] /\
      wire_of c w' = (wire_of c w ++ frames ++ eose)%list)).
Proof.
  intros Hs Hl Hacc Hq Hcon frames eose. split.
  - intros q acts w' Hr Hrun. cbn [run] in Hrun.
    destruct (step Tick w) as [w1|] eqn:Hstep; [|discriminate].
    pose proof (progress_start c s sub_id filters evts q w w1
                  Hs Hl Hacc Hq Hr Hcon Hstep) as H1.
    pose proof (progress_run c sub_id frames eose (wire_of c w) acts w1 w'
                  H1 Hrun) as H2.
    split; [exact H2|]. intros Hidle Hopen.
    exact (progress_idle c sub_id frames eose (wire_of c w) w' H2 Hidle Hopen).
  - intros Hr w1.
    pose proof (tick_accepted_req c s sub_id filters evts [] w
                  Hs Hl Hacc Hq Hr) as Ht.
    fold w1 in Ht. cbv zeta in Ht. cbn [app] in Ht.
    assert (Hend : run (repeat Tick (1 + 3 * List.length evts)) w
      = Some (set_handler c Reading (written c (frames ++ eose)%list w1))).
    { rewrite repeat_app, run_app. cbn [repeat run]. rewrite Ht.
      destruct evts as [|e rest].
      - reflexivity.
      - replace (3 * List.length (e :: rest))%nat
          with (3 * S (List.length rest))%nat by reflexivity.
        rewrite (backfill_run c sub_id rest e) by reflexivity.
        rewrite set_ready_set_ready. unfold eose_frames.
        rewrite relay_set_ready. fold (eose_frames sub_id w1).
        unfold w1 at 1. rewrite eose_frames_register.
        unfold eose, frames, eose_frames. rewrite relay_set_ready.
        f_equal. f_equal. f_equal.
        unfold w1. now rewrite register_set_ready, set_ready_set_ready. }
    assert (Hidle : ready (set_handler c Reading
                (written c (frames ++ eose)%list w1)) = []).
    { cbn [ready set_handler set_handlers]. rewrite written_ready.
      unfold w1.
      now destruct (register_frame c sub_id
             (req_filter (JStr "REQ" :: sub_id :: filters))
             (set_ready [] w)) as (_ & -> & _). }
    split; [|split].
    + apply (backfill_then_eose_prefix c s sub_id filters evts w
               Hs Hl Hacc Hq Hr).
    + intros fuel Hf. exact (run_ticks_drain _ _ _ Hend Hidle fuel Hf).
    + intros Hc. eexists. split; [exact Hend|]. split; [exact Hidle|].
      change (wire_of c (set_handler c Reading ?x)) with (wire_of c x).
      rewrite written_wire. unfold w1.
      destruct (register_wire c sub_id
                  (req_filter (JStr "REQ" :: sub_id :: filters)) c
                  (set_ready [] w)) as [-> ->].
      change (closing_of c (set_ready [] w)) with (closing_of c w).
      rewrite Hc. reflexivity.
Qed.

Section Failing.
Context {py : PyBuiltins} {imp : Imports}.
Context {Event Store : Type} {EA : EventAPI Event}
        {SI : RelayEventStoreInterface Store Event}.
Let W : Type := World Event Store.

Lemma closing_of_shut c (w : W) : closing_of c (shut c w) = true.
Proof.
  unfold shut, closing_of.
  destruct (dict_get Nat.eqb (socks w) c) as [sk|] eqn:E.
  - simpl. now rewrite nat_dict_get_set_same.
  - now rewrite E.
Qed.

Lemma wire_of_shut c c' (w : W) : wire_of c' (shut c w) = wire_of c' w.
Proof.
  unfold shut, wire_of.
  destruct (dict_get Nat.eqb (socks w) c) as [sk|] eqn:E; [|reflexivity].
  simpl. destruct (Nat.eq_dec c c') as [<-|Hne].
  - now rewrite nat_dict_get_set_same, E.
  - now rewrite nat_dict_get_set_other.
Qed.

Lemma shut_frame c (w : W) :
  relay (shut c w) = relay w /\ ready (shut c w) = ready w /\
  handlers (shut c w) = handlers w.
Proof.
  unfold shut. destruct (dict_get Nat.eqb (socks w) c); now repeat split.
Qed.

Lemma connected_register c' c sub_id flt (w : W) :
  connected c' w -> connected c' (register c sub_id flt w).
Proof.
  intros [Hlt Hsk]. unfold connected.
  destruct (register_frame c sub_id flt w) as (-> & _).
  split; [|exact Hsk].
  unfold register, put_subs, modify. simpl.
  destruct (dict_get Nat.eqb (_ws (relay w)) c); exact Hlt.
Qed.

Lemma connected_shut c' c (w : W) : connected c' w -> connected c' (shut c w).
Proof.
  intros H. exact (proj1 (grows_connected c' w (shut c w) (grows_shut c' c w) H)).
Qed.

(** what the [except] clauses of [_do_request] can do to a world *)
Lemma do_request_except_effect c e (w : W) :
  relay (snd (_do_request_except c e w)) = relay w /\
  (wire_of c (snd (_do_request_except c e w)) = wire_of c w \/
   exists m,
     wire_of c (snd (_do_request_except c e w))
       = (wire_of c w ++ [json_dumps (notice m)])%list).
Proof.
  assert (Hsend : forall f,
    relay (snd (send_str c f w)) = relay w /\
    (wire_of c (snd (send_str c f w)) = wire_of c w \/
     wire_of c (snd (send_str c f w)) = (wire_of c w ++ [f])%list)).
  { intros f. pose proof (send_str_answered c f w) as H.
    unfold answered in H. destruct (closing_of c w).
    - rewrite H. auto.
    - destruct H as [_ (H1 & _ & _ & _ & _ & H2)]. auto. }
  destruct e; try (split; [reflexivity | left; reflexivity]).
  - destruct (Hsend (json_dumps (notice msg))) as [H1 [H2|H2]];
      split; eauto.
  - destruct (Hsend (json_dumps (notice "unable to decode command string")))
      as [H1 [H2|H2]]; split; eauto.
Qed.
End Failing.

(** C10: an accepted REQ enters the subscription in the registry before it
    asks the store.  If [store.get_filter] raises, the subscription is still
    registered when the request ends (nothing removes it) and the only frame
    the request can have written is a NOTICE: no EVENT, no EOSE.  If the
    transport of the socket fails while the backfill is under way, here
    right before the write of some stored event, the frames of the earlier
    events are all that was written; the backfill runs to its end with every
    later write failing, the EOSE included, and the subscription is still
    registered.  Whatever else the loop is given to do after that failure,
    nothing more is written to the socket. *)
Theorem registered_before_backfill
    {py : PyBuiltins} {imp : Imports} {Event Store : Type}
    {EA : EventAPI Event} {SI : RelayEventStoreInterface Store Event}
    (c : ws_id) (s : string) (sub_id : json) (filters : list json)
    (w : World Event Store) :
  s <> EmptyString ->
  json_loads s = inr (JArr (JStr "REQ" :: sub_id :: filters)) ->
  accepts c sub_id w ->
  let flt := req_filter (JStr "REQ" :: sub_id :: filters) in
  let w1 := register c sub_id flt w in
  dict_get key_eqb (subs_of c w1) sub_id
    = Some {| sub_id_of := sub_id; filter_of := flt |} /\
  _do_request c s w
    = catch (evts <- lift (get_filter (_store (relay w1)) flt) ;;
             _do_sub_backfill c sub_id evts)
            (_do_request_except c) w1 /\
  (forall e, get_filter (_store (relay w)) flt = inl e ->
     _do_request c s w = _do_request_except c e w1 /\
     relay (snd (_do_request c s w)) = relay w1 /\
     (wire_of c (snd (_do_request c s w)) = wire_of c w \/
      exists m,
        wire_of c (snd (_do_request c s w))
          = (wire_of c w ++ [json_dumps (notice m)])%list)) /\
  (forall pre e post,
     get_filter (_store (relay w)) flt = inr (pre ++ e :: post)%list ->
     ready w = [T_request c s] ->
     connected c w ->
     exists w3 w4,
       run (repeat Tick (1 + 3 * List.length pre)) w = Some w3 /\
       ready w3 = [T_send_event c sub_id e (Some (K_do_sub c sub_id post))] /\
       wire_of c w3
         = (if closing_of c w then wire_of c w
            else (wire_of c w ++ map (event_frame sub_id) pre)%list) /\
       run (Drop c :: repeat Tick (3 * S (List.length post))) w3 = Some w4 /\
       ready w4 = [] /\
       relay w4 = relay w1 /\
       wire_of c w4 = wire_of c w3 /\
       forall acts w5,
         run (Drop c :: acts) w3 = Some w5 -> wire_of c w5 = wire_of c w3).
Proof.
  intros Hs Hl Hacc flt w1.
  pose proof (do_request_accepted c s sub_id filters w Hs Hl Hacc) as Hreq.
  fold flt in Hreq. fold w1 in Hreq.
  assert (Hstore : _store (relay w1) = _store (relay w))
    by apply register_store.
  split; [|split; [|split]].
  - destruct Hacc as ([cn Hc] & Hh & Hm & Hlim).
    unfold w1. rewrite (subs_of_conn c _ _ (register_conn c cn sub_id flt w Hc)).
    simpl. apply dict_get_set_same. now apply key_eqb_refl.
  - now rewrite Hstore.
  - intros e He.
    assert (Heq : _do_request c s w = _do_request_except c e w1).
    { rewrite Hreq. unfold catch, bind. now rewrite He. }
    split; [exact Heq|]. rewrite Heq.
    destruct (do_request_except_effect c e w1) as [H1 H2].
    split; [exact H1|].
    destruct (register_wire c sub_id flt c w) as [Hw _]. fold w1 in Hw.
    now rewrite Hw in H2.
  - intros pre e post Hq Hr Hcon.
    pose proof (backfill_then_eose_prefix c s sub_id filters
                  (pre ++ e :: post)%list w Hs Hl Hacc Hq Hr pre e post
                  eq_refl) as Hrun.
    fold flt in Hrun.
    set (w1' := register c sub_id flt (set_ready [] w)) in *.
    set (w3 := written c (map (event_frame sub_id) pre)
                 (set_ready [T_send_event c sub_id e
                               (Some (K_do_sub c sub_id post))] w1')) in *.
    assert (Hr3 : ready w3
              = [T_send_event c sub_id e (Some (K_do_sub c sub_id post))]).
    { unfold w3. now rewrite written_ready. }
    exists w3, (set_handler c Reading (set_ready [] (shut c w3))).
    split; [exact Hrun|]. split; [exact Hr3|]. split.
    { unfold w3. rewrite written_wire.
      change (closing_of c (set_ready ?q w1')) with (closing_of c w1').
      change (wire_of c (set_ready ?q w1')) with (wire_of c w1').
      unfold w1'.
      destruct (register_wire c sub_id flt c (set_ready [] w)) as [-> ->].
      reflexivity. }
    split.
    { cbn [run step].
      destruct (shut_frame c w3) as (Hsr & Hsq & Hsh).
      rewrite (backfill_run c sub_id post e (shut c w3))
        by (now rewrite Hsq).
      rewrite written_closing_id; [reflexivity|].
      change (closing_of c (set_ready [] ?x)) with (closing_of c x).
      apply closing_of_shut. }
    split; [reflexivity|]. split.
    { change (relay (set_handler c Reading (set_ready [] ?x)))
        with (relay x).
      destruct (shut_frame c w3) as (-> & _).
      unfold w3. rewrite written_relay, relay_set_ready.
      unfold w1', w1. now rewrite register_set_ready. }
    split.
    { change (wire_of c (set_handler c Reading (set_ready [] ?x)))
        with (wire_of c x).
      apply wire_of_shut. }
    intros acts w5 Hrun5. cbn [run step] in Hrun5.
    assert (Hcon3 : connected c w3).
    { unfold w3. apply connected_written.
      change (connected c (set_ready ?q w1')) with (connected c w1').
      unfold w1'. apply connected_register. exact Hcon. }
    destruct (closing_run c acts (shut c w3) w5
                (connected_shut c c w3 Hcon3) (closing_of_shut c w3) Hrun5)
      as (_ & _ & Hw5).
    rewrite Hw5. apply wire_of_shut.
Qed.

(** C7 (as the code behaves): at any time in the life of a relay, the answer
    to a GET that cannot be upgraded is built by
    [web.Response(text=json.dumps(info))].  It has status 200 and carries the
    information document, whose [supported_nips] is sorted, contains 1, 2 and
    11, contains 9 exactly when the store supports NIP-09, 15 exactly when
    EOSE is enabled and 16 exactly when the store supports NIP-16; the
    request leaves the relay as it was.  The content type is the library
    default for a text body, text/plain, and not application/json. *)
Theorem nip11_response
    {py : PyBuiltins} {imp : Imports} {Event Store : Type}
    {EA : EventAPI Event} {SI : RelayEventStoreInterface Store Event}
    (store : Store) a (max_sub : Z) (name description pubkey contact : option string)
    (eose : bool) (r : Relay Event Store) (w : World Event Store) :
  Relay__init__ store a max_sub name description pubkey contact eose = inr r ->
  reachable r w ->
  exists resp nips,
    _websocket_handler_enter false w = (Some resp, w) /\
    status resp = 200 /\
    content_type resp = "text/plain" /\
    content_type resp <> "application/json" /\
    text resp = json_dumps (JObj (_relay_information r)) /\
    dict_get String.eqb (_relay_information r) "supported_nips"
      = Some (JArr (map JNum nips)) /\
    StronglySorted Z.lt nips /\
    In 1 nips /\ In 2 nips /\ In 11 nips /\
    (In 9 nips <-> is_NIP09 store = true) /\
    (In 15 nips <-> eose = true) /\
    (In 16 nips <-> is_NIP16 store = true).
Proof.
  intros Hinit Hreach.
  destruct (same_config_reachable r w Hreach) as (Hinfo & _). simpl in Hinfo.
  exists (_NIP11_relay_info_route (relay w)), (supported_nips store eose).
  split; [reflexivity|].
  split; [reflexivity|].
  split; [reflexivity|].
  split; [discriminate|].
  split; [unfold _NIP11_relay_info_route; simpl; now rewrite Hinfo|].
  split; [eapply init_information; eauto|].
  split; [apply supported_nips_sorted|].
  apply supported_nips_members.
Qed.

(** * Further properties of the relay *)

(** ** Keys of a registry *)

Lemma key_eqb_sym (a b : json) : key_eqb a b = key_eqb b a.
Proof.
  destruct a, b; simpl; auto.
  - destruct b, b0; reflexivity.
  - apply Z.eqb_sym.
  - apply String.eqb_sym.
Qed.

(** keys equal to the same key are equal to each other *)
Lemma key_eqb_cancel (a b k : json) :
  key_eqb a k = true -> key_eqb b k = true -> key_eqb a b = true.
Proof.
  destruct a as [|x|x|x|x|x], b as [|y|y|y|y|y], k as [|z|z|z|z|z];
    cbn [key_eqb]; try discriminate; auto;
    repeat match goal with
           | b : bool |- _ => destruct b
           end; cbn [Bool.eqb]; try discriminate; auto;
    rewrite ?Z.eqb_eq, ?String.eqb_eq; intros; subst; auto; try congruence;
    try lia.
Qed.

Section RegistryFacts.
Variable V : Type.

Lemma dict_del_set_fresh (d : dict json V) k v :
  hashable k = true -> dict_mem key_eqb d k = false ->
  dict_del key_eqb (dict_set key_eqb d k v) k = d.
Proof.
  intros Hh. unfold dict_mem.
  induction d as [|[k' v'] d IH]; simpl.
  - now rewrite key_eqb_refl.
  - destruct (key_eqb k k') eqn:E; [discriminate|]. intros H.
    simpl. rewrite E. now rewrite IH.
Qed.

Lemma dict_del_length (d : dict json V) k :
  dict_mem key_eqb d k = true ->
  len (dict_del key_eqb d k) = len d - 1.
Proof.
  unfold dict_mem, len.
  induction d as [|[k' v'] d IH]; cbn [dict_get dict_del]; [discriminate|].
  destruct (key_eqb k k') eqn:E; intros H; cbn [List.length].
  - lia.
  - specialize (IH H). lia.
Qed.

Lemma dict_get_del_other (d : dict json V) k k2 :
  key_eqb k k2 = false ->
  dict_get key_eqb (dict_del key_eqb d k) k2 = dict_get key_eqb d k2.
Proof.
  intros Hne. induction d as [|[k' v'] d IH]; simpl; auto.
  destruct (key_eqb k k') eqn:E.
  - destruct (key_eqb k2 k') eqn:E2; auto.
    rewrite (key_eqb_cancel k k2 k' E E2) in Hne. discriminate.
  - simpl. now rewrite IH.
Qed.
End RegistryFacts.

(** ** Closing a subscription *)

Section Unsubscribing.
Context {py : PyBuiltins} {imp : Imports}.
Context {Event Store : Type} {EA : EventAPI Event}
        {SI : RelayEventStoreInterface Store Event}.
Let W : Type := World Event Store.

Lemma do_request_close c s rest (w : W) :
  s <> EmptyString ->
  json_loads s = inr (JArr (JStr "CLOSE" :: rest)) ->
  _do_request c s w
    = catch (_do_unsub (JStr "CLOSE" :: rest) c) (_do_request_except c) w.
Proof.
  intros Hs H. rewrite do_request_nonempty by assumption.
  unfold catch, _do_request_try, bind, lift. rewrite H. reflexivity.
Qed.

Lemma do_unsub_success hd sub_id rest c cn (w : W) :
  dict_get Nat.eqb (_ws (relay w)) c = Some cn ->
  hashable sub_id = true ->
  dict_mem key_eqb (subs cn) sub_id = true ->
  _do_unsub (hd :: sub_id :: rest) c w
    = (Raise (NostrCommandException
                ("CLOSE command for sub_id " ++ py_str sub_id
                 ++ " - success")),
       unregister c sub_id w).
Proof.
  intros Hc Hh Hm.
  unfold _do_unsub. rewrite len_two_or_more. cbn [nth].
  unfold bind at 1. unfold conn_of at 1, bind at 1, get_relay at 1.
  rewrite Hc. cbn [ret].
  unfold bind at 1, has_sub at 1. rewrite Hh. cbn [ret].
  rewrite Hm. cbn [negb].
  unfold unregister. rewrite (subs_of_conn c cn w Hc).
  unfold bind. rewrite (put_subs_conn c cn _ w Hc). reflexivity.
Qed.

Lemma do_unsub_unknown hd sub_id rest c cn (w : W) :
  dict_get Nat.eqb (_ws (relay w)) c = Some cn ->
  hashable sub_id = true ->
  dict_mem key_eqb (subs cn) sub_id = false ->
  _do_unsub (hd :: sub_id :: rest) c w
    = (Raise (NostrCommandException
                ("CLOSE command for sub_id that not subscribed to, nothing to do - "
                 ++ py_str sub_id)), w).
Proof.
  intros Hc Hh Hm.
  unfold _do_unsub. rewrite len_two_or_more. cbn [nth].
  unfold bind at 1. unfold conn_of at 1, bind at 1, get_relay at 1.
  rewrite Hc. cbn [ret].
  unfold bind at 1, has_sub at 1. rewrite Hh. cbn [ret].
  rewrite Hm. reflexivity.
Qed.

Lemma unregister_conn c cn sub_id (w : W) :
  dict_get Nat.eqb (_ws (relay w)) c = Some cn ->
  dict_get Nat.eqb (_ws (relay (unregister c sub_id w))) c
    = Some {| subs := dict_del key_eqb (subs cn) sub_id; ws := ws cn |}.
Proof.
  intros H. unfold unregister.
  rewrite (put_subs_conn c cn _ w H). simpl.
  rewrite nat_dict_get_set_same. now rewrite (subs_of_conn c cn w H).
Qed.

Lemma unregister_other c cn sub_id c' (w : W) :
  dict_get Nat.eqb (_ws (relay w)) c = Some cn -> c' <> c ->
  dict_get Nat.eqb (_ws (relay (unregister c sub_id w))) c'
    = dict_get Nat.eqb (_ws (relay w)) c'.
Proof.
  intros H Hne. unfold unregister.
  rewrite (put_subs_conn c cn _ w H). simpl.
  apply nat_dict_get_set_other. congruence.
Qed.

(** entering a subscription and removing it again gives back the world *)
Lemma unregister_register c sub_id flt (w : W) :
  accepts c sub_id w -> unregister c sub_id (register c sub_id flt w) = w.
Proof.
  intros ([cn Hc] & Hh & Hm & _).
  pose proof (register_conn c cn sub_id flt w Hc) as Hreg.
  unfold unregister at 1.
  rewrite (put_subs_conn c _ _ _ Hreg).
  rewrite (subs_of_conn c _ _ Hreg). cbn [subs ws snd].
  rewrite (subs_of_conn c cn w Hc) in Hm.
  rewrite (dict_del_set_fresh _ (subs cn) sub_id _ Hh Hm).
  unfold register. rewrite (put_subs_conn c cn _ w Hc). cbn [snd].
  unfold set_relay, with_ws. cbn.
  rewrite nat_dict_set_set.
  replace {| subs := subs cn; ws := ws cn |} with cn by now destruct cn.
  rewrite (nat_dict_set_get _ _ _ Hc).
  destruct w as [r sk q h]. destruct r. reflexivity.
Qed.
End Unsubscribing.

(** X1.  A CLOSE for a subscription of the connection removes exactly that
    subscription: the registry has one entry less, every other subscription
    and every other connection is as before, and the client is sent the
    NOTICE that reports the success.  A CLOSE for a [sub_id] that is not
    subscribed changes nothing and is answered by a NOTICE; so is a CLOSE
    without a [sub_id], whose NOTICE speaks of a REQ. *)
Theorem close_replies
    {py : PyBuiltins} {imp : Imports} {Event Store : Type}
    {EA : EventAPI Event} {SI : RelayEventStoreInterface Store Event}
    (c : ws_id) (s : string) (cn : Conn) (w : World Event Store) :
  s <> EmptyString ->
  dict_get Nat.eqb (_ws (relay w)) c = Some cn ->
  (json_loads s = inr (JArr [JStr "CLOSE"]) ->
   answered c (json_dumps (notice "REQ command missing sub_id")) w
     (_do_request c s w)) /\
  (forall sub_id rest,
     json_loads s = inr (JArr (JStr "CLOSE" :: sub_id :: rest)) ->
     hashable sub_id = true ->
     (dict_mem key_eqb (subs cn) sub_id = false ->
      answered c
        (json_dumps
           (notice ("CLOSE command for sub_id that not subscribed to, nothing to do - "
                    ++ py_str sub_id))) w
        (_do_request c s w)) /\
     (dict_mem key_eqb (subs cn) sub_id = true ->
      let w1 := unregister c sub_id w in
      answered c
        (json_dumps (notice ("CLOSE command for sub_id " ++ py_str sub_id
                             ++ " - success"))) w1
        (_do_request c s w) /\
      subs_of c w1 = dict_del key_eqb (subs cn) sub_id /\
      len (subs_of c w1) = len (subs cn) - 1 /\
      (forall k, key_eqb sub_id k = false ->
         dict_get key_eqb (subs_of c w1) k = dict_get key_eqb (subs cn) k) /\
      (forall c', c' <> c ->
         dict_get Nat.eqb (_ws (relay w1)) c'
           = dict_get Nat.eqb (_ws (relay w)) c') /\
      _store (relay w1) = _store (relay w) /\
      ready w1 = ready w)).
Proof.
  intros Hs Hc. split.
  - intros Hl. rewrite (do_request_close c s [] w Hs Hl).
    unfold catch. cbn. apply send_str_answered.
  - intros sub_id rest Hl Hh. split.
    + intros Hm. rewrite (do_request_close c s _ w Hs Hl). unfold catch.
      rewrite (do_unsub_unknown (JStr "CLOSE") sub_id rest c cn w Hc Hh Hm).
      apply send_str_answered.
    + intros Hm w1.
      pose proof (unregister_conn c cn sub_id w Hc) as Hun. fold w1 in Hun.
      split; [|split; [|split; [|split; [|split; [|split]]]]].
      * rewrite (do_request_close c s _ w Hs Hl). unfold catch.
        rewrite (do_unsub_success (JStr "CLOSE") sub_id rest c cn w Hc Hh Hm).
        apply send_str_answered.
      * now rewrite (subs_of_conn c _ w1 Hun).
      * rewrite (subs_of_conn c _ w1 Hun). cbn [subs].
        now apply dict_del_length.
      * intros k Hk. rewrite (subs_of_conn c _ w1 Hun). cbn [subs].
        now apply dict_get_del_other.
      * intros c' Hne. now apply (unregister_other c cn sub_id c' w Hc).
      * unfold w1, unregister. now rewrite (put_subs_conn c cn _ w Hc).
      * unfold w1, unregister. now rewrite (put_subs_conn c cn _ w Hc).
Qed.

(** ** A REQ, then a CLOSE *)

Section ReqThenClose.
Context {py : PyBuiltins} {imp : Imports}.
Context {Event Store : Type} {EA : EventAPI Event}
        {SI : RelayEventStoreInterface Store Event}.
Let W : Type := World Event Store.

Lemma send_str_written c f (w : W) : snd (send_str c f w) = written c [f] w.
Proof.
  unfold send_str, written.
  destruct (dict_get Nat.eqb (socks w) c) as [sk|]; [|reflexivity].
  destruct (closing sk); reflexivity.
Qed.

Lemma set_ready_same (w : W) : set_ready (ready w) w = w.
Proof. now destruct w. Qed.

Lemma register_rest c sub_id flt (w : W) :
  socks (register c sub_id flt w) = socks w /\
  ready (register c sub_id flt w) = ready w /\
  _enable_nip15 (relay (register c sub_id flt w)) = _enable_nip15 (relay w).
Proof.
  unfold register, put_subs, modify. cbn [snd].
  destruct (dict_get Nat.eqb (_ws (relay w)) c); repeat split.
Qed.

Lemma unregister_rest c sub_id (w : W) :
  socks (unregister c sub_id w) = socks w /\
  ready (unregister c sub_id w) = ready w.
Proof.
  unfold unregister, put_subs, modify. cbn [snd].
  destruct (dict_get Nat.eqb (_ws (relay w)) c); repeat split.
Qed.

(** removing a subscription looks at the relay only *)
Lemma unregister_relay c sub_id (w w' : W) :
  relay w' = relay w ->
  relay (unregister c sub_id w') = relay (unregister c sub_id w).
Proof.
  intros H. unfold unregister, subs_of, put_subs, modify. cbn [snd].
  rewrite !H.
  destruct (dict_get Nat.eqb (_ws (relay w)) c); [reflexivity|exact H].
Qed.

Lemma accepts_relay c sub_id (w w' : W) :
  relay w' = relay w -> accepts c sub_id w -> accepts c sub_id w'.
Proof. unfold accepts, subs_of. now intros ->. Qed.

(** the world that the handler of an accepted REQ leaves when it returns,
    raises or is suspended in its backfill: the subscription is entered,
    frames [fs] were handed to the socket and the queue is [q] *)
Lemma req_world c s sub_id filters (w : W) :
  s <> EmptyString ->
  json_loads s = inr (JArr (JStr "REQ" :: sub_id :: filters)) ->
  accepts c sub_id w ->
  let flt := req_filter (JStr "REQ" :: sub_id :: filters) in
  exists fs q,
    snd (_do_request c s w)
      = set_ready q (written c fs (register c sub_id flt w)) /\
    (get_filter (_store (relay w)) flt = inr [] ->
     _enable_nip15 (relay w) = true -> fs = [eose_frame sub_id]).
Proof.
  intros Hs Hl Hacc flt.
  rewrite (do_request_req c s sub_id filters w Hs Hl).
  unfold catch. rewrite (do_sub_accepted (JStr "REQ") sub_id filters c w Hacc).
  fold flt. set (w0 := register c sub_id flt w).
  assert (Hq : forall fs, written c fs w0
                 = set_ready (ready (written c fs w0)) (written c fs w0))
    by (intros fs; now rewrite set_ready_same).
  unfold bind at 1.
  destruct (get_filter (_store (relay w)) flt) as [e|[|x evts]] eqn:Hg.
  - cbn [lift raise].
    assert (He : (exists f, snd (_do_request_except c e w0)
                            = written c [f] w0) \/
                 snd (_do_request_except c e w0) = w0).
    { destruct e; cbn [_do_request_except]; try (right; reflexivity);
        left; eexists; apply send_str_written. }
    destruct He as [[f He]|He].
    + exists [f], (ready (written c [f] w0)). split; [|discriminate].
      destruct (_do_request_except c e w0). cbn [snd] in *. subst.
      apply Hq.
    + exists [], (ready (written c [] w0)). split; [|discriminate].
      destruct (_do_request_except c e w0). cbn [snd] in *. subst.
      rewrite written_nil. now rewrite set_ready_same.
  - cbn [lift ret _do_sub_backfill]. unfold bind at 1, get_relay at 1.
    destruct (_enable_nip15 (relay w0)) eqn:En.
    + unfold _send_eose. rewrite do_send_written. cbn [snd].
      exists [eose_frame sub_id], (ready (written c [eose_frame sub_id] w0)).
      split; [apply Hq|reflexivity].
    + exists [], (ready (written c [] w0)). cbn [ret snd].
      split; [rewrite written_nil; now rewrite set_ready_same|].
      intros _ Ht. unfold w0 in En.
      rewrite (proj2 (proj2 (register_rest c sub_id flt w))) in En.
      congruence.
  - cbn [lift ret _do_sub_backfill]. unfold bind, create_task, modify, await.
    cbn [snd].
    eexists [], _. split; [|discriminate].
    rewrite written_nil. reflexivity.
Qed.

(** what a REQ that is accepted leaves behind, read off the world *)
Lemma req_leaves c s sub_id filters (w : W) :
  s <> EmptyString ->
  json_loads s = inr (JArr (JStr "REQ" :: sub_id :: filters)) ->
  accepts c sub_id w ->
  let flt := req_filter (JStr "REQ" :: sub_id :: filters) in
  let w1 := snd (_do_request c s w) in
  relay w1 = relay (register c sub_id flt w) /\
  closing_of c w1 = closing_of c w /\
  (exists fs, wire_of c w1 = (wire_of c w ++ fs)%list) /\
  (get_filter (_store (relay w)) flt = inr [] ->
   _enable_nip15 (relay w) = true -> closing_of c w = false ->
   wire_of c w1 = (wire_of c w ++ [eose_frame sub_id])%list).
Proof.
  intros Hs Hl Hacc flt w1.
  destruct (req_world c s sub_id filters w Hs Hl Hacc) as (fs & q & E & Hfs).
  fold flt in E, Hfs. fold w1 in E.
  destruct (register_rest c sub_id flt w) as (Hsk & _ & _).
  assert (Hcl : closing_of c (register c sub_id flt w) = closing_of c w)
    by (unfold closing_of; now rewrite Hsk).
  assert (Hwi : wire_of c (register c sub_id flt w) = wire_of c w)
    by (unfold wire_of; now rewrite Hsk).
  assert (Hw : wire_of c w1
               = if closing_of c w then wire_of c w
                 else (wire_of c w ++ fs)%list).
  { rewrite E. change (wire_of c (set_ready q ?x)) with (wire_of c x).
    now rewrite written_wire, Hcl, Hwi. }
  split; [rewrite E; cbn [relay set_ready]; apply written_relay|].
  split.
  { rewrite E. change (closing_of c (set_ready q ?x)) with (closing_of c x).
    now rewrite written_closing. }
  split.
  - rewrite Hw. destruct (closing_of c w); [exists []|exists fs]; auto.
    now rewrite app_nil_r.
  - intros Hg Hn Hc. rewrite Hw, Hc. now rewrite (Hfs Hg Hn).
Qed.

(** a CLOSE that finds its subscription, as a frame *)
Lemma close_frame_world c s sub_id rest cn (w : W) :
  s <> EmptyString ->
  json_loads s = inr (JArr (JStr "CLOSE" :: sub_id :: rest)) ->
  dict_get Nat.eqb (_ws (relay w)) c = Some cn ->
  hashable sub_id = true ->
  dict_mem key_eqb (subs cn) sub_id = true ->
  let done := json_dumps (notice ("CLOSE command for sub_id "
                                  ++ py_str sub_id ++ " - success")) in
  let r := _do_request c s w in
  relay (snd r) = relay (unregister c sub_id w) /\
  ready (snd r) = ready w /\
  (closing_of c w = false ->
   fst r = Return tt /\ wire_of c (snd r) = (wire_of c w ++ [done])%list).
Proof.
  intros Hs Hl Hc Hh Hm done r.
  assert (E : r = send_str c done (unregister c sub_id w)).
  { unfold r. rewrite (do_request_close c s _ w Hs Hl). unfold catch.
    now rewrite (do_unsub_success (JStr "CLOSE") sub_id rest c cn w Hc Hh Hm). }
  destruct (unregister_rest c sub_id w) as (Hsk & Hrd).
  pose proof (send_str_answered c done (unregister c sub_id w)) as Ha.
  rewrite <- E in Ha.
  assert (Hcl : closing_of c (unregister c sub_id w) = closing_of c w)
    by (unfold closing_of; now rewrite Hsk).
  assert (Hwi : wire_of c (unregister c sub_id w) = wire_of c w)
    by (unfold wire_of; now rewrite Hsk).
  split; [exact (answered_relay c done _ r Ha)|].
  unfold answered in Ha. rewrite Hcl in Ha.
  destruct (closing_of c w).
  - rewrite Ha. cbn [snd]. split; [exact Hrd|discriminate].
  - destruct Ha as (Hr & _ & Hq & _ & _ & _ & Hw).
    split; [now rewrite Hq|]. intros _. split; [exact Hr|].
    now rewrite Hw, Hwi.
Qed.
End ReqThenClose.

(** C6.  A REQ that supplies a [sub_id] and no filter, and that passes the
    checks of the registry, creates the subscription with the filter [{}]:
    the value kept is that one filter object, which stands for the
    FilterSet [[{}]], a single filter without any field.  By the matcher of
    the spec every event matches it.  So, with an event class whose [test]
    is that matcher: whatever [store.get_filter] answers for [{}] is what
    the backfill sends, starting with the first event of the answer, and
    every event that later reaches the fan-out, for as long as the relay
    state is as the REQ left it, is scheduled for this subscription. *)
Theorem req_without_filter
    {py : PyBuiltins} {imp : Imports} {Event Store : Type}
    {EA : EventAPI Event} {SI : RelayEventStoreInterface Store Event}
    (field_holds : string -> json -> Event -> bool)
    (c : ws_id) (s : string) (sub_id : json) (w : World Event Store) :
  (forall evt v, Event_test evt v = FilterSet_matches field_holds v evt) ->
  s <> EmptyString ->
  json_loads s = inr (JArr [JStr "REQ"; sub_id]) ->
  accepts c sub_id w ->
  let w1 := snd (_do_request c s w) in
  exists cn the_sub,
    dict_get Nat.eqb (_ws (relay w1)) c = Some cn /\
    dict_get key_eqb (subs cn) sub_id = Some the_sub /\
    sub_id_of the_sub = sub_id /\
    filter_of the_sub = JObj [] /\
    FilterSet_of (filter_of the_sub) = [JObj []] /\
    (forall evt,
       FilterSet_matches field_holds (filter_of the_sub) evt = true) /\
    (forall e rest,
       get_filter (_store (relay w)) (filter_of the_sub) = inr (e :: rest) ->
       fst (_do_request c s w) = Await /\
       ready w1
         = (ready w
            ++ [T_send_event c sub_id e (Some (K_do_sub c sub_id rest))])%list)
    /\
    (forall evt w', relay w' = relay w1 ->
       In (T_send_event (ws cn) sub_id (Event_event_data evt) None)
          (ready (snd (_check_subs evt w')))).
Proof.
  intros Htest Hs Hl Hacc w1.
  destruct (req_leaves c s sub_id [] w Hs Hl Hacc) as (Hrel & _).
  fold w1 in Hrel.
  change (req_filter [JStr "REQ"; sub_id]) with (JObj []) in Hrel.
  pose proof Hacc as ([cn Hc] & Hh & Hm & _).
  pose proof (register_conn c cn sub_id (JObj []) w Hc) as Hreg.
  rewrite <- Hrel in Hreg.
  rewrite (subs_of_conn c cn w Hc) in Hm.
  set (the_sub := {| sub_id_of := sub_id; filter_of := JObj [] |}).
  fold the_sub in Hreg.
  eexists. exists the_sub. split; [exact Hreg|]. cbn [subs ws].
  split; [apply dict_get_set_same; now apply key_eqb_refl|].
  split; [reflexivity|]. split; [reflexivity|]. split; [reflexivity|].
  split; [reflexivity|]. split.
  - intros e rest Hg. cbn [filter_of the_sub] in Hg. unfold w1.
    rewrite (do_request_req c s sub_id [] w Hs Hl). unfold catch.
    rewrite (do_sub_accepted (JStr "REQ") sub_id [] c w Hacc).
    change (req_filter [JStr "REQ"; sub_id]) with (JObj []).
    unfold bind at 1. rewrite Hg. unfold lift, ret.
    unfold _do_sub_backfill, bind, create_task, modify, await, ret.
    cbn [fst snd ready set_ready].
    split; [reflexivity|].
    now rewrite (proj1 (proj2 (register_rest c sub_id (JObj []) w))).
  - intros evt w' Hw'. rewrite check_subs_spec. cbn [snd ready set_ready].
    apply in_or_app. right. rewrite Hw'.
    destruct (dict_get_In _ _ Nat.eqb _ _ _ Hreg) as (c' & Hin & _).
    apply (matching_sends_complete evt _ c'
             {| subs := dict_set key_eqb (subs cn) sub_id the_sub;
                ws := ws cn |} sub_id the_sub); [exact Hin| |].
    + cbn [subs]. rewrite (dict_set_fresh _ _ key_eqb _ _ _ Hm).
      apply in_or_app. right. now left.
    + rewrite Htest. reflexivity.
Qed.

(** X2.  A REQ that is accepted and a CLOSE for the same [sub_id], both
    handed to [_do_request] as frames.  After the REQ the subscription is
    in the registry and the wire has only grown.  The CLOSE, handled at any
    moment at which the relay state is still as the REQ left it, puts the
    relay state (connection table, every registry, store, options) back to
    what it was before the REQ, so that the same REQ is accepted again; it
    makes no task, and on a sound transport it returns after one more
    frame, the NOTICE of the success.  The wire is not put back: with
    nothing in the store for the filter and EOSE enabled, the two frames
    have added the EOSE and that NOTICE to it. *)
Theorem subscribe_then_close
    {py : PyBuiltins} {imp : Imports} {Event Store : Type}
    {EA : EventAPI Event} {SI : RelayEventStoreInterface Store Event}
    (c : ws_id) (s1 s2 : string) (sub_id : json) (filters rest : list json)
    (w : World Event Store) :
  s1 <> EmptyString -> s2 <> EmptyString ->
  json_loads s1 = inr (JArr (JStr "REQ" :: sub_id :: filters)) ->
  json_loads s2 = inr (JArr (JStr "CLOSE" :: sub_id :: rest)) ->
  accepts c sub_id w ->
  let w1 := snd (_do_request c s1 w) in
  let done := json_dumps (notice ("CLOSE command for sub_id "
                                  ++ py_str sub_id ++ " - success")) in
  (dict_mem key_eqb (subs_of c w1) sub_id = true /\
   exists fs, wire_of c w1 = (wire_of c w ++ fs)%list) /\
  (forall w', relay w' = relay w1 ->
     let r2 := _do_request c s2 w' in
     relay (snd r2) = relay w /\
     accepts c sub_id (snd r2) /\
     ready (snd r2) = ready w' /\
     (closing_of c w' = false ->
      fst r2 = Return tt /\
      wire_of c (snd r2) = (wire_of c w' ++ [done])%list)) /\
  (get_filter (_store (relay w))
     (req_filter (JStr "REQ" :: sub_id :: filters)) = inr [] ->
   _enable_nip15 (relay w) = true -> closing_of c w = false ->
   wire_of c (snd (_do_request c s2 w1))
     = (wire_of c w ++ [eose_frame sub_id; done])%list).
Proof.
  intros Hs1 Hs2 Hl1 Hl2 Hacc w1 done.
  set (flt := req_filter (JStr "REQ" :: sub_id :: filters)).
  destruct (req_leaves c s1 sub_id filters w Hs1 Hl1 Hacc)
    as (Hrel & Hcl & Hfs & Heose).
  fold w1 in Hrel, Hcl, Hfs, Heose. fold flt in Hrel, Heose.
  pose proof Hacc as ([cn Hc] & Hh & Hm & _).
  pose proof (register_conn c cn sub_id flt w Hc) as Hreg.
  rewrite (subs_of_conn c cn w Hc) in Hm.
  assert (Hin : dict_mem key_eqb
                  (dict_set key_eqb (subs cn) sub_id
                     {| sub_id_of := sub_id; filter_of := flt |}) sub_id
                = true).
  { unfold dict_mem. rewrite dict_get_set_same; [reflexivity|].
    now apply key_eqb_refl. }
  assert (Hafter : forall w', relay w' = relay w1 ->
            let r2 := _do_request c s2 w' in
            relay (snd r2) = relay w /\
            ready (snd r2) = ready w' /\
            (closing_of c w' = false ->
             fst r2 = Return tt /\
             wire_of c (snd r2) = (wire_of c w' ++ [done])%list)).
  { intros w' Hw' r2. rewrite Hrel in Hw'.
    assert (Hc' : dict_get Nat.eqb (_ws (relay w')) c
                  = Some {| subs := dict_set key_eqb (subs cn) sub_id
                                      {| sub_id_of := sub_id;
                                         filter_of := flt |};
                            ws := ws cn |})
      by (rewrite Hw'; exact Hreg).
    destruct (close_frame_world c s2 sub_id rest _ w' Hs2 Hl2 Hc' Hh Hin)
      as (Hr & Hq & Hwire).
    split; [|split; [exact Hq|exact Hwire]].
    fold r2 in Hr. rewrite Hr.
    rewrite (unregister_relay c sub_id _ w' Hw').
    now rewrite (unregister_register c sub_id flt w Hacc). }
  split; [|split].
  - split; [|exact Hfs]. unfold subs_of. rewrite Hrel, Hreg. exact Hin.
  - intros w' Hw' r2. destruct (Hafter w' Hw') as (Hr & Hq & Hwire).
    fold r2 in Hr, Hq, Hwire.
    split; [exact Hr|]. split; [|split; [exact Hq|exact Hwire]].
    now apply (accepts_relay c sub_id w).
  - intros Hg Hn Hcw.
    destruct (Hafter w1 eq_refl) as (_ & _ & Hwire).
    rewrite Hcw in Hcl. destruct (Hwire Hcl) as [_ ->].
    rewrite (Heose Hg Hn Hcw). now rewrite <- app_assoc.
Qed.

(** ** Posting: what happens before and after the store *)

Section Posting2.
Context {py : PyBuiltins} {imp : Imports}.
Context {Event Store : Type} {EA : EventAPI Event}
        {SI : RelayEventStoreInterface Store Event}.
Let W : Type := World Event Store.

(** the first handler that raises ends the loop of line 272 *)
Lemma accept_veto (hs1 hs2 : list (AcceptReqHandler Event))
    (h : AcceptReqHandler Event) c evt e (w : W) :
  Forall (fun h => h c evt = None) hs1 -> h c evt = Some e ->
  for_each (hs1 ++ h :: hs2)%list (fun c_accept =>
    match c_accept c evt with
    | Some e => raise e
    | None => ret tt
    end) w = (Raise e, w).
Proof.
  intros H He. induction H as [|h1 hs1 Hh _ IH]; simpl.
  - unfold bind. now rewrite He.
  - unfold bind. rewrite Hh. simpl. exact IH.
Qed.

Lemma do_event_checked hd j rest c evt (w : W) :
  Event_from_JSON j = inr evt -> Event_is_valid evt = true ->
  Forall (fun h => h c evt = None) (_accept_req (relay w)) ->
  _do_event (hd :: j :: rest) c w
    = catch
        (store_call (fun s => add_event s evt) ;;
         (if Event_kind evt =? KIND_DELETE
          then store_call (fun s => do_delete s evt)
          else ret tt) ;;
         _check_subs evt)
        (_do_event_except evt) w.
Proof.
  intros Hj Hv Ha. unfold _do_event.
  rewrite len_two_or_more. cbn [nth]. rewrite Hj.
  unfold bind at 1. cbn [lift ret]. rewrite Hv. cbn [negb].
  unfold bind at 1. cbn [get_relay].
  unfold bind at 1. now rewrite accept_all_pass by assumption.
Qed.
End Posting2.

(** X3.  An EVENT command is refused before the store is touched when it
    carries no event, when the event fails the signature check, or when an
    accept handler raises a [NostrCommandException]: the client is sent the
    corresponding NOTICE and nothing else happens, so the event is neither
    stored nor handed to any subscriber.  The handlers are asked in order
    and the first that raises decides. *)
Theorem event_refused_before_store
    {py : PyBuiltins} {imp : Imports} {Event Store : Type}
    {EA : EventAPI Event} {SI : RelayEventStoreInterface Store Event}
    (c : ws_id) (s : string) (w : World Event Store) :
  s <> EmptyString ->
  (json_loads s = inr (JArr [JStr "EVENT"]) ->
   answered c (json_dumps (notice "EVENT command missing event data")) w
     (_do_request c s w)) /\
  (forall j rest evt,
     json_loads s = inr (JArr (JStr "EVENT" :: j :: rest)) ->
     Event_from_JSON j = inr evt ->
     (Event_is_valid evt = false ->
      answered c
        (json_dumps (notice "invalid event, pubkey doesn't match sig")) w
        (_do_request c s w)) /\
     (forall hs1 h hs2 m,
        Event_is_valid evt = true ->
        _accept_req (relay w) = (hs1 ++ h :: hs2)%list ->
        Forall (fun h => h c evt = None) hs1 ->
        h c evt = Some (NostrCommandException m) ->
        answered c (json_dumps (notice m)) w (_do_request c s w))).
Proof.
  intros Hs. split.
  - intros Hl. rewrite do_request_nonempty by assumption.
    unfold catch, _do_request_try, bind, lift. rewrite Hl. cbn.
    apply send_str_answered.
  - intros j rest evt Hl Hj. split.
    + intros Hv. rewrite (do_request_event c s j rest w Hs Hl).
      unfold catch, _do_event. rewrite len_two_or_more. cbn [nth].
      rewrite Hj. unfold bind at 1. cbn [lift ret].
      rewrite Hv. cbn. apply send_str_answered.
    + intros hs1 h hs2 m Hv Hhs H1 Hh.
      rewrite (do_request_event c s j rest w Hs Hl).
      unfold catch, _do_event. rewrite len_two_or_more. cbn [nth].
      rewrite Hj. unfold bind at 1. cbn [lift ret].
      rewrite Hv. cbn [negb].
      unfold bind at 1. cbn [get_relay]. rewrite Hhs.
      unfold bind at 1.
      rewrite (accept_veto hs1 hs2 h c evt _ w H1 Hh).
      cbn. apply send_str_answered.
Qed.

(** X4.  An EVENT that parses, passes the signature check and every accept
    handler, and that the store takes, ends like this: the store is the
    one [add_event] left (after [do_delete] as well when the kind is 5),
    one task per matching subscription is added to the ready queue, and the
    request returns without writing a frame to any socket: the poster gets
    no acknowledgement, and the subscribers get theirs only when the loop
    runs the new tasks. *)
Theorem event_accepted_effect
    {py : PyBuiltins} {imp : Imports} {Event Store : Type}
    {EA : EventAPI Event} {SI : RelayEventStoreInterface Store Event}
    (c : ws_id) (s : string) (j : json) (rest : list json) (evt : Event)
    (w : World Event Store) :
  s <> EmptyString ->
  json_loads s = inr (JArr (JStr "EVENT" :: j :: rest)) ->
  Event_from_JSON j = inr evt ->
  Event_is_valid evt = true ->
  Forall (fun h => h c evt = None) (_accept_req (relay w)) ->
  snd (add_event (_store (relay w)) evt) = None ->
  (Event_kind evt = KIND_DELETE ->
   snd (do_delete (fst (add_event (_store (relay w)) evt)) evt) = None) ->
  let w' := snd (_do_request c s w) in
  _do_request c s w
    = (Return tt,
       set_ready (ready w ++ matching_sends evt (_ws (relay w)))%list
         (stored evt w)) /\
  socks w' = socks w /\
  handlers w' = handlers w /\
  _ws (relay w') = _ws (relay w) /\
  _store (relay w')
    = (let s1 := fst (add_event (_store (relay w)) evt) in
       if Event_kind evt =? KIND_DELETE then fst (do_delete s1 evt) else s1).
Proof.
  intros Hs Hl Hj Hv Ha Hadd Hdel w'.
  assert (E : _do_request c s w
    = (Return tt,
       set_ready (ready w ++ matching_sends evt (_ws (relay w)))%list
         (stored evt w))).
  { rewrite (do_request_event c s j rest w Hs Hl). unfold catch at 1.
    rewrite (do_event_checked (JStr "EVENT") j rest c evt w Hj Hv Ha).
    unfold stored, catch, bind, store_call.
    destruct (add_event (_store (relay w)) evt) as [s1 e1] eqn:E1.
    cbn [fst snd] in *. subst e1.
    destruct (Event_kind evt =? KIND_DELETE) eqn:Ek.
    - apply Z.eqb_eq in Ek. specialize (Hdel Ek).
      cbn [relay set_relay _store with_store].
      destruct (do_delete s1 evt) as [s2 e2] eqn:E2.
      cbn [fst snd] in *. subst e2.
      now rewrite check_subs_spec.
    - cbn [ret]. now rewrite check_subs_spec. }
  unfold w'. rewrite E. cbn [snd]. split; [reflexivity|].
  unfold stored. cbn.
  destruct (Event_kind evt =? KIND_DELETE); auto.
Qed.

(** X5.  When [do_delete] raises for a deletion event (kind 5) that
    [add_event] has just stored, the fan-out of line 282 is skipped: no task
    is scheduled for any subscriber although the event stays in the store.
    The error is treated like one of [add_event]: it is dropped without a
    reply, unless it looks like a duplicate, in which case the client is
    told that the event already exists. *)
Theorem delete_failure_skips_fanout
    {py : PyBuiltins} {imp : Imports} {Event Store : Type}
    {EA : EventAPI Event} {SI : RelayEventStoreInterface Store Event}
    (c : ws_id) (s : string) (j : json) (rest : list json) (evt : Event)
    (e : exn) (w : World Event Store) :
  s <> EmptyString ->
  json_loads s = inr (JArr (JStr "EVENT" :: j :: rest)) ->
  Event_from_JSON j = inr evt ->
  Event_is_valid evt = true ->
  Forall (fun h => h c evt = None) (_accept_req (relay w)) ->
  Event_kind evt = KIND_DELETE ->
  snd (add_event (_store (relay w)) evt) = None ->
  snd (do_delete (fst (add_event (_store (relay w)) evt)) evt) = Some e ->
  let w1 := stored evt w in
  ready w1 = ready w /\
  (is_duplicate_error e = false -> _do_request c s w = (Return tt, w1)) /\
  (is_duplicate_error e = true ->
   answered c
     (json_dumps (notice ("event already exists: " ++ Event_id evt))) w1
     (_do_request c s w)).
Proof.
  intros Hs Hl Hj Hv Ha Hk Hadd Hdel w1.
  split; [reflexivity|].
  assert (E : _do_request c s w
    = catch (_do_event_except evt e) (_do_request_except c) w1).
  { rewrite (do_request_event c s j rest w Hs Hl). unfold catch at 1.
    rewrite (do_event_checked (JStr "EVENT") j rest c evt w Hj Hv Ha).
    unfold w1, stored, catch, bind, store_call.
    destruct (add_event (_store (relay w)) evt) as [s1 e1] eqn:E1.
    cbn [fst snd] in *. subst e1. rewrite Hk, Z.eqb_refl.
    cbn [relay set_relay _store with_store].
    destruct (do_delete s1 evt) as [s2 e2] eqn:E2.
    cbn [fst snd] in *. subst e2. reflexivity. }
  rewrite E. unfold catch. split; intros Hd.
  - now rewrite do_event_except_other by assumption.
  - rewrite do_event_except_duplicate by assumption.
    apply send_str_answered.
Qed.

(** ** The numbering of the connections *)

Section NatDict.
Variable V : Type.

Lemma nat_dict_get_None (d : dict nat V) k :
  dict_get Nat.eqb d k = None <-> ~ In k (map fst d).
Proof.
  induction d as [|[k' v] d IH]; simpl; [tauto|].
  destruct (Nat.eqb k k') eqn:E.
  - apply Nat.eqb_eq in E. subst. split; [discriminate|tauto].
  - apply Nat.eqb_neq in E. rewrite IH. intuition congruence.
Qed.

Lemma nat_dict_get_In (d : dict nat V) k v :
  dict_get Nat.eqb d k = Some v -> In (k, v) d.
Proof.
  induction d as [|[k' v'] d IH]; simpl; [discriminate|].
  destruct (Nat.eqb k k') eqn:E.
  - apply Nat.eqb_eq in E. subst. intros [= ->]. now left.
  - auto.
Qed.

Lemma nat_dict_In_get (d : dict nat V) k v :
  NoDup (map fst d) -> In (k, v) d -> dict_get Nat.eqb d k = Some v.
Proof.
  induction d as [|[k' v'] d IH]; simpl; [tauto|].
  intros Hn. inversion Hn as [|? ? Hk Hd]; subst.
  intros [[= -> ->]|Hin].
  - now rewrite Nat.eqb_refl.
  - destruct (Nat.eqb k k') eqn:E; [|auto].
    apply Nat.eqb_eq in E. subst. exfalso. apply Hk.
    now apply (in_map fst) in Hin.
Qed.

(** writing under a key that is there keeps the keys *)
Lemma nat_dict_set_keys (d : dict nat V) k v v0 :
  dict_get Nat.eqb d k = Some v0 ->
  map fst (dict_set Nat.eqb d k v) = map fst d.
Proof.
  induction d as [|[k' v'] d IH]; simpl; [discriminate|].
  destruct (Nat.eqb k k') eqn:E; simpl; [reflexivity|].
  intros H. now rewrite IH.
Qed.

(** writing under a new key adds it at the end *)
Lemma nat_dict_set_new (d : dict nat V) k v :
  dict_get Nat.eqb d k = None -> dict_set Nat.eqb d k v = (d ++ [(k, v)])%list.
Proof.
  induction d as [|[k' v'] d IH]; simpl; [reflexivity|].
  destruct (Nat.eqb k k') eqn:E; [discriminate|].
  intros H. now rewrite IH.
Qed.

Lemma nat_dict_set_In (d : dict nat V) k v x :
  In x (dict_set Nat.eqb d k v) -> In x d \/ x = (k, v).
Proof.
  induction d as [|[k' v'] d IH]; simpl.
  - intros [<-|[]]. now right.
  - destruct (Nat.eqb k k') eqn:E; simpl.
    + apply Nat.eqb_eq in E. subst. intros [<-|H]; auto.
    + intros [<-|H]; auto. destruct (IH H); auto.
Qed.

Lemma nat_dict_del_keys (d : dict nat V) k :
  NoDup (map fst d) -> NoDup (map fst (dict_del Nat.eqb d k)).
Proof.
  induction d as [|[k' v'] d IH]; simpl; auto.
  intros Hn. inversion Hn as [|? ? Hk Hd]; subst.
  destruct (Nat.eqb k k'); simpl; auto.
  constructor; auto. intros Hin. apply Hk.
  apply in_map_iff in Hin. destruct Hin as ([k2 v2] & <- & Hin).
  apply (in_map fst). now apply dict_del_In in Hin.
Qed.

Lemma nat_dict_get_del_same (d : dict nat V) k :
  NoDup (map fst d) -> dict_get Nat.eqb (dict_del Nat.eqb d k) k = None.
Proof.
  induction d as [|[k' v'] d IH]; simpl; auto.
  intros Hn. inversion Hn as [|? ? Hk Hd]; subst.
  destruct (Nat.eqb k k') eqn:E; simpl.
  - apply Nat.eqb_eq in E. subst. now apply nat_dict_get_None.
  - rewrite E. auto.
Qed.

Lemma nat_dict_get_del_other (d : dict nat V) k k' :
  k <> k' ->
  dict_get Nat.eqb (dict_del Nat.eqb d k) k' = dict_get Nat.eqb d k'.
Proof.
  intros Hne. induction d as [|[k2 v2] d IH]; simpl; auto.
  destruct (Nat.eqb k k2) eqn:E; simpl.
  - apply Nat.eqb_eq in E. subst.
    destruct (Nat.eqb k' k2) eqn:E'; auto.
    apply Nat.eqb_eq in E'. congruence.
  - now rewrite IH.
Qed.

(** removing an entry never brings one in *)
Lemma nat_dict_get_del_None (d : dict nat V) k k' :
  dict_get Nat.eqb d k' = None ->
  dict_get Nat.eqb (dict_del Nat.eqb d k) k' = None.
Proof.
  rewrite !nat_dict_get_None. intros H Hin. apply H.
  apply in_map_iff in Hin. destruct Hin as (x & <- & Hin).
  apply (in_map fst). now apply dict_del_In in Hin.
Qed.
End NatDict.

Section Numbering.
Context {py : PyBuiltins} {imp : Imports}.
Context {Event Store : Type} {EA : EventAPI Event}
        {SI : RelayEventStoreInterface Store Event}.
Let W : Type := World Event Store.
Let O : W -> W -> Prop := table_order.

Lemma table_order_refl (w : W) : table_order w w.
Proof. unfold table_order. auto. Qed.

Lemma table_order_trans (a b c : W) :
  table_order a b -> table_order b c -> table_order a c.
Proof.
  unfold table_order. intros (H1 & H2 & H3) (H4 & H5 & H6).
  split; [lia|]. split; [auto|].
  intros k Hk Hn. apply H6; [lia|]. now apply H3.
Qed.

(** what leaves the table and the counter alone *)
Lemma table_order_same (w w' : W) :
  _ws (relay w') = _ws (relay w) -> _ws_id (relay w') = _ws_id (relay w) ->
  table_order w w'.
Proof.
  intros H1 H2. unfold table_order, ids_fresh. rewrite H1, H2. auto.
Qed.

Lemma table_order_task t : stable O (create_task t).
Proof. intros w. now apply table_order_same. Qed.

Lemma table_order_send c s : stable O (send_str c s).
Proof.
  intros w. unfold send_str.
  destruct (dict_get Nat.eqb (socks w) c) as [sk|];
    [destruct (closing sk)|]; now apply table_order_same.
Qed.

Lemma table_order_store f : stable O (store_call f).
Proof.
  intros w. unfold store_call.
  destruct (f (_store (relay w))) as [s' [e|]]; now apply table_order_same.
Qed.

Lemma table_order_put c d : stable O (put_subs c d).
Proof.
  intros w. unfold put_subs, modify. cbn [snd].
  destruct (dict_get Nat.eqb (_ws (relay w)) c) as [cn|] eqn:Hc;
    [|apply table_order_refl].
  unfold O, table_order, ids_fresh.
  cbn [relay set_relay with_ws _ws _ws_id].
  split; [lia|]. split.
  - intros [Hn Hk]. rewrite (nat_dict_set_keys _ _ _ _ _ Hc).
    split; [exact Hn|]. intros c' cn' Hin.
    apply nat_dict_set_In in Hin. destruct Hin as [Hin|[= -> ->]]; auto.
    cbn. apply (Hk c cn). now apply nat_dict_get_In.
  - intros k Hk Hn. rewrite nat_dict_get_set_other; auto. congruence.
Qed.

Lemma table_order_shut c (w : W) : table_order w (shut c w).
Proof.
  unfold shut. destruct (dict_get Nat.eqb (socks w) c);
    now apply table_order_same.
Qed.

Lemma table_order_enter (w : W) :
  table_order w (snd (_websocket_handler_enter true w)).
Proof.
  unfold table_order, ids_fresh, _websocket_handler_enter.
  cbn [negb snd relay with_ws with_ws_id _ws _ws_id].
  split; [lia|]. split.
  - intros [Hn Hk].
    assert (Hnew : dict_get Nat.eqb (_ws (relay w)) (_ws_id (relay w)) = None).
    { apply nat_dict_get_None. intros Hin.
      apply in_map_iff in Hin. destruct Hin as ([k v] & Hf & Hin).
      cbn in Hf. subst k. apply Hk in Hin. lia. }
    rewrite (nat_dict_set_new _ _ _ _ Hnew). split.
    + rewrite map_app. cbn. apply NoDup_app; auto.
      * constructor; [intros []|constructor].
      * intros k Hin [<-|[]]. now apply nat_dict_get_None in Hnew.
    + intros c cn Hin. apply in_app_or in Hin.
      destruct Hin as [Hin|[[= <- <-]|[]]].
      * destruct (Hk c cn Hin). split; [lia|assumption].
      * cbn. split; [lia|reflexivity].
  - intros k Hk Hn. rewrite nat_dict_get_set_other; auto. lia.
Qed.

Lemma table_order_leave c (w : W) :
  table_order w (_websocket_handler_leave c w).
Proof.
  unfold table_order, ids_fresh, _websocket_handler_leave.
  cbn [relay set_relay with_ws _ws _ws_id].
  split; [lia|]. split.
  - intros [Hn Hk]. split; [now apply nat_dict_del_keys|].
    intros c' cn' Hin. apply Hk. now apply dict_del_In in Hin.
  - intros k Hk Hn. now apply nat_dict_get_del_None.
Qed.

Lemma table_order_step a (w w' : W) : step a w = Some w' -> table_order w w'.
Proof.
  apply (stable_step O table_order_refl table_order_trans
           table_order_task table_order_send table_order_store).
  - apply stable_do_sub;
      first [apply table_order_refl | apply table_order_trans
            | apply table_order_task | apply table_order_send
            | apply table_order_put].
  - apply stable_do_unsub;
      first [apply table_order_refl | apply table_order_trans
            | apply table_order_task | apply table_order_send
            | apply table_order_put].
  - intros h w0. now apply table_order_same.
  - apply table_order_shut.
  - apply table_order_enter.
  - apply table_order_leave.
  - intros q w0. now apply table_order_same.
Qed.

Lemma table_order_run acts : forall (w w' : W),
  run acts w = Some w' -> table_order w w'.
Proof.
  induction acts as [|a acts IH]; simpl; intros w w' H.
  - injection H as <-. apply table_order_refl.
  - destruct (step a w) as [w1|] eqn:E; [|discriminate].
    eapply table_order_trans; [exact (table_order_step a w w1 E)|].
    now apply IH.
Qed.

Lemma ids_fresh_reachable r (w : W) :
  _ws r = [] -> reachable r w -> ids_fresh w.
Proof.
  intros Hr. induction 1 as [|w a w' _ IH Hs].
  - unfold ids_fresh. cbn. rewrite Hr. split; [constructor|intros ? ? []].
  - now apply (table_order_step a w w' Hs).
Qed.

(** the fan-out makes no task for a socket that has no entry *)
Lemma matching_sends_entry evt c sub_id e waiter (w : W) :
  ids_fresh w ->
  In (T_send_event c sub_id e waiter) (matching_sends evt (_ws (relay w))) ->
  exists cn, dict_get Nat.eqb (_ws (relay w)) c = Some cn.
Proof.
  intros [Hn Hk] Hin.
  apply matching_sends_sound in Hin.
  destruct Hin as (k & cn & sid & sub & Hin & _ & _ & [= -> _ _ _]).
  destruct (Hk k cn Hin) as [_ Hw]. exists cn.
  apply nat_dict_In_get; auto. now rewrite Hw.
Qed.
End Numbering.

(** X6.  Connection ids are never used twice.  In every world a relay can
    reach, the ids in the connection table are pairwise different and below
    the counter [_ws_id], and the entry of an id holds the socket of that
    id.  The next client to connect gets the counter's value, which has no
    entry; its entry, without subscriptions, is added after the others,
    which are left as they are, and the counter goes up by one. *)
Theorem connection_ids_fresh
    {py : PyBuiltins} {imp : Imports} {Event Store : Type}
    {EA : EventAPI Event} {SI : RelayEventStoreInterface Store Event}
    (r : Relay Event Store) (w : World Event Store) :
  _ws r = [] -> reachable r w ->
  NoDup (map fst (_ws (relay w))) /\
  (forall c cn, In (c, cn) (_ws (relay w)) ->
     (c < _ws_id (relay w))%nat /\ ws cn = c) /\
  let id := _ws_id (relay w) in
  let w' := snd (_websocket_handler_enter true w) in
  dict_get Nat.eqb (_ws (relay w)) id = None /\
  _ws (relay w') = (_ws (relay w) ++ [(id, {| subs := []; ws := id |})])%list /\
  _ws_id (relay w') = S id.
Proof.
  intros Hr Hreach.
  destruct (ids_fresh_reachable r w Hr Hreach) as [Hn Hk].
  split; [exact Hn|]. split; [exact Hk|].
  assert (Hnew : dict_get Nat.eqb (_ws (relay w)) (_ws_id (relay w)) = None).
  { apply nat_dict_get_None. intros Hin.
    apply in_map_iff in Hin. destruct Hin as ([k v] & Hf & Hin).
    cbn in Hf. subst k. apply Hk in Hin. lia. }
  split; [exact Hnew|]. split; [|reflexivity].
  unfold _websocket_handler_enter.
  cbn [negb snd relay with_ws with_ws_id _ws _ws_id].
  now apply nat_dict_set_new.
Qed.

(** X7.  When the read loop of a connection ends and the handler returns
    (line 229), the connection's entry, and with it every subscription of
    the connection, is removed for good: in every world reached afterwards
    the id has no entry, and the fan-out of an event schedules nothing for
    that socket. *)
Theorem closed_connection_forgotten
    {py : PyBuiltins} {imp : Imports} {Event Store : Type}
    {EA : EventAPI Event} {SI : RelayEventStoreInterface Store Event}
    (r : Relay Event Store) (w w1 w2 : World Event Store)
    (c : ws_id) (cn : Conn) (acts : list Action) :
  _ws r = [] -> reachable r w ->
  dict_get Nat.eqb (_ws (relay w)) c = Some cn ->
  step (PeerClose c) w = Some w1 ->
  run acts w1 = Some w2 ->
  dict_get Nat.eqb (_ws (relay w2)) c = None /\
  forall evt,
    exists new,
      _check_subs evt w2 = (Return tt, set_ready (ready w2 ++ new)%list w2) /\
      forall sub_id e waiter, ~ In (T_send_event c sub_id e waiter) new.
Proof.
  intros Hr Hreach Hc Hstep Hrun.
  pose proof (ids_fresh_reachable r w Hr Hreach) as Hf.
  destruct (table_order_step _ w w1 Hstep) as (Hle1 & Hf1 & _).
  destruct (table_order_run acts w1 w2 Hrun) as (_ & Hf2 & Hgone).
  assert (Hlt : (c < _ws_id (relay w1))%nat).
  { destruct Hf as [_ Hk].
    destruct (Hk c cn (nat_dict_get_In _ _ _ _ Hc)). lia. }
  assert (Hnone : dict_get Nat.eqb (_ws (relay w1)) c = None).
  { cbn [step] in Hstep.
    destruct (dict_get Nat.eqb (handlers w) c) as [[]|]; try discriminate.
    injection Hstep as <-.
    destruct (shut_frame c (del_handler c (_websocket_handler_leave c w)))
      as (-> & _).
    cbn. apply nat_dict_get_del_same. apply Hf. }
  specialize (Hgone c Hlt Hnone). split; [exact Hgone|].
  intros evt. exists (matching_sends evt (_ws (relay w2))).
  split; [apply check_subs_spec|].
  intros sub_id e waiter Hin.
  destruct (matching_sends_entry evt c sub_id e waiter w2 (Hf2 (Hf1 Hf)) Hin)
    as [cn' Hcn'].
  congruence.
Qed.

(** ** Errors that leave [_do_request] *)

Lemma one_char_not_a_command (a : ascii) :
  is_valid_cmd (JStr (String a EmptyString)) = false.
Proof.
  cbn.
  repeat match goal with
         | |- context [Ascii.eqb ?x ?y] => destruct (Ascii.eqb x y)
         end; reflexivity.
Qed.

(** X8.  A text frame that decodes to something other than an array is not
    always answered.  A JSON string is: its first character is taken for the
    command, and the NOTICE says that this command is not supported.  An
    object that is not empty, a number other than 0 and [true] are not:
    indexing them (line 242) raises [KeyError] or [TypeError], which
    [_do_request] does not catch, so nothing is written, and the read loop
    of the connection ends there while the relay state, the connection's
    entry included, stays as it was. *)
Theorem non_array_frame
    {py : PyBuiltins} {imp : Imports} {Event Store : Type}
    {EA : EventAPI Event} {SI : RelayEventStoreInterface Store Event}
    (c : ws_id) (s : string) (j : json) (w : World Event Store) :
  s <> EmptyString -> json_loads s = inr j -> py_truthy j = true ->
  (forall a t, j = JStr (String a t) ->
     answered c
       (json_dumps (notice ("unsupported command " ++ String a EmptyString)))
       w (_do_request c s w)) /\
  ((exists l, j = JObj l) \/ (exists n, j = JNum n) \/
   (exists b, j = JBool b) ->
   (_do_request c s w = (Raise KeyError, w) \/
    _do_request c s w = (Raise TypeError, w)) /\
   run_task (T_request c s) w = shut c (del_handler c w) /\
   relay (run_task (T_request c s) w) = relay w).
Proof.
  intros Hs Hl Ht.
  assert (E : _do_request c s w
    = catch (cmd <- lift (py_getitem0 j) ;;
             if negb (is_valid_cmd cmd)
             then raise (NostrCommandException
                           ("unsupported command " ++ py_str cmd))
             else if cmd_is cmd "EVENT" then _do_event (items j) c
             else if cmd_is cmd "REQ" then _do_sub (items j) c
             else if cmd_is cmd "CLOSE" then _do_unsub (items j) c
             else ret tt)
            (_do_request_except c) w).
  { rewrite do_request_nonempty by assumption.
    unfold catch, _do_request_try. unfold bind at 1, lift at 1.
    rewrite Hl. cbn [ret]. now rewrite Ht. }
  split.
  - intros a t ->. rewrite E. unfold catch, bind. cbn [py_getitem0 lift ret].
    rewrite one_char_not_a_command. cbn. apply send_str_answered.
  - intros Hj.
    assert (Hr : _do_request c s w = (Raise KeyError, w) \/
                 _do_request c s w = (Raise TypeError, w)).
    { rewrite E.
      destruct Hj as [[l ->]|[[n ->]|[b ->]]]; [left|right|right];
        reflexivity. }
    split; [exact Hr|].
    assert (Hrun : run_task (T_request c s) w = shut c (del_handler c w)).
    { cbn [run_task]. unfold handler_step.
      destruct Hr as [-> | ->]; reflexivity. }
    split; [exact Hrun|]. rewrite Hrun.
    now destruct (shut_frame c (del_handler c w)) as (-> & _).
Qed.

(** X9.  Three more errors that [_do_request] lets through instead of
    answering them with a NOTICE, each leaving the world as it was: a REQ
    or a CLOSE whose [sub_id] is an array or an object (looking it up in
    the registry raises [TypeError]); an EVENT whose data
    [Event.from_JSON] refuses with an exception other than the two that are
    caught; and an accept handler that raises such an exception. *)
Theorem uncaught_request_errors
    {py : PyBuiltins} {imp : Imports} {Event Store : Type}
    {EA : EventAPI Event} {SI : RelayEventStoreInterface Store Event}
    (c : ws_id) (s : string) (w : World Event Store) :
  s <> EmptyString ->
  (forall cmd sub_id rest cn,
     json_loads s = inr (JArr (JStr cmd :: sub_id :: rest)) ->
     cmd = "REQ" \/ cmd = "CLOSE" ->
     dict_get Nat.eqb (_ws (relay w)) c = Some cn ->
     hashable sub_id = false ->
     _do_request c s w = (Raise TypeError, w)) /\
  (forall j rest e,
     json_loads s = inr (JArr (JStr "EVENT" :: j :: rest)) ->
     (forall m, e <> NostrCommandException m) ->
     (forall m, e <> JSONDecodeError m) ->
     (Event_from_JSON j = inl e -> _do_request c s w = (Raise e, w)) /\
     (forall evt hs1 h hs2,
        Event_from_JSON j = inr evt -> Event_is_valid evt = true ->
        _accept_req (relay w) = (hs1 ++ h :: hs2)%list ->
        Forall (fun h => h c evt = None) hs1 -> h c evt = Some e ->
        _do_request c s w = (Raise e, w))).
Proof.
  intros Hs. split.
  - intros cmd sub_id rest cn Hl Hcmd Hc Hh.
    destruct Hcmd as [-> | ->].
    + rewrite (do_request_req c s sub_id rest w Hs Hl).
      unfold catch, _do_sub. rewrite len_two_or_more. cbn [nth].
      unfold bind at 1, conn_of at 1, bind at 1, get_relay at 1.
      rewrite Hc. cbn [ret]. unfold bind at 1, has_sub at 1.
      rewrite Hh. reflexivity.
    + rewrite (do_request_close c s (sub_id :: rest) w Hs Hl).
      unfold catch, _do_unsub. rewrite len_two_or_more. cbn [nth].
      unfold bind at 1, conn_of at 1, bind at 1, get_relay at 1.
      rewrite Hc. cbn [ret]. unfold bind at 1, has_sub at 1.
      rewrite Hh. reflexivity.
  - intros j rest e Hl Hn Hd.
    assert (Hex : _do_request_except c e w = (Raise e, w)).
    { destruct e; try reflexivity.
      - now destruct (Hn msg).
      - now destruct (Hd msg). }
    split.
    + intros Hj. rewrite (do_request_event c s j rest w Hs Hl).
      unfold catch, _do_event. rewrite len_two_or_more. cbn [nth].
      rewrite Hj. unfold bind at 1. cbn [lift raise]. exact Hex.
    + intros evt hs1 h hs2 Hj Hv Hhs H1 Hh.
      rewrite (do_request_event c s j rest w Hs Hl).
      unfold catch, _do_event. rewrite len_two_or_more. cbn [nth].
      rewrite Hj. unfold bind at 1. cbn [lift ret].
      rewrite Hv. cbn [negb].
      unfold bind at 1. cbn [get_relay]. rewrite Hhs.
      unfold bind at 1.
      rewrite (accept_veto hs1 hs2 h c evt _ w H1 Hh). exact Hex.
Qed.

(** ** One request at a time *)

Lemma in_flight_app c q1 q2 :
  in_flight c (q1 ++ q2) = (in_flight c q1 + in_flight c q2)%nat.
Proof.
  induction q1 as [|t q1 IH]; simpl; [reflexivity|]. rewrite IH. lia.
Qed.

Lemma in_flight_idle c q : Forall idle q -> in_flight c q = 0%nat.
Proof.
  induction 1 as [|t q Ht _ IH]; simpl; [reflexivity|].
  unfold idle in Ht. now rewrite Ht, IH.
Qed.

Lemma in_flight_one c t :
  carries t = Some c -> in_flight c [t] = 1%nat.
Proof. intros H. simpl. now rewrite H, Nat.eqb_refl. Qed.

Lemma in_flight_other c c' t :
  carries t = Some c' -> c' <> c -> in_flight c [t] = 0%nat.
Proof.
  intros H Hne. simpl. rewrite H.
  destruct (Nat.eqb_spec c' c); [contradiction|reflexivity].
Qed.

Section NatDictKeys.
Variable V : Type.

Lemma nat_dict_set_NoDup (d : dict nat V) k v :
  NoDup (map fst d) -> NoDup (map fst (dict_set Nat.eqb d k v)).
Proof.
  intros Hn. destruct (dict_get Nat.eqb d k) as [v0|] eqn:E.
  - now rewrite (nat_dict_set_keys _ _ _ _ _ E).
  - rewrite (nat_dict_set_new _ _ _ _ E), map_app. cbn.
    apply NoDup_app; auto.
    + constructor; [intros []|constructor].
    + intros k' Hin [<-|[]]. now apply nat_dict_get_None in E.
Qed.

Lemma nat_dict_get_set (d : dict nat V) k v k' :
  dict_get Nat.eqb (dict_set Nat.eqb d k v) k'
    = if Nat.eqb k' k then Some v else dict_get Nat.eqb d k'.
Proof.
  destruct (Nat.eqb_spec k' k) as [->|Hne].
  - apply nat_dict_get_set_same.
  - apply nat_dict_get_set_other. congruence.
Qed.

Lemma nat_dict_get_del (d : dict nat V) k k' :
  NoDup (map fst d) ->
  dict_get Nat.eqb (dict_del Nat.eqb d k) k'
    = if Nat.eqb k' k then None else dict_get Nat.eqb d k'.
Proof.
  intros Hn. destruct (Nat.eqb_spec k' k) as [->|Hne].
  - now apply nat_dict_get_del_same.
  - apply nat_dict_get_del_other. congruence.
Qed.

Lemma nat_dict_mem_set (d : dict nat V) k v k' :
  dict_mem Nat.eqb d k' = true ->
  dict_mem Nat.eqb (dict_set Nat.eqb d k v) k' = true.
Proof.
  unfold dict_mem. rewrite nat_dict_get_set.
  destruct (Nat.eqb k' k); auto.
Qed.
End NatDictKeys.

Section Confined.
Context {py : PyBuiltins} {imp : Imports}.
Context {Event Store : Type} {EA : EventAPI Event}
        {SI : RelayEventStoreInterface Store Event}.
Let W : Type := World Event Store.
Let M : Type -> Type := M Event Store.

Variable c : ws_id.

(** a computation that returns or raises and changes at most the sockets
    and the store *)
Lemma confined_quiet {A} (m : M A) :
  (forall w, fst (m w) <> Await /\
             handlers (snd (m w)) = handlers w /\
             ready (snd (m w)) = ready w /\
             _ws_id (relay (snd (m w))) = _ws_id (relay w) /\
             _ws (relay (snd (m w))) = _ws (relay w)) ->
  confined c m.
Proof.
  intros H w. destruct (H w) as (Ho & Hh & Hq & Hi & Ht).
  unfold confined_to. rewrite Hh, Hi, Ht.
  repeat split; auto. exists []. rewrite app_nil_r. split; [exact Hq|].
  destruct (fst (m w)); [constructor|constructor|contradiction].
Qed.

Lemma confined_ret {A} (a : A) : confined c (ret a : M A).
Proof. apply confined_quiet. intros w. cbn. repeat split. discriminate. Qed.

Lemma confined_raise {A} (e : exn) : confined c (raise e : M A).
Proof. apply confined_quiet. intros w. cbn. repeat split. discriminate. Qed.

Lemma confined_lift {A} (x : exn + A) : confined c (lift x : M A).
Proof. destruct x; [apply confined_raise|apply confined_ret]. Qed.

Lemma confined_get_relay : confined c (get_relay : M _).
Proof. apply confined_quiet. intros w. cbn. repeat split. discriminate. Qed.

Lemma confined_send_str c' s : confined c (send_str c' s : M _).
Proof.
  apply confined_quiet. intros w. unfold send_str.
  destruct (dict_get Nat.eqb (socks w) c') as [sk|];
    [destruct (closing sk)|]; cbn; repeat split; discriminate.
Qed.

Lemma confined_store_call f : confined c (store_call f : M _).
Proof.
  apply confined_quiet. intros w. unfold store_call.
  destruct (f (_store (relay w))) as [s' [e|]]; cbn; repeat split;
    discriminate.
Qed.

Lemma confined_create_task t : idle t -> confined c (create_task t : M _).
Proof.
  intros Ht w. unfold confined_to. cbn. repeat split; auto.
  exists [t]. split; [reflexivity|]. now constructor.
Qed.

Lemma confined_put_subs d : confined c (put_subs c d : M _).
Proof.
  intros w. unfold confined_to, put_subs, modify. cbn [fst snd].
  destruct (dict_get Nat.eqb (_ws (relay w)) c) as [cn|] eqn:Hc.
  - cbn. repeat split; auto.
    + intros c0 Hne. apply nat_dict_get_set_other. congruence.
    + unfold dict_mem. now rewrite nat_dict_get_set_same, Hc.
    + exists []. rewrite app_nil_r. split; [reflexivity|constructor].
  - repeat split; auto.
    exists []. rewrite app_nil_r. split; [reflexivity|constructor].
Qed.

Lemma confined_bind {A B} (m : M A) (f : A -> M B) :
  confined c m -> (forall a, confined c (f a)) -> confined c (bind m f).
Proof.
  intros Hm Hf w. unfold bind. specialize (Hm w).
  destruct (m w) as [[a|e|] w1]; try exact Hm.
  destruct Hm as (H1 & H2 & H3 & H4 & new1 & H5 & H6).
  cbn [fst snd] in *.
  destruct (Hf a w1) as (G1 & G2 & G3 & G4 & new2 & G5 & G6).
  unfold confined_to. rewrite G1, G2, G4, H1, H2, H4.
  repeat split; auto.
  - intros c0 Hne. now rewrite G3, H3.
  - exists (new1 ++ new2)%list. split; [now rewrite G5, H5, app_assoc|].
    destruct (fst (f a w1)).
    + now apply Forall_app.
    + now apply Forall_app.
    + destruct G6 as (new' & t & -> & Ht & Hn).
      exists (new1 ++ new')%list, t. rewrite app_assoc.
      repeat split; auto. now apply Forall_app.
Qed.

Lemma confined_catch {A} (m : M A) (h : exn -> M A) :
  confined c m -> (forall e, confined c (h e)) -> confined c (catch m h).
Proof.
  intros Hm Hh w. unfold catch. specialize (Hm w).
  destruct (m w) as [[a|e|] w1]; try exact Hm.
  destruct Hm as (H1 & H2 & H3 & H4 & new1 & H5 & H6).
  cbn [fst snd] in *.
  destruct (Hh e w1) as (G1 & G2 & G3 & G4 & new2 & G5 & G6).
  unfold confined_to. rewrite G1, G2, G4, H1, H2, H4.
  repeat split; auto.
  - intros c0 Hne. now rewrite G3, H3.
  - exists (new1 ++ new2)%list. split; [now rewrite G5, H5, app_assoc|].
    destruct (fst (h e w1)).
    + now apply Forall_app.
    + now apply Forall_app.
    + destruct G6 as (new' & t & -> & Ht & Hn).
      exists (new1 ++ new')%list, t. rewrite app_assoc.
      repeat split; auto. now apply Forall_app.
Qed.

Lemma confined_for_each {A} (l : list A) (body : A -> M unit) :
  (forall x, confined c (body x)) -> confined c (for_each l body).
Proof.
  intros Hb. induction l as [|x l IH]; simpl.
  - apply confined_ret.
  - apply confined_bind; auto.
Qed.

Lemma confined_do_send c' data : confined c (_do_send c' data : M _).
Proof.
  apply confined_catch; [apply confined_send_str|].
  intros e. apply confined_ret.
Qed.

Lemma confined_check_subs evt : confined c (_check_subs evt : M _).
Proof.
  intros w. rewrite check_subs_spec. unfold confined_to. cbn.
  repeat split; auto. eexists. split; [reflexivity|].
  eapply Forall_impl; [|apply matching_sends_live].
  intros [c' sub_id e [k|]|c' data|k|c' s]; cbn; intros H;
    try contradiction; reflexivity.
Qed.

Lemma confined_do_event req c' : confined c (_do_event req c' : M _).
Proof.
  unfold _do_event. destruct (len req <=? 1); [apply confined_raise|].
  apply confined_bind; [apply confined_lift|]. intros evt.
  destruct (negb (Event_is_valid evt)); [apply confined_raise|].
  apply confined_bind; [apply confined_get_relay|]. intros r.
  apply confined_bind.
  { apply confined_for_each. intros h.
    destruct (h c' evt); [apply confined_raise|apply confined_ret]. }
  intros _. apply confined_catch.
  - apply confined_bind; [apply confined_store_call|]. intros _.
    apply confined_bind.
    { destruct (Event_kind evt =? KIND_DELETE);
        [apply confined_store_call|apply confined_ret]. }
    intros _. apply confined_check_subs.
  - intros e. unfold _do_event_except.
    destruct (is_integrity_error e); [|apply confined_ret].
    destruct (_ && _)%bool; [apply confined_raise|apply confined_ret].
Qed.

Lemma confined_do_sub_backfill sub_id evts :
  confined c (_do_sub_backfill c sub_id evts : M _).
Proof.
  destruct evts as [|e rest]; cbn [_do_sub_backfill].
  - apply confined_bind; [apply confined_get_relay|]. intros r.
    destruct (_enable_nip15 r); [apply confined_do_send|apply confined_ret].
  - intros w. unfold confined_to. cbn. repeat split; auto.
    eexists. split; [reflexivity|].
    exists [], (T_send_event c sub_id e (Some (K_do_sub c sub_id rest))).
    repeat split. constructor.
Qed.

Lemma confined_conn_of : confined c (conn_of c : M _).
Proof.
  unfold conn_of. apply confined_bind; [apply confined_get_relay|].
  intros r. destruct (dict_get Nat.eqb (_ws r) c);
    [apply confined_ret|apply confined_raise].
Qed.

Lemma confined_has_sub d sub_id : confined c (has_sub d sub_id : M _).
Proof.
  unfold has_sub. destruct (hashable sub_id);
    [apply confined_ret|apply confined_raise].
Qed.

Lemma confined_do_sub req : confined c (_do_sub req c : M _).
Proof.
  unfold _do_sub. destruct (len req <=? 1); [apply confined_raise|].
  apply confined_bind; [apply confined_conn_of|]. intros cn.
  apply confined_bind; [apply confined_has_sub|]. intros present.
  destruct present; [apply confined_raise|].
  apply confined_bind; [apply confined_get_relay|]. intros r.
  destruct (_max_sub r <=? len (subs cn)); [apply confined_raise|].
  apply confined_bind; [apply confined_put_subs|]. intros _.
  apply confined_bind; [apply confined_get_relay|]. intros r'.
  apply confined_bind; [apply confined_lift|]. intros evts.
  apply confined_do_sub_backfill.
Qed.

Lemma confined_do_unsub req : confined c (_do_unsub req c : M _).
Proof.
  unfold _do_unsub. destruct (len req <=? 1); [apply confined_raise|].
  apply confined_bind; [apply confined_conn_of|]. intros cn.
  apply confined_bind; [apply confined_has_sub|]. intros present.
  destruct (negb present); [apply confined_raise|].
  apply confined_bind; [apply confined_put_subs|]. intros _.
  apply confined_raise.
Qed.

Lemma confined_do_request_except e : confined c (_do_request_except c e : M _).
Proof.
  destruct e; cbn [_do_request_except];
    first [apply confined_send_str | apply confined_raise].
Qed.

Lemma confined_do_request s : confined c (_do_request c s : M _).
Proof.
  unfold _do_request. destruct (s =? EmptyString)%string;
    [apply confined_ret|].
  apply confined_catch; [|apply confined_do_request_except].
  unfold _do_request_try.
  apply confined_bind; [apply confined_lift|]. intros as_json.
  destruct (negb (py_truthy as_json)); [apply confined_raise|].
  apply confined_bind; [apply confined_lift|]. intros cmd.
  destruct (negb (is_valid_cmd cmd)); [apply confined_raise|].
  destruct (cmd_is cmd "EVENT"); [apply confined_do_event|].
  destruct (cmd_is cmd "REQ"); [apply confined_do_sub|].
  destruct (cmd_is cmd "CLOSE"); [apply confined_do_unsub|].
  apply confined_ret.
Qed.
End Confined.

Section Resuming.
Context {py : PyBuiltins} {imp : Imports}.
Context {Event Store : Type} {EA : EventAPI Event}
        {SI : RelayEventStoreInterface Store Event}.
Let M : Type -> Type := M Event Store.

Lemma confined_resume k : confined (cont_ws k) (resume k : M _).
Proof.
  destruct k as [c sub_id rest]. cbn [cont_ws resume].
  apply confined_catch; [apply confined_do_sub_backfill|].
  apply confined_do_request_except.
Qed.
End Resuming.

Section Loops.
Context {py : PyBuiltins} {imp : Imports}.
Context {Event Store : Type} {EA : EventAPI Event}
        {SI : RelayEventStoreInterface Store Event}.
Let W : Type := World Event Store.
Let M : Type -> Type := M Event Store.

Lemma busy_true c (w : W) :
  busy c w = true -> dict_get Nat.eqb (handlers w) c = Some Busy.
Proof.
  unfold busy. destruct (dict_get Nat.eqb (handlers w) c) as [[]|];
    now try discriminate.
Qed.

Lemma busy_handlers c (w w' : W) :
  handlers w' = handlers w -> busy c w' = busy c w.
Proof. unfold busy. now intros ->. Qed.

Lemma busy_set_ready c q (w : W) : busy c (set_ready q w) = busy c w.
Proof. reflexivity. Qed.

Lemma busy_set_handler c c' h (w : W) :
  busy c' (set_handler c h w)
    = if Nat.eqb c' c then match h with Busy => true | Reading => false end
      else busy c' w.
Proof.
  unfold busy, set_handler. cbn [handlers set_handlers].
  rewrite nat_dict_get_set. destruct (Nat.eqb c' c); [|reflexivity].
  now destruct h.
Qed.

Lemma busy_del_handler c c' (w : W) :
  NoDup (map fst (handlers w)) ->
  busy c' (del_handler c w) = if Nat.eqb c' c then false else busy c' w.
Proof.
  intros Hn. unfold busy, del_handler. cbn [handlers set_handlers].
  rewrite nat_dict_get_del by assumption. now destruct (Nat.eqb c' c).
Qed.

(** a task that carries on the loop of [c] is the only one, and the loop
    is inside a request *)
Lemma loops_ok_head c t q (w : W) :
  loops_ok w -> ready w = t :: q -> carries t = Some c ->
  busy c w = true /\ in_flight c q = 0%nat /\
  forall c0, (in_flight c0 q <= if busy c0 w then 1 else 0)%nat.
Proof.
  intros (_ & _ & Hf) Hq Ht.
  assert (H0 : forall c0, (in_flight c0 q <= in_flight c0 (ready w))%nat).
  { intros c0. rewrite Hq. cbn [in_flight]. lia. }
  pose proof (Hf c) as Hc. rewrite Hq in Hc. cbn [in_flight] in Hc.
  rewrite Ht, Nat.eqb_refl in Hc.
  destruct (busy c w); [|lia].
  split; [reflexivity|]. split; [lia|].
  intros c0. specialize (Hf c0). specialize (H0 c0). lia.
Qed.

Lemma loops_ok_handler_step c (m : M unit) t q (w : W) :
  loops_ok w -> ready w = t :: q -> carries t = Some c -> confined c m ->
  loops_ok (handler_step c m (set_ready q w)).
Proof.
  intros Hok Hq Ht Hm.
  destruct (loops_ok_head c t q w Hok Hq Ht) as (Hb & Hz & Hrest).
  destruct Hok as (Hn & Hk & _).
  pose proof (busy_true c w Hb) as Hbusy.
  unfold handler_step. specialize (Hm (set_ready q w)).
  destruct (m (set_ready q w)) as [o w'].
  destruct Hm as (H1 & H2 & H3 & H4 & new & H5 & H6).
  cbn [fst snd handlers relay ready set_ready] in *.
  assert (Hmem : forall c0,
            dict_mem Nat.eqb (_ws (relay w)) c0 = true ->
            dict_mem Nat.eqb (_ws (relay w')) c0 = true).
  { intros c0. destruct (Nat.eq_dec c0 c) as [->|Hne].
    - now rewrite H4.
    - unfold dict_mem. now rewrite (H3 c0 Hne). }
  destruct o as [[]|e|].
  - (* the request is over: the loop waits for the next frame *)
    split; [|split].
    + cbn [handlers set_handler set_handlers]. rewrite H1.
      now apply nat_dict_set_NoDup.
    + intros c0 h. cbn [handlers set_handler set_handlers relay].
      rewrite H1, H2, nat_dict_get_set.
      destruct (Nat.eqb_spec c0 c) as [->|Hne]; intros Hg.
      * destruct (Hk c Busy Hbusy). auto.
      * destruct (Hk c0 h Hg). auto.
    + intros c0. rewrite busy_set_handler.
      change (ready (set_handler c Reading w')) with (ready w').
      rewrite H5, in_flight_app, (in_flight_idle c0 new H6).
      destruct (Nat.eqb_spec c0 c) as [->|Hne]; [lia|].
      rewrite (busy_handlers c0 w w' H1). specialize (Hrest c0). lia.
  - (* the request raised: the loop is over *)
    destruct (shut_frame c (del_handler c w')) as (Hr & Hq' & Hh).
    assert (Hn' : NoDup (map fst (handlers w'))) by now rewrite H1.
    split; [|split].
    + rewrite Hh. cbn [handlers del_handler set_handlers]. rewrite H1.
      now apply nat_dict_del_keys.
    + intros c0 h. rewrite Hh, Hr.
      cbn [handlers del_handler set_handlers relay].
      rewrite H1, H2, nat_dict_get_del by assumption.
      destruct (Nat.eqb_spec c0 c) as [->|Hne]; [discriminate|].
      intros Hg. destruct (Hk c0 h Hg). auto.
    + intros c0. rewrite (busy_handlers c0 _ _ Hh), Hq'.
      rewrite busy_del_handler by assumption.
      change (ready (del_handler c w')) with (ready w').
      rewrite H5, in_flight_app, (in_flight_idle c0 new H6).
      destruct (Nat.eqb_spec c0 c) as [->|Hne]; [lia|].
      rewrite (busy_handlers c0 w w' H1). specialize (Hrest c0). lia.
  - (* the request is suspended *)
    destruct H6 as (new' & t' & -> & Ht' & Hidle).
    split; [|split].
    + now rewrite H1.
    + intros c0 h. rewrite H1, H2. intros Hg.
      destruct (Hk c0 h Hg). auto.
    + intros c0. rewrite (busy_handlers c0 w w' H1).
      rewrite H5, !in_flight_app, (in_flight_idle c0 new' Hidle).
      destruct (Nat.eq_dec c0 c) as [->|Hne].
      * rewrite (in_flight_one c t' Ht'), Hb. lia.
      * rewrite (in_flight_other c0 c t' Ht') by congruence.
        specialize (Hrest c0). lia.
Qed.

Lemma loops_ok_step a (w w' : W) :
  loops_ok w -> step a w = Some w' -> loops_ok w'.
Proof.
  intros Hok. pose proof Hok as (Hn & Hk & Hf).
  destruct a as [|c s|c|c|]; cbn [step].
  - (* a client connects *)
    intros [= <-]. unfold _websocket_handler_enter.
    cbn [negb snd]. set (id := _ws_id (relay w)).
    assert (Hnew : dict_get Nat.eqb (handlers w) id = None).
    { destruct (dict_get Nat.eqb (handlers w) id) as [h|] eqn:E; auto.
      destruct (Hk id h E). unfold id in *. lia. }
    split; [|split].
    + cbn [handlers]. now apply nat_dict_set_NoDup.
    + intros c0 h. cbn [handlers relay with_ws with_ws_id _ws _ws_id].
      rewrite nat_dict_get_set.
      destruct (Nat.eqb_spec c0 id) as [->|Hne]; intros Hg.
      * split; [lia|]. unfold dict_mem. now rewrite nat_dict_get_set_same.
      * destruct (Hk c0 h Hg). split; [unfold id; lia|].
        now apply nat_dict_mem_set.
    + intros c0. unfold busy. cbn [handlers ready].
      rewrite nat_dict_get_set.
      destruct (Nat.eqb_spec c0 id) as [->|Hne].
      * specialize (Hf id). unfold busy in Hf. rewrite Hnew in Hf. lia.
      * exact (Hf c0).
  - (* a frame arrives *)
    destruct (dict_get Nat.eqb (handlers w) c) as [[]|] eqn:E;
      try discriminate.
    intros [= <-]. split; [|split].
    + cbn [handlers set_ready set_handler set_handlers].
      now apply nat_dict_set_NoDup.
    + intros c0 h. cbn [handlers set_ready set_handler set_handlers relay].
      rewrite nat_dict_get_set.
      destruct (Nat.eqb_spec c0 c) as [->|Hne]; intros Hg.
      * exact (Hk c Reading E).
      * exact (Hk c0 h Hg).
    + intros c0. rewrite busy_set_ready, busy_set_handler.
      cbn [ready set_ready].
      rewrite in_flight_app. specialize (Hf c0).
      destruct (Nat.eqb_spec c0 c) as [->|Hne].
      * rewrite (in_flight_one c (T_request c s) eq_refl).
        unfold busy in Hf. rewrite E in Hf. lia.
      * rewrite (in_flight_other c0 c (T_request c s) eq_refl)
          by congruence. lia.
  - (* the read loop ends *)
    destruct (dict_get Nat.eqb (handlers w) c) as [[]|] eqn:E;
      try discriminate.
    intros [= <-].
    destruct (shut_frame c (del_handler c (_websocket_handler_leave c w)))
      as (Hr & Hq & Hh).
    split; [|split].
    + rewrite Hh. cbn [handlers del_handler set_handlers
                        _websocket_handler_leave set_relay].
      now apply nat_dict_del_keys.
    + intros c0 h. rewrite Hh, Hr.
      cbn [handlers del_handler set_handlers _websocket_handler_leave
           set_relay relay with_ws _ws _ws_id].
      rewrite nat_dict_get_del by assumption.
      destruct (Nat.eqb_spec c0 c) as [->|Hne]; [discriminate|].
      intros Hg. destruct (Hk c0 h Hg) as [Hlt Hmem]. split; [exact Hlt|].
      unfold dict_mem. rewrite nat_dict_get_del_other by congruence.
      exact Hmem.
    + intros c0. rewrite (busy_handlers c0 _ _ Hh), Hq.
      change (ready (del_handler c (_websocket_handler_leave c w)))
        with (ready w).
      change (busy c0 (del_handler c (_websocket_handler_leave c w)))
        with (busy c0 (del_handler c w)).
      rewrite busy_del_handler by assumption. specialize (Hf c0).
      destruct (Nat.eqb_spec c0 c) as [->|Hne]; [|exact Hf].
      unfold busy in Hf. rewrite E in Hf. exact Hf.
  - (* a transport fails *)
    intros [= <-]. destruct (shut_frame c w) as (Hr & Hq & Hh).
    unfold loops_ok. rewrite Hh, Hr, Hq.
    split; [exact Hn|]. split; [exact Hk|].
    intros c0. rewrite (busy_handlers c0 _ _ Hh). exact (Hf c0).
  - (* the loop runs a task *)
    destruct (ready w) as [|t q] eqn:Hq; [discriminate|]. intros [= <-].
    destruct t as [c sub_id evt waiter|c data|k|c s]; cbn [run_task].
    + assert (E : snd (_send_event c sub_id evt (set_ready q w))
                = set_ready (q ++ [T_do_send c
                                     (JArr [JStr "EVENT"; sub_id; evt])])%list
                    w) by reflexivity.
      rewrite E. clear E.
      split; [|split];
        [destruct waiter; exact Hn | destruct waiter; exact Hk |].
      intros c0. specialize (Hf c0).
      cbn [in_flight carries] in Hf.
      destruct waiter as [k|].
      * rewrite !busy_set_ready.
        cbn [ready set_ready]. rewrite !in_flight_app.
        cbn [in_flight carries]. lia.
      * rewrite !busy_set_ready.
        cbn [ready set_ready]. rewrite !in_flight_app.
        cbn [in_flight carries]. lia.
    + rewrite do_send_written. cbn [snd].
      unfold loops_ok. rewrite written_handlers, written_relay, written_ready.
      split; [exact Hn|]. split; [exact Hk|].
      intros c0. specialize (Hf c0).
      cbn [in_flight carries] in Hf.
      rewrite (busy_handlers c0 (set_ready q w))
        by apply written_handlers.
      exact Hf.
    + apply (loops_ok_handler_step (cont_ws k) (resume k) (T_wakeup k) q w);
        auto. apply confined_resume.
    + apply (loops_ok_handler_step c (_do_request c s) (T_request c s) q w);
        auto. apply confined_do_request.
Qed.

Lemma loops_ok_reachable r (w : W) :
  _ws r = [] -> reachable r w -> loops_ok w.
Proof.
  intros Hr. induction 1 as [|w a w' _ IH Hs].
  - split; [constructor|]. split; [intros c h; discriminate|].
    intros c. cbn. lia.
  - now apply (loops_ok_step a w w').
Qed.
End Loops.

Section Abandoned.
Context {py : PyBuiltins} {imp : Imports}.
Context {Event Store : Type} {EA : EventAPI Event}
        {SI : RelayEventStoreInterface Store Event}.
Let W : Type := World Event Store.

Variable c : ws_id.
Variable cn : Conn.

(** an entry whose read loop is gone is out of reach of every action *)
Lemma abandoned_step a (w w' : W) :
  loops_ok w -> ids_fresh w ->
  dict_get Nat.eqb (handlers w) c = None ->
  dict_get Nat.eqb (_ws (relay w)) c = Some cn ->
  step a w = Some w' ->
  dict_get Nat.eqb (handlers w') c = None /\
  dict_get Nat.eqb (_ws (relay w')) c = Some cn.
Proof.
  intros Hok [_ Hids] Hh Hc.
  assert (Hlt : (c < _ws_id (relay w))%nat).
  { destruct (Hids c cn (nat_dict_get_In _ _ _ _ Hc)). assumption. }
  assert (Hstep : forall c' (m : M Event Store unit) t q,
            ready w = t :: q -> carries t = Some c' -> confined c' m ->
            dict_get Nat.eqb (handlers (handler_step c' m (set_ready q w))) c
              = None /\
            dict_get Nat.eqb
              (_ws (relay (handler_step c' m (set_ready q w)))) c = Some cn).
  { intros c' m t q Hq Ht Hm.
    destruct (loops_ok_head c' t q w Hok Hq Ht) as (Hb & _).
    apply busy_true in Hb.
    assert (Hne : c <> c') by congruence.
    unfold handler_step. specialize (Hm (set_ready q w)).
    destruct (m (set_ready q w)) as [o w0].
    destruct Hm as (H1 & _ & H3 & _).
    cbn [fst snd handlers relay set_ready] in *.
    specialize (H3 c Hne). rewrite Hc in H3.
    destruct o as [[]|e|].
    - split; [|exact H3]. cbn [handlers set_handler set_handlers].
      rewrite H1, nat_dict_get_set_other; auto.
    - destruct (shut_frame c' (del_handler c' w0)) as (-> & _ & ->).
      split; [|exact H3]. cbn [handlers del_handler set_handlers].
      rewrite H1. now apply nat_dict_get_del_None.
    - split; [now rewrite H1|exact H3]. }
  destruct a as [|c' s|c'|c'|]; cbn [step].
  - intros [= <-]. unfold _websocket_handler_enter.
    cbn [negb snd handlers relay with_ws with_ws_id _ws].
    rewrite !nat_dict_get_set_other by lia. auto.
  - destruct (dict_get Nat.eqb (handlers w) c') as [[]|] eqn:E;
      try discriminate.
    intros [= <-]. cbn [handlers set_ready set_handler set_handlers relay].
    rewrite nat_dict_get_set_other by congruence. auto.
  - destruct (dict_get Nat.eqb (handlers w) c') as [[]|] eqn:E;
      try discriminate.
    intros [= <-].
    destruct (shut_frame c' (del_handler c' (_websocket_handler_leave c' w)))
      as (-> & _ & ->).
    cbn [handlers del_handler set_handlers _websocket_handler_leave
         set_relay relay with_ws _ws].
    split; [now apply nat_dict_get_del_None|].
    rewrite nat_dict_get_del_other by congruence. exact Hc.
  - intros [= <-]. destruct (shut_frame c' w) as (-> & _ & ->). auto.
  - destruct (ready w) as [|t q] eqn:Hq; [discriminate|]. intros [= <-].
    destruct t as [c' sub_id evt waiter|c' data|k|c' s]; cbn [run_task].
    + destruct waiter; cbn; auto.
    + rewrite do_send_written. cbn [snd].
      rewrite written_handlers, written_relay. auto.
    + apply (Hstep (cont_ws k) (resume k) (T_wakeup k) q);
        auto. apply confined_resume.
    + apply (Hstep c' (_do_request c' s) (T_request c' s) q);
        auto. apply confined_do_request.
Qed.

Lemma abandoned_run acts : forall (w w' : W),
  loops_ok w -> ids_fresh w ->
  dict_get Nat.eqb (handlers w) c = None ->
  dict_get Nat.eqb (_ws (relay w)) c = Some cn ->
  run acts w = Some w' ->
  ids_fresh w' /\
  dict_get Nat.eqb (handlers w') c = None /\
  dict_get Nat.eqb (_ws (relay w')) c = Some cn.
Proof.
  induction acts as [|a acts IH]; simpl; intros w w' Hok Hids Hh Hc H.
  - injection H as <-. auto.
  - destruct (step a w) as [w1|] eqn:E; [|discriminate].
    destruct (abandoned_step a w w1 Hok Hids Hh Hc E) as [Hh1 Hc1].
    apply (IH w1 w'); auto.
    + now apply (loops_ok_step a w w1).
    + now apply (table_order_step a w w1 E).
Qed.
End Abandoned.

(** X10.  A read loop that ends with an exception never removes its
    entry.  When a request raises out of [_do_request], the handler is left
    before line 229: the connection's entry stays in the table, and since
    nothing but the handler itself removes it, it stays there, with all its
    subscriptions, in every world reached afterwards, while no read loop
    serves the connection any more.  The fan-out goes on making a task for
    each of these subscriptions that an event matches. *)
Theorem crashed_connection_stays
    {py : PyBuiltins} {imp : Imports} {Event Store : Type}
    {EA : EventAPI Event} {SI : RelayEventStoreInterface Store Event}
    (r : Relay Event Store) (w : World Event Store) (c : ws_id)
    (s : string) (q : list Task) (e : exn) :
  _ws r = [] -> reachable r w ->
  ready w = T_request c s :: q ->
  fst (_do_request c s (set_ready q w)) = Raise e ->
  let w1 := shut c (del_handler c (snd (_do_request c s (set_ready q w)))) in
  step Tick w = Some w1 /\
  exists cn,
    dict_get Nat.eqb (_ws (relay w1)) c = Some cn /\
    forall acts w2, run acts w1 = Some w2 ->
      dict_get Nat.eqb (handlers w2) c = None /\
      dict_get Nat.eqb (_ws (relay w2)) c = Some cn /\
      forall evt sub_id the_sub,
        In (sub_id, the_sub) (subs cn) ->
        Event_test evt (filter_of the_sub) = true ->
        In (T_send_event c sub_id (Event_event_data evt) None)
           (matching_sends evt (_ws (relay w2))).
Proof.
  intros Hr Hreach Hq He w1.
  pose proof (loops_ok_reachable r w Hr Hreach) as Hok.
  pose proof (ids_fresh_reachable r w Hr Hreach) as Hids.
  assert (Hstep : step Tick w = Some w1).
  { rewrite (tick_request c s q w Hq). unfold handler_step, w1.
    destruct (_do_request c s (set_ready q w)) as [o w0].
    cbn [fst snd] in *. now subst o. }
  split; [exact Hstep|].
  pose proof (loops_ok_step Tick w w1 Hok Hstep) as Hok1.
  pose proof (proj1 (proj2 (table_order_step Tick w w1 Hstep)) Hids) as Hids1.
  destruct (loops_ok_head c (T_request c s) q w Hok Hq eq_refl) as (Hb & _).
  apply busy_true in Hb.
  destruct Hok as (Hn & Hk & _). destruct (Hk c Busy Hb) as [_ Hmem].
  destruct (confined_do_request c s (set_ready q w))
    as (H1 & _ & _ & H4 & _).
  cbn [handlers relay set_ready] in H1, H4. rewrite Hmem in H4.
  destruct (shut_frame c
              (del_handler c (snd (_do_request c s (set_ready q w)))))
    as (Hrel & _ & Hhan).
  fold w1 in Hrel, Hhan.
  cbn [relay del_handler set_handlers] in Hrel.
  cbn [handlers del_handler set_handlers] in Hhan.
  unfold dict_mem in H4. rewrite <- Hrel in H4.
  destruct (dict_get Nat.eqb (_ws (relay w1)) c) as [cn|] eqn:Hc;
    [|discriminate].
  exists cn. split; [reflexivity|].
  assert (Hh1 : dict_get Nat.eqb (handlers w1) c = None).
  { rewrite Hhan, H1. now apply nat_dict_get_del_same. }
  intros acts w2 Hrun.
  destruct (abandoned_run c cn acts w1 w2 Hok1 Hids1 Hh1 Hc Hrun)
    as ([_ Hids2] & Hh2 & Hc2).
  split; [exact Hh2|]. split; [exact Hc2|].
  intros evt sub_id the_sub Hin Ht.
  pose proof (nat_dict_get_In _ _ _ _ Hc2) as Hin2.
  destruct (Hids2 c cn Hin2) as [_ Hws].
  rewrite <- Hws at 1.
  now apply (matching_sends_complete evt _ c cn sub_id the_sub).
Qed.

(** X11.  A request changes no connection but its own.  Whatever frame
    a client sends, and however the request ends, the entries of the other
    connections in the table, their subscriptions included, are what they
    were; the client's own entry is not removed, no id is given out, and no
    read loop is started or ended.  The same holds when a suspended REQ
    goes on. *)
Theorem request_touches_own_entry_only
    {py : PyBuiltins} {imp : Imports} {Event Store : Type}
    {EA : EventAPI Event} {SI : RelayEventStoreInterface Store Event}
    (c : ws_id) (s : string) (sub_id : json) (rest : list json)
    (w : World Event Store) :
  let keeps (w' : World Event Store) :=
    (forall c0, c0 <> c ->
       dict_get Nat.eqb (_ws (relay w')) c0
         = dict_get Nat.eqb (_ws (relay w)) c0) /\
    dict_mem Nat.eqb (_ws (relay w')) c
      = dict_mem Nat.eqb (_ws (relay w)) c /\
    _ws_id (relay w') = _ws_id (relay w) /\
    handlers w' = handlers w in
  keeps (snd (_do_request c s w)) /\
  keeps (snd (resume (K_do_sub c sub_id rest) w)).
Proof.
  intros keeps. split.
  - destruct (confined_do_request c s w) as (H1 & H2 & H3 & H4 & _).
    unfold keeps. auto.
  - destruct (confined_resume (K_do_sub c sub_id rest) w)
      as (H1 & H2 & H3 & H4 & _).
    unfold keeps. auto.
Qed.

(** ** Nothing but frames of the protocol *)

Section Frames.
Context {py : PyBuiltins} {imp : Imports}.
Context {Event Store : Type} {EA : EventAPI Event}
        {SI : RelayEventStoreInterface Store Event}.
Let W : Type := World Event Store.
Let M : Type -> Type := M Event Store.
Let KF : W -> W -> Prop := keeps_frames.

Lemma keeps_frames_refl (w : W) : keeps_frames w w.
Proof. unfold keeps_frames. auto. Qed.

Lemma keeps_frames_trans (a b c : W) :
  keeps_frames a b -> keeps_frames b c -> keeps_frames a c.
Proof.
  unfold keeps_frames. intros [H1 H2] [H3 H4]. split; [congruence|auto].
Qed.

(** what leaves the sockets, the queue and the switch alone *)
Lemma keeps_frames_same (w w' : W) :
  socks w' = socks w -> ready w' = ready w ->
  _enable_nip15 (relay w') = _enable_nip15 (relay w) ->
  keeps_frames w w'.
Proof.
  intros Hs Hq He. split; [exact He|]. unfold frames_ok.
  now rewrite Hs, Hq, He.
Qed.

Lemma keeps_frames_ret {A} (a : A) : stable KF (ret a : M A).
Proof. intros w. apply keeps_frames_refl. Qed.

Lemma keeps_frames_raise {A} (e : exn) : stable KF (raise e : M A).
Proof. intros w. apply keeps_frames_refl. Qed.

Lemma keeps_frames_store f : stable KF (store_call f : M unit).
Proof.
  intros w. unfold store_call.
  destruct (f (_store (relay w))) as [s' [e|]]; now apply keeps_frames_same.
Qed.

Lemma keeps_frames_put c d : stable KF (put_subs c d : M unit).
Proof.
  intros w. unfold put_subs, modify. cbn [snd].
  destruct (dict_get Nat.eqb (_ws (relay w)) c);
    now apply keeps_frames_same.
Qed.

Lemma keeps_frames_task t :
  event_write t -> stable KF (create_task t : M unit).
Proof.
  intros Ht w. split; [reflexivity|]. intros [Hw Hq]. split; [exact Hw|].
  cbn. apply Forall_app. split; [exact Hq|]. now constructor.
Qed.

(** a write of a frame of the protocol *)
Lemma keeps_frames_send c s (w : W) :
  relay_frame (_enable_nip15 (relay w)) s ->
  keeps_frames w (snd (send_str c s w)).
Proof.
  intros Hf. unfold send_str.
  destruct (dict_get Nat.eqb (socks w) c) as [sk|] eqn:E;
    [|apply keeps_frames_refl].
  destruct (closing sk); [apply keeps_frames_refl|].
  split; [reflexivity|]. intros [Hw Hq]. split; [|exact Hq].
  intros c' sk' Hin. cbn [snd socks set_socks relay] in *.
  apply dict_set_In in Hin. destruct Hin as [Hin|Heq].
  - now apply (Hw c' sk').
  - cbn [snd] in Heq. subst sk'. cbn [wire].
    apply Forall_app. split; [|now constructor].
    destruct (dict_get_In _ _ Nat.eqb _ _ _ E) as (c2 & Hin2 & _).
    now apply (Hw c2 sk).
Qed.

Lemma keeps_frames_notice c m :
  stable KF (send_str c (json_dumps (notice m)) : M unit).
Proof. intros w. apply keeps_frames_send. left. now exists m. Qed.

Lemma keeps_frames_do_send c data (w : W) :
  relay_frame (_enable_nip15 (relay w)) (json_dumps data) ->
  keeps_frames w (snd (_do_send c data w)).
Proof.
  intros Hf. unfold _do_send, catch.
  pose proof (keeps_frames_send c (json_dumps data) w Hf) as H.
  destruct (send_str c (json_dumps data) w) as [[[]|e|] w']; exact H.
Qed.

Lemma keeps_frames_check_subs evt : stable KF (_check_subs evt : M unit).
Proof.
  intros w. rewrite check_subs_spec. cbn [snd].
  split; [reflexivity|]. intros [Hw Hq]. split; [exact Hw|].
  cbn. apply Forall_app. split; [exact Hq|].
  eapply Forall_impl; [|apply matching_sends_live].
  intros [c' sub_id e w0|c' data|k|c' s]; cbn; auto. contradiction.
Qed.

Lemma keeps_frames_do_event req c : stable KF (_do_event req c : M unit).
Proof.
  unfold _do_event. destruct (len req <=? 1); [apply keeps_frames_raise|].
  apply stable_bind; [apply keeps_frames_trans| |].
  { apply stable_lift. apply keeps_frames_refl. }
  intros evt.
  destruct (negb (Event_is_valid evt)); [apply keeps_frames_raise|].
  apply stable_bind; [apply keeps_frames_trans| |].
  { apply stable_get_relay. apply keeps_frames_refl. }
  intros r.
  apply stable_bind; [apply keeps_frames_trans| |].
  { apply stable_for_each;
      [apply keeps_frames_refl|apply keeps_frames_trans|].
    intros h. destruct (h c evt);
      [apply keeps_frames_raise|apply keeps_frames_ret]. }
  intros _. apply stable_catch; [apply keeps_frames_trans| |].
  - apply stable_bind; [apply keeps_frames_trans| |].
    { apply keeps_frames_store. }
    intros _. apply stable_bind; [apply keeps_frames_trans| |].
    { destruct (Event_kind evt =? KIND_DELETE);
        [apply keeps_frames_store|apply keeps_frames_ret]. }
    intros _. apply keeps_frames_check_subs.
  - intros e. unfold _do_event_except.
    destruct (is_integrity_error e); [|apply keeps_frames_ret].
    destruct (_ && _)%bool; [apply keeps_frames_raise|apply keeps_frames_ret].
Qed.

Lemma keeps_frames_backfill c sub_id evts :
  stable KF (_do_sub_backfill c sub_id evts : M unit).
Proof.
  intros w. destruct evts as [|e rest]; cbn [_do_sub_backfill].
  - unfold bind, get_relay.
    destruct (_enable_nip15 (relay w)) eqn:E; [|apply keeps_frames_refl].
    apply keeps_frames_do_send. right. right. rewrite E.
    split; [reflexivity|]. now exists sub_id.
  - unfold bind, await.
    pose proof (keeps_frames_task
                  (T_send_event c sub_id e (Some (K_do_sub c sub_id rest)))
                  I w) as H.
    destruct (create_task _ w) as [[[]|x|] w']; exact H.
Qed.

Lemma keeps_frames_do_sub req c : stable KF (_do_sub req c : M unit).
Proof.
  unfold _do_sub. destruct (len req <=? 1); [apply keeps_frames_raise|].
  apply stable_bind; [apply keeps_frames_trans| |].
  { apply stable_conn_of;
      [apply keeps_frames_refl|apply keeps_frames_trans]. }
  intros cn. apply stable_bind; [apply keeps_frames_trans| |].
  { apply stable_has_sub. apply keeps_frames_refl. }
  intros present. destruct present; [apply keeps_frames_raise|].
  apply stable_bind; [apply keeps_frames_trans| |].
  { apply stable_get_relay. apply keeps_frames_refl. }
  intros r. destruct (_max_sub r <=? len (subs cn));
    [apply keeps_frames_raise|].
  apply stable_bind; [apply keeps_frames_trans|apply keeps_frames_put|].
  intros _. apply stable_bind; [apply keeps_frames_trans| |].
  { apply stable_get_relay. apply keeps_frames_refl. }
  intros r'. apply stable_bind; [apply keeps_frames_trans| |].
  { apply stable_lift. apply keeps_frames_refl. }
  intros evts. apply keeps_frames_backfill.
Qed.

Lemma keeps_frames_do_unsub req c : stable KF (_do_unsub req c : M unit).
Proof.
  unfold _do_unsub. destruct (len req <=? 1); [apply keeps_frames_raise|].
  apply stable_bind; [apply keeps_frames_trans| |].
  { apply stable_conn_of;
      [apply keeps_frames_refl|apply keeps_frames_trans]. }
  intros cn. apply stable_bind; [apply keeps_frames_trans| |].
  { apply stable_has_sub. apply keeps_frames_refl. }
  intros present. destruct (negb present); [apply keeps_frames_raise|].
  apply stable_bind; [apply keeps_frames_trans|apply keeps_frames_put|].
  intros _. apply keeps_frames_raise.
Qed.

Lemma keeps_frames_except c e : stable KF (_do_request_except c e : M unit).
Proof.
  destruct e; cbn [_do_request_except];
    first [apply keeps_frames_notice | apply keeps_frames_raise].
Qed.

Lemma keeps_frames_do_request c s : stable KF (_do_request c s : M unit).
Proof.
  unfold _do_request. destruct (s =? EmptyString)%string;
    [apply keeps_frames_ret|].
  apply stable_catch; [apply keeps_frames_trans| |apply keeps_frames_except].
  unfold _do_request_try.
  apply stable_bind; [apply keeps_frames_trans| |].
  { apply stable_lift. apply keeps_frames_refl. }
  intros as_json.
  destruct (negb (py_truthy as_json)); [apply keeps_frames_raise|].
  apply stable_bind; [apply keeps_frames_trans| |].
  { apply stable_lift. apply keeps_frames_refl. }
  intros cmd.
  destruct (negb (is_valid_cmd cmd)); [apply keeps_frames_raise|].
  destruct (cmd_is cmd "EVENT"); [apply keeps_frames_do_event|].
  destruct (cmd_is cmd "REQ"); [apply keeps_frames_do_sub|].
  destruct (cmd_is cmd "CLOSE"); [apply keeps_frames_do_unsub|].
  apply keeps_frames_ret.
Qed.

Lemma keeps_frames_resume k : stable KF (resume k : M unit).
Proof.
  destruct k as [c sub_id rest]. cbn [resume].
  apply stable_catch; [apply keeps_frames_trans| |apply keeps_frames_except].
  apply keeps_frames_backfill.
Qed.

Lemma keeps_frames_shut c (w : W) : keeps_frames w (shut c w).
Proof.
  unfold shut.
  destruct (dict_get Nat.eqb (socks w) c) as [sk|] eqn:E;
    [|apply keeps_frames_refl].
  split; [reflexivity|]. intros [Hw Hq]. split; [|exact Hq].
  intros c' sk' Hin. cbn [socks set_socks relay] in *.
  apply dict_set_In in Hin. destruct Hin as [Hin|Heq].
  - now apply (Hw c' sk').
  - cbn [snd] in Heq. subst sk'. cbn [wire].
    destruct (dict_get_In _ _ Nat.eqb _ _ _ E) as (c2 & Hin2 & _).
    now apply (Hw c2 sk).
Qed.

Lemma keeps_frames_handler_step c (m : M unit) (w : W) :
  stable KF m -> keeps_frames w (handler_step c m w).
Proof.
  intros Hm. unfold handler_step. specialize (Hm w).
  destruct (m w) as [[[]|e|] w']; cbn [snd] in Hm.
  - eapply keeps_frames_trans; [exact Hm|]. now apply keeps_frames_same.
  - eapply keeps_frames_trans; [exact Hm|].
    eapply keeps_frames_trans; [|apply keeps_frames_shut].
    now apply keeps_frames_same.
  - exact Hm.
Qed.

Lemma frames_ok_step a (w w' : W) :
  frames_ok w -> step a w = Some w' -> frames_ok w'.
Proof.
  intros Hok. destruct a as [|c s|c|c|]; cbn [step].
  - intros [= <-]. destruct Hok as [Hw Hq]. split; [|exact Hq].
    intros c' sk' Hin. unfold _websocket_handler_enter in Hin |- *.
    cbn [negb snd socks relay with_ws with_ws_id _enable_nip15] in *.
    apply dict_set_In in Hin. destruct Hin as [Hin|Heq].
    + now apply (Hw c' sk').
    + cbn [snd] in Heq. subst sk'. constructor.
  - destruct (dict_get Nat.eqb (handlers w) c) as [[]|]; try discriminate.
    intros [= <-]. destruct Hok as [Hw Hq]. split; [exact Hw|].
    cbn. apply Forall_app. split; [exact Hq|]. now repeat constructor.
  - destruct (dict_get Nat.eqb (handlers w) c) as [[]|]; try discriminate.
    intros [= <-].
    apply (keeps_frames_shut c (del_handler c (_websocket_handler_leave c w))).
    exact Hok.
  - intros [= <-]. now apply (keeps_frames_shut c w).
  - destruct (ready w) as [|t q] eqn:Hq; [discriminate|]. intros [= <-].
    destruct Hok as [Hw Hr]. rewrite Hq in Hr.
    inversion Hr as [|? ? Ht Hrest]; subst.
    assert (Hok0 : frames_ok (set_ready q w)) by (split; assumption).
    destruct t as [c sub_id evt waiter|c data|k|c s]; cbn [run_task].
    + split; [destruct waiter; exact Hw|].
      destruct waiter as [k|]; cbn.
      * rewrite !Forall_app. repeat split; auto;
          constructor; first [exact I | cbn; eauto | constructor].
      * rewrite Forall_app. split; auto.
        constructor; [cbn; eauto|constructor].
    + destruct Ht as (sub_id & evt & ->).
      apply (keeps_frames_do_send c _ (set_ready q w)); [|exact Hok0].
      right. left. now exists sub_id, evt.
    + apply (keeps_frames_handler_step (cont_ws k) (resume k) (set_ready q w));
        [apply keeps_frames_resume|exact Hok0].
    + apply (keeps_frames_handler_step c (_do_request c s) (set_ready q w));
        [apply keeps_frames_do_request|exact Hok0].
Qed.

Lemma frames_ok_reachable r (w : W) : reachable r w -> frames_ok w.
Proof.
  induction 1 as [|w a w' _ IH Hs].
  - split; [intros c sk []|constructor].
  - now apply (frames_ok_step a w w').
Qed.
End Frames.

(** X12.  The relay writes nothing but frames of the protocol.  In every
    world a relay can reach, each frame written to a socket is a NOTICE, an
    EVENT with a subscription id and an event, or an EOSE with a
    subscription id, and EOSE only if the relay was made with
    [enable_nip15]; there is no acknowledgement of a post and no other
    kind of message. *)
Theorem only_protocol_frames
    {py : PyBuiltins} {imp : Imports} {Event Store : Type}
    {EA : EventAPI Event} {SI : RelayEventStoreInterface Store Event}
    (r : Relay Event Store) (w : World Event Store) (c : ws_id)
    (f : string) :
  reachable r w -> In f (wire_of c w) ->
  (exists m, f = json_dumps (JArr [JStr "NOTICE"; JStr m])) \/
  (exists sub_id evt, f = json_dumps (JArr [JStr "EVENT"; sub_id; evt])) \/
  (_enable_nip15 r = true /\
   exists sub_id, f = json_dumps (JArr [JStr "EOSE"; sub_id])).
Proof.
  intros Hreach Hin.
  destruct (frames_ok_reachable r w Hreach) as [Hw _].
  destruct (same_config_reachable r w Hreach) as (_ & _ & He & _).
  cbn [relay boot] in He.
  unfold wire_of in Hin.
  destruct (dict_get Nat.eqb (socks w) c) as [sk|] eqn:E; [|destruct Hin].
  pose proof (Hw c sk (nat_dict_get_In _ _ _ _ E)) as Hall.
  rewrite Forall_forall in Hall. specialize (Hall f Hin).
  rewrite He in Hall. exact Hall.
Qed.

(** ** The limit, whatever its sign *)

Section Capped.
Context {py : PyBuiltins} {imp : Imports}.
Context {Event Store : Type} {EA : EventAPI Event}
        {SI : RelayEventStoreInterface Store Event}.
Let W : Type := World Event Store.
Let KC : W -> W -> Prop := keeps_capped.

Lemma keeps_capped_refl (w : W) : keeps_capped w w.
Proof. unfold keeps_capped. auto. Qed.

Lemma keeps_capped_trans (a b c : W) :
  keeps_capped a b -> keeps_capped b c -> keeps_capped a c.
Proof.
  unfold keeps_capped. intros [H1 H2] [H3 H4]. split; [congruence|auto].
Qed.

Lemma keeps_capped_same (w w' : W) :
  _ws (relay w') = _ws (relay w) ->
  _max_sub (relay w') = _max_sub (relay w) ->
  keeps_capped w w'.
Proof.
  intros Ht Hm. split; [assumption|]. unfold capped.
  rewrite Ht, Hm. auto.
Qed.

Lemma keeps_capped_put c cn d (w : W) :
  dict_get Nat.eqb (_ws (relay w)) c = Some cn ->
  (capped w -> len d <= Z.max 0 (_max_sub (relay w))) ->
  keeps_capped w (snd (put_subs c d w)).
Proof.
  intros Hc Hd. rewrite (put_subs_conn c cn d w Hc). cbn [snd].
  split; [reflexivity|]. intros Hb c' cn' Hin.
  cbn [relay set_relay with_ws _ws _max_sub] in *.
  apply dict_set_In in Hin. destruct Hin as [Hin|Heq].
  - now apply (Hb c' cn').
  - cbn [snd] in Heq. subst cn'. cbn [subs]. auto.
Qed.

Lemma keeps_capped_task t : stable KC (create_task t).
Proof. intros w. now apply keeps_capped_same. Qed.

Lemma keeps_capped_send c s : stable KC (send_str c s).
Proof.
  intros w. unfold send_str.
  destruct (dict_get Nat.eqb (socks w) c) as [sk|];
    [destruct (closing sk)|]; now apply keeps_capped_same.
Qed.

Lemma keeps_capped_store f : stable KC (store_call f).
Proof.
  intros w. unfold store_call.
  destruct (f (_store (relay w))) as [s' [e|]]; now apply keeps_capped_same.
Qed.

Lemma keeps_capped_do_sub req c : stable KC (_do_sub req c).
Proof.
  intros w. destruct (do_sub_shape req c w) as [[e ->]|H].
  - apply keeps_capped_refl.
  - destruct H as (hd & sub_id & filters & -> & Hacc).
    rewrite (do_sub_accepted hd sub_id filters c w Hacc).
    destruct Hacc as ([cn Hc] & Hh & Hm & Hl).
    eapply keeps_capped_trans.
    + unfold KC, register.
      apply (keeps_capped_put c cn
               (dict_set key_eqb (subs_of c w) sub_id
                  {| sub_id_of := sub_id;
                     filter_of := req_filter (hd :: sub_id :: filters) |})
               w Hc).
      intros _. unfold len in *.
      pose proof (dict_set_length_le _ _ key_eqb (subs_of c w) sub_id
        {| sub_id_of := sub_id;
           filter_of := req_filter (hd :: sub_id :: filters) |}).
      lia.
    + assert (Hs : stable KC
        (evts <- lift (get_filter (_store (relay w))
                         (req_filter (hd :: sub_id :: filters))) ;;
         _do_sub_backfill c sub_id evts)).
      { apply stable_bind.
        - apply keeps_capped_trans.
        - apply stable_lift. apply keeps_capped_refl.
        - intros evts. apply stable_do_sub_backfill;
            first [apply keeps_capped_refl | apply keeps_capped_trans
                  | apply keeps_capped_task | apply keeps_capped_send]. }
      apply Hs.
Qed.

Lemma keeps_capped_do_unsub req c : stable KC (_do_unsub req c).
Proof.
  intros w. destruct (do_unsub_shape req c w) as [[e ->]|H].
  - apply keeps_capped_refl.
  - destruct H as (cn & sub_id & e & Hc & ->). cbn [snd].
    apply (keeps_capped_put c cn _ w Hc).
    intros Hb.
    destruct (dict_get_In _ _ Nat.eqb _ _ _ Hc) as (c' & Hin & _).
    specialize (Hb c' cn Hin). unfold len in *.
    pose proof (dict_del_length_le _ _ key_eqb (subs cn) sub_id). lia.
Qed.

Lemma keeps_capped_step a (w w' : W) :
  step a w = Some w' -> keeps_capped w w'.
Proof.
  apply (stable_step KC keeps_capped_refl keeps_capped_trans
           keeps_capped_task keeps_capped_send keeps_capped_store
           keeps_capped_do_sub keeps_capped_do_unsub).
  - intros h w0. now apply keeps_capped_same.
  - intros c w0. unfold shut.
    destruct (dict_get Nat.eqb (socks w0) c); now apply keeps_capped_same.
  - intros w0. split; [reflexivity|]. intros Hb c cn Hin.
    unfold _websocket_handler_enter in Hin |- *.
    cbn [negb snd relay with_ws with_ws_id _ws _max_sub] in *.
    apply dict_set_In in Hin. destruct Hin as [Hin|Heq].
    + now apply (Hb c cn).
    + cbn [snd] in Heq. subst cn. cbn [subs]. unfold len. cbn. lia.
  - intros c w0. split; [reflexivity|]. intros Hb c' cn Hin.
    unfold _websocket_handler_leave in Hin |- *.
    cbn [relay set_relay with_ws _ws _max_sub] in *.
    apply dict_del_In in Hin. now apply (Hb c' cn).
  - intros q w0. now apply keeps_capped_same.
Qed.

Lemma keeps_capped_reachable r (w : W) :
  reachable r w -> keeps_capped (boot r) w.
Proof.
  induction 1 as [|w a w' _ IH Hs]; [apply keeps_capped_refl|].
  eapply keeps_capped_trans; [exact IH|].
  eapply keeps_capped_step; eauto.
Qed.
End Capped.

(** X13.  The limit holds for every value of [max_sub], with a negative
    one acting as 0: in every world a relay can reach, a connection has at
    most [max(0, max_sub)] subscriptions.  A relay made with [max_sub] of 0
    or less therefore never has a subscription: every REQ that names a
    [sub_id] on a connected client is refused with the NOTICE that quotes
    the limit. *)
Theorem limit_of_any_sign
    {py : PyBuiltins} {imp : Imports} {Event Store : Type}
    {EA : EventAPI Event} {SI : RelayEventStoreInterface Store Event}
    (r : Relay Event Store) (w : World Event Store) :
  _ws r = [] -> reachable r w ->
  (forall c cn, In (c, cn) (_ws (relay w)) ->
     len (subs cn) <= Z.max 0 (_max_sub r)) /\
  (_max_sub r <= 0 ->
   (forall c cn, In (c, cn) (_ws (relay w)) -> subs cn = []) /\
   forall c cn s sub_id filters,
     s <> EmptyString ->
     json_loads s = inr (JArr (JStr "REQ" :: sub_id :: filters)) ->
     dict_get Nat.eqb (_ws (relay w)) c = Some cn ->
     hashable sub_id = true ->
     answered c
       (json_dumps (notice ("REQ new sub_id " ++ py_str sub_id
                            ++ " not allowed, already at max subs="
                            ++ str_of_Z (_max_sub r)))) w
       (_do_request c s w)).
Proof.
  intros Hws Hreach.
  destruct (keeps_capped_reachable r w Hreach) as [Hm Hb].
  cbn [relay boot] in Hm.
  assert (Hcap : capped w).
  { apply Hb. intros c cn Hin. cbn [relay boot] in Hin.
    rewrite Hws in Hin. destruct Hin. }
  assert (Hall : forall c cn, In (c, cn) (_ws (relay w)) ->
                   len (subs cn) <= Z.max 0 (_max_sub r)).
  { intros c cn Hin. rewrite <- Hm. now apply (Hcap c cn). }
  split; [exact Hall|]. intros Hneg.
  assert (Hempty : forall c cn, In (c, cn) (_ws (relay w)) -> subs cn = []).
  { intros c cn Hin. specialize (Hall c cn Hin). unfold len in Hall.
    destruct (subs cn); [reflexivity|]. cbn [List.length] in Hall. lia. }
  split; [exact Hempty|].
  intros c cn s sub_id filters Hs Hl Hc Hh.
  pose proof (Hempty c cn (nat_dict_get_In _ _ _ _ Hc)) as He.
  rewrite (do_request_req c s sub_id filters w Hs Hl). unfold catch.
  rewrite (do_sub_at_limit (JStr "REQ") sub_id filters c cn w Hc Hh).
  - rewrite Hm. apply send_str_answered.
  - now rewrite He.
  - rewrite He, Hm. unfold len. cbn. lia.
Qed.

(** ** Subscription ids that Python takes for equal *)

Lemma dict_del_set_equal {V} (d : dict json V) k k' v :
  key_eqb k' k = true -> dict_mem key_eqb d k = false ->
  dict_del key_eqb (dict_set key_eqb d k v) k' = d.
Proof.
  intros He. unfold dict_mem.
  induction d as [|[k2 v2] d IH]; cbn [dict_get dict_set dict_del].
  - now rewrite He.
  - destruct (key_eqb k k2) eqn:E; [discriminate|]. intros H.
    cbn [dict_del].
    destruct (key_eqb k' k2) eqn:E'.
    + rewrite key_eqb_sym in He.
      rewrite (key_eqb_cancel k k2 k') in E; [discriminate|exact He|].
      now rewrite key_eqb_sym.
    + now rewrite IH.
Qed.

Lemma dict_get_set_equal {V} (d : dict json V) k k' v :
  key_eqb k' k = true -> dict_mem key_eqb d k = false ->
  dict_get key_eqb (dict_set key_eqb d k v) k' = Some v.
Proof.
  intros He. unfold dict_mem.
  induction d as [|[k2 v2] d IH]; cbn [dict_get dict_set].
  - now rewrite He.
  - destruct (key_eqb k k2) eqn:E; [discriminate|]. intros H.
    cbn [dict_get].
    destruct (key_eqb k' k2) eqn:E'; [|auto].
    rewrite key_eqb_sym in He.
    rewrite (key_eqb_cancel k k2 k') in E; [discriminate|exact He|].
    now rewrite key_eqb_sym.
Qed.

Section Colliding.
Context {py : PyBuiltins} {imp : Imports}.
Context {Event Store : Type} {EA : EventAPI Event}
        {SI : RelayEventStoreInterface Store Event}.
Let W : Type := World Event Store.

(** entering a subscription under one key and removing it under an equal
    key gives back the world *)
Lemma unregister_register_equal c k k2 flt (w : W) :
  key_eqb k2 k = true -> accepts c k w ->
  unregister c k2 (register c k flt w) = w.
Proof.
  intros He ([cn Hc] & Hh & Hm & _).
  pose proof (register_conn c cn k flt w Hc) as Hreg.
  rewrite (subs_of_conn c cn w Hc) in Hm.
  unfold unregister.
  rewrite (put_subs_conn c _ _ _ Hreg).
  rewrite (subs_of_conn c _ _ Hreg). cbn [subs ws snd].
  rewrite (dict_del_set_equal _ _ _ _ He Hm).
  unfold register. rewrite (subs_of_conn c cn w Hc).
  rewrite (put_subs_conn c cn _ w Hc). cbn [snd].
  unfold set_relay, with_ws. cbn.
  rewrite nat_dict_set_set.
  replace {| subs := subs cn; ws := ws cn |} with cn by now destruct cn.
  rewrite (nat_dict_set_get _ _ _ Hc).
  destruct w as [r sk q h]. destruct r. reflexivity.
Qed.
End Colliding.

(** X14.  Subscription ids are compared the way Python compares
    dictionary keys, so the number 1 and [true] name the same
    subscription, as do 0 and [false].  Once a REQ under the number has
    been accepted, and for as long as the relay state is as that REQ left
    it, a REQ under the boolean is answered by the NOTICE of a duplicate
    and changes nothing else, and a CLOSE under the boolean removes the
    subscription made under the number: the relay state is again what it
    was before the first REQ, and on a sound transport the client is sent
    the NOTICE of the success, which names the boolean. *)
Theorem number_and_boolean_ids_collide
    {py : PyBuiltins} {imp : Imports} {Event Store : Type}
    {EA : EventAPI Event} {SI : RelayEventStoreInterface Store Event}
    (c : ws_id) (n : Z) (b : bool) (s1 s2 s3 : string)
    (filters filters' rest : list json) (w : World Event Store) :
  s1 <> EmptyString -> s2 <> EmptyString -> s3 <> EmptyString ->
  json_loads s1 = inr (JArr (JStr "REQ" :: JNum n :: filters)) ->
  json_loads s2 = inr (JArr (JStr "REQ" :: JBool b :: filters')) ->
  json_loads s3 = inr (JArr (JStr "CLOSE" :: JBool b :: rest)) ->
  accepts c (JNum n) w ->
  n = (if b then 1 else 0) ->
  let w1 := snd (_do_request c s1 w) in
  forall w', relay w' = relay w1 ->
    answered c
      (json_dumps (notice ("REQ command for sub_id that already exists - "
                           ++ py_str (JBool b)))) w'
      (_do_request c s2 w') /\
    (let r3 := _do_request c s3 w' in
     relay (snd r3) = relay w /\
     dict_mem key_eqb (subs_of c (snd r3)) (JNum n) = false /\
     (closing_of c w' = false ->
      fst r3 = Return tt /\
      wire_of c (snd r3)
        = (wire_of c w'
           ++ [json_dumps (notice ("CLOSE command for sub_id "
                                   ++ py_str (JBool b) ++ " - success"))])%list)).
Proof.
  intros Hs1 Hs2 Hs3 Hl1 Hl2 Hl3 Hacc Hn w1 w' Hw'.
  set (flt := req_filter (JStr "REQ" :: JNum n :: filters)).
  destruct (req_leaves c s1 (JNum n) filters w Hs1 Hl1 Hacc) as (Hrel & _).
  fold w1 in Hrel. fold flt in Hrel. rewrite Hrel in Hw'.
  pose proof Hacc as ([cn Hc] & Hh & Hm & _).
  pose proof (register_conn c cn (JNum n) flt w Hc) as Hreg.
  rewrite <- Hw' in Hreg.
  pose proof Hm as Hm0. rewrite (subs_of_conn c cn w Hc) in Hm.
  assert (He : key_eqb (JBool b) (JNum n) = true).
  { subst n. cbn [key_eqb]. apply Z.eqb_refl. }
  assert (Hin : dict_mem key_eqb
                  (dict_set key_eqb (subs cn) (JNum n)
                     {| sub_id_of := JNum n; filter_of := flt |})
                  (JBool b) = true).
  { unfold dict_mem. now rewrite (dict_get_set_equal _ _ _ _ He Hm). }
  split.
  - rewrite (do_request_req c s2 (JBool b) filters' w' Hs2 Hl2). unfold catch.
    rewrite (do_sub_duplicate (JStr "REQ") (JBool b) filters' c _ w' Hreg
               eq_refl Hin).
    apply send_str_answered.
  - intros r3.
    destruct (close_frame_world c s3 (JBool b) rest _ w' Hs3 Hl3 Hreg
                eq_refl Hin) as (Hr & _ & Hwire).
    fold r3 in Hr, Hwire.
    assert (Hback : relay (snd r3) = relay w).
    { rewrite Hr. rewrite (unregister_relay c (JBool b) _ w' Hw').
      now rewrite (unregister_register_equal c (JNum n) (JBool b) flt w He
                     Hacc). }
    split; [exact Hback|]. split; [|exact Hwire].
    unfold subs_of. rewrite Hback. exact Hm0.
Qed.

(** ** The constructor without a public key *)

(** X15.  A constructor call that returns was made without [pubkey], and
    the relay it returns has an empty connection table, the counter at 0,
    the store and the options as given, and an information document with
    [software], [version] and [supported_nips], followed by [name],
    [description] and [contact] for those of the three that were given and
    are not the empty string; an empty string is dropped like a missing
    option, and the document never has a [pubkey]. *)
Theorem init_information_fields
    {py : PyBuiltins} {imp : Imports} {Event Store : Type}
    {EA : EventAPI Event} {SI : RelayEventStoreInterface Store Event}
    (store : Store) a (max_sub : Z)
    (name description pubkey contact : option string) (eose : bool)
    (r : Relay Event Store) :
  Relay__init__ store a max_sub name description pubkey contact eose = inr r ->
  let given k (o : option string) :=
    match o with
    | Some s => if (s =? EmptyString)%string then [] else [(k, JStr s)]
    | None => []
    end in
  pubkey = None /\
  _ws r = [] /\ _ws_id r = 0%nat /\ _store r = store /\
  _max_sub r = max_sub /\ _enable_nip15 r = eose /\
  _accept_req r = normalise_accept a /\
  _relay_information r
    = ([("software", JStr "https://github.com/monty888/nostrpy");
        ("version", JStr "0.1");
        ("supported_nips", JArr (map JNum (supported_nips store eose)))]
       ++ given "name" name ++ given "description" description
       ++ given "contact" contact)%list /\
  dict_get String.eqb (_relay_information r) "pubkey" = None.
Proof.
  intros H given. unfold Relay__init__ in H.
  destruct pubkey as [k|].
  { destruct (Keys_is_key k); simpl in H; discriminate. }
  injection H as <-. cbn [_ws _ws_id _store _max_sub _enable_nip15
                          _accept_req _relay_information].
  repeat (split; [reflexivity|]).
  unfold given, set_if_given, opt_truthy.
  destruct name as [n|], description as [d|], contact as [k|];
    repeat match goal with
           | |- context [(?s =? EmptyString)%string] =>
               destruct (s =? EmptyString)%string
           end;
    split; reflexivity.
Qed.

(** ** Starting and stopping *)

(** the calls that do not start the server leave its state alone *)
Lemma call_end_state x sv :
  fst (call (Call_end x) sv) = sv /\
  fst (call (Call_end_background x) sv) = sv.
Proof.
  cbn [call]. unfold Relay_end, end_background.
  destruct (_server sv), (_runner sv); split; reflexivity.
Qed.

(** [_starter] has assigned the address and the application when it
    returns or raises; it leaves the runner alone *)
Lemma starter_state h p e rs bad sv :
  let sv' := fst (_starter h p e rs bad sv) in
  _server sv' <> None /\ _runner sv' = _runner sv /\
  _host sv' = Some h /\ _port sv' = Some p /\ _end_point sv' = Some e.
Proof.
  unfold _starter, add_routes.
  destruct bad as [[n x]|]; cbn; repeat split; discriminate.
Qed.

(** either call that starts the server, however it ends *)
Lemma call_start_state h p e rs bad x sv :
  let s1 := fst (call (Call_start h p e rs bad x) sv) in
  let s2 := fst (call (Call_start_background h p e rs bad x) sv) in
  (started s1 = true /\
   _host s1 = Some h /\ _port s1 = Some p /\ _end_point s1 = Some e) /\
  (started s2 = true /\
   _host s2 = Some h /\ _port s2 = Some p /\ _end_point s2 = Some e).
Proof.
  cbn [call]. unfold start, start_background.
  pose proof (starter_state h p e rs bad sv) as H. cbv zeta in H.
  destruct (_starter h p e rs bad sv) as [sv' [err|]]; cbn [fst] in *;
    destruct H as (Hs & Hr & Hh & Hp & He);
    (split; (split; [|cbn; auto])); unfold started; cbn;
    destruct (_runner sv'), (_server sv'); congruence.
Qed.

(** X16.  Once started, always started.  After any series of calls to
    [start], [start_background], [end] and [end_background] on a new relay,
    whatever each of them raised and wherever it raised ([add_routes]
    included, which leaves the runner unassigned), [started] is true exactly
    when one of the two start calls is among them: nothing, [end] and
    [end_background] included, ever sets it back.  On a relay that was never
    started, [end] and [end_background] raise [AttributeError]; and so does
    [end_background] after a [start_background] in which [add_routes]
    raised, although [started] is true then. *)
Theorem started_never_reset (cls : list Call) :
  started (calls cls Serving__init__)
    = (match last_start cls None with Some _ => true | None => false end) /\
  (forall x, call (Call_end x) Serving__init__
             = (Serving__init__, Some AttributeError)) /\
  (forall x, call (Call_end_background x) Serving__init__
             = (Serving__init__, Some AttributeError)) /\
  (forall h p e rs n err x y,
     let sv := fst (call (Call_start_background h p e rs (Some (n, err)) x)
                      Serving__init__) in
     snd (call (Call_start_background h p e rs (Some (n, err)) x)
            Serving__init__) = Some (Failed err) /\
     started sv = true /\ _runner sv = None /\
     call (Call_end_background y) sv = (sv, Some AttributeError)).
Proof.
  split; [|split; [reflexivity|split; [reflexivity|]]].
  - assert (H : forall sv seen,
              started sv
                = (match seen with Some _ => true | None => false end)
              -> started (calls cls sv)
                 = match last_start cls seen with
                   | Some _ => true
                   | None => false
                   end).
    { induction cls as [|cl cls IH]; intros sv seen Hs; [exact Hs|].
      destruct cl as [h p e rs bad x|h p e rs bad x|x|x];
        cbn [calls last_start].
      - apply IH. apply (call_start_state h p e rs bad x sv).
      - apply IH. apply (call_start_state h p e rs bad x sv).
      - rewrite (proj1 (call_end_state x sv)). now apply IH.
      - rewrite (proj2 (call_end_state x sv)). now apply IH. }
    now apply (H Serving__init__ None).
  - intros h p e rs n err x y. cbn. repeat split.
Qed.

(** X17.  The property [url] is built from the address given to the most
    recent start call, whether that call succeeded or not and whatever was
    called since; on a relay that was never started it does not raise but
    reads "ws://None:NoneNone". *)
Theorem url_of_last_start (cls : list Call) :
  url (calls cls Serving__init__)
    = match last_start cls None with
      | Some (host, port, end_point) =>
          "ws://" ++ host ++ ":" ++ str_of_Z port ++ end_point
      | None => "ws://None:NoneNone"
      end.
Proof.
  assert (H : forall sv seen,
            url sv = match seen with
                     | Some (h, p, e) => "ws://" ++ h ++ ":" ++ str_of_Z p ++ e
                     | None => "ws://None:NoneNone"
                     end ->
            url (calls cls sv)
              = match last_start cls seen with
                | Some (h, p, e) => "ws://" ++ h ++ ":" ++ str_of_Z p ++ e
                | None => "ws://None:NoneNone"
                end).
  { induction cls as [|cl cls IH]; intros sv seen Hu; [exact Hu|].
    destruct cl as [h p e rs bad x|h p e rs bad x|x|x];
      cbn [calls last_start].
    - apply IH. unfold url.
      destruct (proj1 (call_start_state h p e rs bad x sv))
        as (_ & -> & -> & ->). reflexivity.
    - apply IH. unfold url.
      destruct (proj2 (call_start_state h p e rs bad x sv))
        as (_ & -> & -> & ->). reflexivity.
    - rewrite (proj1 (call_end_state x sv)). now apply IH.
    - rewrite (proj2 (call_end_state x sv)). now apply IH. }
  now apply (H Serving__init__ None).
Qed.

(** ** The routes *)

Lemma split_cons sep s : exists x l, split sep s = x :: l.
Proof.
  induction s as [|ch s IH]; cbn [split]; [eauto|].
  destruct (Ascii.eqb ch sep); [eauto|].
  destruct IH as (x & l & ->). eauto.
Qed.

Lemma join_cons_char sep ch x l :
  join sep (String ch x :: l) = String ch (join sep (x :: l)).
Proof. destruct l; reflexivity. Qed.

(** joining the pieces with the separator gives the string back *)
Lemma join_split sep s :
  join (String sep EmptyString) (split sep s) = s.
Proof.
  induction s as [|ch s IH]; cbn [split]; [reflexivity|].
  destruct (Ascii.eqb_spec ch sep) as [->|Hne].
  - destruct (split_cons sep s) as (x & l & E). rewrite E in *.
    change (join (String sep EmptyString) (EmptyString :: x :: l))
      with (EmptyString ++ String sep EmptyString
            ++ join (String sep EmptyString) (x :: l)).
    rewrite IH. reflexivity.
  - destruct (split_cons sep s) as (x & l & E). rewrite E in *.
    now rewrite join_cons_char, IH.
Qed.

Section RouteFacts.
Context {py : PyBuiltins} {ri : RouteImports}.
Context {Event Store : Type} {EA : EventAPI Event}
        {SI : RelayEventStoreInterface Store Event}.

Lemma get_param_limit (query : Query) :
  _get_param query "limit" false true
    = match dict_get String.eqb query "limit" with
      | Some v => option_map JNum (py_int v)
      | None => None
      end.
Proof.
  unfold _get_param, _make_numeric.
  destruct (dict_get String.eqb query "limit") as [v|]; [|reflexivity].
  cbn [flat_map]. destruct (py_int v); reflexivity.
Qed.

Lemma get_param_strings (query : Query) name :
  _get_param query name true false
    = option_map (fun v => JArr (map JStr (split "," v)))
        (dict_get String.eqb query name).
Proof.
  unfold _get_param.
  destruct (dict_get String.eqb query name) as [v|]; [|reflexivity].
  cbn [option_map]. destruct (split_cons "," v) as (x & l & ->).
  reflexivity.
Qed.

Lemma set_if_truthy_strings flt k (o : option string) :
  set_if_truthy flt k
    (option_map (fun v => JArr (map JStr (split "," v))) o)
  = match o with
    | Some v => dict_set String.eqb flt k (JArr (map JStr (split "," v)))
    | None => flt
    end.
Proof.
  destruct o as [v|]; [|reflexivity]. cbn [option_map set_if_truthy].
  destruct (split_cons "," v) as (x & l & ->). reflexivity.
Qed.
End RouteFacts.

Section RouteFacts2.
Context {py : PyBuiltins} {ri : RouteImports}.
Context {Event Store : Type} {EA : EventAPI Event}
        {SI : RelayEventStoreInterface Store Event}.

Lemma numbers_map (l : list string) :
  flat_map (fun v => match _make_numeric v with
                     | Some n => [JNum n]
                     | None => []
                     end) l
  = map JNum (flat_map (fun v => match py_int v with
                                 | Some n => [n]
                                 | None => []
                                 end) l).
Proof.
  induction l as [|v l IH]; cbn [flat_map map]; [reflexivity|].
  rewrite IH, map_app. unfold _make_numeric.
  now destruct (py_int v).
Qed.

Lemma get_param_numbers (query : Query) name :
  _get_param query name true true
    = match dict_get String.eqb query name with
      | Some v =>
          match flat_map (fun v => match py_int v with
                                   | Some n => [n]
                                   | None => []
                                   end) (split "," v) with
          | [] => None
          | ns => Some (JArr (map JNum ns))
          end
      | None => None
      end.
Proof.
  unfold _get_param.
  destruct (dict_get String.eqb query name) as [v|]; [|reflexivity].
  rewrite numbers_map.
  now destruct (flat_map _ (split "," v)).
Qed.

(** the limit that reaches the store *)
Lemma filter_route_limit_value (query : Query) :
  exists n,
    n <= 100 /\
    n = match dict_get String.eqb query "limit" with
        | Some v => match py_int v with
                    | Some m => Z.min m 100
                    | None => 100
                    end
        | None => 100
        end /\
    match _get_param query "limit" false true with
    | None => inr (JNum 100)
    | Some (JNum n) => inr (if 100 <? n then JNum 100 else JNum n)
    | Some _ => inl TypeError
    end = inr (JNum n).
Proof.
  rewrite get_param_limit.
  destruct (dict_get String.eqb query "limit") as [v|];
    [|exists 100; repeat split; lia].
  destruct (py_int v) as [m|]; [|exists 100; repeat split; lia].
  cbn [option_map]. destruct (Z.ltb_spec 100 m).
  - exists 100. repeat split; lia.
  - exists m. repeat split; lia.
Qed.
End RouteFacts2.

(** X18.  The browser route for one event, [event_route].  An empty [id]
    is answered by the text "id field is required"; a missing [id] is not:
    it reaches [Event.is_event_id] as [None], and when that rejects it the
    text reads "id: None is not a valid event id".  For an id that passes,
    the store is asked for [{'ids': id}], with the id itself and not a list
    of ids, and the answer is the first event found, as JSON, or the empty
    object when there is none. *)
Theorem event_route_answers
    {py : PyBuiltins} {ri : RouteImports} {Event Store : Type}
    {EA : EventAPI Event} {SI : RelayEventStoreInterface Store Event}
    (r : Relay Event Store) (query : Query) :
  let id := dict_get String.eqb query "id" in
  (id = Some EmptyString ->
   event_route_the_route r query
     = inr (web_Response "id field is required")) /\
  (id <> Some EmptyString ->
   (Event_is_event_id id = inr false ->
    event_route_the_route r query
      = inr (web_Response
               ("id: " ++ str_opt id ++ " is not a valid event id"))) /\
   (Event_is_event_id id = inr true ->
    forall evts,
      get_filter (_store r) (JObj [("ids", json_opt id)]) = inr evts ->
      event_route_the_route r query
        = inr (match evts with
               | [] => web_json_response (JObj [])
               | JStr t :: _ => web_Response t
               | e :: _ => web_json_response e
               end))).
Proof.
  intros id. unfold event_route_the_route. fold id. split.
  - intros ->. reflexivity.
  - intros Hne.
    assert (E : event_route_try r id
      = match Event_is_event_id id with
        | inl e => inl (Raised e)
        | inr false =>
            inl (ValueError
                   ("id: " ++ str_opt id ++ " is not a valid event id"))
        | inr true =>
            match get_filter (_store r) (JObj [("ids", json_opt id)]) with
            | inl e => inl (Raised e)
            | inr evts => inr (match evts with
                               | e :: _ => e
                               | [] => JObj []
                               end)
            end
        end).
    { unfold event_route_try. destruct id as [[|a s]|]; try reflexivity.
      now destruct Hne. }
    rewrite E. split.
    + intros ->. reflexivity.
    + intros -> evts ->. destruct evts as [|[] evts]; reflexivity.
Qed.

(** X19.  The browser route for a filter never asks the store for more
    than 100 events: whatever the query, the filter it builds starts with
    a [limit] that is an integer of at most 100; it is 100 when the
    parameter is missing, is not a number or is above 100, and otherwise
    the number given, which may be 0 or negative.  Building the filter
    never raises; the store is asked once, an exception of the store is the
    route's, and the answer is JSON: [null] when the store finds nothing,
    else an object with the events. *)
Theorem filter_route_limit
    {py : PyBuiltins} {ri : RouteImports} {Event Store : Type}
    {EA : EventAPI Event} {SI : RelayEventStoreInterface Store Event}
    (r : Relay Event Store) (query : Query) :
  exists n rest,
    filter_route_filter query = inr (("limit", JNum n) :: rest) /\
    n <= 100 /\
    n = match dict_get String.eqb query "limit" with
        | Some v => match py_int v with
                    | Some m => Z.min m 100
                    | None => 100
                    end
        | None => 100
        end /\
    filter_route_the_route r query
      = match get_filter (_store r) (JObj (("limit", JNum n) :: rest)) with
        | inl e => inl e
        | inr [] => inr (web_json_response JNull)
        | inr evts => inr (web_json_response (JObj [("events", JArr evts)]))
        end.
Proof.
  destruct (filter_route_limit_value query) as (n & Hle & Hn & E).
  assert (Hhead : forall flt k v,
            (k =? "limit")%string = false ->
            exists rest,
              set_if_truthy (("limit", JNum n) :: flt) k v
                = ("limit", JNum n) :: rest).
  { intros flt k v Hk. unfold set_if_truthy.
    destruct v as [j|]; [|eauto]. destruct (py_truthy j); [|eauto].
    cbn [dict_set]. rewrite Hk. eauto. }
  assert (Hf : exists rest,
            filter_route_filter query = inr (("limit", JNum n) :: rest)).
  { unfold filter_route_filter. rewrite E.
    destruct (Hhead [] "authors" (_get_param query "authors" true false)
                eq_refl) as (r1 & ->).
    destruct (Hhead r1 "kinds" (_get_param query "kinds" true true)
                eq_refl) as (r2 & ->).
    destruct (Hhead r2 "ids" (_get_param query "ids" true false)
                eq_refl) as (r3 & ->).
    eauto. }
  destruct Hf as (rest & Hf). exists n, rest.
  split; [exact Hf|]. split; [exact Hle|]. split; [exact Hn|].
  unfold filter_route_the_route. rewrite Hf.
  destruct (get_filter (_store r) (JObj (("limit", JNum n) :: rest)))
    as [e|[|x evts]]; reflexivity.
Qed.

(** X20.  What the filter route hands to the store is the [limit]
    followed by [authors], [kinds] and [ids], each only if the query has
    it, and nothing else of the query.  [authors] and [ids] are the value
    cut at the commas, so that joining the list with commas gives the value
    back; even an empty value gives a list, of one empty string.  [kinds]
    holds the parts that [int] accepts, as integers, and is left out when
    there is none. *)
Theorem filter_route_lists
    {py : PyBuiltins} {ri : RouteImports} (query : Query) :
  let strings k :=
    match dict_get String.eqb query k with
    | Some v => [(k, JArr (map JStr (split "," v)))]
    | None => []
    end in
  let numbers k :=
    match dict_get String.eqb query k with
    | Some v =>
        match flat_map (fun v => match py_int v with
                                 | Some n => [n]
                                 | None => []
                                 end) (split "," v) with
        | [] => []
        | ns => [(k, JArr (map JNum ns))]
        end
    | None => []
    end in
  (exists n,
     filter_route_filter query
       = inr ([("limit", JNum n)] ++ strings "authors" ++ numbers "kinds"
              ++ strings "ids")%list) /\
  forall v, join "," (split "," v) = v /\ split "," v <> [].
Proof.
  intros strings numbers. split.
  - destruct (filter_route_limit_value query) as (n & _ & _ & E).
    exists n. unfold filter_route_filter. rewrite E.
    rewrite !get_param_strings, get_param_numbers, !set_if_truthy_strings.
    unfold strings, numbers.
    destruct (dict_get String.eqb query "authors") as [a|],
             (dict_get String.eqb query "kinds") as [k|],
             (dict_get String.eqb query "ids") as [i|];
      try destruct (flat_map _ (split "," k)); reflexivity.
  - intros v. split; [apply join_split|].
    destruct (split_cons "," v) as (x & l & ->). discriminate.
Qed.

(** ** The profile page *)

Section ProfileFacts.
Context {py : PyBuiltins}.
Context {Event Store : Type} {EA : EventAPI Event}
        {SI : RelayEventStoreInterface Store Event}
        {pi : ProfileImports Event}.

Lemma attr_or_raises p key d e :
  attr_or p key d = inl e -> e = TypeError.
Proof.
  unfold attr_or, py_contains, py_getitem.
  destruct p as [| | |s|l|l]; try (now intros [= <-]).
  - destruct (str_in key s); [now intros [= <-]|discriminate].
  - destruct (existsb _ l); [now intros [= <-]|discriminate].
  - unfold dict_mem. destruct (dict_get String.eqb l key); discriminate.
Qed.

(** the page cannot be made only because the content is not a dict *)
Lemma profile_page_raises hex p e :
  profile_page hex p = inl e -> e = TypeError.
Proof.
  unfold profile_page.
  destruct (attr_or p "name" (JStr "-")) as [e1|name] eqn:E1.
  { intros [= <-]. now apply attr_or_raises in E1. }
  destruct (attr_or p "about" (JStr "-")) as [e2|about] eqn:E2.
  { intros [= <-]. now apply attr_or_raises in E2. }
  pose proof (attr_or_raises p "picture" JNull) as H3. unfold attr_or in H3.
  destruct (py_contains "picture" p) as [e3|[|]].
  - intros [= <-]. now apply H3.
  - destruct (py_getitem p "picture") as [e4|v]; [|discriminate].
    intros [= <-]. now apply H3.
  - discriminate.
Qed.

Lemma profile_page_object hex l :
  let value k default :=
    match dict_get String.eqb l k with
    | Some v => v
    | None => JStr default
    end in
  profile_page hex (JObj l)
    = inr (profile_html hex (py_str (value "name" "-"))
             (py_str (value "about" "-"))
             match dict_get String.eqb l "picture" with
             | Some v => picture_html (py_str v)
             | None => EmptyString
             end).
Proof.
  intros value. unfold profile_page, attr_or, py_contains, py_getitem,
    dict_mem, value.
  destruct (dict_get String.eqb l "name"),
           (dict_get String.eqb l "about"),
           (dict_get String.eqb l "picture"); reflexivity.
Qed.

(** the route once the profile event is found and its content decoded *)
Lemma view_profile_found (r : Relay Event Store) (query : Query)
    pk k evts es e0 rest p :
  dict_get String.eqb query "pub_k" = Some pk ->
  Keys_get_key pk = inr (Some k) ->
  get_filter (_store r)
    (JObj [("authors", JArr [JStr (public_key_hex k)]);
           ("kinds", JArr [JNum KIND_META])]) = inr evts ->
  map_exn Event_from_JSON evts = inr es ->
  Event_latest_events_only es KIND_META = inr (e0 :: rest) ->
  json_loads (Event_content e0) = inr p ->
  view_profile_the_route r query
    = match profile_page (public_key_hex k) p with
      | inl _ => inl (Raised TypeError)
      | inr page => inr (web_Response_html page)
      end.
Proof.
  intros Hq Hk Hf Hm Hl Hj.
  unfold view_profile_the_route, view_profile_try.
  rewrite Hq, Hk, Hf, Hm, Hl, Hj.
  destruct (profile_page (public_key_hex k) p) as [e|page] eqn:E;
    [|reflexivity].
  apply profile_page_raises in E. subst e. reflexivity.
Qed.
End ProfileFacts.

(** X21.  The profile route answers its own errors with a page of status
    200 and type text/html: a missing [pub_k] is answered by "pub_k field
    is required" (unlike the event route, which lets a missing id
    through), a value that [Keys.get_key] does not take for a key by "...
    doesn't look like a valid nostr key", a key without a profile event by
    "... no meta held on relay", and a profile whose content is not JSON by
    the message of the decoding error, as [json.loads] gave it.  Whenever the route answers at all,
    the answer is of type text/html; it never answers with JSON. *)
Theorem view_profile_errors
    {py : PyBuiltins} {Event Store : Type}
    {EA : EventAPI Event} {SI : RelayEventStoreInterface Store Event}
    {pi : ProfileImports Event}
    (r : Relay Event Store) (query : Query) :
  let pub_k := dict_get String.eqb query "pub_k" in
  (pub_k = None ->
   view_profile_the_route r query
     = inr (web_Response_html "pub_k field is required")) /\
  (forall pk, pub_k = Some pk -> Keys_get_key pk = inr None ->
     view_profile_the_route r query
       = inr (web_Response_html
                (pk ++ " - doesn't look like a valid nostr key"))) /\
  (forall pk k evts es,
     pub_k = Some pk -> Keys_get_key pk = inr (Some k) ->
     get_filter (_store r)
       (JObj [("authors", JArr [JStr (public_key_hex k)]);
              ("kinds", JArr [JNum KIND_META])]) = inr evts ->
     map_exn Event_from_JSON evts = inr es ->
     (Event_latest_events_only es KIND_META = inr [] ->
      view_profile_the_route r query
        = inr (web_Response_html
                 (public_key_hex k ++ " no meta held on relay"))) /\
     (forall e0 rest msg,
        Event_latest_events_only es KIND_META = inr (e0 :: rest) ->
        json_loads (Event_content e0) = inl (JSONDecodeError msg) ->
        view_profile_the_route r query = inr (web_Response_html msg))) /\
  (forall resp, view_profile_the_route r query = inr resp ->
     status resp = 200 /\ content_type resp = "text/html" /\
     content_type resp <> "application/json").
Proof.
  intros pub_k. unfold view_profile_the_route. fold pub_k.
  split; [|split; [|split]].
  - intros ->. reflexivity.
  - intros pk -> Hk. cbn [view_profile_try]. now rewrite Hk.
  - intros pk k evts es -> Hk Hf Hm. cbn [view_profile_try].
    rewrite Hk, Hf, Hm. split.
    + intros ->. reflexivity.
    + intros e0 rest msg -> ->. reflexivity.
  - intros resp.
    destruct (view_profile_try r pub_k) as [ve|ret].
    + destruct (is_ValueError ve); [|discriminate].
      intros [= <-]. repeat split. discriminate.
    + intros [= <-]. repeat split. discriminate.
Qed.

(** X22.  The profile page is made from the decoded content of the
    newest profile event.  When the content is a JSON object, [name] and
    [about] are shown as they are, or as "-" when missing, and [picture]
    becomes an [img] element or nothing; the values are put into the page
    as [str] gives them, without any escaping.  When the content is a
    number, a boolean or [null], looking for [name] in it raises
    [TypeError], which the route does not catch.  When it is a list or a
    string, the route raises [TypeError] as well, unless none of the three
    names occurs in it, in which case the page shows the defaults. *)
Theorem view_profile_page
    {py : PyBuiltins} {Event Store : Type}
    {EA : EventAPI Event} {SI : RelayEventStoreInterface Store Event}
    {pi : ProfileImports Event}
    (r : Relay Event Store) (query : Query)
    (pk : string) (k : Key) (evts : list json) (es : list Event)
    (e0 : Event) (rest : list Event) (p : json) :
  dict_get String.eqb query "pub_k" = Some pk ->
  Keys_get_key pk = inr (Some k) ->
  get_filter (_store r)
    (JObj [("authors", JArr [JStr (public_key_hex k)]);
           ("kinds", JArr [JNum KIND_META])]) = inr evts ->
  map_exn Event_from_JSON evts = inr es ->
  Event_latest_events_only es KIND_META = inr (e0 :: rest) ->
  json_loads (Event_content e0) = inr p ->
  let hex := public_key_hex k in
  (forall l, p = JObj l ->
     let value k default :=
       match dict_get String.eqb l k with
       | Some v => v
       | None => JStr default
       end in
     view_profile_the_route r query
       = inr (web_Response_html
                (profile_html hex (py_str (value "name" "-"))
                   (py_str (value "about" "-"))
                   match dict_get String.eqb l "picture" with
                   | Some v => picture_html (py_str v)
                   | None => EmptyString
                   end))) /\
  (p = JNull \/ (exists b, p = JBool b) \/ (exists n, p = JNum n) ->
   view_profile_the_route r query = inl (Raised TypeError)) /\
  ((exists l, p = JArr l) \/ (exists s, p = JStr s) ->
   view_profile_the_route r query
     = if match py_contains "name" p, py_contains "about" p,
                py_contains "picture" p with
          | inr false, inr false, inr false => true
          | _, _, _ => false
          end
       then inr (web_Response_html (profile_html hex "-" "-" EmptyString))
       else inl (Raised TypeError)).
Proof.
  intros Hq Hk Hf Hm Hl Hj hex.
  rewrite (view_profile_found r query pk k evts es e0 rest p Hq Hk Hf Hm Hl Hj).
  fold hex. split; [|split].
  - intros l -> value. now rewrite profile_page_object.
  - intros [->|[[b ->]|[n ->]]]; reflexivity.
  - intros [[l ->]|[s ->]]; unfold profile_page, attr_or, py_getitem;
      destruct (py_contains "name" _) as [e1|[|]] eqn:E1; try reflexivity;
      try discriminate;
      destruct (py_contains "about" _) as [e2|[|]] eqn:E2; try reflexivity;
      try discriminate;
      destruct (py_contains "picture" _) as [e3|[|]] eqn:E3; try reflexivity;
      discriminate.
Qed.
(** * The properties on concrete runs *)

Section Reaching.
Context {py : PyBuiltins} {imp : Imports}.
Context {Event Store : Type} {EA : EventAPI Event}
        {SI : RelayEventStoreInterface Store Event}.

Lemma reachable_run (r : Relay Event Store) acts :
  forall w w', reachable r w -> run acts w = Some w' -> reachable r w'.
Proof.
  induction acts as [|a acts IH]; simpl; intros w w' Hw H.
  - now injection H as <-.
  - destruct (step a w) as [w1|] eqn:E; [|discriminate].
    apply (IH w1 w'); [|exact H]. now apply reach_step with (w := w) (a := a).
Qed.
End Reaching.

Import Sample.

(** C1, at a well-formed key: the key passes [Keys.is_key] and the
    constructor still raises. *)
Example init_refuses_valid_pubkey :
  Keys_is_key key64 = true /\
  Relay__init__ empty_store None 3 None None (Some key64) None false
    = inl (pubkey_error key64).
Proof. split; reflexivity. Qed.

(** C7, on a relay with one client connected. *)
Lemma nip11_response_witness :
  Relay__init__ empty_store None 3 None None None None true
    = inr (relay0 3 true empty_store) /\
  reachable (relay0 3 true empty_store) (one_client 3 true empty_store) /\
  exists resp,
    _websocket_handler_enter false (one_client 3 true empty_store)
      = (Some resp, one_client 3 true empty_store) /\
    content_type resp = "text/plain" /\
    dict_get String.eqb (_relay_information (relay0 3 true empty_store))
      "supported_nips" = Some (JArr [JNum 1; JNum 2; JNum 11; JNum 15]).
Proof.
  assert (H1 : Relay__init__ empty_store None 3 None None None None true
                 = inr (relay0 3 true empty_store)) by reflexivity.
  assert (H2 : reachable (relay0 3 true empty_store)
                 (one_client 3 true empty_store)).
  { apply (reachable_run (relay0 3 true empty_store) [Upgrade]
             (boot (relay0 3 true empty_store))).
    - apply reach_boot.
    - reflexivity. }
  split; [exact H1|]. split; [exact H2|].
  destruct (nip11_response empty_store None 3 None None None None true
              (relay0 3 true empty_store) (one_client 3 true empty_store)
              H1 H2)
    as (resp & nips & Hr & _ & Hct & _ & _ & _).
  exists resp. split; [exact Hr|]. split; [exact Hct|]. reflexivity.
Defined.

(** C3, the claim as written fails on the empty text frame: the socket is
    open, and no frame at all is written in reply. *)
Lemma empty_frame_unanswered :
  closing_of 0 (one_client 3 true empty_store) = false /\
  wire_of 0 (snd (_do_request 0 EmptyString (one_client 3 true empty_store)))
    = [] /\
  forall f,
    ~ answered 0 f (one_client 3 true empty_store)
        (_do_request 0 EmptyString (one_client 3 true empty_store)).
Proof.
  split; [reflexivity|]. split; [reflexivity|].
  intros f H. unfold answered in H.
  change (closing_of 0 (one_client 3 true empty_store)) with false in H.
  destruct H as (_ & _ & _ & _ & _ & _ & H).
  vm_compute in H. discriminate H.
Qed.

(** C3, on a connected client: a malformed frame, the empty array and an
    unknown verb. *)
Lemma bad_frame_reply_witness :
  let w := one_client 3 true empty_store in
  ("junk" <> EmptyString /\
   json_loads "junk"
     = inl (JSONDecodeError "Expecting value: line 1 column 1 (char 0)") /\
   answered 0 (json_dumps (notice "unable to decode command string")) w
     (_do_request 0 "junk" w)) /\
  ("[]" <> EmptyString /\ json_loads "[]" = inr (JArr []) /\
   py_truthy (JArr []) = false /\
   answered 0 (json_dumps (notice "No command received")) w
     (_do_request 0 "[]" w)) /\
  (dumps (JArr [JStr "FOO"]) <> EmptyString /\
   json_loads (dumps (JArr [JStr "FOO"])) = inr (JArr [JStr "FOO"]) /\
   is_valid_cmd (JStr "FOO") = false /\
   answered 0 (json_dumps (notice "unsupported command FOO")) w
     (_do_request 0 (dumps (JArr [JStr "FOO"])) w)).
Proof.
  intros w.
  destruct (bad_frame_reply 0 w) as [_ H].
  split; [|split].
  - assert (Hs : "junk" <> EmptyString) by discriminate.
    destruct (H "junk" Hs) as (H1 & _ & _).
    split; [exact Hs|]. split; [reflexivity|].
    apply (H1 "Expecting value: line 1 column 1 (char 0)"). reflexivity.
  - assert (Hs : "[]" <> EmptyString) by discriminate.
    destruct (H "[]" Hs) as (_ & H2 & _).
    split; [exact Hs|]. split; [reflexivity|]. split; [reflexivity|].
    apply (H2 (JArr [])); reflexivity.
  - assert (Hs : dumps (JArr [JStr "FOO"]) <> EmptyString) by discriminate.
    destruct (H (dumps (JArr [JStr "FOO"])) Hs) as (_ & _ & H3).
    split; [exact Hs|]. split; [reflexivity|]. split; [reflexivity|].
    apply (H3 (JStr "FOO") []); reflexivity.
Defined.

(** C4, the claim as written fails on a store fault: the post reaches the
    store, the store raises an error that is not a duplicate, the socket is
    open, and the client is sent nothing. *)
Lemma storage_fault_unanswered :
  let w := one_client 3 true broken_store in
  json_loads (dumps (post e1)) = inr (post e1) /\
  add_event (_store (relay w)) e1
    = (broken_store, Some (Exception "database is locked")) /\
  closing_of 0 w = false /\
  _do_request 0 (dumps (post e1)) w = (Return tt, w) /\
  forall msg,
    ~ answered 0 (json_dumps (notice msg)) w
        (_do_request 0 (dumps (post e1)) w).
Proof.
  intros w. split; [reflexivity|]. split; [reflexivity|].
  split; [reflexivity|]. split; [reflexivity|].
  intros msg H. unfold answered in H.
  change (closing_of 0 w) with false in H.
  destruct H as (_ & _ & _ & _ & _ & _ & H).
  vm_compute in H. discriminate H.
Qed.

(** C4, on a connected client: a second post of a stored event, and a post
    to a store that is out of order. *)
Lemma store_failure_reply_witness :
  (let w := after [Arrive 0 (dumps (post e1)); Tick]
              (one_client 3 true empty_store) in
   dumps (post e1) <> EmptyString /\
   json_loads (dumps (post e1)) = inr (JArr [JStr "EVENT"; data e1]) /\
   Event_from_JSON (data e1) = inr e1 /\
   Event_is_valid e1 = true /\
   Forall (fun h => h 0%nat e1 = None) (_accept_req (relay w)) /\
   add_event (_store (relay w)) e1
     = (_store (relay w),
        Some (IntegrityError "UNIQUE constraint failed: events.event_id")) /\
   is_duplicate_error
     (IntegrityError "UNIQUE constraint failed: events.event_id") = true /\
   answered 0 (json_dumps (notice "event already exists: e1")) w
     (_do_request 0 (dumps (post e1)) w)) /\
  (let w := one_client 3 true broken_store in
   add_event (_store (relay w)) e1
     = (broken_store, Some (Exception "database is locked")) /\
   is_duplicate_error (Exception "database is locked") = false /\
   _do_request 0 (dumps (post e1)) w = (Return tt, w)).
Proof.
  assert (Hs : dumps (post e1) <> EmptyString) by discriminate.
  assert (Hl : json_loads (dumps (post e1))
                 = inr (JArr [JStr "EVENT"; data e1])) by reflexivity.
  assert (Hj : Event_from_JSON (data e1) = inr e1) by reflexivity.
  assert (Hv : Event_is_valid e1 = true) by reflexivity.
  split.
  - intros w.
    assert (Ha : Forall (fun h => h 0%nat e1 = None) (_accept_req (relay w)))
      by (repeat constructor).
    assert (Hadd : add_event (_store (relay w)) e1
      = (_store (relay w),
         Some (IntegrityError "UNIQUE constraint failed: events.event_id")))
      by reflexivity.
    assert (Hd : is_duplicate_error
      (IntegrityError "UNIQUE constraint failed: events.event_id") = true)
      by reflexivity.
    split; [exact Hs|]. split; [exact Hl|]. split; [exact Hj|].
    split; [exact Hv|]. split; [exact Ha|]. split; [exact Hadd|].
    split; [exact Hd|].
    destruct (store_failure_reply 0 (dumps (post e1)) (data e1) [] e1
                (_store (relay w))
                (IntegrityError "UNIQUE constraint failed: events.event_id")
                w Hs Hl Hj Hv Ha Hadd) as [H _].
    exact (H Hd).
  - intros w.
    assert (Ha : Forall (fun h => h 0%nat e1 = None) (_accept_req (relay w)))
      by (repeat constructor).
    assert (Hadd : add_event (_store (relay w)) e1
      = (broken_store, Some (Exception "database is locked")))
      by reflexivity.
    assert (Hd : is_duplicate_error (Exception "database is locked") = false)
      by reflexivity.
    split; [exact Hadd|]. split; [exact Hd|].
    destruct (store_failure_reply 0 (dumps (post e1)) (data e1) [] e1
                broken_store (Exception "database is locked")
                w Hs Hl Hj Hv Ha Hadd) as [_ H].
    exact (H Hd).
Defined.

(** C5, with a limit of one: a client that holds subscription x asks for y,
    and asks for x again. *)
Lemma registry_within_limit_witness :
  let r := relay0 1 true empty_store in
  let w := after [Upgrade; Arrive 0 (dumps req_x_all); Tick] (boot r) in
  0 <= _max_sub r /\ _ws r = [] /\ reachable r w /\
  map (fun p => len (subs (snd p))) (_ws (relay w)) = [1] /\
  (forall c cn, In (c, cn) (_ws (relay w)) -> len (subs cn) <= 1) /\
  answered 0
    (json_dumps
       (notice "REQ new sub_id y not allowed, already at max subs=1")) w
    (_do_request 0 (dumps req_y_all) w) /\
  answered 0
    (json_dumps (notice "REQ command for sub_id that already exists - x")) w
    (_do_request 0 (dumps req_x_all) w).
Proof.
  intros r w.
  assert (H0 : 0 <= _max_sub r) by (vm_compute; discriminate).
  assert (H1 : _ws r = []) by reflexivity.
  assert (H2 : reachable r w).
  { apply (reachable_run r [Upgrade; Arrive 0 (dumps req_x_all); Tick]
             (boot r)); [apply reach_boot | reflexivity]. }
  destruct (registry_within_limit r w H0 H1 H2) as [Hb Hreq].
  split; [exact H0|]. split; [exact H1|]. split; [exact H2|].
  split; [reflexivity|]. split; [exact Hb|].
  assert (Hy : dumps req_y_all <> EmptyString) by discriminate.
  assert (Hx : dumps req_x_all <> EmptyString) by discriminate.
  assert (Hly : json_loads (dumps req_y_all)
                  = inr (JArr [JStr "REQ"; JStr "y"; JObj []]))
    by reflexivity.
  assert (Hlx : json_loads (dumps req_x_all)
                  = inr (JArr [JStr "REQ"; JStr "x"; JObj []]))
    by reflexivity.
  set (cn := {| subs := [(JStr "x", {| sub_id_of := JStr "x";
                                       filter_of := JArr [JObj []] |})];
                ws := 0%nat |}).
  assert (Hc : dict_get Nat.eqb (_ws (relay w)) 0%nat = Some cn)
    by reflexivity.
  split.
  - destruct (Hreq 0%nat cn (dumps req_y_all) (JStr "y") [JObj []]
                Hy Hly Hc eq_refl) as [Hlim _].
    assert (Hm : dict_mem key_eqb (subs cn) (JStr "y") = false)
      by reflexivity.
    assert (Hfull : _max_sub r <= len (subs cn))
      by (vm_compute; discriminate).
    destruct (Hlim Hm Hfull) as [Ha _]. exact Ha.
  - destruct (Hreq 0%nat cn (dumps req_x_all) (JStr "x") [JObj []]
                Hx Hlx Hc eq_refl) as [_ Hdup].
    assert (Hm : dict_mem key_eqb (subs cn) (JStr "x") = true)
      by reflexivity.
    destruct (Hdup Hm) as [Ha _]. exact Ha.
Defined.

(** C8, the claim as written fails when the write of a fanned-out event
    fails.  Client 0 subscribes, its transport fails, client 1 posts an
    event.  The write to client 0 fails (its wire holds the EOSE of the
    subscription and nothing more), and afterwards client 0 still has its
    entry, its subscription and a read loop waiting for frames, which goes on
    to handle a further REQ: nothing has moved the connection out of the
    open state. *)
Lemma failed_write_leaves_connection_open :
  exists w w',
    run [Arrive 0 (dumps req_x_all); Tick; Drop 0;
         Arrive 1 (dumps (post e1)); Tick; Tick; Tick]
        (two_clients 3 true empty_store) = Some w /\
    ready w = [] /\
    closing_of 0 w = true /\
    wire_of 0 w = [eose_frame (JStr "x")] /\
    dict_get Nat.eqb (handlers w) 0%nat = Some Reading /\
    map fst (subs_of 0 w) = [JStr "x"] /\
    run [Arrive 0 (dumps req_y_all); Tick] w = Some w' /\
    map fst (subs_of 0 w') = [JStr "x"; JStr "y"].
Proof.
  eexists. eexists.
  split; [vm_compute; reflexivity|].
  split; [reflexivity|]. split; [reflexivity|]. split; [reflexivity|].
  split; [reflexivity|]. split; [reflexivity|].
  split; [vm_compute; reflexivity|]. reflexivity.
Qed.

(** C8, on two clients of which the first has a closing transport and a
    subscription, and the second a subscription too: the event reaches the
    second. *)
Lemma failed_write_is_dropped_witness :
  let w := after [Arrive 0 (dumps req_x_all); Tick;
                  Arrive 1 (dumps req_y_all); Tick; Drop 0]
             (two_clients 3 true empty_store) in
  closing_of 0 w = true /\ ready w = [] /\
  _do_send 0 (JArr [JStr "EVENT"; JStr "x"; data e1]) w = (Return tt, w) /\
  exists w',
    run (repeat Tick 4) (snd (_check_subs e1 w)) = Some w' /\
    relay w' = relay w /\
    wire_of 0 w' = wire_of 0 w /\
    wire_of 1 w' = (wire_of 1 w ++ [event_frame (JStr "y") (data e1)])%list.
Proof.
  intros w.
  assert (Hc : closing_of 0 w = true) by reflexivity.
  assert (Hr : ready w = []) by reflexivity.
  destruct (failed_write_is_dropped 0
              (JArr [JStr "EVENT"; JStr "x"; data e1]) e1 w) as [H1 H2].
  split; [exact Hc|]. split; [exact Hr|]. split; [exact (H1 Hc)|].
  destruct (H2 Hr) as (w' & Hrun & Hrel & _ & _ & Hw).
  exists w'. split; [exact Hrun|]. split; [exact Hrel|].
  split.
  - destruct (Hw 0%nat) as [_ ->]. reflexivity.
  - destruct (Hw 1%nat) as [_ ->]. reflexivity.
Defined.

(** C2, the claim as written fails when an event is posted during a
    backfill.  The store holds e2 and e1; client 0 sends ["REQ", "x", {}]
    and, while its backfill is under way, client 1 posts e3.  The frame of
    the live event e3 is written to client 0 before the frame of the stored
    event e1 and before EOSE. *)
Lemma live_event_before_eose :
  get_filter stocked_store (JArr [JObj []]) = inr [data e2; data e1] /\
  exists w,
    run [Arrive 0 (dumps req_x_all); Tick; Arrive 1 (dumps (post e3));
         Tick; Tick; Tick; Tick; Tick; Tick; Tick; Tick; Tick]
        (two_clients 3 true stocked_store) = Some w /\
    ready w = [] /\
    wire_of 0 w
      = [event_frame (JStr "x") (data e2);
         event_frame (JStr "x") (data e3);
         event_frame (JStr "x") (data e1);
         eose_frame (JStr "x")].
Proof.
  split; [reflexivity|].
  eexists. split; [vm_compute; reflexivity|].
  split; reflexivity.
Qed.

(** C2 and C10 share this setting: the store holds e2 and e1, and the one
    client's read loop has just got ["REQ", "x", {}]. *)
Lemma req_on_stocked_store :
  let w := after [Arrive 0 (dumps req_x_all)]
             (one_client 3 true stocked_store) in
  dumps req_x_all <> EmptyString /\
  json_loads (dumps req_x_all) = inr (JArr [JStr "REQ"; JStr "x"; JObj []]) /\
  accepts 0 (JStr "x") w /\
  get_filter (_store (relay w)) (req_filter [JStr "REQ"; JStr "x"; JObj []])
    = inr [data e2; data e1] /\
  ready w = [T_request 0 (dumps req_x_all)].
Proof.
  intros w. split; [discriminate|]. split; [reflexivity|].
  split; [|split; reflexivity].
  unfold accepts. split; [eexists; reflexivity|].
  split; [reflexivity|]. split; reflexivity.
Qed.

(** C2, with two clients: the store holds e2 and e1, client 0 has sent
    ["REQ", "x", {}].  Run alone, the backfill leaves e2, e1 and EOSE on the
    wire after seven runs of the loop; with a post of e3 by client 1 in
    between, e2, e1 and EOSE are still there in this order. *)
Lemma backfill_then_eose_witness :
  let w := after [Arrive 0 (dumps req_x_all)]
             (two_clients 3 true stocked_store) in
  dumps req_x_all <> EmptyString /\
  json_loads (dumps req_x_all) = inr (JArr [JStr "REQ"; JStr "x"; JObj []]) /\
  accepts 0 (JStr "x") w /\
  get_filter (_store (relay w)) (req_filter [JStr "REQ"; JStr "x"; JObj []])
    = inr [data e2; data e1] /\
  connected 0 w /\
  ready w = [T_request 0 (dumps req_x_all)] /\
  closing_of 0 w = false /\
  (exists w',
     run (repeat Tick 7) w = Some w' /\ ready w' = [] /\
     wire_of 0 w' = [event_frame (JStr "x") (data e2);
                     event_frame (JStr "x") (data e1);
                     eose_frame (JStr "x")]) /\
  (exists w' g,
     run (Tick :: Arrive 1 (dumps (post e3)) :: repeat Tick 9) w = Some w' /\
     ready w' = [] /\ closing_of 0 w' = false /\
     wire_of 0 w' = g /\
     subseq [event_frame (JStr "x") (data e2);
             event_frame (JStr "x") (data e1);
             eose_frame (JStr "x")] g).
Proof.
  intros w.
  assert (Hs : dumps req_x_all <> EmptyString) by discriminate.
  assert (Hl : json_loads (dumps req_x_all)
                 = inr (JArr [JStr "REQ"; JStr "x"; JObj []])) by reflexivity.
  assert (Hacc : accepts 0 (JStr "x") w).
  { unfold accepts. split; [eexists; reflexivity|].
    split; [reflexivity|]. split; reflexivity. }
  assert (Hq : get_filter (_store (relay w))
                 (req_filter [JStr "REQ"; JStr "x"; JObj []])
               = inr [data e2; data e1]) by reflexivity.
  assert (Hcon : connected 0 w).
  { split; [vm_compute; lia | eexists; reflexivity]. }
  assert (Hr : ready w = [T_request 0 (dumps req_x_all)]) by reflexivity.
  assert (Hc : closing_of 0 w = false) by reflexivity.
  destruct (backfill_then_eose 0 (dumps req_x_all) (JStr "x") [JObj []]
              [data e2; data e1] w Hs Hl Hacc Hq Hcon) as [Hany Halone].
  repeat (split; [assumption|]).
  split.
  - destruct (Halone Hr) as (_ & _ & H).
    destruct (H Hc) as (w' & Hrun & Hrd & Hw).
    exists w'. split; [exact Hrun|]. split; [exact Hrd|].
    rewrite Hw. reflexivity.
  - set (acts := Arrive 1 (dumps (post e3)) :: repeat Tick 9).
    set (w' := after (Tick :: acts) w).
    assert (Hrun : run (Tick :: acts) w = Some w')
      by (vm_compute; reflexivity).
    destruct (Hany [] acts w' Hr Hrun) as [_ Hend].
    destruct (Hend eq_refl eq_refl) as (g & Hw & Hsub).
    exists w', g. split; [exact Hrun|]. split; [reflexivity|].
    split; [reflexivity|]. split; [exact Hw | exact Hsub].
Defined.

(** C10, on that setting with the transport failing after the first stored
    event was written, and on a store that is out of order. *)
Lemma registered_before_backfill_witness :
  (let w := after [Arrive 0 (dumps req_x_all)]
              (one_client 3 true stocked_store) in
   dumps req_x_all <> EmptyString /\
   json_loads (dumps req_x_all) = inr (JArr [JStr "REQ"; JStr "x"; JObj []]) /\
   accepts 0 (JStr "x") w /\
   get_filter (_store (relay w)) (req_filter [JStr "REQ"; JStr "x"; JObj []])
     = inr ([data e2] ++ data e1 :: [])%list /\
   ready w = [T_request 0 (dumps req_x_all)] /\
   connected 0 w /\
   exists w3 w4,
     run (repeat Tick 4) w = Some w3 /\
     wire_of 0 w3 = [event_frame (JStr "x") (data e2)] /\
     run (Drop 0 :: repeat Tick 3) w3 = Some w4 /\
     ready w4 = [] /\
     wire_of 0 w4 = [event_frame (JStr "x") (data e2)] /\
     map fst (subs_of 0 w4) = [JStr "x"]) /\
  (let w := one_client 3 true broken_store in
   accepts 0 (JStr "x") w /\
   get_filter (_store (relay w)) (req_filter [JStr "REQ"; JStr "x"; JObj []])
     = inl (Exception "database is locked") /\
   _do_request 0 (dumps req_x_all) w
     = (Raise (Exception "database is locked"),
        register 0 (JStr "x") (JArr [JObj []]) w) /\
   map fst (subs_of 0 (snd (_do_request 0 (dumps req_x_all) w)))
     = [JStr "x"] /\
   wire_of 0 (snd (_do_request 0 (dumps req_x_all) w)) = []).
Proof.
  split.
  - intros w.
    destruct req_on_stocked_store as (Hs & Hl & Hacc & Hq & Hr).
    fold w in Hacc, Hq, Hr.
    destruct (registered_before_backfill 0 (dumps req_x_all) (JStr "x")
                [JObj []] w Hs Hl Hacc) as (_ & _ & _ & H).
    assert (Hcon : connected 0 w)
      by (split; [vm_compute; lia | eexists; reflexivity]).
    repeat (split; [assumption|]).
    destruct (H [data e2] (data e1) [] Hq Hr Hcon)
      as (w3 & w4 & Hrun & _ & Hw3 & Hrun4 & Hrd & Hrel & Hw4 & _).
    exists w3, w4. split; [exact Hrun|].
    assert (Hw3' : wire_of 0 w3 = [event_frame (JStr "x") (data e2)])
      by (rewrite Hw3; reflexivity).
    split; [exact Hw3'|]. split; [exact Hrun4|]. split; [exact Hrd|].
    split; [now rewrite Hw4|].
    unfold subs_of. rewrite Hrel. reflexivity.
  - intros w.
    assert (Hs : dumps req_x_all <> EmptyString) by discriminate.
    assert (Hl : json_loads (dumps req_x_all)
                   = inr (JArr [JStr "REQ"; JStr "x"; JObj []]))
      by reflexivity.
    assert (Hacc : accepts 0 (JStr "x") w).
    { unfold accepts. split; [eexists; reflexivity|].
      split; [reflexivity|]. split; reflexivity. }
    assert (Hq : get_filter (_store (relay w))
                   (req_filter [JStr "REQ"; JStr "x"; JObj []])
                 = inl (Exception "database is locked")) by reflexivity.
    destruct (registered_before_backfill 0 (dumps req_x_all) (JStr "x")
                [JObj []] w Hs Hl Hacc) as (_ & _ & H & _).
    destruct (H _ Hq) as (Heq & Hrel & _).
    split; [exact Hacc|]. split; [exact Hq|].
    split; [rewrite Heq; reflexivity|].
    split; [unfold subs_of; rewrite Hrel; reflexivity|].
    rewrite Heq. reflexivity.
Defined.

(** * The further properties on concrete runs *)

Import Sample2.

Section Cases.
#[local] Existing Instance builtins2.

(** C6, on a connected client of a relay that holds two events, with the
    sample events matched as the spec says: the REQ without a filter, the
    first task of its backfill, and a later event. *)
Lemma req_without_filter_witness :
  let w := one_client 3 true stocked_store in
  let r1 := _do_request (EA := spec_events) 0 (dumps req_x) w in
  (forall evt v,
     Event_test (EventAPI := spec_events) evt v
       = FilterSet_matches kinds_hold v evt) /\
  json_loads (dumps req_x) = inr (JArr [JStr "REQ"; JStr "x"]) /\
  accepts 0 (JStr "x") w /\
  dict_get key_eqb (subs_of 0 (snd r1)) (JStr "x")
    = Some {| sub_id_of := JStr "x"; filter_of := JObj [] |} /\
  FilterSet_matches kinds_hold (JObj []) e3 = true /\
  get_filter (_store (relay w)) (JObj []) = inr [data e2; data e1] /\
  fst r1 = Await /\
  ready (snd r1)
    = [T_send_event 0 (JStr "x") (data e2)
         (Some (K_do_sub 0 (JStr "x") [data e1]))] /\
  In (T_send_event 0 (JStr "x") (data e3) None)
     (ready (snd (_check_subs (EA := spec_events) e3 (snd r1)))).
Proof.
  intros w r1.
  assert (Ht : forall evt v,
             Event_test (EventAPI := spec_events) evt v
               = FilterSet_matches kinds_hold v evt) by reflexivity.
  assert (Hs : dumps req_x <> EmptyString) by discriminate.
  assert (Hl : json_loads (dumps req_x) = inr (JArr [JStr "REQ"; JStr "x"]))
    by reflexivity.
  assert (Hacc : accepts 0 (JStr "x") w).
  { unfold accepts. split; [eexists; reflexivity|].
    split; [reflexivity|]. split; [reflexivity|]. reflexivity. }
  destruct (req_without_filter (EA := spec_events) kinds_hold 0 _ (JStr "x")
              w Ht Hs Hl Hacc)
    as (cn & the_sub & Hcn & Hsub & Hid & Hflt & _ & Hall & Hback & Hlive).
  fold r1 in Hcn, Hback, Hlive.
  assert (Ecn : cn = {| subs := [(JStr "x",
                                  {| sub_id_of := JStr "x";
                                     filter_of := JObj [] |})];
                        ws := 0%nat |}).
  { assert (E : dict_get Nat.eqb (_ws (relay (snd r1))) 0%nat
                = Some {| subs := [(JStr "x",
                                    {| sub_id_of := JStr "x";
                                       filter_of := JObj [] |})];
                          ws := 0%nat |}) by reflexivity.
    rewrite E in Hcn. now injection Hcn. }
  split; [exact Ht|]. split; [exact Hl|]. split; [exact Hacc|].
  split; [reflexivity|].
  split; [rewrite <- Hflt; apply Hall|].
  split; [reflexivity|].
  assert (Hg : get_filter (_store (relay w)) (filter_of the_sub)
               = inr [data e2; data e1]) by (rewrite Hflt; reflexivity).
  destruct (Hback _ _ Hg) as (Haw & Hq).
  split; [exact Haw|]. split; [exact Hq|].
  subst cn. exact (Hlive e3 (snd r1) eq_refl).
Defined.

(** X1, on a client that holds subscription x: CLOSE without an id, CLOSE
    of y, which is not there, and CLOSE of x. *)
Lemma close_replies_witness :
  let w := after2 [Arrive 0 (dumps req_x_all); Tick]
             (one_client 3 true empty_store) in
  let cn := {| subs := [(JStr "x", {| sub_id_of := JStr "x";
                                      filter_of := JArr [JObj []] |})];
               ws := 0%nat |} in
  dict_get Nat.eqb (_ws (relay w)) 0%nat = Some cn /\
  answered 0 (json_dumps (notice "REQ command missing sub_id")) w
    (_do_request 0 (dumps (JArr [JStr "CLOSE"])) w) /\
  answered 0
    (json_dumps
       (notice "CLOSE command for sub_id that not subscribed to, nothing to do - y"))
    w (_do_request 0 (dumps close_y) w) /\
  answered 0 (json_dumps (notice "CLOSE command for sub_id x - success"))
    (unregister 0 (JStr "x") w) (_do_request 0 (dumps close_x) w) /\
  subs_of 0 (unregister 0 (JStr "x") w) = [] /\
  len (subs_of 0 (unregister 0 (JStr "x") w)) = len (subs cn) - 1.
Proof.
  intros w cn.
  assert (Hc : dict_get Nat.eqb (_ws (relay w)) 0%nat = Some cn)
    by reflexivity.
  split; [exact Hc|]. split; [|split; [|split; [|split]]].
  - assert (Hs : dumps (JArr [JStr "CLOSE"]) <> EmptyString) by discriminate.
    apply (proj1 (close_replies 0 _ cn w Hs Hc)). reflexivity.
  - assert (Hs : dumps close_y <> EmptyString) by discriminate.
    destruct (close_replies 0 _ cn w Hs Hc) as [_ H].
    apply (proj1 (H (JStr "y") [] eq_refl eq_refl)). reflexivity.
  - assert (Hs : dumps close_x <> EmptyString) by discriminate.
    destruct (close_replies 0 _ cn w Hs Hc) as [_ H].
    apply (proj2 (H (JStr "x") [] eq_refl eq_refl)). reflexivity.
  - reflexivity.
  - assert (Hs : dumps close_x <> EmptyString) by discriminate.
    destruct (close_replies 0 _ cn w Hs Hc) as [_ H].
    apply (proj2 (H (JStr "x") [] eq_refl eq_refl)). reflexivity.
Defined.

(** X2, on a new connection of a relay with an empty store: x is
    subscribed and closed again. *)
Lemma subscribe_then_close_witness :
  let w := one_client 3 true empty_store in
  let w1 := snd (_do_request 0 (dumps req_x_all) w) in
  let w2 := snd (_do_request 0 (dumps close_x) w1) in
  accepts 0 (JStr "x") w /\
  dict_mem key_eqb (subs_of 0 w1) (JStr "x") = true /\
  relay w2 = relay w /\
  accepts 0 (JStr "x") w2 /\
  wire_of 0 w = [] /\
  wire_of 0 w2
    = [dumps (JArr [JStr "EOSE"; JStr "x"]);
       dumps (notice "CLOSE command for sub_id x - success")].
Proof.
  intros w w1 w2.
  assert (Hacc : accepts 0 (JStr "x") w).
  { unfold accepts. split; [eexists; reflexivity|].
    split; [reflexivity|]. split; [reflexivity|]. reflexivity. }
  assert (Hs1 : dumps req_x_all <> EmptyString) by discriminate.
  assert (Hs2 : dumps close_x <> EmptyString) by discriminate.
  assert (Hl1 : json_loads (dumps req_x_all)
                = inr (JArr [JStr "REQ"; JStr "x"; JObj []])) by reflexivity.
  assert (Hl2 : json_loads (dumps close_x)
                = inr (JArr [JStr "CLOSE"; JStr "x"])) by reflexivity.
  destruct (subscribe_then_close 0 _ _ (JStr "x") [JObj []] [] w
              Hs1 Hs2 Hl1 Hl2 Hacc) as ((Hin & _) & Hafter & Hwire).
  destruct (Hafter w1 eq_refl) as (Hrel & Hacc2 & _).
  split; [exact Hacc|]. split; [exact Hin|]. split; [exact Hrel|].
  split; [exact Hacc2|]. split; [reflexivity|].
  apply Hwire; reflexivity.
Defined.

(** X3, on a relay whose second handler refuses reactions: an EVENT
    without data, a forged event, and a reaction. *)
Lemma event_refused_before_store_witness :
  let w := after2 [Upgrade]
             (boot (relay1 [AcceptReqHandler_default; no_reactions]
                      empty_store)) in
  answered 0 (json_dumps (notice "EVENT command missing event data")) w
    (_do_request 0 (dumps (JArr [JStr "EVENT"])) w) /\
  (Event_is_valid forged = false /\
   answered 0
     (json_dumps (notice "invalid event, pubkey doesn't match sig")) w
     (_do_request 0 (dumps (post forged)) w)) /\
  (Event_is_valid e7 = true /\
   AcceptReqHandler_default 0%nat e7 = None /\
   no_reactions 0%nat e7
     = Some (NostrCommandException "reactions are not accepted") /\
   answered 0 (json_dumps (notice "reactions are not accepted")) w
     (_do_request 0 (dumps (post e7)) w)).
Proof.
  intros w. split; [|split].
  - assert (Hs : dumps (JArr [JStr "EVENT"]) <> EmptyString) by discriminate.
    apply (proj1 (event_refused_before_store 0 _ w Hs)). reflexivity.
  - assert (Hs : dumps (post forged) <> EmptyString) by discriminate.
    split; [reflexivity|].
    destruct (event_refused_before_store 0 _ w Hs) as [_ H].
    apply (proj1 (H (data forged) [] forged eq_refl eq_refl)). reflexivity.
  - assert (Hs : dumps (post e7) <> EmptyString) by discriminate.
    split; [reflexivity|]. split; [reflexivity|]. split; [reflexivity|].
    destruct (event_refused_before_store 0 _ w Hs) as [_ H].
    apply (proj2 (H (data e7) [] e7 eq_refl eq_refl)
             [AcceptReqHandler_default] no_reactions []).
    + reflexivity.
    + reflexivity.
    + repeat constructor.
    + reflexivity.
Defined.

(** X4, with two clients, the first subscribed to everything: the second
    posts e1. *)
Lemma event_accepted_effect_witness :
  let w := after2 [Upgrade; Upgrade; Arrive 0 (dumps req_x_all); Tick]
             (boot (relay0 3 true empty_store)) in
  let w' := snd (_do_request 1 (dumps (post e1)) w) in
  fst (_do_request 1 (dumps (post e1)) w) = Return tt /\
  ready w = [] /\
  ready w' = [T_send_event 0 (JStr "x") (data e1) None] /\
  held (_store (relay w')) = [e1] /\
  wire_of 1 w' = [] /\
  socks w' = socks w.
Proof.
  intros w w'.
  assert (Hs : dumps (post e1) <> EmptyString) by discriminate.
  assert (Hl : json_loads (dumps (post e1))
                 = inr (JArr [JStr "EVENT"; data e1])) by reflexivity.
  assert (Hj : Event_from_JSON (data e1) = inr e1) by reflexivity.
  assert (Hv : Event_is_valid e1 = true) by reflexivity.
  assert (Ha : Forall (fun h => h 1%nat e1 = None) (_accept_req (relay w)))
    by (repeat constructor).
  assert (Hadd : snd (add_event (_store (relay w)) e1) = None)
    by reflexivity.
  assert (Hdel : Event_kind e1 = KIND_DELETE ->
                 snd (do_delete (fst (add_event (_store (relay w)) e1)) e1)
                   = None) by (intros _; reflexivity).
  destruct (event_accepted_effect 1 (dumps (post e1)) (data e1) [] e1 w
              Hs Hl Hj Hv Ha Hadd Hdel) as (E & Hsk & _ & _ & _).
  fold w' in Hsk.
  split; [now rewrite E|]. split; [reflexivity|].
  split; [unfold w'; rewrite E; reflexivity|].
  split; [unfold w'; rewrite E; reflexivity|].
  split; [unfold w'; rewrite E; reflexivity|].
  exact Hsk.
Defined.

(** X5, on a store that cannot delete, with a client subscribed to
    everything: the deletion event e5 is stored and nobody is told. *)
Lemma delete_failure_skips_fanout_witness :
  (let w := after2 [Upgrade; Arrive 0 (dumps req_x_all); Tick]
              (boot (relay1 [AcceptReqHandler_default]
                       (frail_store false))) in
   Event_test e5 (JArr [JObj []]) = true /\
   subs_of 0 w = [(JStr "x", {| sub_id_of := JStr "x";
                                filter_of := JArr [JObj []] |})] /\
   _do_request 0 (dumps (post e5)) w = (Return tt, stored e5 w) /\
   kept (_store (relay (stored e5 w))) = [e5] /\
   ready (stored e5 w) = []) /\
  (let w := after2 [Upgrade]
              (boot (relay1 [AcceptReqHandler_default]
                       (frail_store true))) in
   answered 0 (json_dumps (notice "event already exists: e5"))
     (stored e5 w) (_do_request 0 (dumps (post e5)) w)).
Proof.
  assert (Hs : dumps (post e5) <> EmptyString) by discriminate.
  assert (Hl : json_loads (dumps (post e5))
                 = inr (JArr [JStr "EVENT"; data e5])) by reflexivity.
  assert (Hj : Event_from_JSON (data e5) = inr e5) by reflexivity.
  assert (Hv : Event_is_valid e5 = true) by reflexivity.
  assert (Hk : Event_kind e5 = KIND_DELETE) by reflexivity.
  split.
  - intros w.
    assert (Ha : Forall (fun h => h 0%nat e5 = None) (_accept_req (relay w)))
      by (repeat constructor).
    assert (Hadd : snd (add_event (_store (relay w)) e5) = None)
      by reflexivity.
    assert (Hdel : snd (do_delete (fst (add_event (_store (relay w)) e5)) e5)
                     = Some (Exception "no such table: deleted"))
      by reflexivity.
    destruct (delete_failure_skips_fanout 0 (dumps (post e5)) (data e5) []
                e5 _ w Hs Hl Hj Hv Ha Hk Hadd Hdel) as (_ & H & _).
    split; [reflexivity|]. split; [reflexivity|].
    split; [apply H; reflexivity|]. split; reflexivity.
  - intros w.
    assert (Ha : Forall (fun h => h 0%nat e5 = None) (_accept_req (relay w)))
      by (repeat constructor).
    assert (Hadd : snd (add_event (_store (relay w)) e5) = None)
      by reflexivity.
    assert (Hdel : snd (do_delete (fst (add_event (_store (relay w)) e5)) e5)
                     = Some (IntegrityError
                               "UNIQUE constraint failed: events.event_id"))
      by reflexivity.
    destruct (delete_failure_skips_fanout 0 (dumps (post e5)) (data e5) []
                e5 _ w Hs Hl Hj Hv Ha Hk Hadd Hdel) as (_ & _ & H).
    apply H. reflexivity.
Defined.

(** X6, after two clients connected and the first left: the table holds
    id 1 alone, the counter is at 2, and the next client gets 2. *)
Lemma connection_ids_fresh_witness :
  let r := relay0 3 true empty_store in
  let w := after2 [Upgrade; Upgrade; PeerClose 0] (boot r) in
  _ws r = [] /\ reachable r w /\
  map fst (_ws (relay w)) = [1%nat] /\
  _ws_id (relay w) = 2%nat /\
  dict_get Nat.eqb (_ws (relay w)) 2%nat = None /\
  _ws (relay (snd (_websocket_handler_enter true w)))
    = (_ws (relay w) ++ [(2%nat, {| subs := []; ws := 2%nat |})])%list.
Proof.
  intros r w.
  assert (Hr : _ws r = []) by reflexivity.
  assert (Hreach : reachable r w).
  { apply (reachable_run r [Upgrade; Upgrade; PeerClose 0] (boot r)).
    - apply reach_boot.
    - reflexivity. }
  destruct (connection_ids_fresh r w Hr Hreach) as (_ & _ & Hn & Ha & _).
  split; [exact Hr|]. split; [exact Hreach|].
  split; [reflexivity|]. split; [reflexivity|].
  split; [exact Hn|exact Ha].
Defined.

(** X7, a subscribed client leaves; another connects and posts e1,
    which the subscription would have matched. *)
Lemma closed_connection_forgotten_witness :
  let r := relay0 3 true empty_store in
  let w := after2 [Upgrade; Arrive 0 (dumps req_x_all); Tick] (boot r) in
  let w1 := after2 [PeerClose 0] w in
  let w2 := after2 [Upgrade; Arrive 1 (dumps (post e1)); Tick] w1 in
  _ws r = [] /\ reachable r w /\
  subs_of 0 w = [(JStr "x", {| sub_id_of := JStr "x";
                               filter_of := JArr [JObj []] |})] /\
  Event_test e1 (JArr [JObj []]) = true /\
  step (PeerClose 0) w = Some w1 /\
  run [Upgrade; Arrive 1 (dumps (post e1)); Tick] w1 = Some w2 /\
  held (_store (relay w2)) = [e1] /\
  dict_get Nat.eqb (_ws (relay w2)) 0%nat = None /\
  ready w2 = [].
Proof.
  intros r w w1 w2.
  assert (Hr : _ws r = []) by reflexivity.
  assert (Hreach : reachable r w).
  { apply (reachable_run r [Upgrade; Arrive 0 (dumps req_x_all); Tick]
             (boot r)).
    - apply reach_boot.
    - reflexivity. }
  assert (Hc : dict_get Nat.eqb (_ws (relay w)) 0%nat
                 = Some {| subs := [(JStr "x",
                                     {| sub_id_of := JStr "x";
                                        filter_of := JArr [JObj []] |})];
                           ws := 0%nat |}) by reflexivity.
  assert (H1 : step (PeerClose 0) w = Some w1) by reflexivity.
  assert (H2 : run [Upgrade; Arrive 1 (dumps (post e1)); Tick] w1 = Some w2)
    by reflexivity.
  destruct (closed_connection_forgotten r w w1 w2 0 _ _ Hr Hreach Hc H1 H2)
    as [Hnone _].
  split; [exact Hr|]. split; [exact Hreach|]. split; [reflexivity|].
  split; [reflexivity|]. split; [exact H1|]. split; [exact H2|].
  split; [reflexivity|]. split; [exact Hnone|reflexivity].
Defined.

(** X8, on a connected client: a JSON string, a number and an object. *)
Lemma non_array_frame_witness :
  let w := one_client 3 true empty_store in
  (json_loads (dumps (JStr "REQ")) = inr (JStr "REQ") /\
   answered 0 (json_dumps (notice "unsupported command R")) w
     (_do_request 0 (dumps (JStr "REQ")) w)) /\
  (json_loads "5" = inr (JNum 5) /\
   _do_request 0 "5" w = (Raise TypeError, w) /\
   run_task (T_request 0 "5") w = shut 0 (del_handler 0 w) /\
   relay (run_task (T_request 0 "5") w) = relay w) /\
  (json_loads (dumps (JObj [("a", JNum 1)])) = inr (JObj [("a", JNum 1)]) /\
   _do_request 0 (dumps (JObj [("a", JNum 1)])) w = (Raise KeyError, w)).
Proof.
  intros w. split; [|split].
  - assert (Hs : dumps (JStr "REQ") <> EmptyString) by discriminate.
    assert (Hl : json_loads (dumps (JStr "REQ")) = inr (JStr "REQ"))
      by reflexivity.
    assert (Ht : py_truthy (JStr "REQ") = true) by reflexivity.
    split; [exact Hl|].
    apply (proj1 (non_array_frame 0 _ (JStr "REQ") w Hs Hl Ht)
             "R"%char "EQ"). reflexivity.
  - assert (Hs : "5" <> EmptyString) by discriminate.
    assert (Hl : json_loads "5" = inr (JNum 5)) by reflexivity.
    assert (Ht : py_truthy (JNum 5) = true) by reflexivity.
    split; [exact Hl|].
    destruct (proj2 (non_array_frame 0 "5" (JNum 5) w Hs Hl Ht))
      as (_ & H2 & H3).
    { right. left. now exists 5. }
    split; [reflexivity|]. split; [exact H2|exact H3].
  - assert (Hs : dumps (JObj [("a", JNum 1)]) <> EmptyString)
      by discriminate.
    assert (Hl : json_loads (dumps (JObj [("a", JNum 1)]))
                   = inr (JObj [("a", JNum 1)])) by reflexivity.
    assert (Ht : py_truthy (JObj [("a", JNum 1)]) = true) by reflexivity.
    split; [exact Hl|].
    destruct (proj2 (non_array_frame 0 _ (JObj [("a", JNum 1)]) w Hs Hl Ht))
      as ([H|H] & _).
    { left. now eexists. }
    + exact H.
    + discriminate H.
Defined.

(** X9, on a relay whose second handler breaks: a REQ whose id is a
    list, an EVENT whose data is a number, and a post the handler chokes
    on. *)
Lemma uncaught_request_errors_witness :
  let w := after2 [Upgrade]
             (boot (relay1 [AcceptReqHandler_default; faulty]
                      empty_store)) in
  (hashable (JArr [JStr "x"]) = false /\
   _do_request 0 (dumps req_list) w = (Raise TypeError, w)) /\
  (Event_from_JSON (JNum 7) = inl KeyError /\
   _do_request 0 (dumps post_number) w = (Raise KeyError, w)) /\
  (faulty 0%nat e1 = Some TypeError /\
   _do_request 0 (dumps (post e1)) w = (Raise TypeError, w)).
Proof.
  intros w. split; [|split].
  - assert (Hs : dumps req_list <> EmptyString) by discriminate.
    assert (Hl : json_loads (dumps req_list)
                   = inr (JArr [JStr "REQ"; JArr [JStr "x"]]))
      by reflexivity.
    assert (Hc : dict_get Nat.eqb (_ws (relay w)) 0%nat
                   = Some {| subs := []; ws := 0%nat |}) by reflexivity.
    split; [reflexivity|].
    apply (proj1 (uncaught_request_errors 0 _ w Hs)
             "REQ" (JArr [JStr "x"]) [] _ Hl (or_introl eq_refl) Hc).
    reflexivity.
  - assert (Hs : dumps post_number <> EmptyString) by discriminate.
    assert (Hl : json_loads (dumps post_number)
                   = inr (JArr [JStr "EVENT"; JNum 7])) by reflexivity.
    assert (Hj : Event_from_JSON (JNum 7) = inl KeyError) by reflexivity.
    assert (Hn : forall m, KeyError <> NostrCommandException m)
      by discriminate.
    assert (Hd : forall m, KeyError <> JSONDecodeError m) by discriminate.
    split; [exact Hj|].
    exact (proj1 (proj2 (uncaught_request_errors 0 _ w Hs)
                    (JNum 7) [] KeyError Hl Hn Hd) Hj).
  - assert (Hs : dumps (post e1) <> EmptyString) by discriminate.
    assert (Hl : json_loads (dumps (post e1))
                   = inr (JArr [JStr "EVENT"; data e1])) by reflexivity.
    assert (Hj : Event_from_JSON (data e1) = inr e1) by reflexivity.
    assert (Hv : Event_is_valid e1 = true) by reflexivity.
    assert (Hn : forall m, TypeError <> NostrCommandException m)
      by discriminate.
    assert (Hd : forall m, TypeError <> JSONDecodeError m) by discriminate.
    assert (Hhs : _accept_req (relay w)
                    = ([AcceptReqHandler_default] ++ faulty :: [])%list)
      by reflexivity.
    assert (H1 : Forall (fun h : AcceptReqHandler event => h 0%nat e1 = None)
                   [AcceptReqHandler_default]) by (repeat constructor).
    assert (Hf : faulty 0%nat e1 = Some TypeError) by reflexivity.
    split; [exact Hf|].
    exact (proj2 (proj2 (uncaught_request_errors 0 _ w Hs)
                    (data e1) [] TypeError Hl Hn Hd)
             e1 [AcceptReqHandler_default] faulty [] Hj Hv Hhs H1 Hf).
Defined.

(** X10, a subscribed client sends the frame 5, which breaks its read
    loop; later another client connects and posts e1. *)
Lemma crashed_connection_stays_witness :
  let r := relay0 3 true empty_store in
  let w := after2 [Upgrade; Arrive 0 (dumps req_x_all); Tick; Arrive 0 "5"]
             (boot r) in
  let w1 := shut 0 (del_handler 0 (snd (_do_request 0 "5" (set_ready [] w)))) in
  let w2 := after2 [Upgrade; Arrive 1 (dumps (post e1)); Tick] w1 in
  let cn := {| subs := [(JStr "x", {| sub_id_of := JStr "x";
                                      filter_of := JArr [JObj []] |})];
               ws := 0%nat |} in
  _ws r = [] /\ reachable r w /\
  ready w = [T_request 0 "5"] /\
  fst (_do_request 0 "5" (set_ready [] w)) = Raise TypeError /\
  step Tick w = Some w1 /\
  run [Upgrade; Arrive 1 (dumps (post e1)); Tick] w1 = Some w2 /\
  dict_get Nat.eqb (handlers w2) 0%nat = None /\
  dict_get Nat.eqb (_ws (relay w2)) 0%nat = Some cn /\
  In (T_send_event 0 (JStr "x") (data e1) None)
     (matching_sends e1 (_ws (relay w2))) /\
  ready w2 = [T_send_event 0 (JStr "x") (data e1) None].
Proof.
  intros r w w1 w2 cn.
  assert (Hr : _ws r = []) by reflexivity.
  assert (Hreach : reachable r w).
  { apply (reachable_run r
             [Upgrade; Arrive 0 (dumps req_x_all); Tick; Arrive 0 "5"]
             (boot r)).
    - apply reach_boot.
    - reflexivity. }
  assert (Hq : ready w = [T_request 0 "5"]) by reflexivity.
  assert (He : fst (_do_request 0 "5" (set_ready [] w)) = Raise TypeError)
    by reflexivity.
  assert (H2 : run [Upgrade; Arrive 1 (dumps (post e1)); Tick] w1 = Some w2)
    by reflexivity.
  destruct (crashed_connection_stays r w 0 "5" [] TypeError Hr Hreach Hq He)
    as (Hstep & cn' & Hcn & Hall).
  fold w1 in Hstep, Hcn, Hall.
  assert (Hcn' : dict_get Nat.eqb (_ws (relay w1)) 0%nat = Some cn)
    by reflexivity.
  rewrite Hcn' in Hcn. injection Hcn as <-.
  destruct (Hall _ w2 H2) as (Hh & Hc & Hin).
  split; [exact Hr|]. split; [exact Hreach|]. split; [exact Hq|].
  split; [exact He|]. split; [exact Hstep|]. split; [exact H2|].
  split; [exact Hh|]. split; [exact Hc|].
  split; [|reflexivity].
  apply (Hin e1 (JStr "x") {| sub_id_of := JStr "x";
                              filter_of := JArr [JObj []] |}).
  - now left.
  - reflexivity.
Defined.

(** X11, with two clients: the REQ of the first leaves the entry of the
    second as it is. *)
Lemma request_touches_own_entry_only_witness :
  let w := two_clients 3 true stocked_store in
  let w' := snd (_do_request 0 (dumps req_x_all) w) in
  subs_of 0 w = [] /\
  subs_of 0 w' = [(JStr "x", {| sub_id_of := JStr "x";
                                filter_of := JArr [JObj []] |})] /\
  dict_get Nat.eqb (_ws (relay w')) 1%nat
    = dict_get Nat.eqb (_ws (relay w)) 1%nat /\
  handlers w' = handlers w.
Proof.
  intros w w'.
  destruct (request_touches_own_entry_only 0 (dumps req_x_all) JNull [] w)
    as [(H1 & _ & _ & H4) _].
  fold w' in H1, H4.
  split; [reflexivity|]. split; [reflexivity|].
  split; [apply H1; discriminate|exact H4].
Defined.

(** X12, a client asks for everything on a relay that holds two
    events: the two EVENT frames and the EOSE are frames of the
    protocol. *)
Lemma only_protocol_frames_witness :
  let r := relay0 3 true stocked_store in
  let w := after2 (Upgrade :: Arrive 0 (dumps req_x_all) :: repeat Tick 7)
             (boot r) in
  reachable r w /\
  wire_of 0 w = [event_frame (JStr "x") (data e2);
                 event_frame (JStr "x") (data e1);
                 eose_frame (JStr "x")] /\
  let f := eose_frame (JStr "x") in
  ((exists m, f = json_dumps (JArr [JStr "NOTICE"; JStr m])) \/
   (exists sub_id evt, f = json_dumps (JArr [JStr "EVENT"; sub_id; evt])) \/
   (_enable_nip15 r = true /\
    exists sub_id, f = json_dumps (JArr [JStr "EOSE"; sub_id]))).
Proof.
  intros r w.
  assert (Hreach : reachable r w).
  { apply (reachable_run r
             (Upgrade :: Arrive 0 (dumps req_x_all) :: repeat Tick 7)
             (boot r)).
    - apply reach_boot.
    - reflexivity. }
  assert (Hw : wire_of 0 w = [event_frame (JStr "x") (data e2);
                              event_frame (JStr "x") (data e1);
                              eose_frame (JStr "x")]) by reflexivity.
  split; [exact Hreach|]. split; [exact Hw|]. intros f.
  apply (only_protocol_frames r w 0%nat f Hreach).
  rewrite Hw. right. right. now left.
Defined.

(** X13, a relay made with [max_sub=0]: the first REQ of a client is
    refused. *)
Lemma limit_of_any_sign_witness :
  let r := relay0 0 true empty_store in
  let w := after2 [Upgrade] (boot r) in
  _ws r = [] /\ reachable r w /\ _max_sub r <= 0 /\
  answered 0
    (json_dumps
       (notice "REQ new sub_id x not allowed, already at max subs=0")) w
    (_do_request 0 (dumps req_x_all) w).
Proof.
  intros r w.
  assert (Hr : _ws r = []) by reflexivity.
  assert (Hreach : reachable r w).
  { apply (reachable_run r [Upgrade] (boot r)).
    - apply reach_boot.
    - reflexivity. }
  assert (Hm : _max_sub r <= 0) by (cbn; lia).
  assert (Hs : dumps req_x_all <> EmptyString) by discriminate.
  destruct (limit_of_any_sign r w Hr Hreach) as [_ H].
  destruct (H Hm) as [_ Hreq].
  split; [exact Hr|]. split; [exact Hreach|]. split; [exact Hm|].
  apply (Hreq 0%nat {| subs := []; ws := 0%nat |} (dumps req_x_all)
           (JStr "x") [JObj []]); auto; reflexivity.
Defined.

(** X14, a client subscribes under 1; then REQ and CLOSE under
    [true]. *)
Lemma number_and_boolean_ids_collide_witness :
  let w := one_client 3 true empty_store in
  let w1 := snd (_do_request 0 (dumps req_1) w) in
  accepts 0 (JNum 1) w /\
  dict_mem key_eqb (subs_of 0 w1) (JNum 1) = true /\
  answered 0
    (json_dumps
       (notice "REQ command for sub_id that already exists - True")) w1
    (_do_request 0 (dumps req_true) w1) /\
  relay (snd (_do_request 0 (dumps close_true) w1)) = relay w /\
  wire_of 0 (snd (_do_request 0 (dumps close_true) w1))
    = [dumps (JArr [JStr "EOSE"; JNum 1]);
       dumps (notice "CLOSE command for sub_id True - success")].
Proof.
  intros w w1.
  assert (Hacc : accepts 0 (JNum 1) w).
  { unfold accepts. split; [eexists; reflexivity|].
    split; [reflexivity|]. split; [reflexivity|]. reflexivity. }
  assert (Hs1 : dumps req_1 <> EmptyString) by discriminate.
  assert (Hs2 : dumps req_true <> EmptyString) by discriminate.
  assert (Hs3 : dumps close_true <> EmptyString) by discriminate.
  assert (Hl1 : json_loads (dumps req_1)
                = inr (JArr [JStr "REQ"; JNum 1])) by reflexivity.
  assert (Hl2 : json_loads (dumps req_true)
                = inr (JArr [JStr "REQ"; JBool true])) by reflexivity.
  assert (Hl3 : json_loads (dumps close_true)
                = inr (JArr [JStr "CLOSE"; JBool true])) by reflexivity.
  destruct (number_and_boolean_ids_collide 0 1 true _ _ _ [] [] [] w
              Hs1 Hs2 Hs3 Hl1 Hl2 Hl3 Hacc eq_refl w1 eq_refl)
    as (Hdup & Hrel & _ & Hwire).
  split; [exact Hacc|]. split; [reflexivity|]. split; [exact Hdup|].
  split; [exact Hrel|].
  destruct (Hwire eq_refl) as [_ ->]. reflexivity.
Defined.

(** X15, a constructor call with a name, an empty description and a
    contact. *)
Lemma init_information_fields_witness :
  exists r,
    Relay__init__ empty_store None 3 (Some "relay") (Some EmptyString) None
      (Some "op@example.org") true = inr r /\
    _relay_information r
      = [("software", JStr "https://github.com/monty888/nostrpy");
         ("version", JStr "0.1");
         ("supported_nips", JArr [JNum 1; JNum 2; JNum 11; JNum 15]);
         ("name", JStr "relay"); ("contact", JStr "op@example.org")] /\
    dict_get String.eqb (_relay_information r) "pubkey" = None.
Proof.
  destruct (Relay__init__ empty_store None 3 (Some "relay")
              (Some EmptyString) None (Some "op@example.org") true)
    as [e|r] eqn:E; [discriminate E|].
  exists r. split; [reflexivity|].
  destruct (init_information_fields empty_store None 3 (Some "relay")
              (Some EmptyString) None (Some "op@example.org") true r E)
    as (_ & _ & _ & _ & _ & _ & _ & Hinfo & Hpk).
  split; [exact Hinfo|exact Hpk].
Defined.

(** X16, a relay that was started and then ended; and one started in the
    background at the end point "ws", which [add_routes] refuses. *)
Lemma started_never_reset_witness :
  let cls := [Call_start "localhost" 8080 "/" None None None;
              Call_end None] in
  let refused := Exception "path should be started with / or be empty" in
  let bad := Call_start_background "localhost" 8080 "ws" None
               (Some (0%nat, refused)) None in
  started Serving__init__ = false /\
  started (calls cls Serving__init__) = true /\
  started (calls [bad; Call_end_background None] Serving__init__) = true /\
  snd (call (Call_end_background None) (fst (call bad Serving__init__)))
    = Some AttributeError.
Proof.
  intros cls refused bad. split; [reflexivity|].
  split; [exact (proj1 (started_never_reset cls))|].
  split; [exact (proj1 (started_never_reset [bad; Call_end_background None]))|].
  destruct (proj2 (proj2 (proj2 (started_never_reset [])))
              "localhost" 8080 "ws" None 0%nat refused None None)
    as (_ & _ & _ & H).
  exact (f_equal snd H).
Defined.

(** X17, a relay started, ended, and started again at another address,
    where the second start fails. *)
Lemma url_of_last_start_witness :
  let cls := [Call_start "localhost" 8080 "/" None None None;
              Call_end None;
              Call_start_background "0.0.0.0" 8081 "/ws" None None
                (Some (Exception "address already in use"))] in
  url Serving__init__ = "ws://None:NoneNone" /\
  url (calls cls Serving__init__) = "ws://0.0.0.0:8081/ws" /\
  url (calls [Call_start_background "localhost" 8080 "ws" None
                (Some (0%nat, Exception "path should be started with /"))
                None] Serving__init__) = "ws://localhost:8080ws".
Proof.
  intros cls. split; [exact (url_of_last_start [])|].
  split; [exact (url_of_last_start cls)|].
  exact (url_of_last_start _).
Defined.

(** X18, on a relay that holds two events: an empty id, no id at all,
    and a well-formed id that the store does not know. *)
Lemma event_route_answers_witness :
  let r := relay0 3 true stocked_store in
  event_route_the_route r [("id", EmptyString)]
    = inr (web_Response "id field is required") /\
  event_route_the_route r []
    = inr (web_Response "id: None is not a valid event id") /\
  event_route_the_route r [("id", key64)]
    = inr (web_json_response (JObj [])).
Proof.
  intros r. split; [|split].
  - apply (proj1 (event_route_answers r [("id", EmptyString)])).
    reflexivity.
  - refine (proj1 (proj2 (event_route_answers r []) _) eq_refl).
    discriminate.
  - refine (proj2 (proj2 (event_route_answers r [("id", key64)]) _)
              eq_refl [] eq_refl).
    discriminate.
Defined.

(** X19, a limit above 100 and a negative one. *)
Lemma filter_route_limit_witness :
  let r := relay0 3 true empty_store in
  (exists rest,
     filter_route_filter [("limit", "500")]
       = inr (("limit", JNum 100) :: rest)) /\
  (exists rest,
     filter_route_filter [("limit", "-5")]
       = inr (("limit", JNum (-5)) :: rest)) /\
  filter_route_the_route r [("limit", "-5")]
    = inr (web_json_response JNull).
Proof.
  intros r. split; [|split].
  - destruct (filter_route_limit r [("limit", "500")])
      as (n & rest & Hf & _ & Hn & _).
    vm_compute in Hn. subst n. now exists rest.
  - destruct (filter_route_limit r [("limit", "-5")])
      as (n & rest & Hf & _ & Hn & _).
    vm_compute in Hn. subst n. now exists rest.
  - reflexivity.
Defined.

(** X20, a query with an empty list of authors and a list of kinds of
    which one is not a number. *)
Lemma filter_route_lists_witness :
  let query := [("authors", EmptyString); ("kinds", "1,x,2");
                ("since", "0")] in
  filter_route_filter query
    = inr [("limit", JNum 100); ("authors", JArr [JStr EmptyString]);
           ("kinds", JArr [JNum 1; JNum 2])] /\
  split "," "1,x,2" = ["1"; "x"; "2"] /\
  join "," (split "," "1,x,2") = "1,x,2".
Proof.
  intros query. split; [reflexivity|]. split; [reflexivity|].
  exact (proj1 (proj2 (filter_route_lists query) "1,x,2")).
Defined.

(** X21, no [pub_k], a [pub_k] that is no key, a key the relay holds no
    profile for, and a profile whose content is the text [junk]. *)
Lemma view_profile_errors_witness :
  let r := relay1 [AcceptReqHandler_default] (holding []) in
  let r3 := relay1 [AcceptReqHandler_default] (holding [m3]) in
  view_profile_the_route r []
    = inr (web_Response_html "pub_k field is required") /\
  view_profile_the_route r [("pub_k", "bob")]
    = inr (web_Response_html "bob - doesn't look like a valid nostr key") /\
  view_profile_the_route r [("pub_k", key64)]
    = inr (web_Response_html (key64 ++ " no meta held on relay")) /\
  Event_content m3 = "junk" /\
  view_profile_the_route r3 [("pub_k", key64)]
    = inr (web_Response_html "Expecting value: line 1 column 1 (char 0)").
Proof.
  intros r r3.
  assert (Hk : Keys_get_key key64 = inr (Some key64)) by reflexivity.
  split; [|split; [|split; [|split; [reflexivity|]]]].
  - apply (proj1 (view_profile_errors r [])). reflexivity.
  - apply (proj1 (proj2 (view_profile_errors r [("pub_k", "bob")])) "bob");
      reflexivity.
  - assert (Hf : get_filter (_store r)
                   (JObj [("authors", JArr [JStr (public_key_hex key64)]);
                          ("kinds", JArr [JNum KIND_META])]) = inr [])
      by reflexivity.
    assert (Hm : map_exn Event_from_JSON [] = inr []) by reflexivity.
    apply (proj1 (proj1 (proj2 (proj2 (view_profile_errors
                                         (pi := profile_imports) r
                                         [("pub_k", key64)])))
                    key64 key64 [] [] eq_refl Hk Hf Hm)).
    reflexivity.
  - assert (Hf : get_filter (_store r3)
                   (JObj [("authors", JArr [JStr (public_key_hex key64)]);
                          ("kinds", JArr [JNum KIND_META])]) = inr [data m3])
      by reflexivity.
    assert (Hm : map_exn Event_from_JSON [data m3] = inr [m3])
      by reflexivity.
    assert (Hl : Event_latest_events_only [m3] KIND_META = inr [m3])
      by reflexivity.
    assert (Hj : json_loads (Event_content m3)
                 = inl (JSONDecodeError
                          "Expecting value: line 1 column 1 (char 0)"))
      by reflexivity.
    exact (proj2 (proj1 (proj2 (proj2 (view_profile_errors
                                         (pi := profile_imports) r3
                                         [("pub_k", key64)])))
                    key64 key64 [data m3] [m3] eq_refl Hk Hf Hm)
             m3 [] _ Hl Hj).
Defined.

(** X22, a profile with a name and a picture, and a profile whose
    content is the number 5. *)
Lemma view_profile_page_witness :
  (let r := relay1 [AcceptReqHandler_default] (holding [m1]) in
   view_profile_the_route r [("pub_k", key64)]
     = inr (web_Response_html
              (profile_html key64 "bob" "-"
                 (picture_html "http://pics/bob.png")))) /\
  (let r := relay1 [AcceptReqHandler_default] (holding [m2]) in
   view_profile_the_route r [("pub_k", key64)] = inl (Raised TypeError)).
Proof.
  assert (Hq : dict_get String.eqb [("pub_k", key64)] "pub_k" = Some key64)
    by reflexivity.
  assert (Hk : Keys_get_key key64 = inr (Some key64)) by reflexivity.
  split.
  - intros r.
    assert (Hf : get_filter (_store r)
                   (JObj [("authors", JArr [JStr (public_key_hex key64)]);
                          ("kinds", JArr [JNum KIND_META])])
                 = inr [data m1]) by reflexivity.
    assert (Hm : map_exn Event_from_JSON [data m1] = inr [m1])
      by reflexivity.
    assert (Hl : Event_latest_events_only [m1] KIND_META = inr [m1])
      by reflexivity.
    assert (Hj : json_loads (Event_content m1) = inr profile_bob)
      by reflexivity.
    exact (proj1 (view_profile_page (pi := profile_imports) r
                    [("pub_k", key64)] key64 key64
                    [data m1] [m1] m1 [] profile_bob Hq Hk Hf Hm Hl Hj)
             _ eq_refl).
  - intros r.
    assert (Hf : get_filter (_store r)
                   (JObj [("authors", JArr [JStr (public_key_hex key64)]);
                          ("kinds", JArr [JNum KIND_META])])
                 = inr [data m2]) by reflexivity.
    assert (Hm : map_exn Event_from_JSON [data m2] = inr [m2])
      by reflexivity.
    assert (Hl : Event_latest_events_only [m2] KIND_META = inr [m2])
      by reflexivity.
    assert (Hj : json_loads (Event_content m2) = inr (JNum 5))
      by reflexivity.
    apply (proj1 (proj2 (view_profile_page (pi := profile_imports) r
                           [("pub_k", key64)] key64 key64
                           [data m2] [m2] m2 [] (JNum 5) Hq Hk Hf Hm Hl Hj))).
    right. right. now exists 5.
Defined.
End Cases.
